(* ===== verification/_CoqProject ===== *)
-Q . S2P
Prelude.v
GoStr.v
GoTime.v
GoErr.v
Tlsrpt.v
Duration.v
Utf8.v
StoreTypes.v
Fs.v
Prog.v
Io.v
AtomicFile.v
Sentinel.v
FileStore.v
Reports.v
Emails.v
Recovery.v
Reset.v
EmailsSpec.v
StoreOpen.v
StoreProps.v
DataProps.v
Confine.v
LoadSpec.v
NotifyTypes.v
Helpers.v
Format.v
FormatProps.v
Retry.v
RetryProps.v
Handler.v
HandlerProps.v
Aggregate.v
Config.v
Imap.v
ImapProps.v
Mailparse.v
Lock.v
Cmd.v
Fetch.v
Connect.v
Gc.v
RecoverCmd.v
Reprocess.v
SummaryCmd.v
Cli.v
Boot.v
Main.v
CmdSpec.v
FetchProps.v
CmdProps.v
ReprocessProps.v
CliProps.v
MainProps.v
System.v
SystemProps.v
SeenProps.v
RecoverProps.v
Guard.v
Fake.v
FakeProps.v
FakeEmails.v
FakeSpec.v
Tame.v
FakeCmds.v
Doubles.v
DoublesProps.v
Workflow.v
