(* ===== verification/Prelude.v ===== *)
(** * tlsrpt-digest: a verification library

    tlsrpt-digest reads TLSRPT reports (RFC 8460) out of a mailbox, keeps them in a local store,
    sends an alert to Slack for every report with failures and a periodic summary of the others.
    This library is a model of the program in Rocq, written definition by definition from the Go
    code, with the theorems that make it correct. Every name of the code keeps its name here.

    ** The parts of the program

    - [internal/store]: reports, an index of emails and the emails themselves, as files; a sentinel
      file that says which mailbox they belong to; a protocol that discards everything when the
      mailbox was replaced (its UIDVALIDITY changed) and survives crashes.
    - [internal/storelock]: one writer at a time, with [flock].
    - [internal/imap]: the client of the mail server. [internal/mailparse]: attachments of a
      message. [internal/tlsrpt]: the reports themselves.
    - [internal/notify]: notifications, through log records, to Slack webhooks.
    - [internal/config]: the configuration file.
    - [cmd/tlsrpt-digest]: the subcommands fetch, summary, reprocess, gc and recover, which work on
      the others through interfaces, and the start of the program: command line, configuration,
      lock, store.

    ** The files, in the order they build on each other

    Foundations.
    - Prelude: automation and lemmas on lists and numbers shared by all files.
    - GoStr, GoTime, GoErr, Utf8: what the program uses of [strings], [strconv], [fmt], [time],
      [errors] and of UTF-8 in strings. Integers wrap where Go's do.
    - Prog: programs over an interface, as trees of calls whose answers may be anything; [runs],
      [wp] and [only].

    The store ([internal/store]).
    - StoreTypes: types.go and errors.go. Fs and Io: a file system whose calls may fail or be the
      last one before the process is killed, and the monad the store is written in, trees of
      system calls. When a program runs alone each call consumes one entry of a schedule of
      faults, so that a theorem about every schedule is about every combination of errors and
      every crash point.
    - AtomicFile (atomicfile.go, permission.go), Sentinel (sentinel.go), FileStore (store.go, the
      data file of reports.go), Reports (reports.go), Emails (emails.go), Recovery (recovery.go),
      StoreOpen ([Open] of store.go): the operations, with their first lemmas.
    - Reset: the invariant of the discard-old reset. EmailsSpec: the specification of the email
      operations. StoreProps and DataProps: the theorems. Confine: where each operation writes.
      LoadSpec: what is read back of the stored emails.
    - Guard: the same programs call by call, one writer among any number of summaries that hold the
      lock of the guard file.

    Reports and messages.
    - Tlsrpt (tlsrpt.go), Mailparse (mailparse.go), Imap (imap.go, client.go) with ImapProps,
      Connect ([NewIMAPClient]).

    Notifications ([internal/notify]).
    - NotifyTypes (types.go, message.go), Helpers (helpers.go), Format (format.go), Retry
      (retry.go), Handler (handler.go, options.go, validate.go, and the sink of boot.go), Aggregate
      (aggregate.go); the theorems are in FormatProps, RetryProps, HandlerProps, and in Aggregate.

    Configuration, locks and subcommands.
    - Config ([internal/config]), Duration (duration.go), Lock (storelock.go, lock.go).
    - Cmd: the calls of a subcommand ([cmd_call]: the interfaces [store.Store], [imap.MailFetcher]
      and [NotificationSink], the environment and local files) and the helpers the subcommands
      share. Fetch, Gc, RecoverCmd, Reprocess, SummaryCmd: [Run] of each subcommand, whole.
    - Cli: the [flag] package as the program uses it, and main.go's parsing and validation. Boot:
      [Bootstrap]. Main: [runCLI], the whole program, over the calls of the bootstrap and of the
      subcommand.
    - CmdSpec: what a history of calls contains. FetchProps, CmdProps, ReprocessProps, CliProps,
      MainProps: the theorems.
    - System: the subcommands over the store; the store's calls and the reads of files are carried
      out on the file system with faults, the rest of the environment stays open. The class
      [Kept] states that a class of calls keeps a fact about the files, however they end: it is
      what the theorems of SystemProps use of the store, and what the store's lemmas establish.
      SeenProps: what fetch marks as seen is on disk.
    - RecoverProps: the whole process of the program over the file system, with [Open] for the call
      that opens the store, and runs of the recover command in it, one after the other.
    - Fake: the store in memory of testutil/mocks.go, which the tests of the subcommands run on.
      FakeProps (the relation [agrees] between it and a file system, the sentinel, the reports),
      FakeEmails (the emails) and FakeSpec (the reset, and whole executions): the file store
      implements it. Tame: rules that show the calls of a program to be those for which it does;
      FakeCmds: every subcommand is such a program.
    - Doubles: the other test doubles (imap/testutil/mocks.go, test_helpers.go of the commands,
      notify/testutil/mocks.go), and runs of a subcommand on all of them, in memory. DoublesProps:
      what such a run does happens on files too.
    - Workflow: the check of the CI workflow (.github/scripts/verify-integration-workflow.go) and
      what it accepts.

    ** What the theorems show

    - The reset converges and loses nothing it was not told to discard: whatever runs of the program
      with [recover --mode discard-old --yes] fail or die, the next one that is left alone ends
      with an empty store that opens again ([recover_converges]); and the operations of the store:
      [reset_never_loses_data], [pending_reset_blocks_open], [cleanup_removes_only_leftovers],
      [ApplyRecovery_atomic], with [Inv] of Reset as the invariant.
    - Summaries and writers at the same time: while a summary has the guard, the recovery state does
      not change ([guard_freezes_recovery]).
    - The store does what it says, under all faults: [atomicWriteFile_all_or_nothing], the reports
      as a map from ids ([SaveReports_refines_map], [SaveReports_GetAllReports],
      [DeleteReportsBefore_exact]), the emails ([LoadEmails_complete], [SaveEmail_LoadEmails],
      [SaveEmail_whole_or_nothing],
      [SaveEmailMetas_first_wins], [DeleteEmailsBefore_safe], [DeleteEmailsBefore_exact],
      [email_path_roundtrip]), and a read-only store never writes.
    - The store means what the store in memory means: in an execution without faults every answer
      of the file store is the one the store in memory gives, up to the order of the reports and
      emails that are loaded and the error that reports emails it cannot load, and the files stay in agreement with
      it, for every program whose calls are admitted ([file_store_implements_memory]), and so for every
      subcommand that was parsed from a command line ([subcommand_in_memory]). The two stores differ in
      emails that are saved and not indexed yet: the store in memory deletes and dates them as if
      they were, so only fetch, which indexes them, is allowed to start with such emails. Of the
      mail server it is asked that it keeps the dates of its messages ([kept_dates]), of the JSON
      decoder that the years of a report lie between 0 and 9999 in UTC.
    - What a test in memory shows holds on disk: the same history and the same result, for fetch,
      gc and recover ([memory_run_on_disk]).
    - The subcommands, for all answers of their environment: a message is marked as seen only when
      its text, as the server gave it, is stored, its reports are saved and its alerts delivered
      ([fetch_at_least_once]); a replaced mailbox stops the run before any download
      ([fetch_uidvalidity_changed]); reprocess saves the reports of
      every message that loads and sees in each what fetch saw ([reprocess_saves_all],
      [reprocess_same_as_fetch]); what gc, recover and summary do, and when, with the limits of gc
      and the period of a summary in days before the midnight of the run ([gc_deletes_in_order],
      [summary_sends_period], [recover_acts_only_when_asked]).
    - Subcommands and store together, at every point of every run and after every crash: a message
      that was marked as seen has the text the server sent and the reports in it on disk
      ([seen_messages_on_disk]); a
      successful reprocess has rebuilt the reports in the store ([reprocess_rebuilds]), from the stored
      emails alone if the data file was lost ([reprocess_recovers]); a run that
      is read-only leaves every file as it was ([read_only_leaves_disk]).
    - The program as a whole: changes, and the opening of the store for writing, only under the
      writer lock, which is released in the end
      ([mutations_under_lock], with [lock_mutual_exclusion]); dry runs and summaries make no call
      that changes data, and summaries acquire nothing but the guard of the store
      ([read_only_changes_nothing]); accepted command lines and configurations are well formed.
    - Notifications: what is sent is within Slack's limits ([sent_messages_within_limits]); it shows
      what was logged, every alert with its summary, its id and its details, of which the ten with
      the most failed sessions are kept ([formatAlerts_complete], [formatRecords_of_logged]); it is
      routed to the right webhook and delivered with a bounded number of requests and a bounded
      wait. [slices.SortFunc] is any function that sorts by the comparison it is given ([Sorts]).
    - The CI workflow: it is accepted exactly if its three jobs are as required ([main_accepts]).
    - The server: messages of others are never expunged, only messages of days before the cutoff
      are deleted ([DeleteOlderThan_only_old]), the configured credentials go only over TLS, after
      the connection was dialled, and a client is returned exactly when they were accepted
      ([NewIMAPClient_secure]).

    A theorem with hypotheses has a witness, a closed instance of it, named after it.

    ** Outside the model

    - Libraries: JSON, gzip, TOML, MIME and mail parsing, URLs, certificates, HTTP, the IMAP
      library, [time.Now] and ULIDs are arguments of the definitions that use them, or calls with
      any answer.
    - JSON files: a file holds the record it was written from, or bytes no record decodes from.
    - A crash ends the process between two system calls; loss of what the operating system had
      not yet written to disk is not modelled, nor are other processes that change the files
      of a store while its lock is held. In Guard a summary finds the guard file, which opening
      the store for writing has created, and the directory of the store; the clock stands still
      during one operation of the store. A summary that finds no directory gets no lock
      ([noopSummaryConsistencyGuard]) and nothing is claimed for it.
    - In RecoverProps the checks of the root directory and the lock of the writers are answers of
      the environment; the lock file is not a file of the store, and what creating the directory
      changes is left to [Open], which creates it too.
    - Log output, usage texts, and panics of the libraries.
    - The helpers of the tests that need a live mail server, swap the default logger or set the
      hooks of the notifier (imap/testutil/helpers.go, store/test_helpers.go,
      notify/test_helpers.go); shell scripts and the build.

    ** Fuel

    Most recursion is structural. The walk over the parts of a message has the depth that is left
    until [maxMultipartDepth] as its fuel ([extractParts_enough]); the walk over the emails
    directory the number of levels of the tree; the grouping of alerts and organizations into
    attachments the number of those left ([alert_attachments_fields],
    [summary_attachments_fields]); the loop over attempts to send the number of retries the code
    allows ([postWithRetry_bounded]); a number in decimal its logarithm ([parse_fmt_u]). In each case
    the lemma named shows that the result is complete. *)
From stdpp Require Export base tactics list strings gmap sorting option numbers.
From Stdlib Require Export ZArith Lia Ascii.

#[export] Set Default Goal Selector "!".

#[export] Set Warnings "-notation-overridden".

(** Numbers are unbounded integers unless a definition wraps them. *)
Open Scope Z_scope.

(** ** Automation *)

Create HintDb go.
Create Rewrite HintDb go.

(** Split every boolean comparison of the context into the inequality it decides. *)
Ltac zbool :=
  repeat match goal with
  | H : (_ && _) = true |- _ => apply andb_true_iff in H as [??]
  | H : (_ || _) = false |- _ => apply orb_false_iff in H as [??]
  | H : negb _ = true |- _ => apply negb_true_iff in H
  | H : negb _ = false |- _ => apply negb_false_iff in H
  | H : (_ <? _) = true |- _ => apply Z.ltb_lt in H
  | H : (_ <? _) = false |- _ => apply Z.ltb_ge in H
  | H : (_ <=? _) = true |- _ => apply Z.leb_le in H
  | H : (_ <=? _) = false |- _ => apply Z.leb_gt in H
  | H : (_ >? _) = _ |- _ => rewrite Z.gtb_ltb in H
  | H : (_ >=? _) = _ |- _ => rewrite Z.geb_leb in H
  | H : (_ =? _) = true |- _ => apply Z.eqb_eq in H
  | H : (_ =? _) = false |- _ => apply Z.eqb_neq in H
  end.

(** Case analysis on whatever the goal matches on, simplifying on the way. *)
Ltac cases := repeat (case_match; simplify_eq/= ); try done.

(** ** Machine integers *)

(** Go's [int64] (and [int] on the 64-bit targets the program builds for): two's complement
    wrap-around of an unbounded integer. *)
Definition wrap64 (z : Z) : Z := (z + 2 ^ 63) mod 2 ^ 64 - 2 ^ 63.

Definition in_int64 (z : Z) : Prop := - 2 ^ 63 <= z < 2 ^ 63.

Definition in_uint32 (z : Z) : Prop := 0 <= z < 2 ^ 32.

Lemma wrap64_id z : in_int64 z -> wrap64 z = z.
Proof. unfold in_int64, wrap64. intros. rewrite Z.mod_small; lia. Qed.

Lemma wrap64_range z : in_int64 (wrap64 z).
Proof.
  unfold in_int64, wrap64. pose proof (Z.mod_pos_bound (z + 2 ^ 63) (2 ^ 64)). lia.
Qed.

Lemma wrap64_add z k : wrap64 (z + k * 2 ^ 64) = wrap64 z.
Proof.
  unfold wrap64. replace (z + k * 2 ^ 64 + 2 ^ 63) with (z + 2 ^ 63 + k * 2 ^ 64) by lia.
  by rewrite Z.mod_add.
Qed.

(** Sums, and the sums of a loop that wraps around at every step. *)
Definition sumZ (l : list Z) : Z := foldr Z.add 0 l.

Lemma wrap64_add_l a b : wrap64 (wrap64 a + b) = wrap64 (a + b).
Proof.
  unfold wrap64 at 2. pose proof (Z.div_mod (a + 2 ^ 63) (2 ^ 64) ltac:(lia)) as H.
  replace ((a + 2 ^ 63) mod 2 ^ 64 - 2 ^ 63 + b)
    with (a + b + - ((a + 2 ^ 63) / 2 ^ 64) * 2 ^ 64) by lia.
  apply wrap64_add.
Qed.

Lemma wrap64_add_r a b : wrap64 (a + wrap64 b) = wrap64 (a + b).
Proof. rewrite Z.add_comm, wrap64_add_l. f_equal. lia. Qed.

Lemma foldl_wrap {A} (f : A -> Z) l z :
  foldl (fun t x => wrap64 (t + f x)) (wrap64 z) l = wrap64 (z + sumZ (map f l)).
Proof.
  revert z. induction l as [|x l IH]; intros z; simpl; [f_equal; lia|].
  rewrite wrap64_add_l, IH. f_equal. lia.
Qed.

(** ** Counting loops over lists *)

Section lists.
Context {A B : Type}.

(** The number of elements a Go loop [if p(x) { n++ }] counts. *)
Definition count_if (p : A -> bool) (l : list A) : Z :=
  Z.of_nat (length (List.filter p l)).

Lemma count_if_nonneg p l : 0 <= count_if p l.
Proof. unfold count_if. lia. Qed.

Lemma count_if_cons p x l : count_if p (x :: l) = (if p x then 1 else 0) + count_if p l.
Proof. unfold count_if. simpl. destruct (p x); simpl; lia. Qed.

Lemma count_if_zero p l : count_if p l = 0 <-> List.filter p l = [].
Proof. unfold count_if. destruct (List.filter p l); simpl; split; try done; lia. Qed.

(** An accumulating loop commutes with the accumulator it starts from. *)
Lemma foldl_snoc_filter (p : A -> bool) (l acc : list A) :
  foldl (fun r x => if p x then r ++ [x] else r) acc l = acc ++ List.filter p l.
Proof.
  revert acc. induction l as [|x l IH]; intros acc; simpl; [by rewrite app_nil_r|].
  rewrite IH. destruct (p x); [|done]. by rewrite <- app_assoc.
Qed.

Lemma foldl_count (p : A -> bool) (l : list A) (n : Z) :
  foldl (fun k x => if p x then k + 1 else k) n l = n + count_if p l.
Proof.
  revert n. induction l as [|x l IH]; intros n; simpl; [unfold count_if; simpl; lia|].
  rewrite IH, count_if_cons. destruct (p x); lia.
Qed.

Lemma filter_filter_negb (p : A -> bool) (l : list A) :
  List.filter p (List.filter (fun x => negb (p x)) l) = [].
Proof. induction l as [|x l IH]; simpl; [done|]. destruct (p x) eqn:E; simpl; [done|]. by rewrite E. Qed.

Lemma filter_all (p : A -> bool) (l : list A) :
  (forall x, In x l -> p x = true) -> List.filter p l = l.
Proof.
  induction l as [|x l IH]; intros H; simpl; [done|].
  rewrite H by (by left). f_equal. apply IH. intros. apply H. by right.
Qed.

Lemma filter_none (p : A -> bool) (l : list A) :
  (forall x, In x l -> p x = false) -> List.filter p l = [].
Proof.
  induction l as [|x l IH]; intros H; simpl; [done|].
  rewrite H by (by left). apply IH. intros. apply H. by right.
Qed.
End lists.

#[export] Hint Resolve count_if_nonneg : go.
