(* ===== verification/GoStr.v ===== *)
(** * Byte strings and decimal numbers

    The part of Go's [strings], [strconv] and [fmt] that the program uses on byte strings: the
    [%d] and [%0Nd] verbs, [strconv.ParseUint(s, 10, 32)], [strconv.Atoi], prefix, suffix and
    substring tests, and [strings.Join] with a separator. A Go string is a Rocq [string], one
    [ascii] per byte. *)
From S2P Require Import Prelude.

(** ** Decimal digits *)

(** The decimal digit of [0 <= d < 10]. *)
Definition digit (d : Z) : ascii := ascii_of_N (Z.to_N (48 + d)).

(** The value of a decimal digit, [None] on any other byte. *)
Definition digit_val (c : ascii) : option Z :=
  let n := Z.of_N (N_of_ascii c) in
  if (48 <=? n) && (n <=? 57) then Some (n - 48) else None.

Definition is_digit (c : ascii) : bool :=
  match digit_val c with Some _ => true | None => false end.

(** Digits of [n] in front of [acc], most significant first. [fuel] bounds the digit count. *)
Fixpoint digits (fuel : nat) (n : Z) (acc : string) : string :=
  match fuel with
  | O => acc
  | S f =>
      let acc' := String (digit (n mod 10)) acc in
      if n <? 10 then acc' else digits f (n / 10) acc'
  end.

(** [fmt.Sprintf("%d", n)] for [n >= 0]: [Z.log2 n + 1] binary digits bound the decimal ones. *)
Definition fmt_u (n : Z) : string := digits (S (Z.to_nat (Z.log2 n))) n "".

(** [fmt.Sprintf("%d", n)]. *)
Definition fmt_d (n : Z) : string :=
  if n <? 0 then String.append "-" (fmt_u (- n)) else fmt_u n.

Fixpoint zeros (n : nat) : string :=
  match n with O => "" | S n' => String "0" (zeros n') end.

(** Left-pad with zeros to width [w], as [%0wd] does for a non-negative number. *)
Definition pad_zeros (w : nat) (s : string) : string :=
  String.append (zeros (w - String.length s)) s.

(** Read decimal digits into an accumulator; [None] on a byte that is not a digit. *)
Fixpoint parse_digits (s : string) (acc : Z) : option Z :=
  match s with
  | EmptyString => Some acc
  | String c s' => v ← digit_val c; parse_digits s' (acc * 10 + v)
  end.

(** [strconv.ParseUint(s, 10, 32)]: an empty string, a byte that is not a digit and a value
    above [2^32-1] are errors. *)
Definition ParseUint32 (s : string) : option Z :=
  match s with
  | EmptyString => None
  | _ =>
      v ← parse_digits s 0;
      if v <? 2 ^ 32 then Some v else None
  end.

(** [strconv.Atoi] on a 64-bit target: an optional sign, at least one digit, a value in range. *)
Definition Atoi (s : string) : option Z :=
  let '(neg, body) :=
    match s with
    | String "-" s' => (true, s')
    | String "+" s' => (false, s')
    | _ => (false, s)
    end in
  match body with
  | EmptyString => None
  | _ =>
      v ← parse_digits body 0;
      if neg then if v <=? 2 ^ 63 then Some (- v) else None
      else if v <? 2 ^ 63 then Some v else None
  end.

(** ** Substrings *)

Fixpoint strip_prefix (p s : string) : option string :=
  match p, s with
  | EmptyString, _ => Some s
  | String a p', String b s' => if Ascii.eqb a b then strip_prefix p' s' else None
  | _, _ => None
  end.

(** [strings.HasPrefix]. *)
Definition HasPrefix (s p : string) : bool :=
  match strip_prefix p s with Some _ => true | None => false end.

(** [strings.Contains]. *)
Fixpoint Contains (s sub : string) : bool :=
  HasPrefix s sub || match s with EmptyString => false | String _ s' => Contains s' sub end.

(** [strings.TrimSuffix]: the first position from which exactly the suffix is left is cut off. *)
Fixpoint TrimSuffix (s suf : string) : string :=
  if String.eqb s suf then EmptyString
  else match s with EmptyString => EmptyString | String c s' => String c (TrimSuffix s' suf) end.

(** [strings.HasSuffix]. *)
Fixpoint HasSuffix (s suf : string) : bool :=
  String.eqb s suf || match s with EmptyString => false | String _ s' => HasSuffix s' suf end.

(** [strings.Join(ss, sep)]. *)
Fixpoint Join (sep : string) (ss : list string) : string :=
  match ss with
  | [] => ""
  | [s] => s
  | s :: ss' => String.append s (String.append sep (Join sep ss'))
  end.

(** [filepath.Ext] of a file name without separators: from its last dot on. *)
Fixpoint Ext (s : string) : string :=
  match s with
  | EmptyString => ""
  | String c s' =>
      match Ext s' with
      | EmptyString => if Ascii.eqb c "." then s else ""
      | e => e
      end
  end.

(** Byte-wise lexicographic order, Go's [<=] on strings. *)
Fixpoint str_leb (a b : string) : bool :=
  match a, b with
  | EmptyString, _ => true
  | String _ _, EmptyString => false
  | String x a', String y b' =>
      let nx := N_of_ascii x in
      let ny := N_of_ascii y in
      if (nx <? ny)%N then true
      else if (nx =? ny)%N then str_leb a' b' else false
  end.

(** The [%q] verb: quotes, backslashes and the control characters of ASCII are escaped; bytes
    from 128 on are taken to belong to printable characters, which stay. *)
Definition dquote : string := String "034" "".

Definition hex_digit (n : N) : ascii :=
  if (n <? 10)%N then ascii_of_N (48 + n) else ascii_of_N (87 + n).

Definition quote_char (c : ascii) : string :=
  let n := N_of_ascii c in
  let esc (l : ascii) : string := String "\" (String l "") in
  if (n =? 34)%N || (n =? 92)%N then esc c
  else if (n =? 7)%N then esc "a"%char
  else if (n =? 8)%N then esc "b"%char
  else if (n =? 12)%N then esc "f"%char
  else if (n =? 10)%N then esc "n"%char
  else if (n =? 13)%N then esc "r"%char
  else if (n =? 9)%N then esc "t"%char
  else if (n =? 11)%N then esc "v"%char
  else if (n <? 32)%N || (n =? 127)%N
  then String "\" (String "x" (String (hex_digit (n / 16)) (String (hex_digit (n mod 16)) "")))
  else String c "".

Fixpoint quote_chars (s : string) : string :=
  match s with
  | EmptyString => ""
  | String c s' => String.append (quote_char c) (quote_chars s')
  end.

Definition fmt_q (s : string) : string := Join "" [dquote; quote_chars s; dquote].

(** [%q] of a byte: the character of that number in single quotes. A double quote stays, a single
    quote is escaped; from 128 on a printable character is written in UTF-8, another by its number. *)
Definition fmt_qc (c : ascii) : string :=
  let n := N_of_ascii c in
  let body :=
    if (n =? 39)%N then String "\" (String c "")
    else if (n =? 34)%N then String c ""
    else if (n <? 128)%N then quote_char c
    else if (n <? 161)%N || (n =? 173)%N
    then String.append "\u00" (String (hex_digit (n / 16)) (String (hex_digit (n mod 16)) ""))
    else String (ascii_of_N (192 + n / 64)) (String (ascii_of_N (128 + n mod 64)) "")
  in Join "" ["'"; body; "'"].

(** [s[:len(s)-1]] and [s[len(s)-1]] of a non-empty string. *)
Fixpoint unsnoc (s : string) : option (string * ascii) :=
  match s with
  | EmptyString => None
  | String c s' =>
      match unsnoc s' with
      | None => Some (EmptyString, c)
      | Some (i, l) => Some (String c i, l)
      end
  end.

(** ** Round trips *)

Lemma digit_val_digit d : 0 <= d < 10 -> digit_val (digit d) = Some d.
Proof.
  intros H. unfold digit, digit_val.
  rewrite N_ascii_embedding by lia. rewrite Z2N.id by lia.
  rewrite (proj2 (Z.leb_le _ _)), (proj2 (Z.leb_le _ _)) by lia. simpl. f_equal. lia.
Qed.

Lemma parse_digits_digits f n acc :
  0 <= n < 10 ^ Z.of_nat f -> parse_digits (digits f n acc) 0 = parse_digits acc n.
Proof.
  revert n acc. induction f as [|f IH]; intros n acc [Hn Hlt]; [simpl in *; replace n with 0 by lia; done|].
  cbn [digits]. pose proof (Z.mod_pos_bound n 10 ltac:(lia)) as Hm.
  pose proof (Z.div_mod n 10 ltac:(lia)) as Hdm.
  case_match; zbool.
  - cbn. rewrite digit_val_digit by done. cbn. f_equal. rewrite Z.mod_small; lia.
  - rewrite IH.
    + cbn. rewrite digit_val_digit by done. cbn. f_equal. lia.
    + rewrite Nat2Z.inj_succ, Z.pow_succ_r in Hlt by lia. split; [apply Z.div_pos; lia|].
      apply Z.div_lt_upper_bound; lia.
Qed.

Lemma digits_fuel n : 0 <= n -> n < 10 ^ Z.of_nat (S (Z.to_nat (Z.log2 n))).
Proof.
  intros Hn. rewrite Nat2Z.inj_succ, Z2Nat.id by apply Z.log2_nonneg.
  destruct (decide (n = 0)) as [->|]; [vm_compute; done|].
  pose proof (Z.log2_spec n ltac:(lia)) as [_ H].
  eapply Z.lt_le_trans; [exact H|].
  apply Z.pow_le_mono_l. lia.
Qed.

Lemma parse_fmt_u n : 0 <= n -> parse_digits (fmt_u n) 0 = Some n.
Proof.
  intros Hn. unfold fmt_u. rewrite parse_digits_digits; [done|].
  split; [done|]. by apply digits_fuel.
Qed.

Lemma parse_zeros k s : parse_digits (String.append (zeros k) s) 0 = parse_digits s 0.
Proof. induction k; simpl; [done|]. done. Qed.

Lemma digits_nonempty f n acc : acc <> "" \/ f <> O -> digits f n acc <> "".
Proof.
  revert n acc. induction f as [|f IH]; intros n acc Hacc; simpl; [by destruct Hacc|].
  destruct (n <? 10); [done|]. apply IH. by left.
Qed.

(** Decimal text starts with a digit. *)
Lemma digits_head f n acc :
  f <> O ->
  match digits f n acc with String c _ => Ascii.eqb c "." = false | EmptyString => True end.
Proof.
  revert n acc. induction f as [|f IH]; intros n acc Hf; [done|]. cbn [digits].
  assert (forall d, Ascii.eqb (digit (d mod 10)) "." = false) as Hd.
  { intros d. pose proof (Z.mod_pos_bound d 10 ltac:(lia)) as Hm.
    apply Ascii.eqb_neq. intros H. pose proof (digit_val_digit (d mod 10) Hm) as Hv.
    rewrite H in Hv. done. }
  destruct (n <? 10); [apply Hd|].
  destruct f as [|f]; [cbn [digits]; apply Hd|]. by apply IH.
Qed.

Lemma fmt_u_nonempty n : fmt_u n <> "".
Proof. unfold fmt_u. apply digits_nonempty. by right. Qed.

Lemma append_nonempty_r a b : b <> "" -> String.append a b <> "".
Proof. destruct a; simpl; [done|]. intros _. done. Qed.

Lemma ParseUint32_nonempty s : s <> "" ->
  ParseUint32 s = (v ← parse_digits s 0; if v <? 2 ^ 32 then Some v else None).
Proof. destruct s; [done|]. done. Qed.

Lemma fmt_d_nonneg n : 0 <= n -> fmt_d n = fmt_u n.
Proof. intros H. unfold fmt_d. by rewrite (proj2 (Z.ltb_ge _ _)). Qed.

(** [strconv.ParseUint] reads back what [%d] printed. *)
Lemma ParseUint32_fmt_d n : in_uint32 n -> ParseUint32 (fmt_d n) = Some n.
Proof.
  intros [H1 H2]. rewrite fmt_d_nonneg by done.
  rewrite ParseUint32_nonempty by apply fmt_u_nonempty.
  rewrite parse_fmt_u by lia. cbn. by rewrite (proj2 (Z.ltb_lt _ _)).
Qed.

(** ... and what [%010d], or any other zero padding, printed. *)
Lemma ParseUint32_padded w n : in_uint32 n -> ParseUint32 (pad_zeros w (fmt_d n)) = Some n.
Proof.
  intros [H1 H2]. rewrite fmt_d_nonneg by done. unfold pad_zeros.
  rewrite ParseUint32_nonempty by apply append_nonempty_r, fmt_u_nonempty.
  rewrite parse_zeros, parse_fmt_u by lia. cbn. by rewrite (proj2 (Z.ltb_lt _ _)).
Qed.

Lemma parse_digits_first c s v : parse_digits (String c s) 0 = Some v -> is_digit c = true.
Proof. unfold is_digit. cbn. by destruct (digit_val c). Qed.

(** [strconv.Atoi] reads back a printed non-negative number. *)
Lemma Atoi_fmt_u n : 0 <= n < 2 ^ 63 -> Atoi (fmt_u n) = Some n.
Proof.
  intros [H1 H2]. pose proof (parse_fmt_u n H1) as Hp.
  pose proof (fmt_u_nonempty n) as Hne.
  destruct (fmt_u n) as [|c s] eqn:E; [done|].
  pose proof (parse_digits_first _ _ _ Hp) as Hc.
  unfold Atoi.
  assert (Hs : (match String c s with
                | String "-" s' => (true, s')
                | String "+" s' => (false, s')
                | _ => (false, String c s)
                end) = (false, String c s)).
  { destruct c as [[] [] [] [] [] [] [] []]; vm_compute in Hc; done. }
  rewrite Hs, Hp. cbn. by rewrite (proj2 (Z.ltb_lt _ _)).
Qed.

Lemma str_leb_refl a : str_leb a a = true.
Proof. induction a as [|c a IH]; simpl; [done|]. by rewrite N.ltb_irrefl, N.eqb_refl. Qed.

Lemma str_leb_total a b : str_leb a b = true \/ str_leb b a = true.
Proof.
  revert b. induction a as [|c a IH]; intros [|d b]; simpl; auto.
  destruct (N.ltb_spec (N_of_ascii c) (N_of_ascii d)); [by left|].
  destruct (N.ltb_spec (N_of_ascii d) (N_of_ascii c)); [by right|].
  replace (N_of_ascii d) with (N_of_ascii c) by lia. rewrite N.eqb_refl. apply IH.
Qed.

Lemma append_length a b :
  String.length (String.append a b) = (String.length a + String.length b)%nat.
Proof. induction a as [|c a IH]; simpl; [done|]. by rewrite IH. Qed.

Lemma TrimSuffix_append s suf : TrimSuffix (String.append s suf) suf = s.
Proof.
  induction s as [|c s IH]; [destruct suf; simpl; [done|]; by rewrite Ascii.eqb_refl, String.eqb_refl|].
  change (String.append (String c s) suf) with (String c (String.append s suf)).
  cbn [TrimSuffix]. destruct (String.eqb (String c (String.append s suf)) suf) eqn:E; [|by rewrite IH].
  exfalso. apply String.eqb_eq in E. apply (f_equal String.length) in E.
  simpl in E. rewrite append_length in E. lia.
Qed.

Lemma unsnoc_none s : unsnoc s = None <-> s = "".
Proof. destruct s as [|c s]; simpl; [done|]. destruct (unsnoc s) as [[]|]; done. Qed.

Lemma unsnoc_spec s i c :
  unsnoc s = Some (i, c) <-> s = String.append i (String c EmptyString).
Proof.
  revert i c. induction s as [|d s IH]; intros i c; simpl.
  - split; [done|]. by destruct i.
  - destruct (unsnoc s) as [[j e]|] eqn:E.
    + destruct (IH j e) as [H _]. specialize (H eq_refl). subst s. split.
      * by intros [= <- <-].
      * destruct i as [|x i]; simpl; intros [= -> H]; [by destruct j|].
        destruct (IH i c) as [_ H']. by rewrite H in H'; injection (H' eq_refl) as -> ->.
    + apply unsnoc_none in E as ->. split; [by intros [= <- <-]|].
      destruct i as [|x i]; simpl; intros [=]; subst; [done|]. by destruct i.
Qed.

#[export] Hint Rewrite TrimSuffix_append : go.
#[export] Hint Resolve fmt_u_nonempty append_nonempty_r : go.
