(* ===== verification/GoTime.v ===== *)
(** * Instants and calendar dates

    Go's [time.Time] as the program uses it. A [Time] is the number of nanoseconds since
    January 1, year 1, 00:00:00 UTC, the epoch Go counts from, so the zero [time.Time] is [0].
    Every calendar operation of the program is done in UTC: [time.Date(..., time.UTC)],
    [t.UTC().Format(...)], [AddDate] on a UTC time.

    Seconds are an [int64] inside [time.Time]: [Date] and [AddDate] compute them with wrap-around,
    which [date_add_days] keeps. *)
From S2P Require Import Prelude GoStr.

Abbreviation Time := Z (only parsing).

(** The zero [time.Time], and [t.IsZero()]. *)
Definition zeroTime : Time := 0.
Definition IsZero (t : Time) : bool := t =? 0.

(** [t.Before(u)]: a strict comparison of instants. *)
Definition Before (t u : Time) : bool := t <? u.

Definition ns_per_sec : Z := 1000000000.
Definition sec_per_day : Z := 86400.
Definition ns_per_day : Z := sec_per_day * ns_per_sec.

(** Days from January 1, year 1 to January 1, 1970. *)
Definition unix_epoch_day : Z := 719162.
Definition unix_to_internal : Z := unix_epoch_day * sec_per_day.

(** The UTC day an instant falls on, counted from January 1, year 1. *)
Definition day_of (t : Time) : Z := t / ns_per_day.

(** ** Proleptic Gregorian calendar *)

(** Month and day of a day of a year that starts on March 1, by the 153-day cycle of five months. *)
Definition month_day_of_doy (doy : Z) : Z * Z :=
  let mp := (5 * doy + 2) / 153 in
  ((if mp <? 10 then mp + 3 else mp - 9), doy - (153 * mp + 2) / 5 + 1).

(** The date of a day of a 400-year era that starts on March 1, year 0: centuries of 36524 days
    (the last is a day longer), then four-year cycles, then years of 365 days (the last of a
    cycle is a day longer). *)
Definition civil_of_era_day (doe : Z) : Z * Z * Z :=
  let c := Z.min (doe / 36524) 3 in
  let r := doe - c * 36524 in
  let q := r / 1461 in
  let r' := r mod 1461 in
  let y1 := Z.min (r' / 365) 3 in
  let '(m, d) := month_day_of_doy (r' - y1 * 365) in
  let yoe := 100 * c + 4 * q + y1 in
  ((if m <=? 2 then yoe + 1 else yoe), m, d).

Definition civil_of_days (n : Z) : Z * Z * Z :=
  let z := n + 306 in
  let '(y, m, d) := civil_of_era_day (z mod 146097) in
  (y + 400 * (z / 146097), m, d).

(** The day number of a date within an era, and of a date. *)
Definition doy_of_month_day (m d : Z) : Z :=
  (153 * (m + (if m >? 2 then -3 else 9)) + 2) / 5 + d - 1.

Definition era_day_of_civil (yoe m d : Z) : Z :=
  yoe * 365 + yoe / 4 - yoe / 100 + doy_of_month_day m d.

Definition days_of_civil (y m d : Z) : Z :=
  let y' := if m <=? 2 then y - 1 else y in
  (y' / 400) * 146097 + era_day_of_civil (y' mod 400) m d - 306.

(** [t.Year()], [t.Month()], [t.Day()] in UTC. *)
Definition year_of (t : Time) : Z := (civil_of_days (day_of t)).1.1.
Definition month_of (t : Time) : Z := (civil_of_days (day_of t)).1.2.
Definition mday_of (t : Time) : Z := (civil_of_days (day_of t)).2.

(** [time.Date(y, m, d, 0, 0, 0, 0, time.UTC)] for a day number: Unix seconds are computed in
    [int64] and shifted to the internal epoch, again in [int64]. *)
Definition midnight_of_day (day : Z) : Time :=
  wrap64 (wrap64 ((day - unix_epoch_day) * sec_per_day) + unix_to_internal) * ns_per_sec.

(** [t.AddDate(0, 0, n)] for a [t] at midnight UTC. *)
Definition date_add_days (t : Time) (n : Z) : Time := midnight_of_day (day_of t + n).

(** ** Formats *)

(** A number padded to [w] digits; Go's [appendInt] puts the sign in front of the digits. *)
Definition append_int (w : nat) (n : Z) : string :=
  if n <? 0 then String.append "-" (pad_zeros w (fmt_u (- n))) else pad_zeros w (fmt_u n).

(** [t.UTC().Format("200601")]. *)
Definition format_yyyymm (t : Time) : string :=
  String.append (append_int 4 (year_of t)) (append_int 2 (month_of t)).

(** [t.UTC().Format(time.DateOnly)]. *)
Definition format_date_only (t : Time) : string :=
  Join "-" [append_int 4 (year_of t); append_int 2 (month_of t); append_int 2 (mday_of t)].

(** [time.Parse("200601", s)]: four digits of a year, two of a month between 1 and 12, and
    nothing else; the day is the first of the month. *)
Definition parse_yyyymm (s : string) : option Time :=
  match s with
  | String c1 (String c2 (String c3 (String c4 (String c5 (String c6 EmptyString))))) =>
      y ← parse_digits (String c1 (String c2 (String c3 (String c4 "")))) 0;
      m ← parse_digits (String c5 (String c6 "")) 0;
      if (1 <=? m) && (m <=? 12) then Some (midnight_of_day (days_of_civil y m 1)) else None
  | _ => None
  end.

(** A time has a JSON form when its year is between 0 and 9999 ([MarshalJSON] fails on any
    other, and no JSON text decodes to one). *)
Definition json_time_ok (t : Time) : bool := (0 <=? year_of t) && (year_of t <=? 9999).

(** ** The calendar functions are inverse to each other *)

(** The days of a year and its months, checked by evaluation. *)
Definition doy_ok (doy : Z) : bool :=
  let '(m, d) := month_day_of_doy doy in
  (doy_of_month_day m d =? doy) && (1 <=? m) && (m <=? 12) && (1 <=? d) && (d <=? 31).

Definition month_ok (m : Z) : bool :=
  let doy := doy_of_month_day m 1 in
  let '(m', d) := month_day_of_doy doy in
  (m' =? m) && (d =? 1) && (0 <=? doy) && (doy <=? 337).

Fixpoint forall_below (n : nat) (p : Z -> bool) (i : Z) : bool :=
  match n with O => true | S n' => p i && forall_below n' p (i + 1) end.

Lemma forall_below_spec n p i j :
  forall_below n p i = true -> i <= j < i + Z.of_nat n -> p j = true.
Proof.
  revert i. induction n as [|n IH]; intros i H Hj; [lia|].
  cbn [forall_below] in H. zbool. destruct (decide (i = j)) as [->|]; [done|].
  apply (IH (i + 1)); [done|lia].
Qed.

Lemma doys_ok doy : 0 <= doy < 366 -> doy_ok doy = true.
Proof.
  intros H. apply (forall_below_spec 366 doy_ok 0); [|lia]. vm_compute. reflexivity.
Qed.

Lemma months_ok m : 1 <= m <= 12 -> month_ok m = true.
Proof.
  intros H. apply (forall_below_spec 12 month_ok 1); [|lia]. vm_compute. reflexivity.
Qed.

(** Bounds of the quotient and remainder of a division by a positive constant. *)
Lemma div_mod_spec a b : 0 < b -> a = b * (a / b) + a mod b /\ 0 <= a mod b < b.
Proof. intros. split; [apply Z.div_mod; lia|by apply Z.mod_pos_bound]. Qed.

Lemma year_split c q y1 :
  0 <= c <= 3 -> 0 <= q <= 24 -> 0 <= y1 <= 3 ->
  (100 * c + 4 * q + y1) / 4 = 25 * c + q /\ (100 * c + 4 * q + y1) / 100 = c.
Proof.
  intros. split; symmetry.
  - apply (Z.div_unique _ 4 _ y1); lia.
  - apply (Z.div_unique _ 100 _ (4 * q + y1)); lia.
Qed.

Lemma era_day_ok_all doe :
  0 <= doe < 146097 ->
  let '(y, m, d) := civil_of_era_day doe in
  let yoe := if m <=? 2 then y - 1 else y in
  era_day_of_civil yoe m d = doe /\ 0 <= yoe < 400 /\ 1 <= m <= 12 /\ 1 <= d <= 31.
Proof.
  intros Hb. unfold civil_of_era_day.
  pose proof (div_mod_spec doe 36524 ltac:(lia)) as [Hc1 Hc2].
  remember (Z.min (doe / 36524) 3) as c eqn:Ec. remember (doe - c * 36524) as r eqn:Er.
  assert (Hc : 0 <= c <= 3) by lia. assert (Hr : 0 <= r <= 36524) by lia.
  pose proof (div_mod_spec r 1461 ltac:(lia)) as [Hq1 Hq2].
  remember (r / 1461) as q eqn:Eq. remember (r mod 1461) as r' eqn:Er'.
  pose proof (div_mod_spec r' 365 ltac:(lia)) as [Hy1 Hy2].
  remember (Z.min (r' / 365) 3) as y1 eqn:Ey1.
  assert (Hdoy : 0 <= r' - y1 * 365 < 366) by lia.
  pose proof (doys_ok _ Hdoy) as H. unfold doy_ok in H.
  destruct (month_day_of_doy _) as [m d]. zbool.
  destruct (year_split c q y1) as [E4 E100]; [lia..|].
  replace (if m <=? 2 then (if m <=? 2 then 100 * c + 4 * q + y1 + 1 else 100 * c + 4 * q + y1) - 1
           else if m <=? 2 then 100 * c + 4 * q + y1 + 1 else 100 * c + 4 * q + y1)
    with (100 * c + 4 * q + y1) by (destruct (m <=? 2); lia).
  unfold era_day_of_civil. rewrite E4, E100. lia.
Qed.

Lemma civil_of_days_range n :
  let '(y, m, d) := civil_of_days n in 1 <= m <= 12 /\ 1 <= d <= 31.
Proof.
  unfold civil_of_days. pose proof (Z.mod_pos_bound (n + 306) 146097 ltac:(lia)) as Hb.
  pose proof (era_day_ok_all _ Hb) as H.
  destruct (civil_of_era_day _) as [[y m] d]. by destruct H as (_ & _ & ? & ?).
Qed.

Lemma days_of_civil_of_days n :
  let '(y, m, d) := civil_of_days n in days_of_civil y m d = n.
Proof.
  unfold civil_of_days, days_of_civil. pose proof (Z.mod_pos_bound (n + 306) 146097 ltac:(lia)) as Hb.
  pose proof (Z.div_mod (n + 306) 146097 ltac:(lia)) as Hdm.
  pose proof (era_day_ok_all _ Hb) as H.
  destruct (civil_of_era_day _) as [[y m] d]. destruct H as (H & Hyoe & Hm & Hd).
  set (q := (n + 306) / 146097) in *.
  assert (Hy : (if m <=? 2 then y + 400 * q - 1 else y + 400 * q)
               = (if m <=? 2 then y - 1 else y) + q * 400) by (case_match; lia).
  rewrite Hy, Z.div_add, Z.mod_add, Z.div_small, Z.mod_small by lia. lia.
Qed.

(** The first of a month of an era is read back as such. *)
Lemma civil_of_era_month yoe m :
  0 <= yoe < 400 -> 1 <= m <= 12 ->
  0 <= era_day_of_civil yoe m 1 < 146097 /\
  civil_of_era_day (era_day_of_civil yoe m 1) = ((if m <=? 2 then yoe + 1 else yoe), m, 1).
Proof.
  intros Hy Hm. pose proof (months_ok m Hm) as H. unfold month_ok in H.
  destruct (month_day_of_doy _) as [m' d] eqn:E. zbool. subst.
  pose proof (div_mod_spec yoe 100 ltac:(lia)) as [Hc1 Hc2].
  remember (yoe / 100) as c eqn:Ec.
  pose proof (div_mod_spec (yoe mod 100) 4 ltac:(lia)) as [Hq1 Hq2].
  remember (yoe mod 100 / 4) as q eqn:Eq. remember ((yoe mod 100) mod 4) as y1 eqn:Ey1.
  assert (Hsplit : yoe = 100 * c + 4 * q + y1) by lia.
  destruct (year_split c q y1) as [E4 E100]; [lia..|].
  assert (Hdoe : era_day_of_civil yoe m 1
                 = 36524 * c + (1461 * q + (365 * y1 + doy_of_month_day m 1))).
  { unfold era_day_of_civil. rewrite Hsplit at 2 3. rewrite E4, E100. lia. }
  set (doy := doy_of_month_day m 1) in *.
  split; [lia|]. unfold civil_of_era_day. rewrite Hdoe.
  assert (Hc : (36524 * c + (1461 * q + (365 * y1 + doy))) / 36524 = c)
    by (symmetry; apply (Z.div_unique _ 36524 _ (1461 * q + (365 * y1 + doy))); lia).
  rewrite Hc, Z.min_l by lia.
  replace (36524 * c + (1461 * q + (365 * y1 + doy)) - c * 36524)
    with (1461 * q + (365 * y1 + doy)) by lia.
  assert (Hq : (1461 * q + (365 * y1 + doy)) / 1461 = q)
    by (symmetry; apply (Z.div_unique _ 1461 _ (365 * y1 + doy)); lia).
  assert (Hr : (1461 * q + (365 * y1 + doy)) mod 1461 = 365 * y1 + doy)
    by (symmetry; apply (Z.mod_unique _ 1461 q); lia).
  rewrite Hq, Hr.
  assert (Hy1 : (365 * y1 + doy) / 365 = y1)
    by (symmetry; apply (Z.div_unique _ 365 _ doy); lia).
  rewrite Hy1, Z.min_l by lia.
  replace (365 * y1 + doy - y1 * 365) with doy by lia.
  rewrite E, <- Hsplit. done.
Qed.

Lemma civil_of_days_of_month y m :
  1 <= m <= 12 -> civil_of_days (days_of_civil y m 1) = (y, m, 1).
Proof.
  intros Hm. unfold days_of_civil, civil_of_days.
  set (y' := if m <=? 2 then y - 1 else y).
  pose proof (div_mod_spec y' 400 ltac:(lia)) as [Hdm Hb].
  destruct (civil_of_era_month (y' mod 400) m) as [Hrange E]; [lia..|].
  replace (y' / 400 * 146097 + era_day_of_civil (y' mod 400) m 1 - 306 + 306)
    with (era_day_of_civil (y' mod 400) m 1 + y' / 400 * 146097) by lia.
  rewrite Z.mod_add, Z.div_add, Z.mod_small, Z.div_small, E by lia.
  f_equal. f_equal. subst y'. destruct (m <=? 2); lia.
Qed.

(** ** Midnights *)

(** Day numbers whose midnight does not overflow [int64] seconds: over 10^14 days around the
    epoch. *)
Definition day_in_range (day : Z) : Prop := -100000000000000 <= day <= 100000000000000.

Lemma midnight_of_day_exact day :
  day_in_range day -> midnight_of_day day = day * ns_per_day.
Proof.
  unfold day_in_range, midnight_of_day, ns_per_day, unix_to_internal, sec_per_day, unix_epoch_day.
  intros H. rewrite (wrap64_id ((day - _) * _)) by (unfold in_int64; lia).
  rewrite wrap64_id by (unfold in_int64; lia). lia.
Qed.

Lemma day_of_midnight day : day_of (day * ns_per_day) = day.
Proof. unfold day_of. apply Z.div_mul. done. Qed.

Lemma day_of_bounds t : day_of t * ns_per_day <= t < (day_of t + 1) * ns_per_day.
Proof.
  unfold day_of. pose proof (Z.div_mod t ns_per_day ltac:(done)).
  pose proof (Z.mod_pos_bound t ns_per_day ltac:(done)). lia.
Qed.

Lemma day_of_mono t u : t <= u -> day_of t <= day_of u.
Proof. intros H. unfold day_of. by apply Z.div_le_mono. Qed.

(** ** The month text of a path *)

Lemma digits_length f n acc (w : nat) :
  0 <= n < 10 ^ Z.of_nat w -> (1 <= w)%nat ->
  (String.length (digits f n acc) <= w + String.length acc)%nat.
Proof.
  revert n acc w. induction f as [|f IH]; intros n acc w Hn Hw; cbn [digits]; [lia|].
  destruct (Z.ltb_spec n 10); [simpl; lia|].
  destruct w as [|[|w]]; [lia|change (10 ^ Z.of_nat 1) with 10 in Hn; lia|].
  assert (n / 10 < 10 ^ Z.of_nat (S w)).
  { apply Z.div_lt_upper_bound; [lia|].
    rewrite Nat2Z.inj_succ, Z.pow_succ_r in Hn by lia. lia. }
  specialize (IH (n / 10) (String (digit (n mod 10)) acc) (S w)).
  simpl in IH |- *. pose proof (Z.div_pos n 10). lia.
Qed.

Lemma pad_zeros_length w n :
  0 <= n < 10 ^ Z.of_nat w -> (1 <= w)%nat -> String.length (pad_zeros w (fmt_u n)) = w.
Proof.
  intros Hn Hw. unfold pad_zeros. rewrite append_length.
  pose proof (digits_length (S (Z.to_nat (Z.log2 n))) n "" w Hn Hw) as H. simpl in H.
  assert (Hz : forall k, String.length (zeros k) = k) by (intros k; induction k; simpl; lia).
  rewrite Hz. unfold fmt_u. simpl. lia.
Qed.

Lemma append_int_parse w n :
  0 <= n < 10 ^ Z.of_nat w -> (1 <= w)%nat ->
  String.length (append_int w n) = w /\ parse_digits (append_int w n) 0 = Some n.
Proof.
  intros Hn Hw. unfold append_int. rewrite (proj2 (Z.ltb_ge _ _)) by lia.
  split; [by apply pad_zeros_length|].
  unfold pad_zeros. rewrite parse_zeros. apply parse_fmt_u. lia.
Qed.

Lemma parse_yyyymm_ints y m :
  0 <= y <= 9999 -> 1 <= m <= 12 ->
  parse_yyyymm (String.append (append_int 4 y) (append_int 2 m))
  = Some (midnight_of_day (days_of_civil y m 1)).
Proof.
  intros Hy Hm.
  destruct (append_int_parse 4 y) as [Ly Py]; [change (10 ^ Z.of_nat 4) with 10000; lia|lia|].
  destruct (append_int_parse 2 m) as [Lm Pm]; [change (10 ^ Z.of_nat 2) with 100; lia|lia|].
  destruct (append_int 4 y) as [|a1 [|a2 [|a3 [|a4 [|]]]]]; try discriminate Ly.
  destruct (append_int 2 m) as [|b1 [|b2 [|]]]; try discriminate Lm.
  transitivity (y ← Some y; m ← Some m;
                if (1 <=? m) && (m <=? 12) then Some (midnight_of_day (days_of_civil y m 1)) else None).
  - rewrite <- Py, <- Pm. reflexivity.
  - cbn. by rewrite !(proj2 (Z.leb_le _ _)) by lia.
Qed.

(** The first of a month of a four-digit year, as an instant, keeps the month text. *)
Lemma days_of_civil_bounds y m : 0 <= y <= 9999 -> 1 <= m <= 12 -> day_in_range (days_of_civil y m 1).
Proof.
  intros Hy Hm. unfold days_of_civil.
  set (y' := if m <=? 2 then y - 1 else y).
  assert (Hy' : -1 <= y' <= 9999) by (subst y'; destruct (m <=? 2); lia).
  pose proof (div_mod_spec y' 400 ltac:(lia)) as [H1 H2].
  destruct (civil_of_era_month (y' mod 400) m) as [H3 _]; [lia..|].
  unfold day_in_range. lia.
Qed.

Lemma first_of_month_fields y m :
  0 <= y <= 9999 -> 1 <= m <= 12 ->
  year_of (midnight_of_day (days_of_civil y m 1)) = y
  /\ month_of (midnight_of_day (days_of_civil y m 1)) = m.
Proof.
  intros Hy Hm. unfold year_of, month_of.
  rewrite midnight_of_day_exact by by apply days_of_civil_bounds.
  rewrite day_of_midnight, civil_of_days_of_month by done. done.
Qed.

Lemma month_of_range t : 1 <= month_of t <= 12.
Proof.
  unfold month_of. pose proof (civil_of_days_range (day_of t)) as H.
  destruct (civil_of_days (day_of t)) as [[y m] d]. simpl. lia.
Qed.

(** Reading the [YYYYMM] text of a time gives the first of its month, which has the same text. *)
Lemma parse_format_yyyymm t :
  json_time_ok t = true ->
  exists t', parse_yyyymm (format_yyyymm t) = Some t' /\ format_yyyymm t' = format_yyyymm t
             /\ json_time_ok t' = true.
Proof.
  unfold json_time_ok, format_yyyymm. intros H. zbool.
  pose proof (month_of_range t) as Hm.
  eexists. split; [by apply parse_yyyymm_ints|].
  destruct (first_of_month_fields (year_of t) (month_of t)) as [-> ->]; [done..|].
  split; [done|]. by rewrite !(proj2 (Z.leb_le _ _)).
Qed.
