(* ===== verification/GoErr.v ===== *)
(** * Errors

    Go's [error] values as a tree: system call errors, the sentinel values the packages declare
    with [errors.New], their typed errors, and the three ways the code combines errors
    ([fmt.Errorf] with one or two [%w] verbs, and [errors.Join]). [errors_is] and [errors_as]
    are [errors.Is] and [errors.AsType], the only ways the program looks inside an error;
    [Error] is the text, which the program inspects once, in [classifyIMAPClientError]. *)
From S2P Require Import Prelude GoStr.

(** A path is the list of its components. Paths the program builds never contain empty, [.] or
    [..] components, so [filepath.Join] is concatenation. *)
Abbreviation path := (list string).

(** System call errors the program distinguishes, and the others. *)
Inductive errno : Type :=
  | ENOENT | EACCES | EEXIST | ENOTDIR | EISDIR | ENOTEMPTY | EINVAL | EIO | ENOSPC
  | EWOULDBLOCK.

#[export] Instance errno_eq_dec : EqDecision errno.
Proof. solve_decision. Defined.

Definition errno_text (e : errno) : string :=
  match e with
  | ENOENT => "no such file or directory"
  | EACCES => "permission denied"
  | EEXIST => "file exists"
  | ENOTDIR => "not a directory"
  | EISDIR => "is a directory"
  | ENOTEMPTY => "directory not empty"
  | EINVAL => "invalid argument"
  | EIO => "input/output error"
  | ENOSPC => "no space left on device"
  | EWOULDBLOCK => "resource temporarily unavailable"
  end.

(** The errors declared with [errors.New]. *)
Inductive sentinel_error : Type :=
  | ErrReadOnly | ErrDataCorrupted | ErrPendingReset | ErrRecoveryRequiredMissing
  | ErrInvalidStoreMode | errPathIsNotDir | errTargetNotRegularFile | ErrZeroInternalDate
  | ErrEmailsPathNotDirectory | ErrLockHeld
  (* internal/config *)
  | ErrConfigPathEmpty | ErrConfigFileRead | ErrConfigDecode | ErrStoreRootDirResolve
  | ErrInvalidIMAPHost | ErrInvalidIMAPPort | ErrInvalidFetchDays | ErrInvalidWindowDays
  | ErrInvalidRetentionDays | ErrInvalidMaxEmailAgeDays | ErrInvalidAllowedHost
  | ErrTLSCACertNotReadable | ErrTLSCACertNotPEM | ErrInvalidMaxMessageBytes
  | ErrInvalidIMAPRetentionDays | ErrIMAPRetentionTooShort
  (* internal/imap, internal/mailparse *)
  | ErrMailboxReadOnly | errUIDNotFound | errBodyTooLarge | ErrMIMETooDeep | errSkip
  (* cmd/tlsrpt-digest *)
  | errDurationEmpty | errDurationUnsupportedUnit | errDurationNonPositive | errDurationOverflow
  | errRootDirSymlink | errRootDirNotDirectory | errRootDirPermission
  | errInvalidRecoverMode | errUnexpectedArguments | errYesRequiresMode | errConfigRequired
  | errDryRunNotSupported | errFetchDownloadMissingUID | errSlackWebhookURLRequired
  | errInvalidTLSCAPEM
  (* the standard library: context.Canceled, context.DeadlineExceeded, flag.ErrHelp *)
  | Canceled | DeadlineExceeded | ErrHelp.

#[export] Instance sentinel_error_eq_dec : EqDecision sentinel_error.
Proof. solve_decision. Defined.

Definition sentinel_text (e : sentinel_error) : string :=
  match e with
  | ErrReadOnly => "store: cannot write in read-only mode"
  | ErrDataCorrupted => "store: data file is corrupted or has an unsupported schema"
  | ErrPendingReset => "store: pending reset detected; use OpenRecoverReset to continue"
  | ErrRecoveryRequiredMissing => "store: recovery-required not present in sentinel"
  | ErrInvalidStoreMode => "store: operation not valid for current open mode"
  | errPathIsNotDir => "path exists but is not a directory"
  | errTargetNotRegularFile => "store: target path is not a regular file"
  | ErrZeroInternalDate => "store: internalDate must not be zero"
  | ErrEmailsPathNotDirectory => "store: emails path is not a directory"
  | ErrLockHeld => "store lock is already held"
  | ErrConfigPathEmpty => "path is empty"
  | ErrConfigFileRead => "cannot read file"
  | ErrConfigDecode => "cannot decode TOML"
  | ErrStoreRootDirResolve => "cannot resolve store.root_dir to absolute path"
  | ErrInvalidIMAPHost => "imap.host is empty"
  | ErrInvalidIMAPPort => "imap.port out of range (1-65535)"
  | ErrInvalidFetchDays => "imap.fetch_days must be >= 1"
  | ErrInvalidWindowDays => "summary.window_days must be >= 1"
  | ErrInvalidRetentionDays => "store.retention_days must be >= 1"
  | ErrInvalidMaxEmailAgeDays => "store.max_email_age_days must be >= 1"
  | ErrInvalidAllowedHost =>
      "notify.slack.allowed_host must be a plain hostname without scheme, port, or whitespace"
  | ErrTLSCACertNotReadable => "imap.tls_ca_cert cannot be read"
  | ErrTLSCACertNotPEM => "imap.tls_ca_cert is not a PEM-encoded certificate"
  | ErrInvalidMaxMessageBytes => "imap.max_message_bytes must be >= 0"
  | ErrInvalidIMAPRetentionDays => "imap.retention_days must be >= 0"
  | ErrIMAPRetentionTooShort =>
      "imap.retention_days must be >= max(imap.fetch_days, summary.window_days) when enabled"
  | ErrMailboxReadOnly => "imap: mailbox is read-only"
  | errUIDNotFound => "uid not found"
  | errBodyTooLarge => "body exceeds max_message_bytes"
  | ErrMIMETooDeep => "mailparse: multipart nesting too deep"
  | errSkip => "mailparse: skip"
  | errDurationEmpty => "duration is empty"
  | errDurationUnsupportedUnit => "duration unit is unsupported"
  | errDurationNonPositive => "duration must be >= 1 day"
  | errDurationOverflow => "duration exceeds supported range"
  | errRootDirSymlink => "store root directory is a symlink"
  | errRootDirNotDirectory => "store root directory path is not a directory"
  | errRootDirPermission => "store root directory lacks required permissions"
  | errInvalidRecoverMode => "invalid recovery mode"
  | errUnexpectedArguments => "unexpected arguments"
  | errYesRequiresMode => "--yes requires --mode"
  | errConfigRequired => "--config is required"
  | errDryRunNotSupported => "--dry-run is not supported for this subcommand"
  | errFetchDownloadMissingUID => "download missing uid"
  | errInvalidTLSCAPEM => "imap: invalid tls ca pem"
  | errSlackWebhookURLRequired => "at least one Slack webhook URL is required"
  | Canceled => "context canceled"
  | DeadlineExceeded => "context deadline exceeded"
  | ErrHelp => "flag: help requested"
  end.

(** The [host:port/mailbox] triple an identity mismatch reports twice. *)
Record identity_text := { id_host : string; id_port : Z; id_mailbox : string }.

Inductive goerr : Type :=
  | Errno (e : errno)
  | Sentinel (e : sentinel_error)
  | Text (msg : string)
  | Wrap (pre : string) (e : goerr) (post : string)
  | Wrap2 (pre : string) (e1 : goerr) (mid : string) (e2 : goerr)
  | JoinE (es : list goerr)
  | ErrStoreIdentityMismatch (root : path) (expected actual : identity_text)
  | ErrUnsupportedSchemaVersion (file : path) (version : Z)
  | ErrAtomicWriteFailed (file : path) (op : string) (e : goerr)
  | ErrInvalidEmailPath (p : path)
  | ErrLoadEmailFailed (p : path) (uid uidvalidity : Z) (e : goerr)
  | ErrDeleteEmailFailed (p : path) (uid uidvalidity : Z) (e : goerr)
  | ErrRecoveryUIDValidityMismatch (got expected : Z)
  | ErrResetManifestVersionMismatch (got want : Z)
  | ErrResetManifestPhaseUnknown (got : Z)
  (* internal/mailparse, internal/notify *)
  | ErrSizeLimitExceeded (limit actual : Z)
  | WebhookValidationError (msg : string)
  | SlackServerError (status : Z) (cause : option goerr)
  | SlackClientError (status : Z).

(** [fmt.Errorf("<pre>%w", err)]. *)
Definition errorf (pre : string) (e : goerr) : goerr := Wrap pre e "".

(** [errors.Join(errs...)] over values that may be nil: nil when all of them are. *)
Definition join_errs (es : list (option goerr)) : option goerr :=
  match omap id es with [] => None | es' => Some (JoinE es') end.

(** The text of a path, with a leading separator. *)
Definition path_text (p : path) : string := String.append "/" (Join "/" p).

Definition identity_string (i : identity_text) : string :=
  Join "" [id_host i; ":"; fmt_d (id_port i); "/"; id_mailbox i].

(** [err.Error()]. *)
Fixpoint Error (e : goerr) : string :=
  match e with
  | Errno n => errno_text n
  | Sentinel s => sentinel_text s
  | Text m => m
  | Wrap pre e' post => Join "" [pre; Error e'; post]
  | Wrap2 pre e1 mid e2 => Join "" [pre; Error e1; mid; Error e2]
  | JoinE es =>
      (fix go (l : list goerr) : string :=
         match l with
         | [] => ""
         | [x] => Error x
         | x :: l' => String.append (Error x) (String "010" (go l'))
         end) es
  | ErrStoreIdentityMismatch root ex ac =>
      Join "" ["store: identity mismatch: root_dir="; path_text root; " expected=";
               identity_string ex; " actual="; identity_string ac]
  | ErrUnsupportedSchemaVersion f v =>
      Join "" ["store: unsupported schema version: file="; path_text f; " version="; fmt_d v]
  | ErrAtomicWriteFailed f op e' =>
      Join "" ["store: atomic write failed: file="; path_text f; " op="; op; ": "; Error e']
  | ErrInvalidEmailPath p => Join "" ["store: invalid email path: path="; Join "/" p]
  | ErrLoadEmailFailed p _ _ e' =>
      Join "" ["store: load email failed: path="; path_text p; ": "; Error e']
  | ErrDeleteEmailFailed p uid uv e' =>
      Join "" ["store: delete email failed: path="; path_text p; " uid="; fmt_d uid;
               " uidvalidity="; fmt_d uv; ": "; Error e']
  | ErrRecoveryUIDValidityMismatch got ex =>
      Join "" ["store: recovery uid_validity mismatch: got="; fmt_d got; " expected="; fmt_d ex]
  | ErrResetManifestVersionMismatch got want =>
      Join "" ["store: unexpected reset manifest version: got="; fmt_d got; " want="; fmt_d want]
  | ErrResetManifestPhaseUnknown got =>
      String.append "store: unknown reset manifest phase: got=" (fmt_d got)
  | ErrSizeLimitExceeded limit actual =>
      Join "" ["mailparse: size limit exceeded: limit="; fmt_d limit; " actual="; fmt_d actual]
  | WebhookValidationError msg => String.append "webhook validation error: " msg
  | SlackServerError status (Some cause) =>
      Join "" ["slack server error (status "; fmt_d status; "): "; Error cause]
  | SlackServerError status None => Join "" ["slack server error (status "; fmt_d status; ")"]
  | SlackClientError status => Join "" ["slack client error (status "; fmt_d status; ")"]
  end.

(** [errors.Is(err, target)] for the targets the test [p] recognises: the error itself or any
    error it wraps. *)
Fixpoint errors_is (p : goerr -> bool) (e : goerr) : bool :=
  p e ||
  match e with
  | Wrap _ e' _ | ErrAtomicWriteFailed _ _ e' | ErrLoadEmailFailed _ _ _ e'
  | ErrDeleteEmailFailed _ _ _ e' | SlackServerError _ (Some e') => errors_is p e'
  | Wrap2 _ e1 _ e2 => errors_is p e1 || errors_is p e2
  | JoinE es => existsb (errors_is p) es
  | _ => false
  end.

Definition is_sentinel (s : sentinel_error) (e : goerr) : bool :=
  errors_is (fun x => match x with Sentinel s' => bool_decide (s = s') | _ => false end) e.

(** [errors.Is(err, os.ErrNotExist)] and [errors.Is(err, os.ErrPermission)]. *)
Definition is_not_exist (e : goerr) : bool :=
  errors_is (fun x => match x with Errno ENOENT => true | _ => false end) e.

Definition is_permission (e : goerr) : bool :=
  errors_is (fun x => match x with Errno EACCES => true | _ => false end) e.

(** [errors.AsType] for [ErrLoadEmailFailed] and its like: the first error of the tree, in
    depth-first order, that [f] recognises. *)
Fixpoint errors_as {A} (f : goerr -> option A) (e : goerr) : option A :=
  match f e with
  | Some a => Some a
  | None =>
      match e with
      | Wrap _ e' _ | ErrAtomicWriteFailed _ _ e' | ErrLoadEmailFailed _ _ _ e'
      | ErrDeleteEmailFailed _ _ _ e' | SlackServerError _ (Some e') => errors_as f e'
      | Wrap2 _ e1 _ e2 => match errors_as f e1 with Some a => Some a | None => errors_as f e2 end
      | JoinE es =>
          (fix go (l : list goerr) : option A :=
             match l with
             | [] => None
             | x :: l' => match errors_as f x with Some a => Some a | None => go l' end
             end) es
      | _ => None
      end
  end.

(** ** Results *)

(** A Go function that returns [(A, error)]: a value, or an error with the value discarded. *)
Inductive result (A : Type) : Type :=
  | Ok (a : A)
  | Err (e : goerr).
Arguments Ok {A} _.
Arguments Err {A} _.

Definition is_ok {A} (r : result A) : bool := match r with Ok _ => true | Err _ => false end.

Lemma is_sentinel_errorf s pre e : is_sentinel s (errorf pre e) = is_sentinel s e.
Proof. done. Qed.

Lemma is_not_exist_errorf pre e : is_not_exist (errorf pre e) = is_not_exist e.
Proof. done. Qed.

Lemma join_errs_none (es : list (option goerr)) :
  join_errs es = None <-> Forall (fun x => x = None) es.
Proof.
  unfold join_errs. induction es as [|[e|] es IH]; simpl; split; intros H; auto.
  - done.
  - by inv H.
  - constructor; [done|]. by apply IH.
  - inv H. by apply IH.
Qed.

#[export] Hint Rewrite is_sentinel_errorf is_not_exist_errorf : go.
