(* ===== verification/Tlsrpt.v ===== *)
(** * TLSRPT reports (internal/tlsrpt/tlsrpt.go)

    The RFC 8460 report structure, the failure test and the parser's checks: decompression limit
    and required fields. What is read from outside, a gzip stream and the JSON decoder, enters as
    the value [gzip_stream] describes and as the argument [json_unmarshal]. *)
From S2P Require Import Prelude GoStr GoTime GoErr.

(** ** Data *)

Record DateRange := {
  StartDatetime : Time;
  EndDatetime : Time
}.

Record Policy := {
  PolicyType : string;
  PolicyString : list string;
  PolicyDomain : string;
  MXHost : list string
}.

Record Summary := {
  TotalSuccessfulSessionCount : Z;
  TotalFailureSessionCount : Z
}.

Record FailureDetail := {
  ResultType : string;
  SendingMTAIP : string;
  ReceivingMXHostname : string;
  ReceivingIP : string;
  FailedSessionCount : Z;
  AdditionalInformation : string;
  FailureReasonCode : string
}.

Record PolicyRecord := {
  PolicyOf : Policy;
  SummaryOf : Summary;
  FailureDetails : list FailureDetail
}.

(** [Policies] is a Go slice: [None] is nil, which the parser tells from an empty one. *)
Record Report := {
  OrganizationName : string;
  ReportID : string;
  DateRangeOf : DateRange;
  Policies : option (list PolicyRecord)
}.

Definition policies (r : Report) : list PolicyRecord := default [] (Policies r).

#[export] Instance DateRange_eq_dec : EqDecision DateRange.
Proof. solve_decision. Defined.
#[export] Instance Policy_eq_dec : EqDecision Policy.
Proof. solve_decision. Defined.
#[export] Instance Summary_eq_dec : EqDecision Summary.
Proof. solve_decision. Defined.
#[export] Instance FailureDetail_eq_dec : EqDecision FailureDetail.
Proof. solve_decision. Defined.
#[export] Instance PolicyRecord_eq_dec : EqDecision PolicyRecord.
Proof. solve_decision. Defined.
#[export] Instance Report_eq_dec : EqDecision Report.
Proof. solve_decision. Defined.

(** [Report.HasFailure]: the loop returns at the first policy with a positive count. *)
Fixpoint has_failure_loop (ps : list PolicyRecord) : bool :=
  match ps with
  | [] => false
  | p :: ps' =>
      if TotalFailureSessionCount (SummaryOf p) >? 0 then true else has_failure_loop ps'
  end.

Definition HasFailure (r : Report) : bool := has_failure_loop (policies r).

(** ** Parsing *)

Definition maxDecompressedSize : Z := 10 * 1024 * 1024.

Inductive parse_error : Type :=
  | ErrDecompressedSizeLimitExceeded (limit actual : Z)
  | ErrMissingRequiredField (field : string)
  | ErrDecompress (msg : string)   (** [fmt.Errorf("tlsrpt: decompress: %w", err)] *)
  | ErrParseJSON (msg : string).   (** [fmt.Errorf("tlsrpt: parse json: %w", err)] *)

(** What [gzip.NewReader] and reads from it deliver: a header error, or the decompressed bytes up
    to the end of the stream or the first read error, and the result of [Close]. *)
Inductive gzip_stream : Type :=
  | GzBadHeader (msg : string)
  | GzData (data : string) (read_err close_err : option string).

Section parse.
(** [json.Unmarshal] into a zero [Report], and the decompressor. *)
Variable json_unmarshal : string -> Report + string.
Variable gunzip : string -> gzip_stream.

Definition parseJSON (data : string) : Report + parse_error :=
  match json_unmarshal data with
  | inr msg => inr (ErrParseJSON msg)
  | inl r =>
      if String.eqb (OrganizationName r) "" then inr (ErrMissingRequiredField "organization-name")
      else if String.eqb (ReportID r) "" then inr (ErrMissingRequiredField "report-id")
      else if IsZero (StartDatetime (DateRangeOf r)) || IsZero (EndDatetime (DateRangeOf r))
      then inr (ErrMissingRequiredField "date-range")
      else match Policies r with
           | None => inr (ErrMissingRequiredField "policies")
           | Some _ => inl r
           end
  end.

Definition ParseJSON (data : string) : Report + parse_error :=
  let len := Z.of_nat (String.length data) in
  if len >? maxDecompressedSize
  then inr (ErrDecompressedSizeLimitExceeded maxDecompressedSize len)
  else parseJSON data.

(** [io.ReadAll] of an [io.LimitedReader] with [N = maxDecompressedSize + 1]: at most [N] bytes,
    and a read error only if it comes before the limit is used up. *)
Definition read_all_limited (data : string) (read_err : option string) (N : Z)
  : string * option string :=
  if Z.of_nat (String.length data) <? N then (data, read_err)
  else (String.substring 0 (Z.to_nat N) data, None).

Definition ParseGzip (data : string) : Report + parse_error :=
  match gunzip data with
  | GzBadHeader msg => inr (ErrDecompress msg)
  | GzData stream read_err close_err =>
      let '(decompressed, readErr) :=
        read_all_limited stream read_err (maxDecompressedSize + 1) in
      match readErr, close_err with
      | Some msg, _ => inr (ErrDecompress msg)
      | None, Some msg => inr (ErrDecompress msg)
      | None, None =>
          let len := Z.of_nat (String.length decompressed) in
          if len >? maxDecompressedSize
          then inr (ErrDecompressedSizeLimitExceeded maxDecompressedSize len)
          else parseJSON decompressed
      end
  end.

(** A report the parser accepts: every required field is present. *)
Definition report_complete (r : Report) : Prop :=
  OrganizationName r <> "" /\ ReportID r <> "" /\
  StartDatetime (DateRangeOf r) <> zeroTime /\ EndDatetime (DateRangeOf r) <> zeroTime /\
  is_Some (Policies r).

Lemma parseJSON_inv data r :
  parseJSON data = inl r -> json_unmarshal data = inl r /\ report_complete r.
Proof.
  clear gunzip.
  unfold parseJSON, report_complete, IsZero. destruct (json_unmarshal data) as [r'|]; [|done].
  destruct (String.eqb_spec (OrganizationName r') ""); [done|].
  destruct (String.eqb_spec (ReportID r') ""); [done|].
  destruct (Z.eqb_spec (StartDatetime (DateRangeOf r')) 0); [done|].
  destruct (Z.eqb_spec (EndDatetime (DateRangeOf r')) 0); [done|].
  destruct (Policies r') eqn:Hp; [|done]. simpl. intros [= ->]. naive_solver.
Qed.

Lemma parseJSON_complete data r :
  json_unmarshal data = inl r -> report_complete r -> parseJSON data = inl r.
Proof.
  unfold parseJSON, report_complete, IsZero, zeroTime. intros -> (H1 & H2 & H3 & H4 & [ps H5]).
  apply String.eqb_neq in H1, H2. apply Z.eqb_neq in H3, H4.
  by rewrite H1, H2, H3, H4, H5.
Qed.

Lemma substring_length s n :
  (n <= String.length s)%nat -> String.length (String.substring 0 n s) = n.
Proof.
  revert n. induction s as [|c s IH]; intros [|n] H; simpl in *; try lia. by rewrite IH by lia.
Qed.
End parse.

Lemma has_failure_spec r :
  HasFailure r = true <->
  Exists (fun p => TotalFailureSessionCount (SummaryOf p) > 0) (policies r).
Proof.
  unfold HasFailure. induction (policies r) as [|p ps IH]; simpl.
  - split; [done|]. inversion 1.
  - rewrite Z.gtb_ltb. destruct (Z.ltb_spec 0 (TotalFailureSessionCount (SummaryOf p))) as [H|H].
    + split; [|done]. intros _. left. lia.
    + rewrite IH, Exists_cons. split; [by right|]. intros [?|?]; [lia|done].
Qed.

(** ** What the parser accepts *)

Lemma read_all_limited_short data err N :
  Z.of_nat (String.length data) < N -> read_all_limited data err N = (data, err).
Proof. intros H. unfold read_all_limited. by rewrite (proj2 (Z.ltb_lt _ _) H). Qed.

Lemma read_all_limited_long data err N :
  0 <= N <= Z.of_nat (String.length data) ->
  exists d, read_all_limited data err N = (d, None) /\ Z.of_nat (String.length d) = N.
Proof.
  intros [H0 H]. unfold read_all_limited. rewrite (proj2 (Z.ltb_ge _ _) H).
  eexists. split; [done|]. rewrite substring_length; lia.
Qed.

(** C34: [ParseGzip] returns a report exactly when the attachment decompresses without any error
    to at most [maxDecompressedSize] bytes, these decode to that report, and every required
    field of it is present: an organization, a report id, both ends of the period and a list of
    policies. *)
Theorem ParseGzip_accepts json_unmarshal gunzip data r :
  ParseGzip json_unmarshal gunzip data = inl r <->
  exists stream,
    gunzip data = GzData stream None None /\
    Z.of_nat (String.length stream) <= maxDecompressedSize /\
    json_unmarshal stream = inl r /\ report_complete r.
Proof.
  unfold ParseGzip. split.
  - destruct (gunzip data) as [|stream rerr cerr]; [done|].
    destruct (Z.lt_ge_cases (Z.of_nat (String.length stream)) (maxDecompressedSize + 1)) as [Hs|Hl].
    + rewrite read_all_limited_short by done.
      destruct rerr, cerr; try done. case_match; [done|]. zbool.
      intros Hr. apply parseJSON_inv in Hr as [Hj Hc]. exists stream. split_and!; [done|lia|done|done].
    + destruct (read_all_limited_long stream rerr (maxDecompressedSize + 1)) as (d & -> & Hd);
        [unfold maxDecompressedSize in *; lia|].
      destruct cerr; [done|]. rewrite (proj2 (Z.gtb_lt _ _)) by lia. done.
  - intros (stream & -> & Hl & Hj & Hc). rewrite read_all_limited_short by lia. simpl.
    rewrite Z.gtb_ltb, (proj2 (Z.ltb_ge _ _)) by lia. by apply parseJSON_complete.
Qed.

(** A stream that would decompress to more than [maxDecompressedSize] bytes is refused with
    the limit and one byte more than it, whatever the JSON decoder would do with it and whatever
    happens further down the stream: no more than that one byte beyond the limit is ever read. *)
Theorem ParseGzip_bomb json_unmarshal gunzip data stream read_err :
  gunzip data = GzData stream read_err None ->
  Z.of_nat (String.length stream) > maxDecompressedSize ->
  ParseGzip json_unmarshal gunzip data
  = inr (ErrDecompressedSizeLimitExceeded maxDecompressedSize (maxDecompressedSize + 1)).
Proof.
  intros Hg Hl. unfold ParseGzip. rewrite Hg.
  destruct (read_all_limited_long stream read_err (maxDecompressedSize + 1)) as (d & -> & Hd);
    [unfold maxDecompressedSize in *; lia|].
  rewrite Hd, (proj2 (Z.gtb_lt _ _)) by lia. done.
Qed.

(** A stream of [2 ^ k] spaces. *)
Fixpoint doubled (k : nat) (s : string) : string :=
  match k with O => s | S k' => let d := doubled k' s in String.append d d end.

Lemma doubled_length k s :
  Z.of_nat (String.length (doubled k s)) = 2 ^ Z.of_nat k * Z.of_nat (String.length s).
Proof.
  induction k as [|k IH]; [cbn [doubled]; rewrite Z.mul_1_l; done|].
  cbn [doubled]. rewrite append_length, Nat2Z.inj_add, IH, Nat2Z.inj_succ, Z.pow_succ_r; lia.
Qed.

Lemma ParseGzip_bomb_witness :
  let gunzip := fun _ : string => GzData (doubled 24 " ") (Some "unexpected EOF") None in
  Z.of_nat (String.length (doubled 24 " ")) > maxDecompressedSize /\
  ParseGzip (fun _ => inr "no report") gunzip "x"
  = inr (ErrDecompressedSizeLimitExceeded maxDecompressedSize (maxDecompressedSize + 1)).
Proof.
  cbv zeta.
  assert (H : Z.of_nat (String.length (doubled 24 " ")) > maxDecompressedSize)
    by (rewrite doubled_length; unfold maxDecompressedSize; simpl String.length; lia).
  split; [exact H|].
  apply (ParseGzip_bomb (fun _ => inr "no report") _ "x" (doubled 24 " ") (Some "unexpected EOF") eq_refl H).
Defined.
