(* ===== verification/Duration.v ===== *)
(** * Periods given on the command line (cmd/tlsrpt-digest/duration.go)

    Parsing of [7d] and [2w], the flag adapter and the cutoff instant of a period. Periods are
    Go [int]s: the multiplication and the calendar arithmetic wrap around as the code's do. *)
From S2P Require Import Prelude GoStr GoTime GoErr.

Record Duration := { Days : Z }.

#[export] Instance Duration_eq_dec : EqDecision Duration.
Proof. solve_decision. Defined.

Definition maxInt : Z := 2 ^ 63 - 1.

(** The [*strconv.NumError] of [Atoi]. *)
Definition atoi_error (s : string) : goerr :=
  let body := match s with String "-" s' | String "+" s' => s' | _ => s end in
  let why := match body, parse_digits body 0 with
             | EmptyString, _ | _, None => "invalid syntax"
             | _, Some _ => "value out of range"
             end in
  Text (Join "" ["strconv.Atoi: parsing "; fmt_q s; ": "; why]).

Definition ParseDuration (s : string) : result Duration :=
  match unsnoc s with
  | None => Err (Sentinel errDurationEmpty)
  | Some (number, unit) =>
      if negb (Ascii.eqb unit "d") && negb (Ascii.eqb unit "w")
      then Err (Wrap "" (Sentinel errDurationUnsupportedUnit)
                     (String.append ": " (fmt_qc unit)))
      else match Atoi number with
           | None => Err (errorf (Join "" ["duration: parse "; fmt_q s; ": "]) (atoi_error number))
           | Some value =>
               if value <=? 0
               then Err (Wrap "" (Sentinel errDurationNonPositive) (String.append ": " (fmt_q s)))
               else if Ascii.eqb unit "w"
               then if value >? Z.quot maxInt 7
                    then Err (Wrap "" (Sentinel errDurationOverflow) (String.append ": " (fmt_q s)))
                    else Ok {| Days := wrap64 (value * 7) |}
               else Ok {| Days := value |}
           end
  end.

Definition UTCDayStart (now : Time) : Time := midnight_of_day (day_of now).

Definition Cutoff (d : Duration) (now : Time) : Time :=
  date_add_days (UTCDayStart now) (wrap64 (- Days d)).

(** The [flag.Value] adapter: the flag's target is a [*Duration], nil until the flag is set. *)
Definition durationFlag_String (ptr : option Duration) : string :=
  match ptr with None => "" | Some d => String.append (fmt_d (Days d)) "d" end.

Definition durationFlag_Set (ptr : option Duration) (s : string)
  : option Duration * option goerr :=
  match ParseDuration s with
  | Err e => (ptr, Some e)
  | Ok d => (Some d, None)
  end.

(** ** What is parsed *)

Lemma ParseDuration_snoc n u :
  ParseDuration (String.append n (String u EmptyString)) =
  (if negb (Ascii.eqb u "d") && negb (Ascii.eqb u "w")
   then Err (Wrap "" (Sentinel errDurationUnsupportedUnit) (String.append ": " (fmt_qc u)))
   else match Atoi n with
        | None => Err (errorf (Join "" ["duration: parse "; fmt_q (String.append n (String u EmptyString)); ": "]) (atoi_error n))
        | Some value =>
            if value <=? 0
            then Err (Wrap "" (Sentinel errDurationNonPositive)
                        (String.append ": " (fmt_q (String.append n (String u EmptyString)))))
            else if Ascii.eqb u "w"
            then if value >? Z.quot maxInt 7
                 then Err (Wrap "" (Sentinel errDurationOverflow)
                             (String.append ": " (fmt_q (String.append n (String u EmptyString)))))
                 else Ok {| Days := wrap64 (value * 7) |}
            else Ok {| Days := value |}
        end).
Proof. unfold ParseDuration. by rewrite (proj2 (unsnoc_spec _ n u) eq_refl). Qed.

Lemma Atoi_bounds s v : Atoi s = Some v -> in_int64 v.
Proof.
  unfold Atoi, in_int64. intros H.
  assert (Hp : forall b acc w, 0 <= acc -> parse_digits b acc = Some w -> 0 <= w).
  { induction b as [|c b IH]; intros acc w Ha; simpl; [by intros [= <-]|].
    unfold digit_val. destruct ((48 <=? _) && _) eqn:E; [|done]. simpl. apply IH. zbool. lia. }
  destruct (match s with String "-" s' => (true, s') | String "+" s' => (false, s')
                       | _ => (false, s) end) as [neg body].
  destruct body as [|c b]; [done|].
  destruct (parse_digits (String c b) 0) as [w|] eqn:E; [|done].
  apply Hp in E; [|lia]. simpl in H. destruct neg; case_match; try done; simplify_eq; zbool; lia.
Qed.

Lemma ParseDuration_spec s n :
  ParseDuration s = Ok {| Days := n |} <->
  exists number v,
    Atoi number = Some v /\ 1 <= v /\ 1 <= n < 2 ^ 63 /\
    (s = String.append number "d" /\ n = v \/ s = String.append number "w" /\ n = 7 * v).
Proof.
  split.
  - unfold ParseDuration. destruct (unsnoc s) as [[number u]|] eqn:Hs; [|done].
    apply unsnoc_spec in Hs as ->.
    destruct (Ascii.eqb_spec u "d") as [->|Hd]; simpl.
    + destruct (Atoi number) as [v|] eqn:Hv; [|done].
      case_match; [done|]. zbool. intros [= ->]. pose proof (Atoi_bounds _ _ Hv) as [? ?].
      exists number, n. split; [done|]. split; [lia|]. split; [lia|]. by left.
    + destruct (Ascii.eqb_spec u "w") as [->|Hw]; simpl; [|done].
      destruct (Atoi number) as [v|] eqn:Hv; [|done].
      case_match; [done|]. zbool. case_match; [done|]. zbool. intros [= <-].
      unfold maxInt in *. change (Z.quot (2 ^ 63 - 1) 7) with 1317624576693539401 in *.
      rewrite wrap64_id by (unfold in_int64; lia).
      exists number, v. split; [done|]. split; [lia|]. split; [lia|]. right. split; [done|lia].
  - intros (number & v & Hv & Hv1 & Hn & [[-> ->]|[-> ->]]); rewrite ParseDuration_snoc; simpl;
      rewrite Hv, (proj2 (Z.leb_gt _ _)) by lia; [done|].
    rewrite Z.gtb_ltb, (proj2 (Z.ltb_ge _ _)).
    + by rewrite wrap64_id, Z.mul_comm by (unfold in_int64; lia).
    + unfold maxInt. change (Z.quot (2 ^ 63 - 1) 7) with 1317624576693539401. lia.
Qed.

(** [ParseDuration] accepts exactly a decimal number that [strconv.Atoi] reads as a positive
    [int], followed by [d], or by [w] when seven times the number is still an [int]; the result
    is the number of days meant, which is at least one and did not overflow. *)
Theorem ParseDuration_accepts s n :
  ParseDuration s = Ok {| Days := n |} <->
  exists number v,
    Atoi number = Some v /\ 1 <= v /\ 1 <= n < 2 ^ 63 /\
    (s = String.append number "d" /\ n = v \/ s = String.append number "w" /\ n = 7 * v).
Proof. apply ParseDuration_spec. Qed.

(** What the flag adapter prints for a period that was set, it accepts again and stores the
    same period; and a value it refuses leaves the target as it was. *)
Theorem durationFlag_roundtrip ptr s :
  match durationFlag_Set ptr s with
  | (Some d, None) => durationFlag_Set None (durationFlag_String (Some d)) = (Some d, None)
  | (ptr', Some _) => ptr' = ptr
  | (None, None) => False
  end.
Proof.
  unfold durationFlag_Set. destruct (ParseDuration s) as [[n]|e] eqn:E; [|by destruct ptr].
  apply ParseDuration_spec in E as (_ & _ & _ & _ & Hn & _).
  replace (ParseDuration _) with (Ok {| Days := n |}); [done|]. symmetry.
  apply ParseDuration_spec. exists (fmt_d n), n. simpl.
  rewrite fmt_d_nonneg, Atoi_fmt_u by lia. split; [done|]. split; [lia|]. split; [lia|]. by left.
Qed.

(** ** Cutoffs *)

(** The midnight, in UTC, [days] days before the day of [now]. *)
Definition midnight_before (days : Z) (now : Time) : Time := (now / (86400 * 10 ^ 9) - days) * (86400 * 10 ^ 9).

(** Numbers of days and clocks within reach: some 10^13 days around the epoch. *)
Definition in_reach (days : Z) (now : Time) : Prop :=
  0 <= days <= 10 ^ 13 /\ Z.abs now <= 10 ^ 13 * (86400 * 10 ^ 9).

Lemma in_reach_day days now : in_reach days now -> day_in_range (day_of now) /\ day_in_range (day_of now - days).
Proof.
  intros [Hd Hn]. assert (- 10 ^ 13 <= day_of now <= 10 ^ 13); [|unfold day_in_range; lia].
  unfold day_of. change ns_per_day with (86400 * 10 ^ 9) in *. split.
  - apply Z.div_le_lower_bound; lia.
  - apply Z.div_le_upper_bound; lia.
Qed.

Lemma UTCDayStart_midnight days now : in_reach days now -> UTCDayStart now = midnight_before 0 now.
Proof.
  intros [H _]%in_reach_day. unfold UTCDayStart. rewrite midnight_of_day_exact by done.
  unfold midnight_before. by rewrite Z.sub_0_r.
Qed.

Lemma Cutoff_midnight d now : in_reach (Days d) now -> Cutoff d now = midnight_before (Days d) now.
Proof.
  intros H. pose proof (in_reach_day _ _ H) as [H1 H2]. destruct H as [Hd _].
  unfold Cutoff, UTCDayStart, date_add_days. rewrite wrap64_id by (unfold in_int64; lia).
  rewrite (midnight_of_day_exact (day_of now)), day_of_midnight, midnight_of_day_exact by done. done.
Qed.

(** For a period of up to [10^14] days and an instant of the years 1 to 9999 the cutoff is
    the midnight, in UTC, that lies exactly that many days before the instant's own day: it is
    never after the instant, and an instant is at or after it exactly when its day is. *)
Theorem Cutoff_exact d now :
  0 <= day_of now <= 3652058 -> 1 <= Days d <= 10 ^ 14 ->
  Cutoff d now = (day_of now - Days d) * ns_per_day /\
  Cutoff d now <= now - ns_per_day /\
  (forall t, Before t (Cutoff d now) = false <-> day_of now - Days d <= day_of t).
Proof.
  intros Hnow Hd. unfold Cutoff, UTCDayStart, date_add_days, day_in_range in *.
  rewrite wrap64_id by (unfold in_int64; lia).
  rewrite (midnight_of_day_exact (day_of now)) by (unfold day_in_range; lia).
  rewrite day_of_midnight, midnight_of_day_exact by (unfold day_in_range; lia).
  split_and!.
  - lia.
  - unfold day_of in *. pose proof (Z.mul_div_le now ns_per_day).
    unfold ns_per_day, sec_per_day, ns_per_sec in *. lia.
  - intros t. unfold Before. rewrite Z.ltb_ge. unfold day_of.
    split; intros H.
    + apply Z.div_le_lower_bound; [|lia]. unfold ns_per_day, sec_per_day, ns_per_sec. lia.
    + pose proof (Z.mul_div_le t ns_per_day ltac:(unfold ns_per_day, sec_per_day, ns_per_sec; lia)).
      assert (0 < ns_per_day) by (unfold ns_per_day, sec_per_day, ns_per_sec; lia). nia.
Qed.

(** An instant of March 2, 2025, 12:00 UTC. *)
Definition noon_2025_03_02 : Time := (days_of_civil 2025 3 2 * sec_per_day + 43200) * ns_per_sec.

Lemma Cutoff_exact_witness :
  0 <= day_of noon_2025_03_02 <= 3652058 /\
  Cutoff {| Days := 30 |} noon_2025_03_02 = days_of_civil 2025 1 31 * ns_per_day.
Proof.
  assert (H : 0 <= day_of noon_2025_03_02 <= 3652058) by (vm_compute; split; discriminate).
  assert (Hd : 1 <= Days {| Days := 30 |} <= 10 ^ 14) by (vm_compute; split; discriminate).
  split; [exact H|].
  destruct (Cutoff_exact {| Days := 30 |} noon_2025_03_02 H Hd) as [E _].
  rewrite E. vm_compute. reflexivity.
Defined.

(** A period [ParseDuration] accepts although the calendar arithmetic of [Cutoff] overflows: the
    cutoff lies almost ten years after the instant it is computed from. *)
Example Cutoff_overflow :
  exists d, ParseDuration "213503982330951d" = Ok d /\ noon_2025_03_02 < Cutoff d noon_2025_03_02.
Proof. eexists. split; [vm_compute; reflexivity|vm_compute; reflexivity]. Qed.
