(* ===== verification/Utf8.v ===== *)
(** * UTF-8 text

    Go's view of a byte string as runes ([range s], [[]rune(s)], [utf8.RuneCountInString]), the
    conversion back ([string(runes)]) and [strings.Map]. A byte that does not start a valid
    encoding is decoded on its own to [RuneError], as Go does. Encodings are written with
    arithmetic on disjoint bit fields. *)
From S2P Require Import Prelude GoStr.

Abbreviation rune := Z (only parsing).

Definition RuneError : rune := 65533.

Definition byte_of (c : ascii) : Z := Z.of_N (N_of_ascii c).
Definition chr (z : Z) : ascii := ascii_of_N (Z.to_N z).

Definition between (lo hi z : Z) : bool := (lo <=? z) && (z <=? hi).

(** A continuation byte. *)
Definition is_cont (c : ascii) : bool := between 128 191 (byte_of c).

(** The second byte a leading byte [x] of a three- or four-byte encoding accepts. *)
Definition second3 (x : Z) (c : ascii) : bool :=
  if x =? 224 then between 160 191 (byte_of c)
  else if x =? 237 then between 128 159 (byte_of c)
  else is_cont c.

Definition second4 (x : Z) (c : ascii) : bool :=
  if x =? 240 then between 144 191 (byte_of c)
  else if x =? 244 then between 128 143 (byte_of c)
  else is_cont c.

Definition low6 (c : ascii) : Z := byte_of c - 128.

(** [[]rune(s)]. *)
Fixpoint runes (s : string) : list rune :=
  match s with
  | EmptyString => []
  | String a s1 =>
      let x := byte_of a in
      if x <? 128 then x :: runes s1
      else if between 194 223 x then
        match s1 with
        | String b s2 =>
            if is_cont b then ((x - 192) * 64 + low6 b) :: runes s2 else RuneError :: runes s1
        | _ => RuneError :: runes s1
        end
      else if between 224 239 x then
        match s1 with
        | String b (String c s3) =>
            if second3 x b && is_cont c
            then ((x - 224) * 4096 + low6 b * 64 + low6 c) :: runes s3
            else RuneError :: runes s1
        | _ => RuneError :: runes s1
        end
      else if between 240 244 x then
        match s1 with
        | String b (String c (String d s4)) =>
            if second4 x b && is_cont c && is_cont d
            then ((x - 240) * 262144 + low6 b * 4096 + low6 c * 64 + low6 d) :: runes s4
            else RuneError :: runes s1
        | _ => RuneError :: runes s1
        end
      else RuneError :: runes s1
  end.

Definition RuneCount (s : string) : Z := Z.of_nat (length (runes s)).

Definition valid_rune (r : rune) : bool := between 0 55295 r || between 57344 1114111 r.

(** The encoding of a rune; anything that is not a Unicode scalar value becomes [RuneError]. *)
Definition encode_valid (r : rune) : string :=
  if r <? 128 then String (chr r) ""
  else if r <? 2048 then String (chr (192 + r / 64)) (String (chr (128 + r mod 64)) "")
  else if r <? 65536 then
    String (chr (224 + r / 4096))
      (String (chr (128 + r / 64 mod 64)) (String (chr (128 + r mod 64)) ""))
  else
    String (chr (240 + r / 262144))
      (String (chr (128 + r / 4096 mod 64))
         (String (chr (128 + r / 64 mod 64)) (String (chr (128 + r mod 64)) ""))).

Definition encode_rune (r : rune) : string := encode_valid (if valid_rune r then r else RuneError).

(** [string(rs)]. *)
Fixpoint of_runes (rs : list rune) : string :=
  match rs with [] => "" | r :: rs' => String.append (encode_rune r) (of_runes rs') end.

(** [strings.Map(f, s)] for an [f] that drops no rune. *)
Definition Map (f : rune -> rune) (s : string) : string := of_runes (map f (runes s)).

(** [unicode.IsControl]: category Cc. *)
Definition IsControl (r : rune) : bool := between 0 31 r || between 127 159 r.

(** The runes of [unicode.IsSpace], and [strings.TrimSpace] on their encodings. *)
Definition space_runes : list rune :=
  [9; 10; 11; 12; 13; 32; 133; 160; 5760; 8192; 8193; 8194; 8195; 8196; 8197; 8198; 8199; 8200;
   8201; 8202; 8232; 8233; 8239; 8287; 12288].

Fixpoint strip_any (ps : list string) (s : string) : option string :=
  match ps with
  | [] => None
  | p :: ps' => match strip_prefix p s with Some s' => Some s' | None => strip_any ps' s end
  end.

Fixpoint trim_left (fuel : nat) (s : string) : string :=
  match fuel with
  | O => s
  | S f => match strip_any (map encode_rune space_runes) s with
           | Some s' => trim_left f s'
           | None => s
           end
  end.

Definition TrimLeft (s : string) : string := trim_left (String.length s) s.

(** The first position from which only spaces are left ends the result. *)
Fixpoint TrimRight (s : string) : string :=
  if String.eqb (TrimLeft s) "" then ""
  else match s with EmptyString => "" | String c s' => String c (TrimRight s') end.

Definition TrimSpace (s : string) : string := TrimRight (TrimLeft s).

(** ** Decoding what was encoded *)

Lemma byte_of_chr z : 0 <= z < 256 -> byte_of (chr z) = z.
Proof. intros H. unfold byte_of, chr. rewrite N_ascii_embedding by lia. lia. Qed.

Lemma byte_of_bounds c : 0 <= byte_of c < 256.
Proof. unfold byte_of. pose proof (N_ascii_bounded c). lia. Qed.

Lemma between_spec lo hi z : reflect (lo <= z <= hi) (between lo hi z).
Proof.
  apply iff_reflect. unfold between. by rewrite andb_true_iff, !Z.leb_le.
Qed.

Lemma between_true lo hi z : lo <= z <= hi -> between lo hi z = true.
Proof. by destruct (between_spec lo hi z). Qed.

Lemma between_false lo hi z : ~ (lo <= z <= hi) -> between lo hi z = false.
Proof. by destruct (between_spec lo hi z). Qed.

Lemma is_cont_chr z : 0 <= z < 64 -> is_cont (chr (128 + z)) = true /\ low6 (chr (128 + z)) = z.
Proof.
  intros H. unfold is_cont, low6. rewrite byte_of_chr by lia.
  split; [apply between_true; lia|lia].
Qed.

Lemma second3_chr x z :
  0 <= z < 64 -> (x = 224 -> 32 <= z) -> (x = 237 -> z < 32) -> second3 x (chr (128 + z)) = true.
Proof.
  intros H H1 H2. unfold second3. rewrite byte_of_chr by lia.
  destruct (Z.eqb_spec x 224), (Z.eqb_spec x 237); try (by apply is_cont_chr);
    apply between_true; lia.
Qed.

Lemma second4_chr x z :
  0 <= z < 64 -> (x = 240 -> 16 <= z) -> (x = 244 -> z < 16) -> second4 x (chr (128 + z)) = true.
Proof.
  intros H H1 H2. unfold second4. rewrite byte_of_chr by lia.
  destruct (Z.eqb_spec x 240), (Z.eqb_spec x 244); try (by apply is_cont_chr);
    apply between_true; lia.
Qed.

(** The six-bit fields of a number. *)
Lemma fields r :
  0 <= r -> r = r / 64 * 64 + r mod 64 /\ 0 <= r mod 64 < 64 /\
  r / 64 = r / 4096 * 64 + r / 64 mod 64 /\ 0 <= r / 64 mod 64 < 64 /\
  r / 4096 = r / 262144 * 64 + r / 4096 mod 64 /\ 0 <= r / 4096 mod 64 < 64.
Proof. intros. Z.to_euclidean_division_equations. lia. Qed.

Lemma append_String c s t : String.append (String c s) t = String c (String.append s t).
Proof. done. Qed.

Lemma append_empty t : String.append "" t = t.
Proof. done. Qed.

Lemma runes_encode_valid r s :
  valid_rune r = true -> runes (String.append (encode_valid r) s) = r :: runes s.
Proof.
  intros Hv.
  assert (Hr : 0 <= r <= 55295 \/ 57344 <= r <= 1114111).
  { unfold valid_rune in Hv. apply orb_true_iff in Hv as [H|H]; unfold between in H; zbool; lia. }
  destruct (fields r) as (E0 & B0 & E1 & B1 & E2 & B2); [lia|].
  unfold encode_valid.
  destruct (Z.ltb_spec r 128); [|destruct (Z.ltb_spec r 2048); [|destruct (Z.ltb_spec r 65536)]];
    rewrite ?append_String, append_empty; cbn [runes]; rewrite byte_of_chr by lia.
  - rewrite (proj2 (Z.ltb_lt _ _)) by lia. done.
  - rewrite (proj2 (Z.ltb_ge _ _)), between_true by lia.
    destruct (is_cont_chr (r mod 64)) as [-> ->]; [lia|]. f_equal; lia.
  - rewrite (proj2 (Z.ltb_ge _ _)), between_false, between_true by lia.
    rewrite second3_chr by lia.
    destruct (is_cont_chr (r mod 64)) as [-> ->]; [lia|].
    destruct (is_cont_chr (r / 64 mod 64)) as [_ ->]; [lia|]. cbn [andb]. f_equal; lia.
  - rewrite (proj2 (Z.ltb_ge _ _)), !between_false, between_true by lia.
    rewrite second4_chr by lia.
    destruct (is_cont_chr (r mod 64)) as [-> ->]; [lia|].
    destruct (is_cont_chr (r / 64 mod 64)) as [-> ->]; [lia|].
    destruct (is_cont_chr (r / 4096 mod 64)) as [_ ->]; [lia|]. cbn [andb]. f_equal; lia.
Qed.

Lemma runes_encode r s :
  valid_rune r = true -> runes (String.append (encode_rune r) s) = r :: runes s.
Proof. intros H. unfold encode_rune. rewrite H. by apply runes_encode_valid. Qed.

Lemma append_assoc a b c : String.append (String.append a b) c = String.append a (String.append b c).
Proof. induction a as [|x a IH]; [done|]. by rewrite !append_String, IH. Qed.

Lemma append_nil_r a : String.append a "" = a.
Proof. induction a as [|x a IH]; [done|]. by rewrite append_String, IH. Qed.

Definition valid_runes (rs : list rune) : Prop := Forall (fun r => valid_rune r = true) rs.

Lemma runes_of_runes_app rs s :
  valid_runes rs -> runes (String.append (of_runes rs) s) = rs ++ runes s.
Proof.
  intros H. induction H as [|r rs Hr H IH]; [done|].
  cbn [of_runes]. rewrite append_assoc, runes_encode by done. simpl. by rewrite IH.
Qed.

Lemma runes_of_runes rs : valid_runes rs -> runes (of_runes rs) = rs.
Proof. intros H. rewrite <- (append_nil_r (of_runes rs)), runes_of_runes_app by done. apply app_nil_r. Qed.

(** ** Every decoded rune is a Unicode scalar value *)

Lemma valid_rune_range r :
  0 <= r <= 55295 \/ 57344 <= r <= 1114111 -> valid_rune r = true.
Proof. intros [H|H]; unfold valid_rune; rewrite (between_true _ _ _ H); [done|apply orb_true_r]. Qed.

Lemma is_cont_inv c : is_cont c = true -> 0 <= low6 c < 64.
Proof. unfold is_cont, low6. destruct (between_spec 128 191 (byte_of c)); [lia|done]. Qed.

Lemma second3_inv x c :
  second3 x c = true ->
  0 <= low6 c < 64 /\ (x = 224 -> 32 <= low6 c) /\ (x = 237 -> low6 c < 32).
Proof.
  unfold second3, is_cont, low6. pose proof (byte_of_bounds c).
  destruct (Z.eqb_spec x 224), (Z.eqb_spec x 237);
    match goal with |- between ?l ?h ?z = _ -> _ => destruct (between_spec l h z) end;
    try done; lia.
Qed.

Lemma second4_inv x c :
  second4 x c = true ->
  0 <= low6 c < 64 /\ (x = 240 -> 16 <= low6 c) /\ (x = 244 -> low6 c < 16).
Proof.
  unfold second4, is_cont, low6. pose proof (byte_of_bounds c).
  destruct (Z.eqb_spec x 240), (Z.eqb_spec x 244);
    match goal with |- between ?l ?h ?z = _ -> _ => destruct (between_spec l h z) end;
    try done; lia.
Qed.

Lemma runes_valid_len n s : (String.length s <= n)%nat -> valid_runes (runes s).
Proof.
  revert s. induction n as [|n IH]; intros s Hs; [destruct s; simpl in *; [constructor|lia]|].
  assert (HE : forall s', (String.length s' <= n)%nat -> valid_runes (RuneError :: runes s'))
    by (intros; constructor; [done|by apply IH]).
  destruct s as [|a s1]; [constructor|]. simpl in Hs. cbn [runes].
  pose proof (byte_of_bounds a) as Ha.
  destruct (Z.ltb_spec (byte_of a) 128).
  { constructor; [apply valid_rune_range; lia|apply IH; lia]. }
  destruct (between_spec 194 223 (byte_of a)).
  { destruct s1 as [|b s2]; [apply HE; lia|]. simpl in Hs.
    destruct (is_cont b) eqn:Hb; [|apply HE; simpl; lia]. apply is_cont_inv in Hb.
    constructor; [apply valid_rune_range; lia|apply IH; lia]. }
  destruct (between_spec 224 239 (byte_of a)).
  { destruct s1 as [|b [|c s3]]; try (apply HE; simpl in *; lia). simpl in Hs.
    destruct (second3 _ b && is_cont c) eqn:Hb; [|apply HE; simpl; lia].
    apply andb_true_iff in Hb as [Hb Hc]. apply is_cont_inv in Hc. apply second3_inv in Hb.
    constructor; [apply valid_rune_range; lia|apply IH; lia]. }
  destruct (between_spec 240 244 (byte_of a)).
  { destruct s1 as [|b [|c [|d s4]]]; try (apply HE; simpl in *; lia). simpl in Hs.
    destruct (second4 _ b && is_cont c && is_cont d) eqn:Hb; [|apply HE; simpl; lia].
    apply andb_true_iff in Hb as [[Hb Hc]%andb_true_iff Hd].
    apply is_cont_inv in Hc, Hd. apply second4_inv in Hb.
    constructor; [apply valid_rune_range; lia|apply IH; lia]. }
  apply HE. lia.
Qed.

Lemma runes_valid s : valid_runes (runes s).
Proof. by apply (runes_valid_len (String.length s)). Qed.

#[export] Hint Resolve runes_valid : go.
