(* ===== verification/StoreTypes.v ===== *)
(** * Data of the store (internal/store/types.go, the constants of recovery.go)

    The records the store keeps in its three JSON files, and what a file can hold. JSON is
    modelled by what a file decodes to: a file written by [json.Marshal] of a record holds that
    record ([JData], [JSentinel], [JManifest]), any other file, and one no record decodes from,
    holds bytes ([Raw]). Marshalling fails on a time without a JSON form, and nothing decodes to
    such a time. *)
From S2P Require Import Prelude GoStr GoTime GoErr Tlsrpt.

Inductive OpenMode : Type := OpenReadWrite | OpenReadOnly | OpenRecoverReset.

Record IMAPIdentity := { Host : string; Port : Z; Mailbox : string }.

Record EmailMeta := {
  UID : Z;
  UIDValidity : Z;
  InternalDate : Time
}.

Record ReportInput := {
  ri_Report : Report;
  ri_UID : Z;
  ri_UIDValidity : Z
}.

(** [internalEmailIndexEntry] has the fields of [EmailMeta]; the code converts one to the other. *)
Abbreviation internalEmailIndexEntry := EmailMeta.

Record internalDataFile := {
  df_Version : Z;
  df_Reports : list Report;
  df_Emails : list internalEmailIndexEntry
}.

Record internalRecoveryState := {
  PrevUIDValidity : Z;
  CurrUIDValidity : Z;
  DetectedAt : Time
}.

Record internalSentinelFile := {
  FormatVersion : Z;
  IMAPHost : string;
  IMAPPort : Z;
  IMAPMailbox : string;
  InitializedAt : Time;
  sf_UIDValidity : option Z;
  RecoveryRequired : option internalRecoveryState
}.

Definition SentinelFormatVersion : Z := 1.
Definition DataFileVersion : Z := 1.

(** The key an email is known by. *)
Definition emailKey : Type := Z * Z.
Definition key_of (m : EmailMeta) : emailKey := (UID m, UIDValidity m).

Record resetManifest := {
  rm_Version : Z;
  rm_CurrUIDValidity : Z;
  rm_Phase : Z
}.

(** [resetPhaseManifestWritten], [resetPhaseCommitted] and [resetManifestVersion]. *)
Definition resetPhaseManifestWritten : Z := 1.
Definition resetPhaseCommitted : Z := 4.
Definition resetManifestVersion : Z := 1.

#[export] Instance OpenMode_eq_dec : EqDecision OpenMode.
Proof. solve_decision. Defined.
#[export] Instance IMAPIdentity_eq_dec : EqDecision IMAPIdentity.
Proof. solve_decision. Defined.
#[export] Instance EmailMeta_eq_dec : EqDecision EmailMeta.
Proof. solve_decision. Defined.
#[export] Instance internalDataFile_eq_dec : EqDecision internalDataFile.
Proof. solve_decision. Defined.
#[export] Instance internalRecoveryState_eq_dec : EqDecision internalRecoveryState.
Proof. solve_decision. Defined.
#[export] Instance internalSentinelFile_eq_dec : EqDecision internalSentinelFile.
Proof. solve_decision. Defined.
#[export] Instance resetManifest_eq_dec : EqDecision resetManifest.
Proof. solve_decision. Defined.

(** ** File contents and JSON *)

Inductive content : Type :=
  | Raw (bytes : string)
  | JData (df : internalDataFile)
  | JSentinel (s : internalSentinelFile)
  | JManifest (m : resetManifest).

#[export] Instance content_eq_dec : EqDecision content.
Proof. solve_decision. Defined.

Definition report_times_ok (r : Report) : bool :=
  json_time_ok (StartDatetime (DateRangeOf r)) && json_time_ok (EndDatetime (DateRangeOf r)).

Definition data_times_ok (df : internalDataFile) : bool :=
  forallb report_times_ok (df_Reports df)
  && forallb (fun e => json_time_ok (InternalDate e)) (df_Emails df).

Definition sentinel_times_ok (s : internalSentinelFile) : bool :=
  json_time_ok (InitializedAt s)
  && match RecoveryRequired s with Some r => json_time_ok (DetectedAt r) | None => true end.

Definition errMarshal : goerr := Text "Time.MarshalJSON: year outside of range [0,9999]".
Definition errUnmarshal : goerr := Text "invalid JSON".

(** [json.Marshal] of the three records. *)
Definition marshal_data (df : internalDataFile) : result content :=
  if data_times_ok df then Ok (JData df) else Err errMarshal.
Definition marshal_sentinel (s : internalSentinelFile) : result content :=
  if sentinel_times_ok s then Ok (JSentinel s) else Err errMarshal.
Definition marshal_manifest (m : resetManifest) : result content := Ok (JManifest m).

(** [json.Unmarshal] into the three records. A key the record does not have is ignored and a field
    without a key keeps its zero value, so one record decodes from another's text: they share
    only the key [version] of the data file and the manifest. *)
Definition zero_sentinel : internalSentinelFile :=
  {| FormatVersion := 0; IMAPHost := ""; IMAPPort := 0; IMAPMailbox := "";
     InitializedAt := zeroTime; sf_UIDValidity := None; RecoveryRequired := None |}.

Definition unmarshal_data (c : content) : result internalDataFile :=
  match c with
  | JData df => if data_times_ok df then Ok df else Err errUnmarshal
  | JSentinel s => Ok {| df_Version := 0; df_Reports := []; df_Emails := [] |}
  | JManifest m => Ok {| df_Version := rm_Version m; df_Reports := []; df_Emails := [] |}
  | Raw _ => Err errUnmarshal
  end.
Definition unmarshal_sentinel (c : content) : result internalSentinelFile :=
  match c with
  | JSentinel s => if sentinel_times_ok s then Ok s else Err errUnmarshal
  | JData _ | JManifest _ => Ok zero_sentinel
  | Raw _ => Err errUnmarshal
  end.
Definition unmarshal_manifest (c : content) : result resetManifest :=
  match c with
  | JManifest m => Ok m
  | JData df => Ok {| rm_Version := df_Version df; rm_CurrUIDValidity := 0; rm_Phase := 0 |}
  | JSentinel _ => Ok {| rm_Version := 0; rm_CurrUIDValidity := 0; rm_Phase := 0 |}
  | Raw _ => Err errUnmarshal
  end.

(** ** Updates of a sentinel *)

Definition set_uidvalidity (v : option Z) (s : internalSentinelFile) : internalSentinelFile :=
  {| FormatVersion := FormatVersion s; IMAPHost := IMAPHost s; IMAPPort := IMAPPort s;
     IMAPMailbox := IMAPMailbox s; InitializedAt := InitializedAt s;
     sf_UIDValidity := v; RecoveryRequired := RecoveryRequired s |}.

Definition set_recovery (r : option internalRecoveryState) (s : internalSentinelFile)
  : internalSentinelFile :=
  {| FormatVersion := FormatVersion s; IMAPHost := IMAPHost s; IMAPPort := IMAPPort s;
     IMAPMailbox := IMAPMailbox s; InitializedAt := InitializedAt s;
     sf_UIDValidity := sf_UIDValidity s; RecoveryRequired := r |}.

Lemma unmarshal_data_times c df : unmarshal_data c = Ok df -> data_times_ok df = true.
Proof.
  destruct c as [|df'|?|?]; simpl; try done.
  - destruct (data_times_ok df') eqn:E; [|done]. by intros [= <-].
  - by intros [= <-].
  - by intros [= <-].
Qed.

Lemma unmarshal_sentinel_times c s : unmarshal_sentinel c = Ok s -> sentinel_times_ok s = true.
Proof.
  destruct c as [| |s'|]; simpl; try done.
  - by intros [= <-].
  - destruct (sentinel_times_ok s') eqn:E; [|done]. by intros [= <-].
  - by intros [= <-].
Qed.

(** Clearing the recovery state keeps a sentinel marshallable. *)
Lemma sentinel_times_clear s v :
  sentinel_times_ok s = true -> sentinel_times_ok (set_uidvalidity v (set_recovery None s)) = true.
Proof. unfold sentinel_times_ok. simpl. intros H. zbool. by rewrite andb_true_r. Qed.

Lemma sentinel_times_uid s v :
  sentinel_times_ok (set_uidvalidity v s) = sentinel_times_ok s.
Proof. done. Qed.

#[export] Hint Resolve sentinel_times_clear : go.
