(* ===== verification/Fs.v ===== *)
(** * File system with faults

    The file system the store runs on, and the monad its code is written in. A file system maps
    paths to directories and files. Each operating system call consults a schedule of faults: it
    may succeed, fail with an I/O error, or the process may be killed at it, so a program is run
    under every combination of errors and crashes. A crash ends the process between two calls
    and keeps what the calls before it did. A recursive removal that fails or crashes may have
    removed any part of its tree.

    [wp] is the weakest precondition of a program: what every run ends in, and what every crash
    leaves behind. *)
From S2P Require Import Prelude GoStr GoTime GoErr Tlsrpt StoreTypes.

(** ** Paths *)

Definition parent (p : path) : path := removelast p.
Definition base (p : path) : string := List.last p "".

(** [strip p q] is what follows [p] in [q]. *)
Fixpoint strip (p q : path) : option path :=
  match p, q with
  | [], _ => Some q
  | a :: p', b :: q' => if String.eqb a b then strip p' q' else None
  | _ :: _, [] => None
  end.

Lemma strip_Some p q t : strip p q = Some t <-> q = p ++ t.
Proof.
  revert q. induction p as [|a p IH]; intros q; simpl; [split; congruence|].
  destruct q as [|b q]; [done|]. destruct (String.eqb_spec a b) as [->|Hne].
  - rewrite IH. split; [by intros ->|by intros [=]].
  - split; [done|]. intros [= ? ?]. congruence.
Qed.

Lemma strip_app p t : strip p (p ++ t) = Some t.
Proof. by apply strip_Some. Qed.

Lemma strip_None p q : strip p q = None <-> forall t, q <> p ++ t.
Proof.
  destruct (strip p q) as [t|] eqn:E.
  - apply strip_Some in E as ->. split; [done|]. intros H. by destruct (H t).
  - split; [|done]. intros _ t ->. by rewrite strip_app in E.
Qed.

(** Two entries of the same directory are not under each other. *)
Lemma strip_sibling d a b t : a <> b -> strip (d ++ [a]) (d ++ b :: t) = None.
Proof.
  intros Hne. apply strip_None. intros t' H.
  rewrite <- app_assoc in H. apply app_inv_head in H. naive_solver.
Qed.

Lemma parent_app p c : parent (p ++ [c]) = p.
Proof. apply removelast_last. Qed.

Lemma base_app p c : base (p ++ [c]) = c.
Proof. apply last_last. Qed.

(** ** Nodes and file systems *)

Inductive node : Type :=
  | Dir (perm : Z)
  | File (perm : Z) (c : content).

#[export] Instance node_eq_dec : EqDecision node.
Proof. solve_decision. Defined.

Definition path_eq_dec : EqDecision path := _.
Definition path_countable : @Countable path path_eq_dec := _.
Abbreviation fs := (@gmap path path_eq_dec path_countable node).

(** Path resolution: the error met while walking the directories of [rest] from [pre]. *)
Fixpoint walk_err (s : fs) (pre rest : path) : option errno :=
  match rest with
  | [] => None
  | c :: rest' =>
      match s !! (pre ++ [c]) with
      | Some (Dir _) => walk_err s (pre ++ [c]) rest'
      | Some (File _ _) => Some ENOTDIR
      | None => Some ENOENT
      end
  end.

(** [None] when [p] names a directory all of whose ancestors are directories. *)
Definition dir_err (s : fs) (p : path) : option errno := walk_err s [] p.

Definition is_dir (n : node) : bool := match n with Dir _ => true | File _ _ => false end.

(** The entry at [p], found by resolving its parent directory first. *)
Definition fs_stat (s : fs) (p : path) : result node :=
  match dir_err s (parent p) with
  | Some e => Err (Errno e)
  | None => match s !! p with Some n => Ok n | None => Err (Errno ENOENT) end
  end.

(** Names in a directory, in the order of [os.ReadDir]. *)
Definition children (s : fs) (p : path) : list string :=
  merge_sort str_leb
    (omap (fun qn => match strip p qn.1 with Some [c] => Some c | _ => None end) (map_to_list s)).

(** Everything at or below [p] removed, and everything at or below [a] found at [b] instead. *)
Definition delete_tree (p : path) (s : fs) : fs := filter (fun qn => strip p qn.1 = None) s.

Definition move_tree (a b : path) (s : fs) : fs :=
  map_fold (fun q n acc =>
    match strip a q with Some t => <[b ++ t := n]> acc | None => acc end) ∅ s.

(** Removal of the listed entries at or below [p]. *)
Definition delete_some (p : path) (gone : list path) (s : fs) : fs :=
  filter (fun qn => strip p qn.1 = None \/ qn.1 ∉ gone) s.

Definition fs_rename (a b : path) (s : fs) : result unit * fs :=
  match fs_stat s a, dir_err s (parent b) with
  | Err e, _ => (Err e, s)
  | _, Some e => (Err (Errno e), s)
  | Ok na, None =>
      if bool_decide (a = b) then (Ok tt, s)
      else match strip a b with
      | Some _ => (Err (Errno EINVAL), s)
      | None =>
          match na, s !! b with
          | File _ _, Some (Dir _) => (Err (Errno EISDIR), s)
          | File _ _, _ => (Ok tt, <[b := na]> (delete a s))
          | Dir _, Some (File _ _) => (Err (Errno ENOTDIR), s)
          | Dir _, Some (Dir _) =>
              match children s b with
              | [] => (Ok tt, move_tree a b s ∪ delete_tree a (delete_tree b s))
              | _ => (Err (Errno ENOTEMPTY), s)
              end
          | Dir _, None => (Ok tt, move_tree a b s ∪ delete_tree a (delete_tree b s))
          end
      end
  end.

Definition fs_remove (p : path) (s : fs) : result unit * fs :=
  match fs_stat s p with
  | Err e => (Err e, s)
  | Ok (File _ _) => (Ok tt, delete p s)
  | Ok (Dir _) => match children s p with [] => (Ok tt, delete p s) | _ => (Err (Errno ENOTEMPTY), s) end
  end.

Definition fs_remove_all (p : path) (s : fs) : result unit * fs :=
  match dir_err s (parent p) with
  | Some ENOENT => (Ok tt, s)
  | Some e => (Err (Errno e), s)
  | None => (Ok tt, delete_tree p s)
  end.

Definition fs_mkdir (p : path) (perm : Z) (s : fs) : result unit * fs :=
  match fs_stat s p with
  | Ok (Dir _) => (Ok tt, s)
  | Ok (File _ _) => (Err (Errno ENOTDIR), s)
  | Err (Errno ENOENT) =>
      match dir_err s (parent p) with
      | None => (Ok tt, <[p := Dir perm]> s)
      | Some e => (Err (Errno e), s)
      end
  | Err e => (Err e, s)
  end.

Definition fs_read_file (p : path) (s : fs) : result content :=
  match fs_stat s p with
  | Ok (File _ c) => Ok c
  | Ok (Dir _) => Err (Errno EISDIR)
  | Err e => Err e
  end.

(** [os.OpenFile(p, O_CREATE|O_RDWR, perm)] *)
Definition fs_open_create (p : path) (perm : Z) (s : fs) : result unit * fs :=
  match dir_err s (parent p) with
  | Some e => (Err (Errno e), s)
  | None =>
      match s !! p with
      | Some (File _ _) => (Ok tt, s)
      | Some (Dir _) => (Err (Errno EISDIR), s)
      | None => (Ok tt, <[p := File perm (Raw "")]> s)
      end
  end.

(** Temporary files: [os.CreateTemp(dir, ".tmp-*")] picks a number no entry of [dir] uses. *)
Definition tmp_prefix : string := ".tmp-".
Definition tmp_name (k : Z) : string := String.append tmp_prefix (fmt_u k).
Definition is_tmp (p : path) : bool := HasPrefix (base p) tmp_prefix.

Definition tmp_number (name : string) : option Z :=
  rest ← strip_prefix tmp_prefix name; parse_digits rest 0.

Definition fresh_tmp (s : fs) (dir : path) : path :=
  dir ++ [tmp_name (1 + foldr Z.max 0
    (omap (fun qn => match strip dir qn.1 with Some [c] => tmp_number c | _ => None end)
          (map_to_list s)))].

Definition fs_create_temp (dir : path) (s : fs) : result path * fs :=
  match dir_err s dir with
  | Some e => (Err (Errno e), s)
  | None => let p := fresh_tmp s dir in (Ok p, <[p := File 384 (Raw "")]> s)
  end.

Definition set_perm (perm : Z) (n : node) : node :=
  match n with File _ c => File perm c | Dir _ => Dir perm end.
Definition set_content (c : content) (n : node) : node :=
  match n with File perm _ => File perm c | Dir perm => Dir perm end.

(** ** Looking up what an operation left *)

Lemma lookup_delete_tree p s q :
  delete_tree p s !! q = match strip p q with Some _ => None | None => s !! q end.
Proof.
  unfold delete_tree. destruct (strip p q) eqn:E.
  - apply map_lookup_filter_None. right. intros n _ H. simpl in H. congruence.
  - destruct (s !! q) eqn:Es.
    + apply map_lookup_filter_Some. done.
    + apply map_lookup_filter_None. by left.
Qed.

Lemma lookup_delete_some p gone s q :
  delete_some p gone s !! q =
    match strip p q with
    | Some _ => if decide (q ∈ gone) then None else s !! q
    | None => s !! q
    end.
Proof.
  unfold delete_some. destruct (strip p q) eqn:E; [case_decide as D|].
  - apply map_lookup_filter_None. right. intros n _ [H|H]; simpl in H; [congruence|done].
  - destruct (s !! q) eqn:Es.
    + apply map_lookup_filter_Some. split; [done|by right].
    + apply map_lookup_filter_None. by left.
  - destruct (s !! q) eqn:Es.
    + apply map_lookup_filter_Some. split; [done|by left].
    + apply map_lookup_filter_None. by left.
Qed.

Lemma delete_some_nil p s : delete_some p [] s = s.
Proof.
  apply map_eq. intros q. rewrite lookup_delete_some. destruct (strip p q); [|done].
  by rewrite decide_False by apply not_elem_of_nil.
Qed.

Lemma lookup_move_tree a b s q :
  move_tree a b s !! q = match strip b q with Some t => s !! (a ++ t) | None => None end.
Proof.
  unfold move_tree. apply (map_fold_weak_ind (fun (r : fs) (m : fs) =>
    r !! q = match strip b q with Some t => m !! (a ++ t) | None => None end)).
  - by destruct (strip b q).
  - intros p n m r Hp IH. destruct (strip a p) as [t|] eqn:E.
    + apply strip_Some in E as ->. destruct (decide (b ++ t = q)) as [<-|Hne].
      * by rewrite lookup_insert_eq, strip_app, lookup_insert_eq.
      * rewrite lookup_insert_ne by done. rewrite IH.
        destruct (strip b q) as [t'|] eqn:Eb; [|done]. apply strip_Some in Eb as ->.
        rewrite lookup_insert_ne; [done|]. intros H. apply app_inv_head in H as ->. done.
    + rewrite IH. destruct (strip b q) as [t'|]; [|done].
      rewrite lookup_insert_ne; [done|]. intros ->. by rewrite strip_app in E.
Qed.

(** A tree moved over nothing. *)
Lemma lookup_moved a b s q :
  (move_tree a b s ∪ delete_tree a (delete_tree b s)) !! q =
    match strip b q with
    | Some t => s !! (a ++ t)
    | None => match strip a q with Some _ => None | None => s !! q end
    end.
Proof.
  rewrite lookup_union, lookup_move_tree, !lookup_delete_tree.
  destruct (strip b q) as [t|].
  - destruct (s !! (a ++ t)); [by apply union_Some_l|]. by destruct (strip a q).
  - destruct (strip a q); [done|]. by rewrite (left_id_L None _).
Qed.

(** ** Path resolution *)

Lemma walk_err_None s pre rest :
  walk_err s pre rest = None <->
  forall t u, rest = t ++ u -> t <> [] -> exists perm, s !! (pre ++ t) = Some (Dir perm).
Proof.
  revert pre. induction rest as [|c rest IH]; intros pre; simpl.
  - split; [|done]. intros _ t u H Ht. by destruct t.
  - destruct (s !! (pre ++ [c])) as [[perm|perm ct]|] eqn:E.
    + rewrite IH. split.
      * intros H [|c' t] u Heq Ht; [done|]. injection Heq as <- Heq.
        destruct t as [|c' t]; [by exists perm|].
        replace (pre ++ c :: c' :: t) with ((pre ++ [c]) ++ c' :: t) by by rewrite <- app_assoc.
        by apply (H _ u).
      * intros H t u Heq Ht. rewrite <- app_assoc. apply (H _ u); simpl; [by f_equal|done].
    + split; [done|]. intros H. destruct (H [c] rest) as [? H']; [done..|]. congruence.
    + split; [done|]. intros H. destruct (H [c] rest) as [? H']; [done..|]. congruence.
Qed.

Lemma dir_err_None s p :
  dir_err s p = None <->
  forall q u, p = q ++ u -> q <> [] -> exists perm, s !! q = Some (Dir perm).
Proof. apply walk_err_None. Qed.

Lemma dir_err_app s p c :
  dir_err s (p ++ [c]) = None <-> dir_err s p = None /\ exists perm, s !! (p ++ [c]) = Some (Dir perm).
Proof.
  rewrite !dir_err_None. split.
  - intros H. split; [|by apply (H _ []); [rewrite app_nil_r|destruct p]].
    intros q u -> Hq. apply (H q (u ++ [c])); [by rewrite app_assoc|done].
  - intros [H1 H2] q u Heq Hq. destruct u as [|x u _] using rev_ind.
    + rewrite app_nil_r in Heq. by subst.
    + rewrite app_assoc in Heq. apply app_inj_tail in Heq as [-> ->]. by apply (H1 q u).
Qed.

Lemma walk_err_ext s s' pre rest :
  (forall t u, rest = t ++ u -> t <> [] -> s' !! (pre ++ t) = s !! (pre ++ t)) ->
  walk_err s' pre rest = walk_err s pre rest.
Proof.
  revert pre. induction rest as [|c rest IH]; intros pre H; simpl; [done|].
  rewrite (H [c] rest) by done.
  destruct (s !! (pre ++ [c])) as [[perm|perm ct]|]; [|done..].
  apply IH. intros t u -> Ht. rewrite <- app_assoc. by apply (H _ u).
Qed.

(** Resolution of [p] reads the entries above it and no others. *)
Lemma dir_err_ext s s' p :
  (forall q u, p = q ++ u -> q <> [] -> s' !! q = s !! q) -> dir_err s' p = dir_err s p.
Proof. intros H. apply walk_err_ext. intros t u -> Ht. by apply (H t u). Qed.

Lemma dir_err_mono s s' p : s ⊆ s' -> dir_err s p = None -> dir_err s' p = None.
Proof.
  rewrite !dir_err_None. intros Hs H q u Hp Hq. destruct (H q u Hp Hq) as [perm Hl].
  exists perm. by eapply lookup_weaken.
Qed.

Lemma dir_err_insert s p q n :
  (forall u, p <> q ++ u) -> dir_err (<[q := n]> s) p = dir_err s p.
Proof.
  intros Hq. apply dir_err_ext. intros q' u Hp _. rewrite lookup_insert_ne; [done|].
  intros ->. by apply (Hq u).
Qed.

Lemma dir_err_delete s p q :
  (forall u, p <> q ++ u) -> dir_err (delete q s) p = dir_err s p.
Proof.
  intros Hq. apply dir_err_ext. intros q' u Hp _. rewrite lookup_delete_ne; [done|].
  intros ->. by apply (Hq u).
Qed.

Lemma not_above (p : path) c t u : p <> (p ++ c :: t) ++ u.
Proof. intros H. apply (f_equal length) in H. rewrite !length_app in H. simpl in H. lia. Qed.

Lemma dir_err_insert_below s p c t n :
  dir_err (<[p ++ c :: t := n]> s) p = dir_err s p.
Proof. apply dir_err_insert. intros. apply not_above. Qed.

Lemma dir_err_delete_below s p c t : dir_err (delete (p ++ c :: t) s) p = dir_err s p.
Proof. apply dir_err_delete. intros. apply not_above. Qed.

Lemma strip_below (p q : path) c t u : p = q ++ u -> strip (p ++ c :: t) q = None.
Proof.
  intros ->. apply strip_None. intros t' H. apply (f_equal length) in H.
  rewrite !length_app in H. simpl in H. lia.
Qed.

Lemma dir_err_delete_tree_below s p c t :
  dir_err (delete_tree (p ++ c :: t) s) p = dir_err s p.
Proof.
  apply dir_err_ext. intros q u Hp _. rewrite lookup_delete_tree.
  by rewrite (strip_below _ _ c t _ Hp).
Qed.

Lemma dir_err_delete_some_below s p c t gone :
  dir_err (delete_some (p ++ c :: t) gone s) p = dir_err s p.
Proof.
  apply dir_err_ext. intros q u Hp _. rewrite lookup_delete_some.
  by rewrite (strip_below _ _ c t _ Hp).
Qed.

Lemma fs_stat_ok s d c : dir_err s d = None ->
  fs_stat s (d ++ [c]) = match s !! (d ++ [c]) with Some n => Ok n | None => Err (Errno ENOENT) end.
Proof. intros H. unfold fs_stat. by rewrite parent_app, H. Qed.

(** ** Temporary files *)

Lemma strip_prefix_append p s : strip_prefix p (String.append p s) = Some s.
Proof. induction p as [|c p IH]; simpl; [done|]. by rewrite Ascii.eqb_refl. Qed.

Lemma tmp_number_name k : 0 <= k -> tmp_number (tmp_name k) = Some k.
Proof.
  intros Hk. unfold tmp_number, tmp_name. rewrite strip_prefix_append.
  cbv [mbind option_bind]. by rewrite parse_fmt_u.
Qed.

Lemma foldr_max_ge (l : list Z) k : k ∈ l -> k <= foldr Z.max 0 l.
Proof. induction 1; simpl; lia. Qed.

Lemma foldr_max_nonneg (l : list Z) : 0 <= foldr Z.max 0 l.
Proof. induction l; simpl; lia. Qed.

(** [os.CreateTemp] picks a name that is not in use. *)
Lemma fresh_tmp_new s dir : s !! fresh_tmp s dir = None.
Proof.
  unfold fresh_tmp. set (l := omap _ _). destruct (s !! _) as [n|] eqn:E; [|done]. exfalso.
  pose proof (foldr_max_nonneg l) as H0. set (k := 1 + foldr Z.max 0 l) in *.
  assert (k ∈ l) as Hk.
  { apply list_elem_of_omap. eexists (_, n). split; [by apply elem_of_map_to_list|].
    simpl. rewrite strip_app. apply tmp_number_name. unfold k. lia. }
  apply foldr_max_ge in Hk. unfold k in Hk. lia.
Qed.

Lemma is_tmp_name k : HasPrefix (tmp_name k) tmp_prefix = true.
Proof. unfold HasPrefix, tmp_name. by rewrite strip_prefix_append. Qed.

Lemma is_tmp_app d c : is_tmp (d ++ [c]) = HasPrefix c tmp_prefix.
Proof. unfold is_tmp. by rewrite base_app. Qed.

Lemma fresh_tmp_is_tmp s dir : is_tmp (fresh_tmp s dir) = true.
Proof. unfold fresh_tmp. rewrite is_tmp_app. apply is_tmp_name. Qed.

(** [s ⊑{d} s']: a run that stopped early may leave temporary files behind in [d]. *)
Definition tmp_ext (d : path) (s s' : fs) : Prop :=
  s ⊆ s' /\
  forall q n, s' !! q = Some n ->
    s !! q = Some n \/
    is_dir n = false /\ exists x, q = d ++ [x] /\ HasPrefix x tmp_prefix = true.

Notation "s ⊑{ d } s'" := (tmp_ext d s s') (at level 70, format "s  ⊑{ d }  s'") : stdpp_scope.

#[export] Instance tmp_ext_preorder d : PreOrder (tmp_ext d).
Proof.
  split.
  - intros s. split; [done|]. auto.
  - intros s1 s2 s3 [Ha Hb] [Hc Hd]. split; [by transitivity s2|].
    intros q n H. apply Hd in H as [H|H]; [by apply Hb|by right].
Qed.

Lemma tmp_ext_dir_err d s s' p : s ⊑{d} s' -> dir_err s p = None -> dir_err s' p = None.
Proof. intros [Hs _]. by apply dir_err_mono. Qed.

Lemma tmp_ext_insert d x s perm c :
  s !! (d ++ [x]) = None -> HasPrefix x tmp_prefix = true -> s ⊑{d} <[d ++ [x] := File perm c]> s.
Proof.
  intros Hs Hx. split; [by apply insert_subseteq|]. intros q n H.
  destruct (decide (d ++ [x] = q)) as [<-|Hne].
  - rewrite lookup_insert_eq in H. injection H as <-. right. split; [done|]. by exists x.
  - rewrite lookup_insert_ne in H by done. by left.
Qed.

(** ** Changes below the root directory *)

(** [only root c s s']: the two differ at most at and below the entries of [root] that [c] names. *)
Definition only (root : path) (c : string -> Prop) (s s' : fs) : Prop :=
  forall q, (forall d t, q = root ++ d :: t -> ~ c d) -> s' !! q = s !! q.

#[export] Instance only_preorder root c : PreOrder (only root c).
Proof.
  split; [by intros s q|]. intros s1 s2 s3 H1 H2 q Hq. rewrite H2 by done. by apply H1.
Qed.

Lemma only_mono root (c c' : string -> Prop) s s' :
  (forall d, c d -> c' d) -> only root c s s' -> only root c' s s'.
Proof. intros Hc H q Hq. apply H. intros d t Heq Hd. by apply (Hq d t Heq), Hc. Qed.

Lemma only_lookup root (c : string -> Prop) s s' d t :
  only root c s s' -> ~ c d -> s' !! (root ++ d :: t) = s !! (root ++ d :: t).
Proof.
  intros H Hd. apply H. intros d' t' Heq. apply app_inv_head in Heq. by injection Heq as <- _.
Qed.

Lemma only_dir_err root c s s' : only root c s s' -> dir_err s' root = dir_err s root.
Proof.
  intros H. apply dir_err_ext. intros q u Hroot Hq. apply H. intros d t Heq.
  apply (f_equal length) in Heq. apply (f_equal length) in Hroot.
  rewrite !length_app in *. simpl in *. lia.
Qed.

Lemma only_insert root d t n s : only root (eq d) s (<[root ++ d :: t := n]> s).
Proof. intros q Hq. rewrite lookup_insert_ne; [done|]. intros <-. by apply (Hq d t). Qed.

Lemma only_delete root d t s : only root (eq d) s (delete (root ++ d :: t) s).
Proof. intros q Hq. rewrite lookup_delete_ne; [done|]. intros <-. by apply (Hq d t). Qed.

Lemma only_delete_tree root d t s : only root (eq d) s (delete_tree (root ++ d :: t) s).
Proof.
  intros q Hq. rewrite lookup_delete_tree. destruct (strip _ q) as [u|] eqn:E; [|done].
  apply strip_Some in E as ->. exfalso. apply (Hq d (t ++ u)); [by rewrite <- app_assoc|done].
Qed.

Lemma only_delete_some root d t gone s : only root (eq d) s (delete_some (root ++ d :: t) gone s).
Proof.
  intros q Hq. rewrite lookup_delete_some. destruct (strip _ q) as [u|] eqn:E; [|done].
  apply strip_Some in E as ->. exfalso. apply (Hq d (t ++ u)); [by rewrite <- app_assoc|done].
Qed.

Lemma only_tmp_ext root s s' :
  s ⊑{root} s' -> only root (fun d => HasPrefix d tmp_prefix = true) s s'.
Proof.
  intros [Hs Hn] q Hq. destruct (s !! q) as [n|] eqn:E; [by eapply lookup_weaken|].
  destruct (s' !! q) as [n|] eqn:E'; [|done].
  apply Hn in E' as [H|(_ & x & -> & Hx)]; [congruence|]. by destruct (Hq x []).
Qed.

(** A temporary file left behind is seen at no other name. *)
Lemma tmp_ext_lookup root d t s s' :
  s ⊑{root} s' -> HasPrefix d tmp_prefix = false -> s' !! (root ++ d :: t) = s !! (root ++ d :: t).
Proof. intros H Hd. eapply only_lookup; [by apply only_tmp_ext|]. cbv beta. congruence. Qed.

#[export] Hint Resolve tmp_ext_lookup tmp_ext_dir_err : go.
#[export] Hint Extern 0 (tmp_ext ?d ?s ?s) => reflexivity : go.
