(* ===== verification/Prog.v ===== *)
(** * Programs over an interface

    Code that works through Go interfaces (the IMAP session, the store, the notifier) is a tree of
    calls: each node is one call of the interface and continues with its answer, which may be
    anything of the answer's type. A run is a path of the tree: the list of calls with their
    answers, in order. [wp] and [only] are the two ways properties of all runs are proved. *)
From S2P Require Import Prelude.

Inductive prog (C : Type -> Type) (A : Type) : Type :=
  | Ret (a : A)
  | Call {X : Type} (c : C X) (k : X -> prog C A).
Arguments Ret {C A} _.
Arguments Call {C A X} _ _.

Section prog.
Context {C : Type -> Type}.

Fixpoint bind {A B} (p : prog C A) (k : A -> prog C B) : prog C B :=
  match p with
  | Ret a => k a
  | Call c f => Call c (fun x => bind (f x) k)
  end.

(** A single call. *)
Definition call {X} (c : C X) : prog C X := Call c Ret.

(** A call of the interface and its answer. *)
Inductive event : Type :=
  | Ev {X : Type} (c : C X) (x : X).

Inductive runs {A} : prog C A -> list event -> A -> Prop :=
  | runs_ret a : runs (Ret a) [] a
  | runs_call X (c : C X) k x t a : runs (k x) t a -> runs (Call c k) (Ev c x :: t) a.

(** ** Weakest preconditions over histories *)

Fixpoint wp {A} (p : prog C A) (h : list event) (Q : A -> list event -> Prop) : Prop :=
  match p with
  | Ret a => Q a h
  | Call c k => forall x, wp (k x) (h ++ [Ev c x]) Q
  end.

Lemma wp_runs {A} (p : prog C A) t a h Q : runs p t a -> wp p h Q -> Q a (h ++ t).
Proof.
  intros H. revert h. induction H as [a|X c k x t a H IH]; intros h Hw; simpl in Hw.
  - by rewrite app_nil_r.
  - specialize (IH _ (Hw x)). by rewrite <- app_assoc in IH.
Qed.

Lemma wp_of_runs {A} (p : prog C A) h (Q : A -> list event -> Prop) :
  (forall t a, runs p t a -> Q a (h ++ t)) -> wp p h Q.
Proof.
  revert h. induction p as [a|X c k IH]; intros h H; simpl.
  - specialize (H [] a (runs_ret a)). by rewrite app_nil_r in H.
  - intros x. apply IH. intros t a Hr. specialize (H _ _ (runs_call _ c k x t a Hr)).
    by rewrite <- app_assoc.
Qed.

Lemma prog_wp_bind {A B} (p : prog C A) (k : A -> prog C B) h Q :
  wp (bind p k) h Q <-> wp p h (fun a h' => wp (k a) h' Q).
Proof.
  revert h. induction p as [a|X c f IH]; intros h; simpl; [done|].
  split; intros H x; apply IH, H.
Qed.

Lemma prog_wp_mono {A} (p : prog C A) h (Q Q' : A -> list event -> Prop) :
  (forall a h', Q a h' -> Q' a h') -> wp p h Q -> wp p h Q'.
Proof. intros HQ. revert h. induction p as [a|X c f IH]; intros h; simpl; auto. Qed.

(** Every run can happen: a program always comes to an end. *)
Lemma runs_total {A} (p : prog C A) (answer : forall X, C X -> X) : exists t a, runs p t a.
Proof.
  induction p as [a|X c k IH]; [by exists [], a; constructor|].
  destruct (IH (answer X c)) as (t & a & H). eexists _, _. by apply runs_call.
Qed.

(** The run with the answers of a function. *)
Fixpoint run {A} (answer : forall X, C X -> X) (p : prog C A) : list event * A :=
  match p with
  | Ret a => ([], a)
  | Call c k => let '(t, a) := run answer (k (answer _ c)) in (Ev c (answer _ c) :: t, a)
  end.

Lemma run_runs {A} answer (p : prog C A) : runs p (run answer p).1 (run answer p).2.
Proof.
  induction p as [a|X c k IH]; simpl; [constructor|]. specialize (IH (answer X c)).
  destruct (run answer (k (answer X c))). by constructor.
Qed.

Lemma runs_call_inv {A X} (c : C X) (k : X -> prog C A) t b :
  runs (Call c k) t b -> exists x t', t = Ev c x :: t' /\ runs (k x) t' b.
Proof.
  intros H. remember (Call c k) as q eqn:Eq. destruct H as [|X' c' k' x' t' b' H]; [done|].
  change (match Call c k with
          | Call c0 k0 => exists y t0, Ev c' x' :: t' = Ev c0 y :: t0 /\ runs (k0 y) t0 b'
          | Ret _ => False end). rewrite <- Eq. by exists x', t'.
Qed.

Lemma runs_bind {A B} (p : prog C A) (k : A -> prog C B) t b :
  runs (bind p k) t b <-> exists t1 a t2, t = t1 ++ t2 /\ runs p t1 a /\ runs (k a) t2 b.
Proof.
  split.
  - revert t. induction p as [a|X c f IH]; intros t H; simpl in H.
    + exists [], a, t. split; [done|]. split; [constructor|done].
    + apply runs_call_inv in H as (y & t0 & -> & Hr). apply IH in Hr as (t1 & a & t2 & -> & H1 & H2).
      exists (Ev c y :: t1), a, t2. split; [done|]. split; [by constructor|done].
  - intros (t1 & a & t2 & -> & H1 & H2). induction H1 as [a|X c f x t1 a H1 IH]; simpl; [done|].
    constructor. by apply IH.
Qed.

(** ** Which calls a program may make *)

Fixpoint only (P : forall X, C X -> bool) {A} (p : prog C A) : Prop :=
  match p with
  | Ret _ => True
  | Call c k => P _ c = true /\ forall x, only P (k x)
  end.

Definition ev_is (P : forall X, C X -> bool) (e : event) : bool := match e with Ev c _ => P _ c end.

Lemma only_runs P {A} (p : prog C A) t a :
  only P p -> runs p t a -> Forall (fun e => ev_is P e = true) t.
Proof.
  intros Ho H. induction H as [a|X c k x t a H IH]; [constructor|]. destruct Ho as [Hc Hk].
  constructor; [done|]. by apply IH.
Qed.

Lemma only_bind P {A B} (p : prog C A) (k : A -> prog C B) :
  only P p -> (forall a, only P (k a)) -> only P (bind p k).
Proof.
  intros Hp Hk. induction p as [a|X c f IH]; simpl in *; [apply Hk|].
  destruct Hp as [Hc Hf]. split; [done|]. intros x. by apply IH.
Qed.

Lemma only_call P {X} (c : C X) : P X c = true -> only P (call c).
Proof. intros H. by split. Qed.

(** Histories grow: what a program adds to one is a run. *)
Lemma wp_extends {A} (p : prog C A) h (Q : A -> list event -> Prop) :
  (forall a t, runs p t a -> Q a (h ++ t)) -> wp p h Q.
Proof. intros H. apply wp_of_runs. intros t a Hr. by apply H. Qed.
End prog.
Arguments event : clear implicits.

(** ** Programs of a larger interface *)

Fixpoint lift {C D : Type -> Type} (f : forall X, C X -> D X) {A} (p : prog C A) : prog D A :=
  match p with
  | Ret a => Ret a
  | Call c k => Call (f _ c) (fun x => lift f (k x))
  end.

Lemma only_lift {C D} (f : forall X, C X -> D X) (P : forall X, D X -> bool) {A} (p : prog C A) :
  only (fun X c => P X (f X c)) p -> only P (lift f p).
Proof.
  induction p as [a|X c k IH]; simpl; [done|]. intros [Hc Hk]. split; [done|]. intros x. by apply IH.
Qed.

Definition lift_event {C D : Type -> Type} (f : forall X, C X -> D X) (e : event C) : event D :=
  match e with Ev c x => Ev (f _ c) x end.

Lemma runs_lift {C D} (f : forall X, C X -> D X) {A} (p : prog C A) t a :
  runs (lift f p) t a -> exists t0, runs p t0 a /\ t = map (lift_event f) t0.
Proof.
  revert t. induction p as [a'|X c k IH]; intros t H; simpl in H.
  - exists []. remember (Ret a') as q eqn:E. destruct H; [|done]. injection E as ->. split; [constructor|done].
  - apply runs_call_inv in H as (x & t' & -> & H). apply IH in H as (t0 & H & ->).
    exists (Ev c x :: t0). split; [by constructor|done].
Qed.

Declare Scope prog_scope.
Delimit Scope prog_scope with prog.
Notation "'let*' x := m 'in' k" := (bind m (fun x => k))
  (at level 200, x pattern, m at level 100, k at level 200) : prog_scope.
