(* ===== verification/Io.v ===== *)
(** * Programs over a file system that fails and crashes

    [M A] is a program of the store, a tree of system calls. [run_io] runs it in a world made of the
    file system, the schedule of faults to come and the clock. Every system call takes the next
    entry of the schedule: the call is carried out, or fails with an I/O error, or the process is
    killed at it. A program verified for every schedule is verified for every combination of
    errors and every crash point; with the empty schedule nothing fails. Guard.v gives the same
    programs a second meaning, one call at a time among other processes.

    [wp b now m Q C s]: started in [s], every run of [m] ends with [Q] of its result and of the
    file system, and every crash leaves a file system in [C]. With [b = false] only the runs
    without faults are meant. *)
From S2P Require Import Prelude GoStr GoTime GoErr Tlsrpt StoreTypes Fs.
From S2P Require Prog.

(** ** Faults *)

(** The errors a call fails with that the state of the file system does not explain. *)
Inductive ioerr : Type := IoAccess | IoFail | IoNoSpace.

Definition io_errno (e : ioerr) : errno :=
  match e with IoAccess => EACCES | IoFail => EIO | IoNoSpace => ENOSPC end.

(** What an interrupted call did of its work: the entries a recursive removal got to, and the
    bytes of a write that reached the file. *)
Record partial := { p_gone : list path; p_torn : option string }.

Definition nothing : partial := {| p_gone := []; p_torn := None |}.

(** An interrupted call may also have done nothing. *)
Class Interruptible (part : partial -> fs -> fs) : Prop := part_nothing s : part nothing s = s.

Inductive fault : Type :=
  | FNone
  | FFail (e : ioerr) (done : partial)
  | FCrash (done : partial).

Record world := World { w_fs : fs; w_faults : list fault; w_now : Time }.

(** ** The monad *)

(** System calls: on the file system, with what they do and what they leave when they are
    interrupted; the clock; and the two calls on the guard file that decide who may go on: taking
    its exclusive lock, and closing it. [Height] is no call of the program: it tells a walk over the
    tree how far it can go at most. *)
Inductive io : Type -> Type :=
  | Sys {A} (op : fs -> result A * fs) (part : partial -> fs -> fs) (H : Interruptible part) : io (result A)
  | Clock : io Time
  | Height : io nat
  | FlockGuard : io (result unit)
  | CloseGuardFile : io (result unit).

Definition M (A : Type) : Type := Prog.prog io A.

#[export] Instance M_ret : MRet M := fun A a => Prog.Ret a.
#[export] Instance M_bind : MBind M := fun A B f m => Prog.bind m f.

Notation "'let!' x := m 'in' k" := (mbind (M := M) (fun x => k) m)
  (at level 10, x name, m at level 100, k at level 200) : stdpp_scope.
Notation "'try!' x := m 'else' e => h 'in' k" :=
  (mbind (M := M) (fun r => match r with Ok x => k | Err e => h end) m)
  (at level 10, x name, e name, m at level 100, h at level 200, k at level 200) : stdpp_scope.

Definition ret {A} (a : A) : M A := mret a.

(** A deferred call: run after [m] whatever [m] returned, its own result ignored. *)
Definition defer {A B} (fin : M B) (m : M A) : M A :=
  let! r := m in let! _ := fin in ret r.

Definition now : M Time := Prog.call Clock.

(** A system call: [op] when it succeeds or fails by itself, [part] what it leaves when it is
    interrupted. *)
Definition prim {A} (op : fs -> result A * fs) (part : partial -> fs -> fs) `{H : !Interruptible part}
  : M (result A) := Prog.call (Sys op part H).

(** ** Running a program alone *)

Definition carry_out {A} (op : fs -> result A * fs) (part : partial -> fs -> fs) (w : world)
  : option (result A) * world :=
  match w_faults w with
  | FFail e d :: fl => (Some (Err (Errno (io_errno e))), World (part d (w_fs w)) fl (w_now w))
  | FCrash d :: fl => (None, World (part d (w_fs w)) fl (w_now w))
  | fl => let '(r, s) := op (w_fs w) in (Some r, World s (tail fl) (w_now w))
  end.

Definition unchanged (_ : partial) (s : fs) : fs := s.

#[export] Instance unchanged_interruptible : Interruptible unchanged.
Proof. done. Qed.

(** More levels than any path of the file system has. *)
Definition height (s : fs) : nat := 2 + map_fold (fun p _ n => Nat.max (length p) n) 0%nat s.

(** Alone, a process gets the lock when it asks for it. *)
Definition handle {X} (c : io X) (w : world) : option X * world :=
  match c in io X return option X * world with
  | Sys op part _ => carry_out op part w
  | Clock => (Some (w_now w), w)
  | Height => (Some (height (w_fs w)), w)
  | FlockGuard | CloseGuardFile => carry_out (fun s => (Ok tt, s)) unchanged w
  end.

(** [None] when the process was killed. *)
Fixpoint run_io {A} (m : M A) (w : world) : option A * world :=
  match m with
  | Prog.Ret a => (Some a, w)
  | Prog.Call c k =>
      match handle c w with
      | (Some x, w') => run_io (k x) w'
      | (None, w') => (None, w')
      end
  end.

Coercion run_io : M >-> Funclass.

Lemma run_bind {A B} (m : M A) (f : A -> M B) w :
  (m ≫= f) w = match m w with (Some a, w') => f a w' | (None, w') => (None, w') end.
Proof.
  revert w. induction m as [a|X c k IH]; intros w; [done|].
  change (run_io (Prog.Call c k ≫= f) w) with
    (match handle c w with (Some x, w') => run_io (k x ≫= f) w' | (None, w') => (None, w') end).
  simpl. destruct (handle c w) as [[x|] w']; [apply IH|done].
Qed.

Lemma run_prim {A} (op : fs -> result A * fs) part `{!Interruptible part} w :
  prim op part w = carry_out op part w.
Proof. unfold prim. simpl. by destruct (carry_out op part w) as [[]]. Qed.

(** Which calls a program of the store makes. *)
Lemma only_mbind (P : forall X, io X -> bool) {A B} (m : M A) (f : A -> M B) :
  Prog.only P m -> (forall a, Prog.only P (f a)) -> Prog.only P (m ≫= f).
Proof. apply Prog.only_bind. Qed.

Lemma only_prim (P : forall X, io X -> bool) {A} (op : fs -> result A * fs) part `{H : !Interruptible part} :
  P _ (Sys op part H) = true -> Prog.only P (prim op part).
Proof. by split. Qed.

Lemma only_now (P : forall X, io X -> bool) : P _ Clock = true -> Prog.only P now.
Proof. by split. Qed.

#[global] Arguments M_bind : simpl never.
#[global] Opaque prim now.

(** ** System calls *)

Definition sys_stat (p : path) : M (result node) := prim (fun s => (fs_stat s p, s)) unchanged.
Definition sys_read_file (p : path) : M (result content) :=
  prim (fun s => (fs_read_file p s, s)) unchanged.
(** The entries of a directory, each with whether it is a directory itself. *)
Definition entries (s : fs) (p : path) : list (string * bool) :=
  map (fun c => (c, match s !! (p ++ [c]) with Some n => is_dir n | None => false end)) (children s p).

Definition sys_read_dir (p : path) : M (result (list (string * bool))) :=
  prim (fun s => (match dir_err s p with None => Ok (entries s p) | Some e => Err (Errno e) end, s))
    unchanged.
Definition sys_open_dir (p : path) : M (result unit) :=
  prim (fun s => (match dir_err s p with None => Ok tt | Some e => Err (Errno e) end, s)) unchanged.
Definition sys_open_rdonly (p : path) : M (result unit) :=
  prim (fun s => (match fs_stat s p with Ok _ => Ok tt | Err e => Err e end, s)) unchanged.
Definition sys_open_create (p : path) (perm : Z) : M (result unit) :=
  prim (fs_open_create p perm) unchanged.
Definition sys_create_temp (dir : path) : M (result path) := prim (fs_create_temp dir) unchanged.
Definition sys_chmod (p : path) (perm : Z) : M (result unit) :=
  prim (fun s => (Ok tt, alter (set_perm perm) p s)) unchanged.

Definition torn_write (p : path) (d : partial) (s : fs) : fs :=
  match p_torn d with Some t => alter (set_content (Raw t)) p s | None => s end.

#[export] Instance torn_write_interruptible p : Interruptible (torn_write p).
Proof. done. Qed.

Definition sys_write (p : path) (c : content) : M (result unit) :=
  prim (fun s => (Ok tt, alter (set_content c) p s)) (torn_write p).
Definition sys_sync : M (result unit) := prim (fun s => (Ok tt, s)) unchanged.
Definition sys_close : M (result unit) := prim (fun s => (Ok tt, s)) unchanged.
(** [flock(fd, LOCK_SH)] *)
Definition sys_flock_sh : M (result unit) := prim (fun s => (Ok tt, s)) unchanged.
(** [flock(fd, LOCK_EX)] on the guard file, and [close] of it, which gives the lock up. *)
Definition sys_flock_ex : M (result unit) := Prog.call FlockGuard.
Definition sys_close_guard : M (result unit) := Prog.call CloseGuardFile.
Definition sys_rename (a b : path) : M (result unit) := prim (fs_rename a b) unchanged.
Definition sys_remove (p : path) : M (result unit) := prim (fs_remove p) unchanged.

Definition removed_some (p : path) (d : partial) (s : fs) : fs := delete_some p (p_gone d) s.

#[export] Instance removed_some_interruptible p : Interruptible (removed_some p).
Proof. intros s. apply delete_some_nil. Qed.

Definition sys_remove_all (p : path) : M (result unit) :=
  prim (fs_remove_all p) (removed_some p).
Definition sys_mkdir (p : path) (perm : Z) : M (result unit) := prim (fs_mkdir p perm) unchanged.

(** [os.MkdirAll]: one [mkdir] per missing directory, from the top. *)
Fixpoint mkdir_path (pre rest : path) (perm : Z) : M (result unit) :=
  match rest with
  | [] => ret (Ok tt)
  | c :: rest' =>
      try! _ := sys_mkdir (pre ++ [c]) perm else e => ret (Err e) in
      mkdir_path (pre ++ [c]) rest' perm
  end.

Definition sys_mkdir_all (p : path) (perm : Z) : M (result unit) := mkdir_path [] p perm.

(** ** Weakest preconditions *)

Definition wp {A} (b : bool) (tm : Time) (m : M A) (Q : A -> fs -> Prop) (C : fs -> Prop) (s : fs)
  : Prop :=
  forall fl, (b = false -> fl = []) ->
  match m (World s fl tm) with
  | (Some a, w) => (b = false -> w_faults w = []) /\ w_now w = tm /\ Q a (w_fs w)
  | (None, w) => b = true /\ C (w_fs w)
  end.

(** What a verified program does when it is run. *)
Lemma wp_run {A} (b : bool) (tm : Time) (m : M A) Q C s fl : wp b tm m Q C s -> (b = false -> fl = []) ->
  match m (World s fl tm) with
  | (Some a, w) => Q a (w_fs w)
  | (None, w) => b = true /\ C (w_fs w)
  end.
Proof.
  intros H Hfl. specialize (H fl Hfl). destruct (m _) as [[a|] w]; [apply H|done].
Qed.

Lemma wp_ret {A} (b : bool) (tm : Time) (a : A) (Q : A -> fs -> Prop) C s : Q a s -> wp b tm (ret a) Q C s.
Proof. intros H fl Hfl. by split_and!. Qed.

Lemma wp_bind {A B} (b : bool) (tm : Time) (m : M A) (f : A -> M B) Q C s :
  wp b tm m (fun a s' => wp b tm (f a) Q C s') C s -> wp b tm (m ≫= f) Q C s.
Proof.
  intros H fl Hfl. specialize (H fl Hfl). rewrite run_bind.
  destruct (m (World s fl tm)) as [[a|] [s' fl' tm']]; [|done].
  destruct H as (Hf & Ht & H). simpl in *. subst tm'. by apply H.
Qed.

Lemma wp_mono {A} (b : bool) (tm : Time) (m : M A) (Q Q' : A -> fs -> Prop) (C C' : fs -> Prop) s :
  wp b tm m Q C s -> (forall a s', Q a s' -> Q' a s') ->
  (b = true -> forall s', C s' -> C' s') -> wp b tm m Q' C' s.
Proof.
  intros H HQ HC fl Hfl. specialize (H fl Hfl).
  destruct (m (World s fl tm)) as [[a|] w].
  - destruct H as (? & ? & ?). split_and!; auto.
  - destruct H as [? ?]. auto.
Qed.

Lemma wp_now (b : bool) (tm : Time) (Q : Time -> fs -> Prop) C s : Q tm s -> wp b tm now Q C s.
Proof. intros H fl Hfl. change (now (World s fl tm)) with (Some tm, World s fl tm). by split_and!. Qed.

Lemma wp_defer {A B} (b : bool) (tm : Time) (fin : M B) (m : M A) Q C s :
  wp b tm m (fun a s' => wp b tm fin (fun _ s'' => Q a s'') C s') C s ->
  wp b tm (defer fin m) Q C s.
Proof.
  intros H. unfold defer. apply wp_bind. eapply wp_mono; [exact H| |done]. simpl.
  intros a s' H'. apply wp_bind. eapply wp_mono; [exact H'| |done]. simpl. intros. by apply wp_ret.
Qed.

(** An error no call reports by itself: never [os.ErrNotExist]. *)
Definition injected (e : goerr) : Prop := exists io, e = Errno (io_errno io).

Lemma injected_not_exist e : injected e -> is_not_exist e = false.
Proof. by intros [[] ->]. Qed.

#[export] Hint Resolve injected_not_exist : go.

Lemma wp_prim {A} (b : bool) (tm : Time) (op : fs -> result A * fs) (part : partial -> fs -> fs) `{!Interruptible part} (Q : result A -> fs -> Prop) C s :
  Q (op s).1 (op s).2 ->
  (b = true -> forall d, C (part d s) /\ forall e, injected e -> Q (Err e) (part d s)) ->
  wp b tm (prim op part) Q C s.
Proof.
  intros HQ HF fl Hfl. rewrite run_prim. unfold carry_out. simpl. destruct b.
  - destruct fl as [|[|e d|d] fl]; simpl.
    + destruct (op s). by split_and!.
    + destruct (op s). by split_and!.
    + split_and!; [done..|]. apply HF; [done|]. by exists e.
    + split; [done|]. by apply HF.
  - rewrite Hfl by done. simpl. destruct (op s). by split_and!.
Qed.

(** A call that only reads. *)
Lemma wp_read {A} (b : bool) (tm : Time) (f : fs -> result A) (Q : result A -> fs -> Prop) C s :
  Q (f s) s -> (b = true -> C s /\ forall e, injected e -> Q (Err e) s) ->
  wp b tm (prim (fun s => (f s, s)) unchanged) Q C s.
Proof. intros HQ HF. apply wp_prim; simpl; auto. Qed.

(** The calls on the lock of the guard file touch no entry. *)
Lemma wp_lock (b : bool) (tm : Time) (c : io (result unit)) (Q : result unit -> fs -> Prop) C s :
  (c = FlockGuard \/ c = CloseGuardFile) ->
  Q (Ok tt) s -> (b = true -> C s /\ forall e, injected e -> Q (Err e) s) ->
  wp b tm (Prog.call c : M _) Q C s.
Proof.
  intros Hc HQ HF fl Hfl. pose proof (wp_read b tm (fun _ => Ok tt) Q C s HQ HF fl Hfl) as H.
  rewrite run_prim in H. simpl. replace (handle c (World s fl tm)) with
    (carry_out (fun s => (Ok tt, s)) unchanged (World s fl tm)) by by destruct Hc as [-> | ->].
  by destruct (carry_out _ _ _) as [[]].
Qed.

(** The result of a call the program ignores. *)
Lemma wp_call {A} (b : bool) (tm : Time) (op : fs -> result A * fs) (part : partial -> fs -> fs) `{!Interruptible part} (I : fs -> Prop) s :
  I (op s).2 -> (b = true -> forall d, I (part d s)) ->
  wp b tm (prim op part) (fun _ => I) I s.
Proof. intros H HF. apply wp_prim; auto. Qed.

(** ** Programs that only read *)

(** [m] computes [f] of the file system and leaves it alone; a fault makes it fail with an error
    in [E]. *)
Definition reads {A} (m : M (result A)) (f : fs -> result A) (E : goerr -> Prop) : Prop :=
  forall (b : bool) (tm : Time) s (Q : result A -> fs -> Prop) C,
    Q (f s) s -> (b = true -> C s /\ forall e, E e -> Q (Err e) s) -> wp b tm m Q C s.

Lemma reads_prim {A} (f : fs -> result A) : reads (prim (fun s => (f s, s)) unchanged) f injected.
Proof. intros b tm s Q C. apply wp_read. Qed.

Lemma reads_ret {A} (r : result A) E : reads (ret r) (fun _ => r) E.
Proof. intros b tm s Q C HQ _. by apply wp_ret. Qed.

Lemma reads_bind {A B} (m : M (result A)) f E (k : result A -> M (result B)) g (E' : goerr -> Prop) :
  reads m f E ->
  (forall r, reads (k r) (g r) E') ->
  (forall e s, E e -> match g (Err e) s with Err e' => E' e' | Ok _ => False end) ->
  reads (m ≫= k) (fun s => g (f s) s) E'.
Proof.
  intros Hm Hk HE b tm s Q C HQ HF. apply wp_bind. apply Hm.
  - apply Hk; auto.
  - intros ->. destruct (HF eq_refl) as [HC HE']. split; [done|]. intros e He. apply Hk; [|done].
    specialize (HE e s He). destruct (g (Err e) s); [done|auto].
Qed.

(** Without faults, a reading program returns what it reads. *)
Lemma reads_run {A} (m : M (result A)) f E s tm :
  reads m f E -> m (World s [] tm) = (Some (f s), World s [] tm).
Proof.
  intros H. specialize (H false tm s (fun r s' => r = f s /\ s' = s) (fun _ => True)).
  specialize (H (conj eq_refl eq_refl) ltac:(done) [] ltac:(done)).
  destruct (m _) as [[a|] [s' fl' tm']]; simpl in *; [|naive_solver].
  destruct H as (Hf & -> & -> & ->). by rewrite Hf.
Qed.

(** ** Invariants *)

(** [m] keeps [I] on every path, errors and crashes included. *)
Definition preserves {A} (I : fs -> Prop) (m : M A) : Prop :=
  forall (b : bool) (tm : Time) s, I s -> wp b tm m (fun _ => I) I s.

Lemma preserves_ret {A} I (a : A) : preserves I (ret a).
Proof. intros b tm s H. by apply wp_ret. Qed.

Lemma preserves_bind {A B} I (m : M A) (f : A -> M B) :
  preserves I m -> (forall a, preserves I (f a)) -> preserves I (m ≫= f).
Proof.
  intros Hm Hf b tm s H. apply wp_bind. eapply wp_mono; [by apply Hm| |done].
  intros a s' H'. by apply Hf.
Qed.

Lemma preserves_now I : preserves I now.
Proof. intros b tm s H. by apply wp_now. Qed.

Lemma preserves_defer {A B} I (fin : M B) (m : M A) :
  preserves I fin -> preserves I m -> preserves I (defer fin m).
Proof.
  intros Hf Hm. unfold defer. apply preserves_bind; [done|]. intros a.
  apply preserves_bind; [done|]. intros. apply preserves_ret.
Qed.

Lemma preserves_prim {A} I (op : fs -> result A * fs) (part : partial -> fs -> fs) `{!Interruptible part} :
  (forall s, I s -> I (op s).2) -> (forall s d, I s -> I (part d s)) -> preserves I (prim op part).
Proof. intros H1 H2 b tm s H. apply wp_call; auto. Qed.

Lemma preserves_reads {A} I (m : M (result A)) f E : reads m f E -> preserves I m.
Proof. intros Hr b tm s H. apply Hr; auto. Qed.

#[export] Hint Resolve preserves_ret preserves_now preserves_reads : go.

(** ** The calls the store uses most *)

(** What [sys_mkdir_all] adds: directories above or at [p]. *)
Definition dirs_added (p : path) (s s' : fs) : Prop :=
  s ⊆ s' /\
  forall q n, s' !! q = Some n ->
    s !! q = Some n \/ is_dir n = true /\ q <> [] /\ exists u, p = q ++ u.

Lemma dirs_added_refl p s : dirs_added p s s.
Proof. split; auto. Qed.

Lemma dirs_added_trans p s1 s2 s3 : dirs_added p s1 s2 -> dirs_added p s2 s3 -> dirs_added p s1 s3.
Proof.
  intros [Ha Hb] [Hc Hd]. split; [by transitivity s2|].
  intros q n H. apply Hd in H as [H|H]; [by apply Hb|by right].
Qed.

Lemma wp_mkdir (b : bool) (tm : Time) p perm s (Q : result unit -> fs -> Prop) C :
  p <> [] ->
  (forall s', dirs_added p s s' -> (b = false -> is_Some (s !! p) -> s' = s) ->
     (exists k, s' !! p = Some (Dir k)) -> Q (Ok tt) s') ->
  (forall e, (b = false -> dir_err s (parent p) = None -> exists k c, s !! p = Some (File k c)) ->
     Q (Err e) s) ->
  (b = true -> C s) ->
  wp b tm (sys_mkdir p perm) Q C s.
Proof.
  intros Hp HOk HErr HC. apply wp_prim; simpl.
  - unfold fs_mkdir, fs_stat. destruct (dir_err s (parent p)) as [e|] eqn:E.
    + destruct e; simpl; apply HErr; by intros.
    + destruct (s !! p) as [[k|k c]|] eqn:Es; simpl.
      * apply HOk; [apply dirs_added_refl|done|by exists k].
      * apply HErr. intros. by exists k, c.
      * apply HOk.
        -- split; [by apply insert_subseteq|]. intros q n H.
           destruct (decide (p = q)) as [<-|Hne].
           ++ rewrite lookup_insert_eq in H. injection H as <-. right. split_and!; [done..|].
              exists []. by rewrite app_nil_r.
           ++ rewrite lookup_insert_ne in H by done. by left.
        -- intros _ [? ?]. congruence.
        -- exists perm. apply lookup_insert_eq.
  - intros Hb d. split; [by apply HC|]. intros e He. apply HErr. congruence.
Qed.

Lemma dirs_added_app pre c t s s' : dirs_added (pre ++ [c]) s s' -> dirs_added (pre ++ c :: t) s s'.
Proof.
  intros [Ha Hb]. split; [done|]. intros q n H. apply Hb in H as [H|(Hd & Hq & u & Hu)]; [by left|].
  right. split_and!; [done..|]. exists (u ++ t).
  rewrite app_assoc, <- Hu. by rewrite <- app_assoc.
Qed.

(** [os.MkdirAll] only adds directories on the way to [p], and [p] resolves when it succeeds; it
    adds nothing where [p] resolved already. *)
Lemma wp_mkdir_path (b : bool) (tm : Time) pre rest perm s (Q : result unit -> fs -> Prop) C :
  dir_err s pre = None ->
  (forall s', dirs_added (pre ++ rest) s s' -> dir_err s' (pre ++ rest) = None ->
     (b = false -> dir_err s (pre ++ rest) = None -> s' = s) -> Q (Ok tt) s') ->
  (forall e s', dirs_added (pre ++ rest) s s' ->
     (b = false -> exists q u k c, pre ++ rest = q ++ u /\ q <> [] /\ s !! q = Some (File k c)) ->
     Q (Err e) s') ->
  (b = true -> forall s', dirs_added (pre ++ rest) s s' -> C s') ->
  wp b tm (mkdir_path pre rest perm) Q C s.
Proof.
  revert pre s. induction rest as [|c rest IH]; intros pre s Hd HOk HErr HC; simpl.
  { apply wp_ret. rewrite app_nil_r in HOk. by apply HOk; [apply dirs_added_refl|..]. }
  apply wp_bind. apply wp_mkdir; [by destruct pre| | |].
  - intros s1 H1 Heq [k Hk].
    assert (dir_err s1 (pre ++ [c]) = None) as Hd1.
    { apply dir_err_app. split; [|by exists k]. by eapply dir_err_mono; [apply H1|]. }
    assert (dirs_added (pre ++ c :: rest) s s1) as H1' by by apply dirs_added_app.
    assert ((pre ++ [c]) ++ rest = pre ++ c :: rest) as Happ by by rewrite <- app_assoc.
    apply IH; rewrite ?Happ; [done| | |].
    + intros s2 H2 Hd2 Heq2. apply HOk; [by eapply dirs_added_trans|done|].
      intros Hb Hs. assert (s1 = s) as ->.
      { apply Heq; [done|]. apply dir_err_None with (q := pre ++ [c]) (u := rest) in Hs
          as [k' Hk']; [by eexists|done|by destruct pre]. }
      by apply Heq2.
    + intros e s2 H2 Hf. apply HErr; [by eapply dirs_added_trans|].
      intros Hb. destruct (Hf Hb) as (q & u & k' & c' & Hq & Hne & Hl). exists q, u, k', c'.
      split_and!; [done..|]. apply H1 in Hl as [Hl|[Hl _]]; done.
    + intros Hb s2 H2. apply HC; [done|]. by eapply dirs_added_trans.
  - intros e Hf. apply wp_ret. apply HErr; [apply dirs_added_refl|]. intros Hb.
    rewrite parent_app in Hf. destruct (Hf Hb Hd) as (k & c' & Hl).
    exists (pre ++ [c]), rest, k, c'. split_and!; [by rewrite <- app_assoc|by destruct pre|done].
  - intros Hb. by apply HC; [|apply dirs_added_refl].
Qed.

(** ** Triples *)

(** From [P], [m] succeeds in [Q], or a fault makes it fail or die in [I]. With [b = false] this
    says that it succeeds. *)
Definition triple {A} (b : bool) (tm : Time) (P : fs -> Prop) (m : M (result A)) (Q : A -> fs -> Prop)
    (I : fs -> Prop) : Prop :=
  forall s, P s ->
    wp b tm m (fun r s' => match r with Ok a => Q a s' | Err _ => b = true /\ I s' end) I s.

Lemma triple_ret {A} (b : bool) (tm : Time) (P : fs -> Prop) (a : A) (Q : A -> fs -> Prop) I :
  (forall s, P s -> Q a s) -> triple b tm P (ret (Ok a)) Q I.
Proof. intros H s Hs. apply wp_ret. auto. Qed.

Lemma triple_weaken {A} (b : bool) (tm : Time) (P P' : fs -> Prop) (m : M (result A))
    (Q Q' : A -> fs -> Prop) (I I' : fs -> Prop) :
  triple b tm P' m Q' I' -> (forall s, P s -> P' s) -> (forall a s, Q' a s -> Q a s) ->
  (forall s, I' s -> I s) -> triple b tm P m Q I.
Proof.
  intros H HP HQ HI s Hs. eapply wp_mono; [by apply H, HP| |by auto].
  intros [a|e] s' Hs'; [by apply HQ|]. naive_solver.
Qed.

Lemma triple_try {A B} (b : bool) (tm : Time) (P : fs -> Prop) (m : M (result A)) (R : A -> fs -> Prop)
    (h : goerr -> goerr) (k : A -> M (result B)) (Q : B -> fs -> Prop) I :
  triple b tm P m R I -> (forall a, triple b tm (R a) (k a) Q I) ->
  triple b tm P (try! x := m else e => ret (Err (h e)) in k x) Q I.
Proof.
  intros Hm Hk s Hs. apply wp_bind. eapply wp_mono; [by apply Hm| |done].
  intros [a|e] s' H; [by apply Hk|by apply wp_ret].
Qed.

(** A call whose outcome the program ignores. *)
Lemma triple_ignore {A B} (b : bool) (tm : Time) (P : fs -> Prop) (m : M (result A)) (k : M (result B))
    (R : fs -> Prop) (Q : B -> fs -> Prop) I :
  triple b tm P m (fun _ => R) R -> triple b tm R k Q I -> (forall s, R s -> I s) ->
  triple b tm P (let! _ := m in k) Q I.
Proof.
  intros Hm Hk HI s Hs. apply wp_bind. eapply wp_mono; [by apply Hm| |by auto].
  intros [a|e] s' H; apply Hk; naive_solver.
Qed.

(** A reading program, by what it reads in the states of [P]. *)
Lemma triple_reads {A} (b : bool) (tm : Time) (P : fs -> Prop) (m : M (result A)) f E
    (Q : A -> fs -> Prop) (I : fs -> Prop) :
  reads m f E -> (forall s, P s -> I s) ->
  (forall s, P s -> exists a, f s = Ok a /\ Q a s) -> triple b tm P m Q I.
Proof.
  intros Hr HI Hf s Hs. apply Hr.
  - destruct (Hf s Hs) as (a & -> & H). done.
  - intros Hb. split; [by apply HI|]. intros e _. split; [done|by apply HI].
Qed.

Lemma triple_pure {A} (b : bool) (tm : Time) (phi : Prop) P (m : M (result A)) Q I :
  (phi -> triple b tm P m Q I) -> triple b tm (fun s => phi /\ P s) m Q I.
Proof. intros H s [Hphi Hs]. by apply H. Qed.

Lemma triple_prim {A} (b : bool) (tm : Time) (P : fs -> Prop) (op : fs -> result A * fs)
    (part : partial -> fs -> fs) `{!Interruptible part} (Q : A -> fs -> Prop) (I : fs -> Prop) :
  (forall s, P s -> exists a s', op s = (Ok a, s') /\ Q a s') ->
  (b = true -> forall s d, P s -> I (part d s)) ->
  triple b tm P (prim op part) Q I.
Proof.
  intros Hop Hpart s Hs. apply wp_prim.
  - destruct (Hop s Hs) as (a & s' & -> & H). done.
  - intros Hb d. split; [by apply Hpart|]. intros e _. split; [done|by apply Hpart].
Qed.

(** What a triple says of a run, and of a run without faults. *)
Lemma triple_run {A} (b : bool) (tm : Time) P (m : M (result A)) Q I s fl :
  triple b tm P m Q I -> P s -> (b = false -> fl = []) ->
  match m (World s fl tm) with
  | (Some (Ok a), w) => Q a (w_fs w)
  | (Some (Err _), w) | (None, w) => b = true /\ I (w_fs w)
  end.
Proof.
  intros H HP Hfl. pose proof (wp_run _ _ _ _ _ _ fl (H s HP) Hfl) as Hr.
  destruct (m _) as [[[a|e]|] w]; done.
Qed.
