(* ===== verification/AtomicFile.v ===== *)
(** * Atomic writes and directory creation (internal/store/atomicfile.go, permission.go)

    [atomicWriteFile] replaces a file by way of a temporary file: whatever fails and wherever the
    process dies, a reader finds the old content or the new content, never a mixture. Warnings
    the code logs are not part of the model. *)
From S2P Require Import Prelude GoStr GoTime GoErr Tlsrpt StoreTypes Fs Io.

Definition dirPerm : Z := 448. (* 0o700 *)
Definition filePerm : Z := 384. (* 0o600 *)

(** atomicfile.go: the bytes reach [targetPath] through a temporary file and a rename. The first
    definition is what follows the creation of the temporary file. *)
Definition write_via_tmp (dir tmpPath targetPath : path) (data : content) : M (result unit) :=
    try! _ := sys_chmod tmpPath filePerm
      else err => let! _ := sys_close in ret (Err (ErrAtomicWriteFailed targetPath "chmod" err)) in
    try! _ := sys_write tmpPath data
      else err => let! _ := sys_close in ret (Err (ErrAtomicWriteFailed targetPath "write" err)) in
    try! _ := sys_sync
      else err => let! _ := sys_close in ret (Err (ErrAtomicWriteFailed targetPath "sync" err)) in
    try! _ := sys_close
      else err => ret (Err (ErrAtomicWriteFailed targetPath "close" err)) in
    try! _ := sys_rename tmpPath targetPath
      else err => ret (Err (ErrAtomicWriteFailed targetPath "rename" err)) in
    try! _ := sys_open_dir dir
      else _err => ret (Ok tt) in
    defer sys_close (
      try! _ := sys_sync else _err => ret (Ok tt) in
      ret (Ok tt)).

Definition atomicWriteFile (targetPath : path) (data : content) : M (result unit) :=
  let dir := parent targetPath in
  try! tmpPath := sys_create_temp dir
    else err => ret (Err (ErrAtomicWriteFailed targetPath "create_temp" err)) in
  defer (sys_remove tmpPath) (write_via_tmp dir tmpPath targetPath data).

(** permission.go: [ensureDirExists]. *)
Definition ensureDirExists (dirPath : path) : M (result unit) :=
  let! info := sys_stat dirPath in
  match info with
  | Ok n =>
      if is_dir n then ret (Ok tt)
      else ret (Err (errorf "ensureDirExists: " (Sentinel errPathIsNotDir)))
  | Err err =>
      if negb (is_not_exist err) then ret (Err (errorf "ensureDirExists: stat failed: " err))
      else
        try! _ := sys_mkdir_all dirPath dirPerm
          else err => ret (Err (errorf "ensureDirExists: mkdir failed: " err)) in
        ret (Ok tt)
  end.

(** permission.go: [checkFilePermissions] only logs what it finds. *)
Definition checkFilePermissions (filePath : path) : M unit :=
  let! _ := sys_stat filePath in ret tt.

(** ** The outcome of an atomic write *)

(** Nothing but a temporary file is new, or the target holds the data. *)
Definition written (target : path) (c : content) (s : fs) : fs :=
  <[target := File filePerm c]> s.

Section atomic.
Context (dir : path) (name tname : string) (c : content) (s : fs).
Context (Hname : HasPrefix name tmp_prefix = false) (Htmp : HasPrefix tname tmp_prefix = true).
Context (Hnew : s !! (dir ++ [tname]) = None) (Hd : dir_err s dir = None).
Context (b : bool) (t : Time).
Local Abbreviation target := (dir ++ [name]).
Local Abbreviation tmp := (dir ++ [tname]).

(** The temporary file holds something and the rest is as it was. *)
Definition held (s' : fs) : Prop := exists k c0, s' = <[tmp := File k c0]> s.

Definition is_dir_at (p : path) : Prop := exists k, s !! p = Some (Dir k).

(** What the calls after [CreateTemp] leave, before the deferred removal. *)
Definition body_post (r : result unit) (s' : fs) : Prop :=
  match r with
  | Ok _ => s' = written target c s /\ ~ is_dir_at target
  | Err e =>
      held s' /\ (b = false -> is_dir_at target) /\
      exists op e0, e = ErrAtomicWriteFailed target op e0
  end.
Definition body_crash (s' : fs) : Prop := held s' \/ s' = written target c s.

Lemma tname_ne : tname <> name.
Proof using Hname Htmp. congruence. Qed.

Lemma tmp_ne_target : tmp <> target.
Proof using Hname Htmp. intros H. apply app_inv_head in H. injection H. apply tname_ne. Qed.

Lemma held_ext s' : held s' -> s ⊑{dir} s'.
Proof using Hnew Htmp.
  intros (k & c0 & ->). by apply tmp_ext_insert.
Qed.

Lemma held_intro k c0 : held (<[tmp := File k c0]> s).
Proof. by eexists _, _. Qed.

(** A call on the open temporary file. *)
Lemma wp_on_tmp (f : node -> node) (part : partial -> fs -> fs) `{!Interruptible part} k c0
    (Q : result unit -> fs -> Prop) :
  (forall d, held (part d (<[tmp := File k c0]> s))) ->
  Q (Ok tt) (<[tmp := f (File k c0)]> s) ->
  (forall e k c0, b = true -> Q (Err e) (<[tmp := File k c0]> s)) ->
  wp b t (prim (fun s => (Ok tt, alter f tmp s)) part) Q body_crash (<[tmp := File k c0]> s).
Proof.
  intros Hg HQ HE. apply wp_prim; simpl; rewrite ?alter_insert_eq; [done|].
  intros Hb d. destruct (Hg d) as (k' & c' & ->). split; [left; apply held_intro|]. auto.
Qed.

(** A call that touches no entry. *)
Lemma wp_skip s1 (Q : result unit -> fs -> Prop) (C : fs -> Prop) :
  Q (Ok tt) s1 -> (forall e, b = true -> Q (Err e) s1) -> (b = true -> C s1) ->
  wp b t (prim (fun s => (Ok tt, s)) unchanged) Q C s1.
Proof. intros HQ HE HC. apply wp_prim; simpl; auto. Qed.

(** Removing the temporary file, and removing it when it has been renamed. *)
Lemma wp_remove_tmp s1 (Q : result unit -> fs -> Prop) (C : fs -> Prop) :
  held s1 ->
  (forall r s2, s ⊑{dir} s2 -> (b = false -> s2 = s) -> Q r s2) ->
  (b = true -> C s1) ->
  wp b t (sys_remove tmp) Q C s1.
Proof using Hnew Hd Htmp.
  intros Hh HQ HC. apply wp_prim; simpl.
  - destruct Hh as (k & c0 & ->). unfold fs_remove.
    rewrite fs_stat_ok by by rewrite dir_err_insert_below.
    rewrite lookup_insert_eq. simpl. rewrite delete_insert_id by done. by apply HQ.
  - intros Hb d. split; [by apply HC|]. intros e _. apply HQ; [by apply held_ext|congruence].
Qed.

Lemma wp_remove_renamed (Q : result unit -> fs -> Prop) (C : fs -> Prop) :
  (forall r, Q r (written target c s)) -> (b = true -> C (written target c s)) ->
  wp b t (sys_remove tmp) Q C (written target c s).
Proof using Hnew Hd Htmp Hname.
  intros HQ HC. apply wp_prim; simpl; [|by auto].
  unfold fs_remove, written. rewrite fs_stat_ok by by rewrite dir_err_insert_below.
  rewrite lookup_insert_ne by by apply not_eq_sym, tmp_ne_target.
  rewrite Hnew. simpl. apply HQ.
Qed.

(** Renaming the temporary file over its target. *)
Lemma wp_rename_tmp (Q : result unit -> fs -> Prop) (C : fs -> Prop) :
  (~ is_dir_at target -> Q (Ok tt) (written target c s)) ->
  (forall e, (b = false -> is_dir_at target) -> Q (Err e) (<[tmp := File filePerm c]> s)) ->
  (b = true -> C (<[tmp := File filePerm c]> s)) ->
  wp b t (sys_rename tmp target) Q C (<[tmp := File filePerm c]> s).
Proof using Hnew Hd Htmp Hname.
  intros HOk HErr HC. apply wp_prim; simpl.
  - unfold fs_rename. rewrite bool_decide_false by apply tmp_ne_target.
    rewrite (strip_sibling dir tname name []) by apply tname_ne. rewrite parent_app.
    rewrite fs_stat_ok by by rewrite dir_err_insert_below.
    rewrite dir_err_insert_below, Hd.
    rewrite lookup_insert_eq, lookup_insert_ne by apply tmp_ne_target.
    rewrite delete_insert_id by done.
    destruct (s !! target) as [[k|k c1]|] eqn:E; simpl.
    + apply HErr. intros. by exists k.
    + apply HOk. intros [? ?]. congruence.
    + apply HOk. intros [? ?]. congruence.
  - intros Hb d. split; [by apply HC|]. intros e _. apply HErr. congruence.
Qed.

(** An error before the rename: the temporary file is closed and the error returned. *)
Lemma wp_close_fail op e k c0 :
  b = true ->
  wp b t (let! _ := sys_close in ret (Err (ErrAtomicWriteFailed target op e)))
    body_post body_crash (<[tmp := File k c0]> s).
Proof.
  intros Hb. assert (body_post (Err (ErrAtomicWriteFailed target op e)) (<[tmp := File k c0]> s)).
  { split_and!; [apply held_intro|congruence|by eexists _, _]. }
  apply wp_bind. apply wp_skip; intros; [by apply wp_ret..|]. left. apply held_intro.
Qed.

(** Syncing the directory changes neither the outcome nor the files. *)
Lemma wp_sync_dir s1 (P : fs -> Prop) (C : fs -> Prop) :
  P s1 -> (b = true -> C s1) ->
  wp b t (try! _ := sys_open_dir dir else _err => ret (Ok tt) in
          defer sys_close (try! _ := sys_sync else _err => ret (Ok tt) in ret (Ok tt)))
    (fun r s' => r = Ok tt /\ P s') C s1.
Proof.
  intros HP HC. apply wp_bind. apply wp_read.
  - destruct (dir_err s1 dir); [by apply wp_ret|]. apply wp_defer. apply wp_bind.
    apply wp_skip; [apply wp_ret; by apply wp_skip|intros; apply wp_ret; by apply wp_skip|done].
  - intros Hb. split; [by apply HC|]. intros e _. by apply wp_ret.
Qed.

Lemma wp_write_via_tmp :
  wp b t (write_via_tmp dir tmp target c) body_post body_crash
    (<[tmp := File filePerm (Raw "")]> s).
Proof using Hnew Hd Htmp Hname.
  unfold write_via_tmp.
  assert (forall k c0, body_crash (<[tmp := File k c0]> s)) as Hcr by (left; apply held_intro).
  apply wp_bind. apply wp_on_tmp; [intros; apply held_intro| |intros; by apply wp_close_fail].
  apply wp_bind. apply wp_on_tmp; [| |intros; by apply wp_close_fail].
  { intros d. unfold torn_write. destruct (p_torn d); [rewrite alter_insert_eq|]; apply held_intro. }
  apply wp_bind. apply wp_skip; [|intros; by apply wp_close_fail|by intros; apply Hcr].
  apply wp_bind. apply wp_skip; [| |by intros; apply Hcr].
  2:{ intros e Hb. apply wp_ret. split_and!; [apply held_intro|congruence|by eexists _, _]. }
  apply wp_bind. apply wp_rename_tmp; [| |by intros; apply Hcr].
  - intros Hn. eapply wp_mono with (C := body_crash).
    + apply (wp_sync_dir _ (fun s' => s' = written target c s)); [done|]. intros _. by right.
    + by intros r s' [-> ->].
    + done.
  - intros e Hb. apply wp_ret. split_and!; [apply held_intro|done|by eexists _, _].
Qed.
End atomic.

(** [atomicWriteFile] replaces the target by the data, or leaves every file as it was; a failed
    or killed write may leave a temporary file. Without faults it fails only where the directory
    is missing or the target is a directory. *)
Lemma wp_atomicWriteFile dir name c s (b : bool) (t : Time) (Q : result unit -> fs -> Prop)
    (C : fs -> Prop) :
  HasPrefix name tmp_prefix = false ->
  (dir_err s dir = None -> ~ is_dir_at s (dir ++ [name]) ->
     Q (Ok tt) (written (dir ++ [name]) c s)) ->
  (forall op e s', s ⊑{dir} s' ->
     (b = false -> s' = s /\ (dir_err s dir = None -> is_dir_at s (dir ++ [name]))) ->
     Q (Err (ErrAtomicWriteFailed (dir ++ [name]) op e)) s') ->
  (b = true -> forall s', s ⊑{dir} s' \/ dir_err s dir = None /\ s' = written (dir ++ [name]) c s -> C s') ->
  wp b t (atomicWriteFile (dir ++ [name]) c) Q C s.
Proof.
  intros Hname HOk HErr HC. unfold atomicWriteFile. rewrite parent_app.
  apply wp_bind. apply wp_prim.
  2:{ intros Hb d. split; [apply HC; [done|by left]|]. intros e _. apply wp_ret.
      apply HErr; [done|congruence]. }
  unfold fs_create_temp. destruct (dir_err s dir) as [e|] eqn:Hd; simpl.
  { apply wp_ret. apply HErr; [done|]. intros _. by split. }
  pose proof (fresh_tmp_new s dir) as Hnew. pose proof (fresh_tmp_is_tmp s dir) as Htmp.
  remember (fresh_tmp s dir) as tmp eqn:E. unfold fresh_tmp in E. subst tmp.
  rewrite is_tmp_app in Htmp. remember (tmp_name _) as tname eqn:E. clear E.
  apply wp_defer. eapply wp_mono; [by apply wp_write_via_tmp| |].
  - intros [[]|e] s1; simpl.
    + intros [-> Hn]. apply wp_remove_renamed; [done..|auto|]. intros Hb. apply HC; [done|by right].
    + intros (Hh & Hb & op & e0 & ->). eapply wp_remove_tmp; [done..| |].
      * intros _ s2 Hs2 Heq. apply HErr; auto.
      * intros Ht. apply HC; [done|]. left. by eapply held_ext.
  - intros Hb s1 [Hh| ->]; (apply HC; [done|]); [left; by eapply held_ext|by right].
Qed.

(** ** Creating directories *)

(** A file where a directory is needed on the way to [p]. *)
Definition blocked (s : fs) (p : path) : Prop :=
  exists q u k c, p = q ++ u /\ q <> [] /\ s !! q = Some (File k c).

Lemma walk_err_Some s pre rest e : walk_err s pre rest = Some e ->
  e = ENOENT \/
  e = ENOTDIR /\ exists t u k c, rest = t ++ u /\ t <> [] /\ s !! (pre ++ t) = Some (File k c).
Proof.
  revert pre. induction rest as [|x rest IH]; intros pre; simpl; [done|].
  destruct (s !! (pre ++ [x])) as [[k|k c]|] eqn:E.
  - intros H. apply IH in H as [H|(-> & t & u & k' & c & -> & _ & H)]; [by left|]. right.
    split; [done|]. exists (x :: t), u, k', c. split_and!; [done..|]. by rewrite <- app_assoc in H.
  - intros [= <-]. right. split; [done|]. by exists [x], rest, k, c.
  - intros [= <-]. by left.
Qed.

Lemma dir_err_Some s p e : dir_err s p = Some e -> e = ENOENT \/ e = ENOTDIR /\ blocked s p.
Proof. apply walk_err_Some. Qed.

Lemma blocked_app s p q : blocked s p -> blocked s (p ++ q).
Proof. intros (q' & u & k & c & -> & Hq & H). exists q', (u ++ q), k, c. by rewrite app_assoc. Qed.

Lemma dir_err_app_Some s p u e : dir_err s (p ++ u) = None -> dir_err s p <> Some e.
Proof.
  rewrite dir_err_None. intros H. assert (dir_err s p = None) as ->; [|done].
  apply dir_err_None. intros q v -> Hq. apply (H q (v ++ u)); [by rewrite app_assoc|done].
Qed.

Lemma wp_ensureDirExists p x s (b : bool) (t : Time) (Q : result unit -> fs -> Prop) (C : fs -> Prop) :
  let d := p ++ [x] in
  (forall s', dirs_added d s s' -> dir_err s' d = None ->
     (b = false -> dir_err s d = None -> s' = s) -> Q (Ok tt) s') ->
  (forall e s', dirs_added d s s' -> (b = false -> blocked s d) -> Q (Err e) s') ->
  (b = true -> forall s', dirs_added d s s' -> C s') ->
  wp b t (ensureDirExists d) Q C s.
Proof.
  intros d HOk HErr HC. unfold ensureDirExists. apply wp_bind. apply wp_read.
  2:{ intros Hb. split; [apply HC; [done|apply dirs_added_refl]|]. intros e He.
      rewrite (injected_not_exist e) by done. apply wp_ret. apply HErr; [apply dirs_added_refl|congruence]. }
  assert (wp b t (try! _ := sys_mkdir_all d dirPerm
            else err => ret (Err (errorf "ensureDirExists: mkdir failed: " err)) in ret (Ok tt)) Q C s) as Hmk.
  { apply wp_bind. apply wp_mkdir_path; simpl; [done|..].
    - intros s' H1 H2 H3. apply wp_ret. by apply HOk.
    - intros e s' H1 H2. apply wp_ret. by apply HErr.
    - intros Hb s' H1. by apply HC. }
  unfold fs_stat, d at 1. rewrite parent_app. destruct (dir_err s p) as [e|] eqn:E.
  - apply dir_err_Some in E as H. destruct H as [->|[-> H]]; [done|]. simpl. apply wp_ret.
    apply HErr; [apply dirs_added_refl|]. intros _. by apply blocked_app.
  - destruct (s !! d) as [[k|k c]|] eqn:Es; [| |done].
    + apply wp_ret. apply HOk; [apply dirs_added_refl| |done]. apply dir_err_app. by split; [|exists k].
    + apply wp_ret. apply HErr; [apply dirs_added_refl|]. intros _. exists d, [], k, c.
      split_and!; [by rewrite app_nil_r|unfold d; by destruct p|done].
Qed.

(** The permission check reads and ignores what it finds. *)
Lemma wp_checkFilePermissions p s (b : bool) (t : Time) (Q : unit -> fs -> Prop) (C : fs -> Prop) :
  Q tt s -> (b = true -> C s) -> wp b t (checkFilePermissions p) Q C s.
Proof.
  intros HQ HC. apply wp_bind. apply wp_read; [by apply wp_ret|]. intros Hb.
  split; [by apply HC|]. intros. by apply wp_ret.
Qed.
