(* ===== verification/Sentinel.v ===== *)
(** * The sentinel file (internal/store/sentinel.go)

    [.tlsrpt-digest-meta.json] records which mailbox the store belongs to, the UIDVALIDITY of the
    last fetch, and whether an operator has to act on a changed one. *)
From S2P Require Import Prelude GoStr GoTime GoErr Tlsrpt StoreTypes Fs Io AtomicFile.

Definition sentinelFilename : string := ".tlsrpt-digest-meta.json".

Definition sentinelPath (rootDir : path) : path := rootDir ++ [sentinelFilename].

(** The checks [loadSentinel] makes on the bytes it read. *)
Definition decode_sentinel (path : path) (data : content) : result (option internalSentinelFile) :=
  match unmarshal_sentinel data with
  | Err err => Err (errorf "loadSentinel: unmarshal sentinel: " err)
  | Ok sentinel =>
      if negb (FormatVersion sentinel =? SentinelFormatVersion)
      then Err (ErrUnsupportedSchemaVersion path (FormatVersion sentinel))
      else Ok (Some sentinel)
  end.

(** [Ok None] when the file does not exist. *)
Definition loadSentinel (rootDir : path) : M (result (option internalSentinelFile)) :=
  let path := sentinelPath rootDir in
  let! r := sys_read_file path in
  match r with
  | Err err =>
      if is_not_exist err then ret (Ok None)
      else ret (Err (errorf "loadSentinel: read sentinel: " err))
  | Ok data => ret (decode_sentinel path data)
  end.

Definition saveSentinel (rootDir : path) (sentinel : internalSentinelFile) : M (result unit) :=
  match marshal_sentinel sentinel with
  | Err err => ret (Err (errorf "saveSentinel: marshal sentinel: " err))
  | Ok data =>
      try! _ := atomicWriteFile (sentinelPath rootDir) data
        else err => ret (Err (errorf "saveSentinel: atomic write: " err)) in
      ret (Ok tt)
  end.

Definition new_sentinel (identity : IMAPIdentity) (t : Time) : internalSentinelFile :=
  {| FormatVersion := SentinelFormatVersion;
     IMAPHost := Host identity;
     IMAPPort := Port identity;
     IMAPMailbox := Mailbox identity;
     InitializedAt := t;
     sf_UIDValidity := None;
     RecoveryRequired := None |}.

Definition initSentinel (rootDir : path) (identity : IMAPIdentity) : M (result internalSentinelFile) :=
  let! t := now in
  let sentinel := new_sentinel identity t in
  try! _ := saveSentinel rootDir sentinel else err => ret (Err err) in
  ret (Ok sentinel).

Definition verifySentinelIdentity (rootDir : path) (sentinel : internalSentinelFile)
    (expected : IMAPIdentity) : result unit :=
  if negb (String.eqb (IMAPHost sentinel) (Host expected))
     || negb (IMAPPort sentinel =? Port expected)
     || negb (String.eqb (IMAPMailbox sentinel) (Mailbox expected))
  then Err (ErrStoreIdentityMismatch rootDir
              {| id_host := Host expected; id_port := Port expected; id_mailbox := Mailbox expected |}
              {| id_host := IMAPHost sentinel; id_port := IMAPPort sentinel;
                 id_mailbox := IMAPMailbox sentinel |})
  else Ok tt.

(** ** What the operations mean for the file system *)

(** The sentinel the file system holds. *)
Definition sentinel_at (root : path) (s : fs) : result (option internalSentinelFile) :=
  match fs_read_file (sentinelPath root) s with
  | Err err =>
      if is_not_exist err then Ok None else Err (errorf "loadSentinel: read sentinel: " err)
  | Ok data => decode_sentinel (sentinelPath root) data
  end.

Definition hard (e : goerr) : Prop := is_not_exist e = false.

Lemma reads_loadSentinel root : reads (loadSentinel root) (sentinel_at root) hard.
Proof.
  intros b t s Q C HQ HF. unfold loadSentinel. apply wp_bind. apply wp_read.
  - unfold sentinel_at in HQ. destruct (fs_read_file _ s); [by apply wp_ret|].
    destruct (is_not_exist e); by apply wp_ret.
  - intros Hb. destruct (HF Hb) as [HC HE]. split; [done|]. intros e He.
    rewrite (injected_not_exist e) by done. apply wp_ret. apply HE.
    unfold hard. autorewrite with go. by apply injected_not_exist.
Qed.

(** The identity a sentinel carries. *)
Definition sentinel_identity (se : internalSentinelFile) : IMAPIdentity :=
  {| Host := IMAPHost se; Port := IMAPPort se; Mailbox := IMAPMailbox se |}.

Lemma verifySentinelIdentity_ok root se idn :
  verifySentinelIdentity root se idn = Ok tt <-> sentinel_identity se = idn.
Proof.
  unfold verifySentinelIdentity, sentinel_identity. destruct idn as [h p m]; simpl.
  destruct (String.eqb_spec (IMAPHost se) h) as [<-|]; simpl; [|naive_solver].
  destruct (Z.eqb_spec (IMAPPort se) p) as [<-|]; simpl; [|naive_solver].
  destruct (String.eqb_spec (IMAPMailbox se) m) as [<-|]; simpl; naive_solver.
Qed.

(** A sentinel the code can write and read back. *)
Definition valid_sentinel (se : internalSentinelFile) : bool :=
  (FormatVersion se =? SentinelFormatVersion) && sentinel_times_ok se.

Lemma decode_encode_sentinel p se :
  valid_sentinel se = true -> decode_sentinel p (JSentinel se) = Ok (Some se).
Proof.
  unfold valid_sentinel, decode_sentinel. intros H. zbool. simpl.
  rewrite H0. by rewrite (proj2 (Z.eqb_eq _ _) H).
Qed.

Lemma sentinel_at_valid root s se : sentinel_at root s = Ok (Some se) -> valid_sentinel se = true.
Proof.
  unfold sentinel_at. destruct (fs_read_file _ s) as [c|e]; [|by destruct (is_not_exist e)].
  unfold decode_sentinel. destruct (unmarshal_sentinel c) as [se'|] eqn:E; [|done].
  destruct (FormatVersion se' =? SentinelFormatVersion) eqn:Ev; [|done].
  simpl. intros [= <-]. unfold valid_sentinel. rewrite Ev. simpl. by eapply unmarshal_sentinel_times.
Qed.

Lemma tmp_free_sentinel : HasPrefix sentinelFilename tmp_prefix = false.
Proof. reflexivity. Qed.

(** The file system in which [se] has been written. *)
Definition with_sentinel (root : path) (se : internalSentinelFile) (s : fs) : fs :=
  written (sentinelPath root) (JSentinel se) s.

(** [saveSentinel] replaces the sentinel or leaves it alone. *)
Lemma wp_saveSentinel root se s (b : bool) (t : Time) (Q : result unit -> fs -> Prop) (C : fs -> Prop) :
  (sentinel_times_ok se = true -> dir_err s root = None -> ~ is_dir_at s (sentinelPath root) ->
     Q (Ok tt) (with_sentinel root se s)) ->
  (forall e s', s ⊑{root} s' ->
     (b = false -> s' = s /\ (sentinel_times_ok se = true -> dir_err s root = None ->
                              is_dir_at s (sentinelPath root))) ->
     Q (Err e) s') ->
  (b = true -> forall s', s ⊑{root} s' \/ sentinel_times_ok se = true /\ s' = with_sentinel root se s -> C s') ->
  wp b t (saveSentinel root se) Q C s.
Proof.
  intros HOk HErr HC. unfold saveSentinel, marshal_sentinel.
  destruct (sentinel_times_ok se) eqn:E; [|apply wp_ret; apply HErr; [done|by split]].
  apply wp_bind. apply wp_atomicWriteFile; [apply tmp_free_sentinel|..].
  - intros H1 H2. apply wp_ret. by apply HOk.
  - intros op e s' H1 H2. apply wp_ret. apply HErr; naive_solver.
  - intros Hb s' [H|[_ H]]; (apply HC; [done|]); auto.
Qed.

(** Reading the root directory's entries. *)
Lemma fs_read_entry root name s : dir_err s root = None ->
  fs_read_file (root ++ [name]) s =
    match s !! (root ++ [name]) with
    | Some (File _ c) => Ok c
    | Some (Dir _) => Err (Errno EISDIR)
    | None => Err (Errno ENOENT)
    end.
Proof. intros H. unfold fs_read_file. rewrite fs_stat_ok by done. by destruct (s !! _). Qed.

(** What is written is what is read. *)
Lemma sentinel_at_with root se s : dir_err s root = None -> valid_sentinel se = true ->
  sentinel_at root (with_sentinel root se s) = Ok (Some se).
Proof.
  intros Hd Hv. unfold sentinel_at, with_sentinel, written, sentinelPath.
  rewrite fs_read_entry by by rewrite dir_err_insert_below.
  rewrite lookup_insert_eq. by apply decode_encode_sentinel.
Qed.
