(* ===== verification/FileStore.v ===== *)
(** * The store object and its data file (internal/store/store.go, reports.go)

    [fileStore] carries the configuration of an open store; its state is the file system. The
    data file [tlsrpt.json] holds the reports and the email index, read and rewritten as a
    whole by every operation on either. *)
From S2P Require Import Prelude GoStr GoTime GoErr Tlsrpt StoreTypes Fs Io AtomicFile Sentinel.

(** store.go: the paths of the store. *)
Definition emailsPath (rootDir : path) : path := rootDir ++ ["emails"].
Definition dataFilePath (rootDir : path) : path := rootDir ++ ["tlsrpt.json"].

Record fileStore := {
  rootDir : path;
  identity : IMAPIdentity;
  mode : OpenMode;
  readOnly : bool;
  dataPath : path;
  emailsDirPath : path
}.

(** The store [Open] returns at its end. *)
Definition newStore (root : path) (idn : IMAPIdentity) (md : OpenMode) : fileStore :=
  {| rootDir := root;
     identity := idn;
     mode := md;
     readOnly := bool_decide (md = OpenReadOnly);
     dataPath := dataFilePath root;
     emailsDirPath := emailsPath root |}.

(** An empty record set, as a missing file is read and as [initDataFile] writes it. *)
Definition empty_data : internalDataFile :=
  {| df_Version := DataFileVersion; df_Reports := []; df_Emails := [] |}.

Definition decode_data (file : path) (data : content) : result internalDataFile :=
  match unmarshal_data data with
  | Err err => Err (JoinE [Sentinel ErrDataCorrupted; errorf "loadDataFile: unmarshal: " err])
  | Ok df =>
      if negb (df_Version df =? DataFileVersion)
      then Err (JoinE [Sentinel ErrDataCorrupted; ErrUnsupportedSchemaVersion file (df_Version df)])
      else Ok df
  end.

Definition loadDataFile (s : fileStore) : M (result internalDataFile) :=
  let! r := sys_read_file (dataPath s) in
  match r with
  | Err err =>
      if is_not_exist err then ret (Ok empty_data)
      else ret (Err (errorf "loadDataFile: read: " err))
  | Ok data => ret (decode_data (dataPath s) data)
  end.

Definition saveDataFile (s : fileStore) (df : internalDataFile) : M (result unit) :=
  match marshal_data df with
  | Err err => ret (Err (errorf "saveDataFile: marshal: " err))
  | Ok data => atomicWriteFile (dataPath s) data
  end.

(** store.go: the data file is created empty when there is none. *)
Definition initDataFile (rootDir : path) : M (result unit) :=
  let path := dataFilePath rootDir in
  let! r := sys_stat path in
  match r with
  | Ok _ => ret (Ok tt)
  | Err err =>
      if negb (is_not_exist err) then ret (Err (errorf "initDataFile: stat: " err))
      else
        match marshal_data empty_data with
        | Err err => ret (Err (errorf "initDataFile: marshal: " err))
        | Ok data => atomicWriteFile path data
        end
  end.

(** ** The state a store's data file has *)

(** What [loadDataFile] reads in a file system. *)
Definition data_at (root : path) (s : fs) : result internalDataFile :=
  match fs_read_file (dataFilePath root) s with
  | Err err => if is_not_exist err then Ok empty_data else Err (errorf "loadDataFile: read: " err)
  | Ok data => decode_data (dataFilePath root) data
  end.

Definition valid_data (df : internalDataFile) : bool :=
  (df_Version df =? DataFileVersion) && data_times_ok df.

Definition with_data (root : path) (df : internalDataFile) (s : fs) : fs :=
  written (dataFilePath root) (JData df) s.

Lemma tmp_free_data : HasPrefix "tlsrpt.json" tmp_prefix = false.
Proof. reflexivity. Qed.

Lemma decode_data_valid f c df : decode_data f c = Ok df -> valid_data df = true.
Proof.
  unfold decode_data. destruct (unmarshal_data c) as [df'|] eqn:E; [|done].
  destruct (df_Version df' =? DataFileVersion) eqn:Ev; simpl; [|done].
  intros [= <-]. unfold valid_data. rewrite Ev. simpl. by eapply unmarshal_data_times.
Qed.

Lemma data_at_valid root s df : data_at root s = Ok df -> valid_data df = true.
Proof.
  unfold data_at. destruct (fs_read_file _ s) as [c|e]; [apply decode_data_valid|].
  destruct (is_not_exist e); [|done]. by intros [= <-].
Qed.

Lemma decode_encode_data p df : valid_data df = true -> decode_data p (JData df) = Ok df.
Proof.
  unfold valid_data, decode_data. intros H. zbool. simpl. rewrite H0.
  by rewrite (proj2 (Z.eqb_eq _ _) H).
Qed.

Lemma data_at_with root df s : dir_err s root = None -> valid_data df = true ->
  data_at root (with_data root df s) = Ok df.
Proof.
  intros Hd Hv. unfold data_at, with_data, written, dataFilePath.
  rewrite fs_read_entry by by rewrite dir_err_insert_below.
  rewrite lookup_insert_eq. by apply decode_encode_data.
Qed.

(** Every error of the data file names a corrupted file, or is an I/O error. *)
Definition corrupt (e : goerr) : bool := is_sentinel ErrDataCorrupted e.

Lemma decode_data_corrupt f c e : decode_data f c = Err e -> corrupt e = true.
Proof.
  unfold decode_data. destruct (unmarshal_data c) as [df'|]; [|by intros [= <-]].
  destruct (negb _); [|done]. by intros [= <-].
Qed.

Section ops.
Context (root : path) (idn : IMAPIdentity) (md : OpenMode).
Local Abbreviation st := (newStore root idn md).

Lemma reads_loadDataFile : reads (loadDataFile st) (data_at root) hard.
Proof.
  intros b t s Q C HQ HF. unfold loadDataFile. apply wp_bind. apply wp_read.
  - unfold data_at in HQ. simpl. destruct (fs_read_file _ s); [by apply wp_ret|].
    destruct (is_not_exist e); by apply wp_ret.
  - intros Hb. destruct (HF Hb) as [HC HE]. split; [done|]. intros e He.
    rewrite (injected_not_exist e) by done. apply wp_ret. apply HE.
    unfold hard. autorewrite with go. by apply injected_not_exist.
Qed.

Lemma wp_saveDataFile df s (b : bool) (t : Time) (Q : result unit -> fs -> Prop) (C : fs -> Prop) :
  (data_times_ok df = true -> dir_err s root = None -> ~ is_dir_at s (dataFilePath root) ->
     Q (Ok tt) (with_data root df s)) ->
  (forall e s', s ⊑{root} s' ->
     (b = false -> s' = s /\ (data_times_ok df = true -> dir_err s root = None ->
                              is_dir_at s (dataFilePath root))) ->
     Q (Err e) s') ->
  (b = true -> forall s', s ⊑{root} s' \/
     (data_times_ok df = true /\ dir_err s root = None /\ s' = with_data root df s) -> C s') ->
  wp b t (saveDataFile st df) Q C s.
Proof.
  intros HOk HErr HC. unfold saveDataFile, marshal_data.
  destruct (data_times_ok df) eqn:E; [|apply wp_ret; apply HErr; [done|by split]].
  apply wp_atomicWriteFile; [apply tmp_free_data|by auto| |naive_solver].
  intros op e s' H1 H2. apply HErr; naive_solver.
Qed.

(** A missing file appears, and an existing one stays as it is. *)
Lemma wp_initDataFile s (b : bool) (t : Time) (Q : result unit -> fs -> Prop) (C : fs -> Prop) :
  (s !! dataFilePath root = None -> dir_err s root = None -> Q (Ok tt) (with_data root empty_data s)) ->
  (s !! dataFilePath root <> None -> Q (Ok tt) s) ->
  (forall e s', s ⊑{root} s' -> (b = false -> s' = s /\ dir_err s root <> None) -> Q (Err e) s') ->
  (b = true -> forall s', s ⊑{root} s' \/
     s !! dataFilePath root = None /\ s' = with_data root empty_data s -> C s') ->
  wp b t (initDataFile root) Q C s.
Proof.
  intros HNew HOld HErr HC. unfold initDataFile. apply wp_bind. apply wp_read.
  2:{ intros Hb. split; [apply HC; auto with go|]. intros e He.
      rewrite (injected_not_exist e) by done. apply wp_ret. apply HErr; [done|congruence]. }
  unfold fs_stat, dataFilePath at 1. rewrite parent_app.
  destruct (dir_err s root) as [e|] eqn:E.
  - assert (forall e', wp b t (ret (Err e')) Q C s) as Herr.
    { intros e'. apply wp_ret. apply HErr; [done|]. by intros _. }
    destruct e; simpl; try apply Herr.
    apply wp_atomicWriteFile; [apply tmp_free_data|congruence| |].
    + intros op e s' H1 H2. apply HErr; [done|]. intros Hb. by destruct (H2 Hb) as [-> _].
    + intros Hb s' [H|[H _]]; [apply HC; auto|congruence].
  - destruct (s !! dataFilePath root) as [n|] eqn:Es; [apply wp_ret; by apply HOld|].
    simpl. apply wp_atomicWriteFile; [apply tmp_free_data|by auto| |].
    + intros op e s' H1 H2. apply HErr; [done|]. intros Hb.
      destruct (H2 Hb) as [_ [k Hk]]; [done|]. unfold dataFilePath in Es. congruence.
    + intros Hb s' [H|[_ H]]; apply HC; auto.
Qed.
End ops.
