(* ===== verification/Reports.v ===== *)
(** * Report records (internal/store/reports.go)

    Reports are kept in the data file, at most one per report id: [SaveReports] replaces the
    record of an id it knows and appends the others. [reports_map] is the specification, a map
    from report ids to reports that [SaveReports] updates; the lemmas below show that the loop
    over the index implements it, and what each operation does on every path, with errors and
    crashes at any system call. *)
From S2P Require Import Prelude GoStr GoTime GoErr Tlsrpt StoreTypes Fs Io AtomicFile Sentinel.
From S2P Require Import FileStore.

(** ** The code *)

(** The index [reportIdx]: the last position of each report id. *)
Definition index_reports (reports : list Report) : gmap string nat :=
  foldl (fun idx ir => <[ReportID ir.2 := ir.1]> idx) ∅ (imap pair reports).

(** One round of the loop over the inputs: [df.Reports] and [reportIdx] after it. *)
Definition upsert_step (st : list Report * gmap string nat) (input : ReportInput)
  : list Report * gmap string nat :=
  let '(reports, reportIdx) := st in
  let r := ri_Report input in
  match reportIdx !! ReportID r with
  | Some i => (<[i := r]> reports, reportIdx)
  | None => (reports ++ [r], <[ReportID r := length reports]> reportIdx)
  end.

Definition upsert_reports (reports : list Report) (inputs : list ReportInput) : list Report :=
  (foldl upsert_step (reports, index_reports reports) inputs).1.

Definition set_reports (rs : list Report) (df : internalDataFile) : internalDataFile :=
  {| df_Version := df_Version df; df_Reports := rs; df_Emails := df_Emails df |}.

Definition SaveReports (s : fileStore) (inputs : list ReportInput) : M (result unit) :=
  if readOnly s then ret (Err (Sentinel ErrReadOnly))
  else
    try! df := loadDataFile s
      else err => ret (Err (errorf "SaveReports: load data file: " err)) in
    saveDataFile s (set_reports (upsert_reports (df_Reports df) inputs) df).

Definition SaveReport (s : fileStore) (input : ReportInput) : M (result unit) :=
  SaveReports s [input].

Definition GetAllReports (s : fileStore) : M (result (list Report)) :=
  try! df := loadDataFile s
    else err => ret (Err (errorf "GetAllReports: load data file: " err)) in
  ret (Ok (df_Reports df)).

(** [r.DateRange.EndDatetime.Before(cutoff)] *)
Definition ended_before (cutoff : Time) (r : Report) : bool :=
  Before (EndDatetime (DateRangeOf r)) cutoff.

(** The loop of [DeleteReportsBefore]: how many reports it drops and which it keeps. *)
Definition sweep_reports (cutoff : Time) (reports : list Report) : Z * list Report :=
  foldl (fun acc r =>
    if ended_before cutoff r then (acc.1 + 1, acc.2) else (acc.1, acc.2 ++ [r]))
    (0, []) reports.

Definition DeleteReportsBefore (s : fileStore) (cutoff : Time) : M (result Z) :=
  if readOnly s then ret (Err (Sentinel ErrReadOnly))
  else
    try! df := loadDataFile s
      else err => ret (Err (errorf "DeleteReportsBefore: load data file: " err)) in
    let '(deleted, surviving) := sweep_reports cutoff (df_Reports df) in
    if deleted =? 0 then ret (Ok 0)
    else
      try! _ := saveDataFile s (set_reports surviving df)
        else err => ret (Err (errorf "DeleteReportsBefore: save data file: " err)) in
      ret (Ok deleted).

Definition CountReportsBefore (s : fileStore) (cutoff : Time) : M (result Z) :=
  try! df := loadDataFile s
    else err => ret (Err (errorf "CountReportsBefore: load data file: " err)) in
  ret (Ok (foldl (fun n r => if ended_before cutoff r then n + 1 else n) 0 (df_Reports df))).

(** ** The index *)

Definition ids (l : list Report) : list string := ReportID <$> l.

(** [idx] knows the ids of [l], and where each was seen last. *)
Definition index_ok (l : list Report) (idx : gmap string nat) : Prop :=
  forall k,
    match idx !! k with
    | Some i =>
        (exists r, l !! i = Some r /\ ReportID r = k) /\
        forall j r, l !! j = Some r -> ReportID r = k -> (j <= i)%nat
    | None => forall j r, l !! j = Some r -> ReportID r <> k
    end.

Lemma index_ok_snoc l idx r :
  index_ok l idx -> index_ok (l ++ [r]) (<[ReportID r := length l]> idx).
Proof.
  intros H k. destruct (decide (ReportID r = k)) as [<-|Hne].
  - rewrite lookup_insert_eq. split.
    + exists r. by rewrite list_lookup_middle.
    + intros j r' Hj _. apply lookup_lt_Some in Hj. rewrite length_app in Hj. simpl in Hj. lia.
  - rewrite lookup_insert_ne by done. specialize (H k). destruct (idx !! k) as [i|].
    + destruct H as [(r' & Hr' & Hk) Hmax]. split.
      * exists r'. split; [|done]. by apply lookup_app_l_Some.
      * intros j r'' Hj Hk''. apply lookup_app_Some in Hj as [Hj|[_ Hj]]; [by eapply Hmax|].
        apply list_lookup_singleton_Some in Hj as [_ <-]. done.
    + intros j r'' Hj. apply lookup_app_Some in Hj as [Hj|[_ Hj]]; [by eapply H|].
      by apply list_lookup_singleton_Some in Hj as [_ <-].
Qed.

Lemma index_reports_snoc l r :
  index_reports (l ++ [r]) = <[ReportID r := length l]> (index_reports l).
Proof.
  unfold index_reports. rewrite imap_app, foldl_app. simpl. by rewrite Nat.add_0_r.
Qed.

Lemma index_reports_ok l : index_ok l (index_reports l).
Proof.
  induction l as [|r l IH] using rev_ind; [intros k; unfold index_reports; simpl; rewrite lookup_empty; by intros j r Hj|].
  rewrite index_reports_snoc. by apply index_ok_snoc.
Qed.

Lemma index_ok_replace l idx i r :
  index_ok l idx -> idx !! ReportID r = Some i -> index_ok (<[i := r]> l) idx.
Proof.
  intros H Hi k. pose proof (H (ReportID r)) as Hr. rewrite Hi in Hr.
  destruct Hr as [(r0 & Hr0 & Hid) Hmax]. specialize (H k).
  assert (forall j r', <[i := r]> l !! j = Some r' -> exists r'', l !! j = Some r'' /\ ReportID r'' = ReportID r')
    as Hsame.
  { intros j r' Hj. apply list_lookup_insert_Some in Hj as [(-> & <- & _)|[_ Hj]].
    - by exists r0.
    - by exists r'. }
  destruct (idx !! k) as [j|] eqn:Ej.
  - destruct H as [(r' & Hr' & Hk) Hm]. split.
    + destruct (decide (i = j)) as [<-|Hne].
      * exists r. split; [apply list_lookup_insert_eq; by eapply lookup_lt_Some|].
        congruence.
      * exists r'. by rewrite list_lookup_insert_ne.
    + intros j' r'' Hj' Hk'. destruct (Hsame _ _ Hj') as (r3 & H3 & Hid3).
      apply (Hm j' r3); congruence.
  - intros j' r'' Hj' Hk'. destruct (Hsame _ _ Hj') as (r3 & H3 & Hid3).
    apply (H j' r3); congruence.
Qed.

Lemma upsert_step_ok l idx inp : index_ok l idx ->
  index_ok (upsert_step (l, idx) inp).1 (upsert_step (l, idx) inp).2.
Proof.
  intros H. simpl. destruct (idx !! ReportID (ri_Report inp)) as [i|] eqn:E; simpl.
  - by apply index_ok_replace.
  - by apply index_ok_snoc.
Qed.

(** ** The specification *)

(** A report list as the map it stands for: the last record of each id. *)
Definition reports_map (l : list Report) : gmap string Report :=
  foldl (fun m r => <[ReportID r := r]> m) ∅ l.

Lemma reports_map_snoc l r : reports_map (l ++ [r]) = <[ReportID r := r]> (reports_map l).
Proof. unfold reports_map. by rewrite foldl_app. Qed.

Lemma reports_map_index l idx k : index_ok l idx ->
  reports_map l !! k = i ← idx !! k; l !! i.
Proof.
  intros H. specialize (H k). revert H. generalize (idx !! k). clear idx.
  induction l as [|r l IH] using rev_ind; intros [i|] H; simpl.
  - by destruct H as [(r & Hr & _) _].
  - apply lookup_empty.
  - destruct H as [(r' & Hr' & Hk) Hm]. rewrite reports_map_snoc, Hr'.
    destruct (decide (ReportID r = k)) as [Heq|Hne].
    + rewrite Heq, lookup_insert_eq. specialize (Hm (length l) r).
      rewrite list_lookup_middle in Hm by done. specialize (Hm eq_refl Heq).
      apply lookup_app_Some in Hr' as [Hr'|[_ Hr']]; [apply lookup_lt_Some in Hr'; lia|].
      by apply list_lookup_singleton_Some in Hr' as [_ ->].
    + rewrite lookup_insert_ne by done.
      apply lookup_app_Some in Hr' as [Hr'|[_ Hr']].
      * rewrite (IH (Some i)); [done|]. split; [by exists r'|].
        intros j r'' Hj. apply Hm. by apply lookup_app_l_Some.
      * apply list_lookup_singleton_Some in Hr' as [_ ->]. done.
  - rewrite reports_map_snoc. rewrite lookup_insert_ne.
    + apply (IH None). intros j r' Hj. apply (H j). by apply lookup_app_l_Some.
    + apply (H (length l)). by apply list_lookup_middle.
Qed.

(** ** The loop implements the specification *)

Definition upsert_map (m : gmap string Report) (inputs : list ReportInput) : gmap string Report :=
  foldl (fun m inp => <[ReportID (ri_Report inp) := ri_Report inp]> m) m inputs.

Lemma reports_map_replace l idx i r :
  index_ok l idx -> idx !! ReportID r = Some i ->
  reports_map (<[i := r]> l) = <[ReportID r := r]> (reports_map l).
Proof.
  intros H Hi. apply map_eq. intros k.
  rewrite (reports_map_index _ idx) by by apply index_ok_replace.
  pose proof (H (ReportID r)) as Hr. rewrite Hi in Hr. destruct Hr as [(r0 & Hr0 & Hid) _].
  destruct (decide (ReportID r = k)) as [<-|Hne].
  - rewrite lookup_insert_eq, Hi. simpl. apply list_lookup_insert_eq. by eapply lookup_lt_Some.
  - rewrite lookup_insert_ne, (reports_map_index l idx k) by done.
    specialize (H k). destruct (idx !! k) as [j|] eqn:Ej; [|done]. simpl.
    apply list_lookup_insert_ne. intros <-. destruct H as [(r1 & Hr1 & Hid1) _]. congruence.
Qed.

Lemma upsert_step_map l idx inp : index_ok l idx ->
  reports_map (upsert_step (l, idx) inp).1
  = <[ReportID (ri_Report inp) := ri_Report inp]> (reports_map l).
Proof.
  intros H. simpl. destruct (idx !! ReportID (ri_Report inp)) as [i|] eqn:E; simpl.
  - by eapply reports_map_replace.
  - apply reports_map_snoc.
Qed.

(** The ids of a round: the old ones, and a new one at the end. *)
Lemma upsert_step_ids l idx inp : index_ok l idx ->
  ids (upsert_step (l, idx) inp).1 =
    if decide (ReportID (ri_Report inp) ∈ ids l) then ids l
    else ids l ++ [ReportID (ri_Report inp)].
Proof.
  intros H. specialize (H (ReportID (ri_Report inp))). simpl.
  destruct (idx !! ReportID (ri_Report inp)) as [i|] eqn:E; simpl.
  - destruct H as [(r & Hr & Hid) _]. unfold ids.
    rewrite list_fmap_insert. rewrite list_insert_id by by rewrite list_lookup_fmap, Hr, <- Hid.
    rewrite decide_True; [done|]. rewrite <- Hid. apply list_elem_of_fmap_2. by eapply list_elem_of_lookup_2.
  - rewrite decide_False; [by unfold ids; rewrite map_app|].
    unfold ids. intros Hin. apply list_elem_of_fmap in Hin as (r & Heq & Hin).
    apply list_elem_of_lookup in Hin as [j Hj]. by apply (H j r).
Qed.

Lemma foldl_upsert_cons st inp inputs :
  foldl upsert_step st (inp :: inputs) = foldl upsert_step (upsert_step st inp) inputs.
Proof. done. Qed.

(** What holds of the list and the index after any number of rounds. *)
Lemma upsert_loop l idx inputs : index_ok l idx ->
  let '(l', idx') := foldl upsert_step (l, idx) inputs in
  index_ok l' idx' /\ reports_map l' = upsert_map (reports_map l) inputs.
Proof.
  revert l idx. induction inputs as [|inp inputs IH]; intros l idx H; [done|]. rewrite foldl_upsert_cons.
  pose proof (upsert_step_ok l idx inp H) as H1. pose proof (upsert_step_map l idx inp H) as H2.
  destruct (upsert_step (l, idx) inp) as [l1 idx1]. simpl in H1, H2.
  specialize (IH l1 idx1 H1). destruct (foldl _ _ inputs) as [l' idx'].
  destruct IH as [Hok Hm]. split; [done|]. rewrite Hm, H2. done.
Qed.

Lemma upsert_reports_map l inputs :
  reports_map (upsert_reports l inputs) = upsert_map (reports_map l) inputs.
Proof.
  unfold upsert_reports. pose proof (upsert_loop l _ inputs (index_reports_ok l)) as H.
  destruct (foldl _ _ inputs). apply H.
Qed.

(** Records keep their place and new ids are appended in the order of the inputs. *)
Definition add_ids (old new : list string) : list string :=
  foldl (fun acc i => if decide (i ∈ acc) then acc else acc ++ [i]) old new.

Lemma upsert_reports_ids l inputs :
  ids (upsert_reports l inputs) = add_ids (ids l) (map (fun i => ReportID (ri_Report i)) inputs).
Proof.
  unfold upsert_reports, add_ids. generalize (index_reports_ok l). generalize (index_reports l).
  revert l. induction inputs as [|inp inputs IH]; intros l idx H; [done|]. rewrite foldl_upsert_cons.
  pose proof (upsert_step_ok l idx inp H) as H1. pose proof (upsert_step_ids l idx inp H) as H2.
  destruct (upsert_step (l, idx) inp) as [l1 idx1]. simpl in H1, H2.
  rewrite (IH l1 idx1 H1), H2. done.
Qed.

Lemma add_ids_NoDup old new : NoDup old -> NoDup (add_ids old new).
Proof.
  unfold add_ids. revert old. induction new as [|i new IH]; intros old H; [done|]. simpl.
  apply IH. case_decide; [done|]. apply list.NoDup_app. split_and!; [done| |by apply NoDup_singleton].
  intros x Hx Hin. apply list_elem_of_singleton in Hin as ->. done.
Qed.

(** ** Deleting and counting *)

Lemma sweep_reports_spec cutoff l :
  sweep_reports cutoff l =
    (count_if (ended_before cutoff) l, List.filter (fun r => negb (ended_before cutoff r)) l).
Proof.
  unfold sweep_reports.
  assert (forall n acc, foldl (fun acc r =>
      if ended_before cutoff r then (acc.1 + 1, acc.2) else (acc.1, acc.2 ++ [r])) (n, acc) l
    = (n + count_if (ended_before cutoff) l,
       acc ++ List.filter (fun r => negb (ended_before cutoff r)) l)) as H.
  { induction l as [|r l IH]; intros n acc; simpl.
    - rewrite app_nil_r. f_equal. unfold count_if. simpl. lia.
    - rewrite count_if_cons. destruct (ended_before cutoff r); simpl; rewrite IH; f_equal; try lia.
      by rewrite <- app_assoc. }
  rewrite H. f_equal.
Qed.

(** The data file after the reports before [cutoff] have been removed. *)
Definition expire_reports (cutoff : Time) (df : internalDataFile) : internalDataFile :=
  set_reports (List.filter (fun r => negb (ended_before cutoff r)) (df_Reports df)) df.

(** ** The operations *)

Section ops.
Context (root : path) (idn : IMAPIdentity) (md : OpenMode).
Local Abbreviation st := (newStore root idn md).

(** Where the data file can be written: the directory is there and nothing else has its name. *)
Definition data_writable (s : fs) : Prop :=
  dir_err s root = None /\ ~ is_dir_at s (dataFilePath root).

(** A write that goes through: the data file now holds [df], or nothing has changed but for a
    temporary file, with an error or a crash. *)
Lemma wp_save_data df s (b : bool) (t : Time) (Q : result unit -> fs -> Prop) (C : fs -> Prop) :
  (data_times_ok df = true -> dir_err s root = None -> Q (Ok tt) (with_data root df s)) ->
  (forall e s', s ⊑{root} s' -> (b = false -> data_times_ok df = true -> ~ data_writable s) -> Q (Err e) s') ->
  (b = true -> forall s', s ⊑{root} s' \/
     (data_times_ok df = true /\ dir_err s root = None /\ s' = with_data root df s) -> C s') ->
  wp b t (saveDataFile st df) Q C s.
Proof.
  intros HOk HErr HC. apply wp_saveDataFile; [by auto| |done].
  intros e s' H1 H2. apply HErr; [done|]. intros Hb Ht [Hd Hn]. destruct (H2 Hb) as [_ H]. auto.
Qed.

Lemma wp_SaveReports inputs s (b : bool) (t : Time) (Q : result unit -> fs -> Prop) (C : fs -> Prop) :
  md <> OpenReadOnly ->
  (forall df, data_at root s = Ok df ->
     let df' := set_reports (upsert_reports (df_Reports df) inputs) df in
     data_times_ok df' = true -> dir_err s root = None -> Q (Ok tt) (with_data root df' s)) ->
  (forall e s', s ⊑{root} s' ->
     (b = false -> forall df, data_at root s = Ok df -> data_writable s ->
        data_times_ok (set_reports (upsert_reports (df_Reports df) inputs) df) = true -> False) ->
     Q (Err e) s') ->
  (b = true -> forall s', s ⊑{root} s' \/ (exists df, data_at root s = Ok df /\
     let df' := set_reports (upsert_reports (df_Reports df) inputs) df in
     data_times_ok df' = true /\ dir_err s root = None /\ s' = with_data root df' s) -> C s') ->
  wp b t (SaveReports st inputs) Q C s.
Proof.
  intros Hmd HOk HErr HC. unfold SaveReports. simpl. rewrite bool_decide_false by done.
  apply wp_bind. apply (reads_loadDataFile root idn md).
  - destruct (data_at root s) as [df|e] eqn:E.
    + apply wp_save_data; [by apply HOk| |].
      * intros e s' H1 H2. apply HErr; [done|]. intros Hb df' [= <-] Hw Ht. by apply H2.
      * intros Hb s' [H|H]; apply HC; eauto.
    + apply wp_ret. apply HErr; [done|]. congruence.
  - intros Hb. split; [apply HC; auto with go|]. intros e _. apply wp_ret.
    apply HErr; [done|congruence].
Qed.

Lemma reads_GetAllReports :
  reads (GetAllReports st)
    (fun s => match data_at root s with
              | Ok df => Ok (df_Reports df)
              | Err err => Err (errorf "GetAllReports: load data file: " err)
              end) (fun _ => True).
Proof.
  apply (reads_bind _ (data_at root) hard _
    (fun r _ => match r with
                | Ok df => Ok (df_Reports df)
                | Err err => Err (errorf "GetAllReports: load data file: " err)
                end)); [apply reads_loadDataFile| |done].
  intros [df|err]; apply (reads_ret (A := list Report)).
Qed.

Lemma reads_CountReportsBefore cutoff :
  reads (CountReportsBefore st cutoff)
    (fun s => match data_at root s with
              | Ok df => Ok (count_if (ended_before cutoff) (df_Reports df))
              | Err err => Err (errorf "CountReportsBefore: load data file: " err)
              end) (fun _ => True).
Proof.
  apply (reads_bind _ (data_at root) hard _
    (fun r _ => match r with
                | Ok df => Ok (count_if (ended_before cutoff) (df_Reports df))
                | Err err => Err (errorf "CountReportsBefore: load data file: " err)
                end)); [apply reads_loadDataFile| |done].
  intros [df|err]; [rewrite foldl_count, Z.add_0_l|]; apply (reads_ret (A := Z)).
Qed.

Lemma wp_DeleteReportsBefore cutoff s (b : bool) (t : Time) (Q : result Z -> fs -> Prop)
    (C : fs -> Prop) :
  md <> OpenReadOnly ->
  (forall df, data_at root s = Ok df ->
     count_if (ended_before cutoff) (df_Reports df) = 0 -> Q (Ok 0) s) ->
  (forall df, data_at root s = Ok df ->
     let n := count_if (ended_before cutoff) (df_Reports df) in
     n <> 0 -> dir_err s root = None -> Q (Ok n) (with_data root (expire_reports cutoff df) s)) ->
  (forall e s', s ⊑{root} s' ->
     (b = false -> forall df, data_at root s = Ok df -> data_writable s -> False) -> Q (Err e) s') ->
  (b = true -> forall s', s ⊑{root} s' \/ (exists df, data_at root s = Ok df /\
     dir_err s root = None /\ s' = with_data root (expire_reports cutoff df) s) -> C s') ->
  wp b t (DeleteReportsBefore st cutoff) Q C s.
Proof.
  intros Hmd H0 HOk HErr HC. unfold DeleteReportsBefore. simpl. rewrite bool_decide_false by done.
  apply wp_bind. apply (reads_loadDataFile root idn md).
  - destruct (data_at root s) as [df|e] eqn:E.
    + rewrite sweep_reports_spec. destruct (Z.eqb_spec (count_if (ended_before cutoff) (df_Reports df)) 0).
      { apply wp_ret. by eapply H0. }
      apply wp_bind. fold (expire_reports cutoff df).
      apply wp_save_data.
      * intros _ Hd. apply wp_ret. by apply HOk.
      * intros e s' H1 H2. apply wp_ret. apply HErr; [done|]. intros Hb df' [= <-] Hw.
        apply H2; [done| |done]. apply data_at_valid in E.
        unfold valid_data, expire_reports, data_times_ok in *. simpl. zbool.
        apply andb_true_iff. split; [|done]. apply forallb_forall. intros r Hr.
        apply filter_In in Hr as [Hr _]. rewrite forallb_forall in H3. by apply H3.
      * intros Hb s' [H|(_ & ? & ?)]; apply HC; eauto.
    + apply wp_ret. apply HErr; [done|]. congruence.
  - intros Hb. split; [apply HC; auto with go|]. intros e _. apply wp_ret.
    apply HErr; [done|congruence].
Qed.
End ops.
