(* ===== verification/Emails.v ===== *)
(** * Stored emails (internal/store/emails.go)

    Raw emails are files under [emails/{uidvalidity}/{YYYYMM}/{uid}.eml]; the data file indexes
    them by uid and uidvalidity with the date they were received. The index and the files are
    written separately: a deletion removes files first, so that a crash leaves an index entry
    without a file and never a file without an entry. *)
From S2P Require Import Prelude GoStr GoTime GoErr Tlsrpt StoreTypes Fs Io AtomicFile Sentinel.
From S2P Require Import FileStore.

Definition pad10 (uid : Z) : string := pad_zeros 10 (fmt_u uid).

(** The components of an email's path below the emails directory. *)
Definition email_rel_path (uid uidValidity : Z) (internalDate : Time) : path :=
  [fmt_u uidValidity; format_yyyymm internalDate; String.append (pad10 uid) ".eml"].

Definition buildEmailPath (rootDir : path) (uid uidValidity : Z) (internalDate : Time) : path :=
  rootDir ++ "emails" :: email_rel_path uid uidValidity internalDate.

Definition SaveEmail (s : fileStore) (uid uidValidity : Z) (internalDate : Time) (rawEML : string)
  : M (result unit) :=
  if readOnly s then ret (Err (Sentinel ErrReadOnly))
  else if IsZero internalDate then ret (Err (Sentinel ErrZeroInternalDate))
  else
    let targetPath := buildEmailPath (rootDir s) uid uidValidity internalDate in
    let! info := sys_stat targetPath in
    match info with
    | Ok n =>
        if negb (is_dir n) then ret (Ok tt)
        else ret (Err (Wrap "" (Sentinel errTargetNotRegularFile)
                         (String.append ": " (path_text targetPath))))
    | Err err =>
        if negb (is_not_exist err) then ret (Err (errorf "SaveEmail: stat: " err))
        else
          let parentDir := parent targetPath in
          try! _ := ensureDirExists parentDir
            else err => ret (Err (errorf "SaveEmail: ensure dir: " err)) in
          atomicWriteFile targetPath (Raw rawEML)
    end.

(** ** The index *)

Definition set_emails (es : list EmailMeta) (df : internalDataFile) : internalDataFile :=
  {| df_Version := df_Version df; df_Reports := df_Reports df; df_Emails := es |}.

(** The loop of [SaveEmailMetas] over the index and the set of known keys; [None] when it returns
    [ErrZeroInternalDate]. *)
Fixpoint add_metas (emails : list EmailMeta) (existing : gset emailKey) (metas : list EmailMeta)
  : option (list EmailMeta) :=
  match metas with
  | [] => Some emails
  | meta :: metas' =>
      if IsZero (InternalDate meta) then None
      else if decide (key_of meta ∈ existing) then add_metas emails existing metas'
      else add_metas (emails ++ [meta]) ({[key_of meta]} ∪ existing) metas'
  end.

Definition existing_keys (emails : list EmailMeta) : gset emailKey := list_to_set (key_of <$> emails).

Definition SaveEmailMetas (s : fileStore) (metas : list EmailMeta) : M (result unit) :=
  if readOnly s then ret (Err (Sentinel ErrReadOnly))
  else
    try! df := loadDataFile s
      else err => ret (Err (errorf "SaveEmailMetas: load data file: " err)) in
    match add_metas (df_Emails df) (existing_keys (df_Emails df)) metas with
    | None => ret (Err (Sentinel ErrZeroInternalDate))
    | Some emails => saveDataFile s (set_emails emails df)
    end.

(** ** Loading *)

(** [internalDateFromEmailPath] on the split path. *)
Definition internalDateFromEmailPath (relPath : path) : result Time :=
  match relPath with
  | [_; yyyymm; _] =>
      match parse_yyyymm yyyymm with
      | Some t => Ok t
      | None => Err (ErrInvalidEmailPath relPath)
      end
  | _ => Err (ErrInvalidEmailPath relPath)
  end.

Definition loadIndexedEmailDates (s : fileStore) : M (gmap emailKey Time) :=
  let! r := loadDataFile s in
  match r with
  | Err _ => ret ∅
  | Ok df => ret (foldl (fun m e => <[key_of e := InternalDate e]> m) ∅ (df_Emails df))
  end.

Definition validateEmailsDir (emailsDir : path) : M (result bool) :=
  let! info := sys_stat emailsDir in
  match info with
  | Err err =>
      if is_not_exist err then ret (Ok false)
      else ret (Err (errorf "LoadEmails: stat emails dir: " err))
  | Ok n =>
      if negb (is_dir n)
      then ret (Err (Wrap "" (Sentinel ErrEmailsPathNotDirectory)
                       (String.append ": " (path_text emailsDir))))
      else ret (Ok true)
  end.

Section load.
(** [mail.ReadMessage] of the standard library. *)
Context {Message : Type} (ReadMessage : content -> result Message).

Record LoadedEmail := {
  le_Message : Message;
  le_UID : Z;
  le_UIDValidity : Z;
  le_InternalDate : Time;
  le_Path : path
}.

(** [result] and [errs] of [LoadEmails]. *)
Definition load_acc : Type := list LoadedEmail * list goerr.
Definition add_err (e : goerr) (acc : load_acc) : load_acc := (acc.1, acc.2 ++ [e]).
Definition add_email (m : LoadedEmail) (acc : load_acc) : load_acc := (acc.1 ++ [m], acc.2).

(** The key and the date an email's path stands for. *)
Definition email_of_path (indexedDates : gmap emailKey Time) (full relPath : path)
  : result (Z * Z * Time) :=
  let invalid := ErrLoadEmailFailed full 0 0 (ErrInvalidEmailPath relPath) in
  match relPath with
  | [uv; mm; file] =>
      match ParseUint32 uv with
      | None => Err invalid
      | Some uidValidity =>
          match ParseUint32 (TrimSuffix file ".eml") with
          | None => Err invalid
          | Some uid =>
              match indexedDates !! (uid, uidValidity) with
              | Some d => Ok (uid, uidValidity, d)
              | None =>
                  match internalDateFromEmailPath relPath with
                  | Ok d => Ok (uid, uidValidity, d)
                  | Err e => Err (ErrLoadEmailFailed full uid uidValidity e)
                  end
              end
          end
      end
  | _ => Err invalid
  end.

(** The callback of [filepath.WalkDir] on an entry without an error: it never stops the walk. *)
Definition load_entry (indexedDates : gmap emailKey Time) (emailsDir full : path) (isDir : bool)
    (acc : load_acc) : M load_acc :=
  if isDir then ret acc
  else if negb (String.eqb (Ext (base full)) ".eml") then ret acc
  else
    let relPath := default [] (strip emailsDir full) in
    match email_of_path indexedDates full relPath with
    | Err err => ret (add_err err acc)
    | Ok (uid, uidValidity, internalDate) =>
        let! data := sys_read_file full in
        match data with
        | Err readErr => ret (add_err (ErrLoadEmailFailed full uid uidValidity readErr) acc)
        | Ok data =>
            match ReadMessage data with
            | Err parseErr => ret (add_err (ErrLoadEmailFailed full uid uidValidity parseErr) acc)
            | Ok msg =>
                ret (add_email {| le_Message := msg; le_UID := uid; le_UIDValidity := uidValidity;
                                  le_InternalDate := internalDate; le_Path := relPath |} acc)
            end
        end
    end.

(** The callback on an error: only an [.eml] entry lets the walk go on. *)
Definition load_entry_err (full : path) (err : goerr) (acc : load_acc) : load_acc * option goerr :=
  if String.eqb (Ext (base full)) ".eml"
  then (add_err (ErrLoadEmailFailed full 0 0 err) acc, None)
  else (acc, Some err).

(** [filepath.WalkDir] below an entry, in lexical order. A path has as many components as the
    walk has levels, so [fuel] bounds the depth of the tree. *)
Fixpoint walk_dir (fuel : nat) (indexedDates : gmap emailKey Time) (emailsDir full : path)
    (isDir : bool) (acc : load_acc) : M (load_acc * option goerr) :=
  match fuel with
  | O => ret (acc, None)
  | S fuel' =>
      let! acc := load_entry indexedDates emailsDir full isDir acc in
      if negb isDir then ret (acc, None)
      else
        let! dirs := sys_read_dir full in
        let '(acc, stop, dirs) :=
          match dirs with
          | Ok dirs => (acc, None, dirs)
          | Err err => (load_entry_err full err acc, [])
          end in
        match (stop : option goerr) with
        | Some err => ret (acc, Some err)
        | None =>
            (fix go (dirs : list (string * bool)) (acc : load_acc) : M (load_acc * option goerr) :=
               match dirs with
               | [] => ret (acc, None)
               | (name, d) :: dirs' =>
                   let! r := walk_dir fuel' indexedDates emailsDir (full ++ [name]) d acc in
                   let '(acc, stop) := r in
                   match (stop : option goerr) with
                   | Some err => ret (acc, Some err)
                   | None => go dirs' acc
                   end
               end) dirs acc
        end
  end.

(** Enough levels for a walk. *)
Definition depth_fuel : M nat := Prog.call Height.

Definition LoadEmails (s : fileStore) : M (result (list LoadedEmail * option goerr)) :=
  let emailsDir := emailsDirPath s in
  try! found := validateEmailsDir emailsDir else err => ret (Err err) in
  if negb found then ret (Ok ([], None))
  else
    let! indexedDates := loadIndexedEmailDates s in
    let! fuel := depth_fuel in
    let! root := sys_stat emailsDir in
    let! r :=
      match root with
      | Err err => ret (load_entry_err emailsDir err ([], []))
      | Ok n => walk_dir fuel indexedDates emailsDir emailsDir (is_dir n) ([], [])
      end in
    let '((result, errs), walkErr) := r in
    ret (Ok (result, join_errs (map Some errs ++ [walkErr]))).
End load.

(** ** Deleting *)

Definition expired (cutoff : Time) (e : EmailMeta) : bool := Before (InternalDate e) cutoff.

(** [deleted], [gcEntries], [surviving] and [deleteErrs] of [DeleteEmailsBefore]. *)
Record sweep := {
  sw_deleted : Z;
  sw_gc : list EmailMeta;
  sw_surviving : list EmailMeta;
  sw_errs : list goerr
}.

Definition keep_entry (e : EmailMeta) (errs : list goerr) (a : sweep) : sweep :=
  {| sw_deleted := sw_deleted a; sw_gc := sw_gc a; sw_surviving := sw_surviving a ++ [e];
     sw_errs := sw_errs a ++ errs |}.
Definition drop_entry (e : EmailMeta) (a : sweep) : sweep :=
  {| sw_deleted := sw_deleted a + 1; sw_gc := sw_gc a ++ [e]; sw_surviving := sw_surviving a;
     sw_errs := sw_errs a |}.

Definition entry_path (rootDir : path) (e : EmailMeta) : path :=
  buildEmailPath rootDir (UID e) (UIDValidity e) (InternalDate e).

Fixpoint delete_loop (rootDir : path) (cutoff : Time) (emails : list EmailMeta) (a : sweep) : M sweep :=
  match emails with
  | [] => ret a
  | entry :: emails' =>
      if negb (expired cutoff entry) then delete_loop rootDir cutoff emails' (keep_entry entry [] a)
      else
        let emlPath := entry_path rootDir entry in
        let! rmErr := sys_remove emlPath in
        match rmErr with
        | Err rmErr =>
            if negb (is_not_exist rmErr)
            then
              delete_loop rootDir cutoff emails'
                (keep_entry entry [ErrDeleteEmailFailed emlPath (UID entry) (UIDValidity entry) rmErr] a)
            else delete_loop rootDir cutoff emails' (drop_entry entry a)
        | Ok _ => delete_loop rootDir cutoff emails' (drop_entry entry a)
        end
  end.

(** A directory is removed when it is empty; failures are logged. *)
Fixpoint remove_empty (dirs : list path) : M unit :=
  match dirs with
  | [] => ret tt
  | dir :: dirs' =>
      let! entries := sys_read_dir dir in
      match entries with
      | Err _ => remove_empty dirs'
      | Ok [] => let! _ := sys_remove dir in remove_empty dirs'
      | Ok _ => remove_empty dirs'
      end
  end.

(** The keys of the Go maps [mmDirs] and [uvDirs], each once; the code visits them in the order
    of a map, this in the order of the entries. *)
Definition mm_dirs (emailsDir : path) (gcEntries : list EmailMeta) : list path :=
  remove_dups (map (fun e =>
    emailsDir ++ [fmt_u (UIDValidity e); format_yyyymm (InternalDate e)]) gcEntries).
Definition uv_dirs (emailsDir : path) (gcEntries : list EmailMeta) : list path :=
  remove_dups (map (fun e => emailsDir ++ [fmt_u (UIDValidity e)]) gcEntries).

Definition cleanupEmptyDirs (s : fileStore) (gcEntries : list EmailMeta) : M unit :=
  let emailsDir := emailsDirPath s in
  let! _ := remove_empty (mm_dirs emailsDir gcEntries) in
  remove_empty (uv_dirs emailsDir gcEntries).

(** The count and the joined error are returned together. *)
Definition DeleteEmailsBefore (s : fileStore) (cutoff : Time) : M (Z * option goerr) :=
  if readOnly s then ret (0, Some (Sentinel ErrReadOnly))
  else if IsZero cutoff then ret (0, None)
  else
    try! df := loadDataFile s
      else loadErr => ret (0, Some (errorf "DeleteEmailsBefore: load data file: " loadErr)) in
    let! a := delete_loop (rootDir s) cutoff (df_Emails df)
      {| sw_deleted := 0; sw_gc := []; sw_surviving := []; sw_errs := [] |} in
    if sw_deleted a =? 0 then ret (0, join_errs (map Some (sw_errs a)))
    else
      let! saveErr := saveDataFile s (set_emails (sw_surviving a) df) in
      match saveErr with
      | Err saveErr =>
          ret (sw_deleted a, join_errs (map Some
            (sw_errs a ++ [errorf "DeleteEmailsBefore: save data file: " saveErr])))
      | Ok _ =>
          let! _ := cleanupEmptyDirs s (sw_gc a) in
          ret (sw_deleted a, join_errs (map Some (sw_errs a)))
      end.

Definition CountEmailsBefore (s : fileStore) (cutoff : Time) : M (result Z) :=
  if IsZero cutoff then ret (Ok 0)
  else
    try! df := loadDataFile s
      else err => ret (Err (errorf "CountEmailsBefore: load data file: " err)) in
    ret (Ok (foldl (fun n e => if expired cutoff e then n + 1 else n) 0 (df_Emails df))).
