(* ===== verification/Recovery.v ===== *)
(** * Recovery and the discard-old reset (internal/store/recovery.go)

    When the mailbox's UIDVALIDITY changes the sentinel gets a [recovery_required] record, and an
    operator either keeps the old data ([ApplyRecovery]) or discards it ([ResetForRecovery]). The
    reset is a write-ahead protocol over a manifest file: the manifest is written, the data file
    and the emails directory are moved to a staging directory, the sentinel is committed, the
    manifest is marked committed, and what is left is removed. This file is the code; its
    crash-safety is in Reset.v. *)
From S2P Require Import Prelude GoStr GoTime GoErr Tlsrpt StoreTypes Fs Io AtomicFile Sentinel FileStore.

Definition guardFilename : string := ".tlsrpt-digest-summary.lock".
Definition manifestFilename : string := ".tlsrpt-digest-reset-manifest.json".
Definition stagingDirName : string := ".tlsrpt-digest-staging".

Definition guardFilePath (rootDir : path) : path := rootDir ++ [guardFilename].
Definition resetManifestPath (rootDir : path) : path := rootDir ++ [manifestFilename].
Definition resetStagingPath (rootDir : path) : path := rootDir ++ [stagingDirName].

Definition validateManifestPhase (p : Z) : result unit :=
  if negb (p =? resetPhaseManifestWritten) && negb (p =? resetPhaseCommitted)
  then Err (ErrResetManifestPhaseUnknown p)
  else Ok tt.

Definition writeResetManifest (path : path) (m : resetManifest) : M (result unit) :=
  match marshal_manifest m with
  | Err err => ret (Err (errorf "writeResetManifest: marshal: " err))
  | Ok data => atomicWriteFile path data
  end.

Definition readResetManifest (path : path) : M (result resetManifest) :=
  try! data := sys_read_file path
    else err => ret (Err (errorf "readResetManifest: read: " err)) in
  match unmarshal_manifest data with
  | Err err => ret (Err (errorf "readResetManifest: unmarshal: " err))
  | Ok m => ret (Ok m)
  end.

(** [os.Remove(path)] where a missing file is as good as a removed one. *)
Definition remove_if_exists (path : path) : M (result unit) :=
  let! r := sys_remove path in
  match r with
  | Err err => if negb (is_not_exist err) then ret (Err err) else ret (Ok tt)
  | Ok _ => ret (Ok tt)
  end.

Definition removeStaleCommittedManifest (stagingPath manifestPath : path) : M (result unit) :=
  try! _ := sys_remove_all stagingPath
    else err => ret (Err (errorf "ResetForRecovery: clean stale staging: " err)) in
  try! _ := remove_if_exists manifestPath
    else err => ret (Err (errorf "ResetForRecovery: remove stale committed manifest: " err)) in
  ret (Ok tt).

(** The best-effort tail shared by the two cleanups below: errors are logged. *)
Definition remove_leftovers (rootDir manifestPath : path) : M (result unit) :=
  let! _ := sys_remove_all (resetStagingPath rootDir) in
  let! _ := sys_remove manifestPath in
  ret (Ok tt).

Definition cleanupCompletedReset (rootDir : path) : M (result unit) :=
  let manifestPath := resetManifestPath rootDir in
  let! r := readResetManifest manifestPath in
  match r with
  | Err err =>
      if is_not_exist err then
        let stagingPath := resetStagingPath rootDir in
        let! st := sys_stat stagingPath in
        match st with
        | Ok _ => let! _ := sys_remove_all stagingPath in ret (Ok tt)
        | Err _ => ret (Ok tt)
        end
      else ret (Err (errorf "cleanupCompletedReset: read manifest: " err))
  | Ok mfst =>
      if negb (rm_Version mfst =? resetManifestVersion)
      then ret (Err (ErrResetManifestVersionMismatch (rm_Version mfst) resetManifestVersion))
      else
        match validateManifestPhase (rm_Phase mfst) with
        | Err err => ret (Err err)
        | Ok _ =>
            try! sentinel := loadSentinel rootDir
              else err => ret (Err (errorf "cleanupCompletedReset: load sentinel: " err)) in
            match sentinel with
            | None => ret (Err (Sentinel ErrPendingReset))
            | Some sentinel =>
                match RecoveryRequired sentinel with
                | Some rr =>
                    if negb (rm_CurrUIDValidity mfst =? CurrUIDValidity rr)
                    then remove_leftovers rootDir manifestPath
                    else ret (Err (Sentinel ErrPendingReset))
                | None => remove_leftovers rootDir manifestPath
                end
            end
        end
  end.

(** ** The guard file *)

Definition withGuardExclusive (s : fileStore) (fn : M (result unit)) : M (result unit) :=
  try! _ := sys_open_create (guardFilePath (rootDir s)) filePerm
    else err => ret (Err (errorf "withGuardExclusive: open guard file: " err)) in
  defer sys_close_guard (
    try! _ := sys_flock_ex
      else err => ret (Err (errorf "withGuardExclusive: acquire exclusive lock: " err)) in
    fn).

(** [SummaryConsistencyGuard]: the real one holds the shared lock of the guard file. *)
Inductive SummaryConsistencyGuard : Type :=
  | noopSummaryConsistencyGuard
  | summaryConsistencyGuardImpl (rootDir : path).

Definition CheckRecoveryRequired (g : SummaryConsistencyGuard) : M (result bool) :=
  match g with
  | noopSummaryConsistencyGuard => ret (Ok false)
  | summaryConsistencyGuardImpl rootDir =>
      try! sentinel := loadSentinel rootDir
        else err => ret (Err (errorf "CheckRecoveryRequired: load sentinel: " err)) in
      match sentinel with
      | None => ret (Ok false)
      | Some se => ret (Ok (match RecoveryRequired se with None => false | Some _ => true end))
      end
  end.

Definition AcquireSummaryConsistencyGuard (s : fileStore) : M (result SummaryConsistencyGuard) :=
  let lock_sh :=
    try! _ := sys_flock_sh
      else err =>
        let! _ := sys_close in
        ret (Err (errorf "AcquireSummaryConsistencyGuard: acquire shared lock: " err)) in
    ret (Ok (summaryConsistencyGuardImpl (rootDir s))) in
  let! st := sys_stat (rootDir s) in
  if match st with Err err => is_not_exist err | Ok _ => false end
  then ret (Ok noopSummaryConsistencyGuard)
  else
    let guardPath := guardFilePath (rootDir s) in
    let! f := sys_open_rdonly guardPath in
    match f with
    | Ok _ => lock_sh
    | Err err =>
        if negb (is_not_exist err)
        then ret (Err (errorf "AcquireSummaryConsistencyGuard: open guard file: " err))
        else
          try! _ := sys_open_create guardPath filePerm
            else err => ret (Err (errorf "AcquireSummaryConsistencyGuard: create guard file: " err)) in
          lock_sh
    end.

(** ** Staging *)

Definition stageDataFile (rootDir stagingPath : path) : M (result unit) :=
  let dataPath := dataFilePath rootDir in
  let! st := sys_stat dataPath in
  match st with
  | Ok _ =>
      try! _ := sys_rename dataPath (stagingPath ++ ["tlsrpt.json"])
        else err => ret (Err (errorf "stageDataFile: move data file: " err)) in
      ret (Ok tt)
  | Err err =>
      if negb (is_not_exist err) then ret (Err (errorf "stageDataFile: stat data file: " err))
      else ret (Ok tt)
  end.

Definition stageEmailsDir (rootDir stagingPath : path) : M (result unit) :=
  let emailsDir := emailsPath rootDir in
  let! st := sys_stat emailsDir in
  match st with
  | Ok _ =>
      try! _ := sys_rename emailsDir (stagingPath ++ ["emails"])
        else err => ret (Err (errorf "stageEmailsDir: move emails dir: " err)) in
      ret (Ok tt)
  | Err err =>
      if negb (is_not_exist err) then ret (Err (errorf "stageEmailsDir: stat emails dir: " err))
      else ret (Ok tt)
  end.

(** ** The sentinel's UIDVALIDITY and recovery state *)

Definition loadOrInitSentinelForWrite (s : fileStore) : M (result internalSentinelFile) :=
  try! sentinel := loadSentinel (rootDir s) else err => ret (Err err) in
  match sentinel with
  | Some se => ret (Ok se)
  | None => let! t := now in ret (Ok (new_sentinel (identity s) t))
  end.

Definition SaveUIDValidity (s : fileStore) (v : Z) : M (result unit) :=
  if readOnly s then ret (Err (Sentinel ErrReadOnly))
  else
    try! sentinel := loadOrInitSentinelForWrite s
      else err => ret (Err (errorf "SaveUIDValidity: load sentinel: " err)) in
    try! _ := saveSentinel (rootDir s) (set_uidvalidity (Some v) sentinel)
      else err => ret (Err (errorf "SaveUIDValidity: save sentinel: " err)) in
    ret (Ok tt).

Definition LoadUIDValidity (s : fileStore) : M (result (option Z)) :=
  try! sentinel := loadSentinel (rootDir s)
    else err => ret (Err (errorf "LoadUIDValidity: load sentinel: " err)) in
  ret (Ok (se ← sentinel; sf_UIDValidity se)).

Definition SaveRecoveryRequired (s : fileStore) (prev curr : Z) (detectedAt : Time) : M (result unit) :=
  if readOnly s then ret (Err (Sentinel ErrReadOnly))
  else
    withGuardExclusive s (
      try! sentinel := loadOrInitSentinelForWrite s
        else err => ret (Err (errorf "SaveRecoveryRequired: load sentinel: " err)) in
      try! _ := saveSentinel (rootDir s) (set_recovery (Some
          {| PrevUIDValidity := prev; CurrUIDValidity := curr; DetectedAt := detectedAt |}) sentinel)
        else err => ret (Err (errorf "SaveRecoveryRequired: save sentinel: " err)) in
      ret (Ok tt)).

Definition LoadRecoveryRequired (s : fileStore) : M (result (option internalRecoveryState)) :=
  try! sentinel := loadSentinel (rootDir s)
    else err => ret (Err (errorf "LoadRecoveryRequired: load sentinel: " err)) in
  ret (Ok (se ← sentinel; RecoveryRequired se)).

Definition ClearRecoveryRequired (s : fileStore) : M (result unit) :=
  if readOnly s then ret (Err (Sentinel ErrReadOnly))
  else
    withGuardExclusive s (
      try! sentinel := loadSentinel (rootDir s)
        else err => ret (Err (errorf "ClearRecoveryRequired: load sentinel: " err)) in
      match sentinel with
      | None => ret (Ok tt)
      | Some sentinel =>
          try! _ := saveSentinel (rootDir s) (set_recovery None sentinel)
            else err => ret (Err (errorf "ClearRecoveryRequired: save sentinel: " err)) in
          ret (Ok tt)
      end).

Definition HasPendingReset (s : fileStore) : M (result bool) :=
  let! r := readResetManifest (resetManifestPath (rootDir s)) in
  match r with
  | Err err =>
      if is_not_exist err then ret (Ok false) else ret (Err (errorf "HasPendingReset: " err))
  | Ok mfst =>
      if negb (rm_Version mfst =? resetManifestVersion)
      then ret (Err (ErrResetManifestVersionMismatch (rm_Version mfst) resetManifestVersion))
      else
        match validateManifestPhase (rm_Phase mfst) with
        | Err err => ret (Err err)
        | Ok _ => ret (Ok (negb (rm_Phase mfst =? resetPhaseCommitted)))
        end
  end.

(** The commit both [ApplyRecovery] and [commitReset] write: one sentinel with both changes. *)
Definition commit_sentinel (uid : Z) (se : internalSentinelFile) : internalSentinelFile :=
  set_uidvalidity (Some uid) (set_recovery None se).

Definition ApplyRecovery (s : fileStore) (newUIDValidity : Z) : M (result unit) :=
  if readOnly s then ret (Err (Sentinel ErrReadOnly))
  else
    try! pending := HasPendingReset s
      else err => ret (Err (errorf "ApplyRecovery: check pending reset: " err)) in
    if (pending : bool) then ret (Err (Sentinel ErrPendingReset))
    else
      withGuardExclusive s (
        try! sentinel := loadOrInitSentinelForWrite s
          else err => ret (Err (errorf "ApplyRecovery: load sentinel: " err)) in
        try! _ := saveSentinel (rootDir s) (commit_sentinel newUIDValidity sentinel)
          else err => ret (Err (errorf "ApplyRecovery: save sentinel: " err)) in
        ret (Ok tt)).

(** ** ResetForRecovery *)

Definition initResetManifest (s : fileStore) (currUIDValidity : Z) (stagingPath manifestPath : path)
  : M (result resetManifest) :=
  try! rr := LoadRecoveryRequired s
    else err => ret (Err (errorf "ResetForRecovery: load recovery-required: " err)) in
  match rr with
  | None => ret (Err (Sentinel ErrRecoveryRequiredMissing))
  | Some rr =>
      if negb (CurrUIDValidity rr =? currUIDValidity)
      then ret (Err (ErrRecoveryUIDValidityMismatch currUIDValidity (CurrUIDValidity rr)))
      else
        try! _ := sys_remove_all stagingPath
          else err => ret (Err (errorf "ResetForRecovery: clean stale staging dir: " err)) in
        try! _ := sys_mkdir_all stagingPath dirPerm
          else err => ret (Err (errorf "ResetForRecovery: create staging dir: " err)) in
        let mfst := {| rm_Version := resetManifestVersion; rm_CurrUIDValidity := currUIDValidity;
                       rm_Phase := resetPhaseManifestWritten |} in
        try! _ := writeResetManifest manifestPath mfst
          else err => ret (Err (errorf "ResetForRecovery: write manifest: " err)) in
        ret (Ok mfst)
  end.

Definition commitReset (s : fileStore) (manifestPath : path) (currUIDValidity : Z) : M (result unit) :=
  withGuardExclusive s (
    try! sentinel := loadOrInitSentinelForWrite s
      else err => ret (Err (errorf "commitReset: load sentinel: " err)) in
    try! _ := saveSentinel (rootDir s) (commit_sentinel currUIDValidity sentinel)
      else err => ret (Err (errorf "commitReset: save sentinel: " err)) in
    writeResetManifest manifestPath
      {| rm_Version := resetManifestVersion; rm_CurrUIDValidity := currUIDValidity;
         rm_Phase := resetPhaseCommitted |}).

Definition advanceResetPhases (s : fileStore) (currUIDValidity : Z) (stagingPath manifestPath : path)
  : M (result unit) :=
  try! _ := sys_mkdir_all stagingPath dirPerm
    else err => ret (Err (errorf "advanceResetPhases: ensure staging dir: " err)) in
  try! _ := stageDataFile (rootDir s) stagingPath
    else err => ret (Err (errorf "advanceResetPhases: stage data file: " err)) in
  try! _ := stageEmailsDir (rootDir s) stagingPath
    else err => ret (Err (errorf "advanceResetPhases: stage emails dir: " err)) in
  try! _ := commitReset s manifestPath currUIDValidity
    else err => ret (Err (errorf "advanceResetPhases: commit: " err)) in
  ret (Ok tt).

Definition executeResetFromManifest (s : fileStore) (mfst : resetManifest)
    (stagingPath manifestPath : path) : M (result unit) :=
  let currUIDValidity := rm_CurrUIDValidity mfst in
  try! _ := advanceResetPhases s currUIDValidity stagingPath manifestPath
    else err => ret (Err err) in
  let! _ := sys_remove_all stagingPath in
  try! _ := remove_if_exists manifestPath
    else err => ret (Err (errorf "ResetForRecovery: remove manifest: " err)) in
  ret (Ok tt).

Definition resumeOrCleanupCommitted (s : fileStore) (currUIDValidity : Z)
    (stagingPath manifestPath : path) : M (result unit) :=
  try! _ := removeStaleCommittedManifest stagingPath manifestPath else err => ret (Err err) in
  try! found := LoadRecoveryRequired s
    else err =>
      ret (Err (errorf "ResetForRecovery: reload recovery-required after committed cleanup: " err)) in
  match found with
  | None => ret (Ok tt)
  | Some _ =>
      try! mfst := initResetManifest s currUIDValidity stagingPath manifestPath
        else err => ret (Err err) in
      executeResetFromManifest s mfst stagingPath manifestPath
  end.

(** The fresh start, and the resumption from a manifest. *)
Definition reset_from_start (s : fileStore) (currUIDValidity : Z) (stagingPath manifestPath : path)
  : M (result unit) :=
  try! mfst := initResetManifest s currUIDValidity stagingPath manifestPath
    else err => ret (Err err) in
  executeResetFromManifest s mfst stagingPath manifestPath.

Definition ResetForRecovery (s : fileStore) (currUIDValidity : Z) : M (result unit) :=
  if negb (bool_decide (mode s = OpenRecoverReset)) then ret (Err (Sentinel ErrInvalidStoreMode))
  else
    let manifestPath := resetManifestPath (rootDir s) in
    let stagingPath := resetStagingPath (rootDir s) in
    let! r := readResetManifest manifestPath in
    match r with
    | Err manifestErr =>
        if negb (is_not_exist manifestErr)
        then ret (Err (errorf "ResetForRecovery: read manifest: " manifestErr))
        else reset_from_start s currUIDValidity stagingPath manifestPath
    | Ok mfst =>
        if negb (rm_Version mfst =? resetManifestVersion)
        then ret (Err (ErrResetManifestVersionMismatch (rm_Version mfst) resetManifestVersion))
        else
          match validateManifestPhase (rm_Phase mfst) with
          | Err err => ret (Err err)
          | Ok _ =>
              if rm_Phase mfst =? resetPhaseCommitted
              then resumeOrCleanupCommitted s currUIDValidity stagingPath manifestPath
              else if (rm_Phase mfst <? resetPhaseCommitted) && negb (currUIDValidity =? 0)
                      && negb (rm_CurrUIDValidity mfst =? currUIDValidity)
              then
                try! _ := removeStaleCommittedManifest stagingPath manifestPath
                  else err => ret (Err err) in
                reset_from_start s currUIDValidity stagingPath manifestPath
              else executeResetFromManifest s mfst stagingPath manifestPath
          end
    end.
