(* ===== verification/Reset.v ===== *)
(** * Crash safety of the discard-old reset (internal/store/recovery.go, ADR-0003)

    [Inv] holds from the moment a UIDVALIDITY change has been recorded until the reset it asks for
    is complete. Either nothing has been touched ([Pre0]), or the manifest is on disk and each of
    the data file and the emails directory is in one piece, in its place or in the staging
    directory ([Pre1]), or the sentinel has been committed and the old data is out of the store
    ([Post]). [ResetForRecovery] keeps [Inv] at every crash and every error, and without faults
    it completes the reset from any state of [Inv] that still asks for it. *)
From S2P Require Import Prelude GoStr GoTime GoErr Tlsrpt StoreTypes Fs Io AtomicFile Sentinel.
From S2P Require Import FileStore Recovery.

Create HintDb frame.

(** Names of the root directory are told apart by computation. *)
Ltac name_ne :=
  let H := fresh in intros H; vm_compute in H;
  first [discriminate H | congruence | intuition discriminate].

Section files.
Context (root : path).

Definition SentIs (se : internalSentinelFile) (s : fs) : Prop :=
  exists k, s !! (root ++ [sentinelFilename]) = Some (File k (JSentinel se)).
Definition ManNone (s : fs) : Prop := s !! (root ++ [manifestFilename]) = None.
Definition ManIs (m : resetManifest) (s : fs) : Prop :=
  exists k, s !! (root ++ [manifestFilename]) = Some (File k (JManifest m)).
(** The root directory resolves and the guard file can be opened. *)
Definition Base (s : fs) : Prop :=
  dir_err s root = None /\ ~ is_dir_at s (root ++ [guardFilename]).

(** ** The manifest *)

Definition manifest_at (s : fs) : result resetManifest :=
  match fs_read_file (resetManifestPath root) s with
  | Err err => Err (errorf "readResetManifest: read: " err)
  | Ok data =>
      match unmarshal_manifest data with
      | Err err => Err (errorf "readResetManifest: unmarshal: " err)
      | Ok m => Ok m
      end
  end.

Lemma reads_readResetManifest : reads (readResetManifest (resetManifestPath root)) manifest_at hard.
Proof.
  intros b t s Q C HQ HF. unfold readResetManifest. apply wp_bind. apply wp_read.
  - unfold manifest_at in HQ. destruct (fs_read_file _ s) as [c|e]; [|by apply wp_ret].
    destruct (unmarshal_manifest c); by apply wp_ret.
  - intros Hb. destruct (HF Hb) as [HC HE]. split; [done|]. intros e He. apply wp_ret. apply HE.
    unfold hard. autorewrite with go. by apply injected_not_exist.
Qed.

Lemma manifest_at_none s : dir_err s root = None -> ManNone s ->
  exists e, manifest_at s = Err e /\ is_not_exist e = true.
Proof.
  intros Hd Hm. unfold manifest_at, resetManifestPath. rewrite fs_read_entry by done.
  rewrite Hm. by eexists.
Qed.

Lemma manifest_at_is s m : dir_err s root = None -> ManIs m s -> manifest_at s = Ok m.
Proof.
  intros Hd [k Hm]. unfold manifest_at, resetManifestPath. rewrite fs_read_entry by done.
  by rewrite Hm.
Qed.

Lemma sentinel_at_is s se : dir_err s root = None -> SentIs se s -> valid_sentinel se = true ->
  sentinel_at root s = Ok (Some se).
Proof.
  intros Hd [k Hs] Hv. unfold sentinel_at, sentinelPath. rewrite fs_read_entry by done.
  rewrite Hs. by apply decode_encode_sentinel.
Qed.

Definition recovery_at (s : fs) : result (option internalRecoveryState) :=
  match sentinel_at root s with
  | Err err => Err (errorf "LoadRecoveryRequired: load sentinel: " err)
  | Ok sentinel => Ok (se ← sentinel; RecoveryRequired se)
  end.

Lemma reads_LoadRecoveryRequired idn md :
  reads (LoadRecoveryRequired (newStore root idn md)) recovery_at hard.
Proof.
  intros b t s Q C HQ HF. unfold LoadRecoveryRequired. apply wp_bind.
  apply (reads_loadSentinel root).
  - unfold recovery_at in HQ. destruct (sentinel_at root s); by apply wp_ret.
  - intros Hb. destruct (HF Hb) as [HC HE]. split; [done|]. intros e He. apply wp_ret. by apply HE.
Qed.

Lemma recovery_at_is s se : dir_err s root = None -> SentIs se s -> valid_sentinel se = true ->
  recovery_at s = Ok (RecoveryRequired se).
Proof. intros Hd Hs Hv. unfold recovery_at. by rewrite (sentinel_at_is s se). Qed.

(** ** Changes of one entry *)

Lemma only_written name c s : only root (eq name) s (written (root ++ [name]) c s).
Proof. apply (only_insert root name []). Qed.

Lemma written_lookup name c s : written (root ++ [name]) c s !! (root ++ [name]) = Some (File filePerm c).
Proof. apply lookup_insert_eq. Qed.

(** Writing an entry of the root directory that is not a directory. *)
Lemma triple_atomicWriteFile (b : bool) (t : Time) name c (P : fs -> Prop) (Q I : fs -> Prop) :
  HasPrefix name tmp_prefix = false ->
  (forall s, P s -> dir_err s root = None /\ ~ is_dir_at s (root ++ [name])) ->
  (forall s s', P s -> s ⊑{root} s' -> I s') ->
  (forall s, P s -> Q (written (root ++ [name]) c s)) ->
  (forall s, P s -> I (written (root ++ [name]) c s)) ->
  triple b t P (atomicWriteFile (root ++ [name]) c) (fun _ => Q) I.
Proof.
  intros Hn HP Ht HQ HI s Hs. apply wp_atomicWriteFile; [done|by intros; apply HQ| |].
  - intros op e s' Hext Hf. split; [|by eapply Ht]. destruct b; [done|].
    destruct (HP s Hs) as [Hd Hndir], (Hf eq_refl) as [-> Hdir]. by destruct (Hndir (Hdir Hd)).
  - intros _ s' [H|[_ ->]]; [by eapply Ht|by apply HI].
Qed.

Lemma triple_saveSentinel (b : bool) (t : Time) se (P : fs -> Prop) (Q I : fs -> Prop) :
  sentinel_times_ok se = true ->
  (forall s, P s -> dir_err s root = None /\ ~ is_dir_at s (root ++ [sentinelFilename])) ->
  (forall s s', P s -> s ⊑{root} s' -> I s') ->
  (forall s, P s -> Q (written (root ++ [sentinelFilename]) (JSentinel se) s)) ->
  (forall s, P s -> I (written (root ++ [sentinelFilename]) (JSentinel se) s)) ->
  triple b t P (saveSentinel root se) (fun _ => Q) I.
Proof.
  intros Hse HP Ht HQ HI. unfold saveSentinel, marshal_sentinel. rewrite Hse.
  eapply triple_try; [by apply (triple_atomicWriteFile b t _ _ P Q I)|].
  intros []. by apply triple_ret.
Qed.

(** Making sure an entry of the root directory is a directory. *)
Lemma dirs_added_entry c s s' : dir_err s root = None -> dirs_added (root ++ [c]) s s' ->
  forall q, q <> root ++ [c] -> s' !! q = s !! q.
Proof.
  intros Hd [Hs Hn] q Hq. destruct (s !! q) as [n|] eqn:E; [by eapply lookup_weaken|].
  destruct (s' !! q) as [n|] eqn:E'; [|done]. apply Hn in E' as [H|(_ & Hne & u & Hu)]; [congruence|].
  destruct u as [|x u _] using rev_ind; [by rewrite app_nil_r in Hu|].
  rewrite app_assoc in Hu. apply app_inj_tail in Hu as [Hu _].
  rewrite dir_err_None in Hd. destruct (Hd q u Hu Hne) as [k Hk]. congruence.
Qed.

Lemma triple_mkdir_entry (b : bool) (t : Time) c perm (P Q I : fs -> Prop) :
  (forall s, P s -> dir_err s root = None /\ forall k x, s !! (root ++ [c]) <> Some (File k x)) ->
  (forall s s', P s -> (forall q, q <> root ++ [c] -> s' !! q = s !! q) ->
     is_dir_at s' (root ++ [c]) -> Q s') ->
  (forall s s', P s -> (forall q, q <> root ++ [c] -> s' !! q = s !! q) ->
     (forall k x, s' !! (root ++ [c]) <> Some (File k x)) -> I s') ->
  triple b t P (sys_mkdir_all (root ++ [c]) perm) (fun _ => Q) I.
Proof.
  intros HP HQ HI s Hs. destruct (HP s Hs) as [Hd Hf].
  assert (forall s', dirs_added (root ++ [c]) s s' -> I s') as HI'.
  { intros s' H. apply (HI s); [done|by apply dirs_added_entry|]. intros k x Hx.
    apply H in Hx as [Hx|[? _]]; [by eapply Hf|done]. }
  apply wp_mkdir_path; simpl; [done|..|by auto].
  - intros s' H1 H2 _. apply (HQ s); [done|by apply dirs_added_entry|].
    by apply dir_err_app in H2 as [_ H2].
  - intros e s' H1 H2. split; [|by apply HI']. destruct b; [done|]. exfalso.
    destruct (H2 eq_refl) as (q & u & k & x & Hq & Hne & Hl).
    destruct u as [|y u _] using rev_ind; [rewrite app_nil_r in Hq; subst; by eapply Hf|].
    rewrite app_assoc in Hq. apply app_inj_tail in Hq as [Hq _].
    rewrite dir_err_None in Hd. destruct (Hd q u Hq Hne). congruence.
Qed.

(** A program run under the exclusive guard lock, when the guard file can be opened. *)
Lemma triple_guard (b : bool) (t : Time) idn md (fn : M (result unit)) (P Q I : fs -> Prop) :
  (forall s, P s -> Base s) ->
  (forall s k c, P s -> P (<[root ++ [guardFilename] := File k c]> s)) ->
  (forall s, P s -> I s) -> (forall s, Q s -> I s) ->
  triple b t P fn (fun _ => Q) I ->
  triple b t P (withGuardExclusive (newStore root idn md) fn) (fun _ => Q) I.
Proof.
  intros HB HG HPI HQI Hfn. unfold withGuardExclusive. simpl.
  eapply triple_try with (R := fun _ => P).
  - apply triple_prim; [|by auto]. intros s Hs. destruct (HB s Hs) as [Hd Hg].
    unfold fs_open_create, guardFilePath. rewrite parent_app, Hd.
    destruct (s !! (root ++ [guardFilename])) as [[k|k c]|] eqn:E.
    + destruct Hg. by exists k.
    + by exists tt, s.
    + eexists tt, _. split; [done|]. by apply HG.
  - intros [] s Hs. apply wp_defer.
    assert (triple b t P (try! _ := sys_flock_ex
      else err => ret (Err (errorf "withGuardExclusive: acquire exclusive lock: " err)) in fn)
      (fun _ => Q) I) as Ht.
    { eapply triple_try with (R := fun _ => P); [|by intros].
      intros s' Hs'. apply wp_lock; [by left|done|]. intros ->. split; [by apply HPI|].
      intros e _. split; [done|by apply HPI]. }
    eapply wp_mono; [by apply Ht| |done].
    intros [[]|e] s' H; apply wp_lock; simpl; try naive_solver.
Qed.
End files.

(** ** The invariant of the reset *)

Section reset.
Context (root : path) (idn : IMAPIdentity).
Context (se : internalSentinelFile) (curr : Z) (D : option node) (E : path -> option node).
Local Abbreviation st := (newStore root idn OpenRecoverReset).
Local Abbreviation man_path := (root ++ [manifestFilename]).
Local Abbreviation stg_path := (root ++ [stagingDirName]).

Definition m1 : resetManifest :=
  {| rm_Version := resetManifestVersion; rm_CurrUIDValidity := curr;
     rm_Phase := resetPhaseManifestWritten |}.
Definition m4 : resetManifest :=
  {| rm_Version := resetManifestVersion; rm_CurrUIDValidity := curr;
     rm_Phase := resetPhaseCommitted |}.
Definition se' : internalSentinelFile := commit_sentinel curr se.

(** The two pieces of the old data, where they live and where they are staged. *)
Definition DataAt (s : fs) : Prop := s !! (root ++ ["tlsrpt.json"]) = D.
Definition DataGone (s : fs) : Prop := s !! (root ++ ["tlsrpt.json"]) = None.
Definition DataStaged (s : fs) : Prop := s !! (root ++ [stagingDirName; "tlsrpt.json"]) = D.
Definition NoDataStaged (s : fs) : Prop := s !! (root ++ [stagingDirName; "tlsrpt.json"]) = None.
Definition EmailsAt (s : fs) : Prop := forall t, s !! (root ++ "emails" :: t) = E t.
Definition EmailsGone (s : fs) : Prop := forall t, s !! (root ++ "emails" :: t) = None.
Definition EmailsStaged (s : fs) : Prop :=
  forall t, s !! (root ++ stagingDirName :: "emails" :: t) = E t.
Definition NoEmailsStaged (s : fs) : Prop :=
  forall t, s !! (root ++ stagingDirName :: "emails" :: t) = None.

Definition DataSplit (s : fs) : Prop :=
  DataAt s /\ NoDataStaged s \/ DataGone s /\ DataStaged s.
Definition EmailsSplit (s : fs) : Prop :=
  EmailsAt s /\ NoEmailsStaged s \/ EmailsGone s /\ EmailsStaged s.

(** The staging path is a directory, or free. *)
Definition StgOk (s : fs) : Prop := forall k c, s !! (root ++ [stagingDirName]) <> Some (File k c).
Definition StgDir (s : fs) : Prop := is_dir_at s (root ++ [stagingDirName]).

Definition Pre0 (s : fs) : Prop :=
  Base root s /\ SentIs root se s /\ ManNone root s /\ DataAt s /\ EmailsAt s.
Definition Pre1 (s : fs) : Prop :=
  Base root s /\ SentIs root se s /\ ManIs root m1 s /\ StgOk s /\ DataSplit s /\ EmailsSplit s.
Definition Post (s : fs) : Prop :=
  Base root s /\ SentIs root se' s /\
  (ManNone root s \/ ManIs root m1 s \/ ManIs root m4 s) /\
  StgOk s /\ DataGone s /\ EmailsGone s.

Definition Inv (s : fs) : Prop := Pre0 s \/ Pre1 s \/ Post s.

(** What the operator finds at the end: a committed sentinel, no data, no manifest. *)
Definition Done (s : fs) : Prop := Post s /\ ManNone root s.

(** ** Frames *)

(** The names the invariant looks at. *)
Definition watched : list string :=
  [sentinelFilename; guardFilename; manifestFilename; stagingDirName; "tlsrpt.json"; "emails"].

Section frame.
Context (c : string -> Prop) (s s' : fs) (Hs : only root c s s').

Lemma frame_Base : ~ c guardFilename -> Base root s -> Base root s'.
Proof using Hs.
  intros Hc [Hd Hg]. split; [by rewrite (only_dir_err _ _ _ _ Hs)|].
  unfold is_dir_at. by rewrite (only_lookup _ _ _ _ _ [] Hs).
Qed.
Lemma frame_SentIs x : ~ c sentinelFilename -> SentIs root x s -> SentIs root x s'.
Proof using Hs. intros Hc [k H]. exists k. by rewrite (only_lookup _ _ _ _ _ [] Hs). Qed.
Lemma frame_ManIs m : ~ c manifestFilename -> ManIs root m s -> ManIs root m s'.
Proof using Hs. intros Hc [k H]. exists k. by rewrite (only_lookup _ _ _ _ _ [] Hs). Qed.
Lemma frame_ManNone : ~ c manifestFilename -> ManNone root s -> ManNone root s'.
Proof using Hs. intros Hc H. unfold ManNone. by rewrite (only_lookup _ _ _ _ _ [] Hs). Qed.
Lemma frame_DataAt : ~ c "tlsrpt.json" -> DataAt s -> DataAt s'.
Proof using Hs. intros Hc H. unfold DataAt. by rewrite (only_lookup _ _ _ _ _ [] Hs). Qed.
Lemma frame_DataGone : ~ c "tlsrpt.json" -> DataGone s -> DataGone s'.
Proof using Hs. intros Hc H. unfold DataGone. by rewrite (only_lookup _ _ _ _ _ [] Hs). Qed.
Lemma frame_DataStaged : ~ c stagingDirName -> DataStaged s -> DataStaged s'.
Proof using Hs. intros Hc H. unfold DataStaged. by rewrite (only_lookup _ _ _ _ _ _ Hs). Qed.
Lemma frame_NoDataStaged : ~ c stagingDirName -> NoDataStaged s -> NoDataStaged s'.
Proof using Hs. intros Hc H. unfold NoDataStaged. by rewrite (only_lookup _ _ _ _ _ _ Hs). Qed.
Lemma frame_EmailsAt : ~ c "emails" -> EmailsAt s -> EmailsAt s'.
Proof using Hs. intros Hc H t. by rewrite (only_lookup _ _ _ _ _ _ Hs). Qed.
Lemma frame_EmailsGone : ~ c "emails" -> EmailsGone s -> EmailsGone s'.
Proof using Hs. intros Hc H t. by rewrite (only_lookup _ _ _ _ _ _ Hs). Qed.
Lemma frame_EmailsStaged : ~ c stagingDirName -> EmailsStaged s -> EmailsStaged s'.
Proof using Hs. intros Hc H t. by rewrite (only_lookup _ _ _ _ _ _ Hs). Qed.
Lemma frame_NoEmailsStaged : ~ c stagingDirName -> NoEmailsStaged s -> NoEmailsStaged s'.
Proof using Hs. intros Hc H t. by rewrite (only_lookup _ _ _ _ _ _ Hs). Qed.
Lemma frame_StgOk : ~ c stagingDirName -> StgOk s -> StgOk s'.
Proof using Hs. intros Hc H k x. rewrite (only_lookup _ _ _ _ _ _ Hs) by done. apply H. Qed.
Lemma frame_StgDir : ~ c stagingDirName -> StgDir s -> StgDir s'.
Proof using Hs. intros Hc [k H]. exists k. by rewrite (only_lookup _ _ _ _ _ _ Hs). Qed.

Lemma frame_DataSplit : ~ c "tlsrpt.json" -> ~ c stagingDirName -> DataSplit s -> DataSplit s'.
Proof using Hs.
  intros H1 H2 [[? ?]|[? ?]]; [left|right]; auto using frame_DataAt, frame_NoDataStaged,
    frame_DataGone, frame_DataStaged.
Qed.
Lemma frame_EmailsSplit : ~ c "emails" -> ~ c stagingDirName -> EmailsSplit s -> EmailsSplit s'.
Proof using Hs.
  intros H1 H2 [[? ?]|[? ?]]; [left|right]; auto using frame_EmailsAt, frame_NoEmailsStaged,
    frame_EmailsGone, frame_EmailsStaged.
Qed.
End frame.

#[local] Hint Resolve frame_Base frame_SentIs frame_ManIs frame_ManNone frame_DataAt frame_DataGone
  frame_DataStaged frame_NoDataStaged frame_EmailsAt frame_EmailsGone frame_EmailsStaged
  frame_NoEmailsStaged frame_StgOk frame_StgDir frame_DataSplit frame_EmailsSplit : frame.
#[local] Hint Extern 1 (~ _) => name_ne : frame.

(** An entry nobody looks at may change. *)
Lemma Inv_frame (c : string -> Prop) s s' :
  only root c s s' -> (forall d, In d watched -> ~ c d) -> Inv s -> Inv s'.
Proof.
  intros Hs Hc.
  assert (~ c sentinelFilename /\ ~ c guardFilename /\ ~ c manifestFilename /\
          ~ c stagingDirName /\ ~ c "tlsrpt.json" /\ ~ c "emails") as (?&?&?&?&?&?).
  { split_and!; apply Hc; simpl; tauto. }
  intros [(?&?&?&?&?)|[(?&?&?&?&?&?)|(?&?&Hm&?&?&?)]]; [left|right; left|right; right].
  - split_and!; eauto with frame.
  - split_and!; eauto with frame.
  - split_and!; eauto with frame. destruct Hm as [?|[?|?]]; eauto 6 with frame.
Qed.
(** ** The steps *)

Context (Hse : valid_sentinel se = true).
Context (HD : forall k, D <> Some (Dir k)).
Context (HE : forall k c, E [] <> Some (File k c)) (HE0 : E [] = None -> forall t, E t = None).
Context (b : bool) (tm : Time).

Lemma se'_valid : valid_sentinel se' = true.
Proof using Hse.
  unfold valid_sentinel in *. zbool. apply andb_true_iff. split; [simpl; by apply Z.eqb_eq|].
  by apply sentinel_times_clear.
Qed.

Lemma Inv_tmp s s' : s ⊑{root} s' -> Inv s -> Inv s'.
Proof.
  intros H. eapply Inv_frame; [by apply only_tmp_ext|]. intros d Hd.
  unfold watched in Hd. simpl in Hd. intros Hp. intuition subst; by vm_compute in Hp.
Qed.

(** The staging tree goes. *)
Definition StgGone (s : fs) : Prop := forall t, s !! (root ++ stagingDirName :: t) = None.

Lemma delete_staging_gone s : StgGone (delete_tree stg_path s).
Proof.
  intros t. rewrite lookup_delete_tree.
  replace (root ++ stagingDirName :: t) with (stg_path ++ t) by by rewrite <- app_assoc.
  by rewrite strip_app.
Qed.

Lemma StgGone_ok s : StgGone s -> StgOk s.
Proof. intros H k c. by rewrite H. Qed.

Lemma delete_some_StgOk gone s : StgOk s -> StgOk (delete_some stg_path gone s).
Proof.
  intros H k c. rewrite lookup_delete_some. destruct (strip _ _); [case_decide; [done|]|]; apply H.
Qed.

(** [Pre0] and [Post] do not depend on the contents of the staging directory. *)
Lemma frame_Pre0 (c : string -> Prop) s s' :
  only root c s s' -> (forall d, d <> stagingDirName -> In d watched -> ~ c d) -> Pre0 s -> Pre0 s'.
Proof.
  intros Hs Hc (?&?&?&?&?).
  assert (~ c sentinelFilename /\ ~ c guardFilename /\ ~ c manifestFilename /\
          ~ c "tlsrpt.json" /\ ~ c "emails") as (?&?&?&?&?).
  { split_and!; (apply Hc; [done|simpl; tauto]). }
  split_and!; eauto with frame.
Qed.

Lemma frame_Post (c : string -> Prop) s s' :
  only root c s s' -> (forall d, d <> stagingDirName -> In d watched -> ~ c d) -> StgOk s' ->
  Post s -> Post s'.
Proof.
  intros Hs Hc Hstg (?&?&Hm&?&?&?).
  assert (~ c sentinelFilename /\ ~ c guardFilename /\ ~ c manifestFilename /\
          ~ c "tlsrpt.json" /\ ~ c "emails") as (?&?&?&?&?).
  { split_and!; (apply Hc; [done|simpl; tauto]). }
  split_and!; eauto with frame. destruct Hm as [?|[?|?]]; eauto 6 with frame.
Qed.

Lemma not_staging d : d <> stagingDirName -> In d watched -> ~ (stagingDirName = d).
Proof. congruence. Qed.
#[local] Hint Resolve not_staging only_delete_tree only_delete_some only_written : frame.

Lemma remove_staging_Pre0 :
  triple b tm Pre0 (sys_remove_all stg_path) (fun _ s => Pre0 s /\ StgGone s) Pre0.
Proof.
  apply triple_prim.
  - intros s Hs. exists tt, (delete_tree stg_path s). split.
    + unfold fs_remove_all. rewrite parent_app. by destruct Hs as ((-> & _) & _).
    + split; [|apply delete_staging_gone]. eapply frame_Pre0; eauto with frame.
  - intros _ s d Hs. eapply frame_Pre0; eauto with frame.
Qed.

Lemma remove_staging_Post (P : fs -> Prop) :
  (forall s s', P s -> only root (eq stagingDirName) s s' -> P s') ->
  triple b tm (fun s => Post s /\ P s) (sys_remove_all stg_path)
    (fun _ s => Post s /\ P s /\ (b = false -> StgGone s))
    (fun s => Post s /\ P s /\ (b = false -> StgGone s)).
Proof.
  intros HP. apply triple_prim.
  - intros s [Hs Ps]. exists tt, (delete_tree stg_path s). split.
    + unfold fs_remove_all. rewrite parent_app. by destruct Hs as ((-> & _) & _).
    + split_and!; [|eauto with frame|intros _; apply delete_staging_gone].
      eapply frame_Post; eauto with frame. apply StgGone_ok, delete_staging_gone.
  - intros Hb s d [Hs Ps]. split_and!; [|eauto with frame|congruence].
    eapply frame_Post; eauto with frame. apply delete_some_StgOk. apply Hs.
Qed.

Lemma mkdir_staging_Pre0 :
  triple b tm (fun s => Pre0 s /\ StgGone s) (sys_mkdir_all stg_path dirPerm)
    (fun _ s => Pre0 s /\ StgDir s /\ NoDataStaged s /\ NoEmailsStaged s) Pre0.
Proof.
  assert (forall s s', Pre0 s -> (forall q, q <> stg_path -> s' !! q = s !! q) -> Pre0 s') as Hf.
  { intros s s' Hs Hq. eapply (frame_Pre0 (eq stagingDirName)); [|by eauto with frame..].
    intros q Hq'. apply Hq. intros ->. by apply (Hq' stagingDirName []). }
  apply triple_mkdir_entry.
  - intros s [Hs Hg]. split; [apply Hs|]. intros. by rewrite Hg.
  - intros s s' [Hs Hg] Hq Hdir. split_and!; [by eapply Hf|done|..].
    + unfold NoDataStaged. rewrite Hq; [apply Hg|]. intros H. by apply app_inv_head in H.
    + intros t. rewrite Hq; [apply Hg|]. intros H. by apply app_inv_head in H.
  - intros s s' [Hs Hg] Hq _. by eapply Hf.
Qed.

Context (rr : internalRecoveryState) (Hrr : RecoveryRequired se = Some rr) (Hcurr : CurrUIDValidity rr = curr).

Lemma no_dir_of_none name s : s !! (root ++ [name]) = None -> ~ is_dir_at s (root ++ [name]).
Proof. intros H [k Hk]. congruence. Qed.

Lemma no_dir_of_file name s k c : s !! (root ++ [name]) = Some (File k c) -> ~ is_dir_at s (root ++ [name]).
Proof. intros H [k' Hk]. congruence. Qed.

Lemma write_manifest_Pre0 :
  triple b tm (fun s => Pre0 s /\ StgDir s /\ NoDataStaged s /\ NoEmailsStaged s)
    (writeResetManifest man_path m1) (fun _ => Pre1) Inv.
Proof.
  assert (forall s, Pre0 s /\ StgDir s /\ NoDataStaged s /\ NoEmailsStaged s ->
    Pre1 (written man_path (JManifest m1) s)) as Hw.
  { intros s ((?&?&?&?&?) & [k Hk] & ?&?). pose proof (only_written root manifestFilename (JManifest m1) s) as Ho.
    split_and!; eauto with frame.
    - exists filePerm. apply written_lookup.
    - intros k' c'. rewrite (only_lookup _ _ _ _ _ [] Ho) by name_ne. congruence.
    - left. split; eauto with frame.
    - left. split; eauto with frame. }
  apply (triple_atomicWriteFile root b tm manifestFilename); [done|..].
  - intros s ((?&?&?&?&?) & _). split; [apply H|]. by apply no_dir_of_none.
  - intros s s' [H _] Ht. apply (Inv_tmp s s'); [done|by left].
  - done.
  - intros s H. right; left. auto.
Qed.

Lemma init_Pre0 :
  triple b tm Pre0 (initResetManifest st curr stg_path man_path) (fun m s => m = m1 /\ Pre1 s) Inv.
Proof.
  unfold initResetManifest.
  eapply triple_try with (R := fun r s => r = Some rr /\ Pre0 s).
  { eapply triple_reads; [apply reads_LoadRecoveryRequired|by left|].
    intros s Hs. exists (Some rr). split; [|done]. destruct Hs as ([Hd _] & Hs & _).
    rewrite (recovery_at_is root s se) by done. by rewrite Hrr. }
  intros r. apply triple_pure. intros ->. rewrite Hcurr, Z.eqb_refl. simpl.
  eapply triple_try; [eapply triple_weaken; [apply remove_staging_Pre0|done..|by left]|].
  intros []. eapply triple_try; [eapply triple_weaken; [apply mkdir_staging_Pre0|done..|by left]|].
  intros []. eapply triple_try; [apply write_manifest_Pre0|].
  intros []. apply triple_ret. intros s Hs. by split.
Qed.

(** A reset that has a manifest of phase 1. *)
Definition K1 (s : fs) : Prop := Pre1 s \/ Post s /\ ManIs root m1 s.

Lemma K1_Inv s : K1 s -> Inv s.
Proof. intros [H|[H _]]; [right; by left|right; by right]. Qed.
Lemma K1_base s : K1 s -> Base root s /\ ManIs root m1 s /\ StgOk s.
Proof. intros [(?&?&?&?&?)|[(?&?&?&?&?) ?]]; by split_and!. Qed.

Lemma mkdir_staging_K1 :
  triple b tm K1 (sys_mkdir_all stg_path dirPerm) (fun _ s => K1 s /\ StgDir s) Inv.
Proof.
  assert (forall s s', K1 s -> (forall q, q <> stg_path -> s' !! q = s !! q) -> StgOk s' -> K1 s') as Hf.
  { intros s s' Hs Hq Hok.
    assert (only root (eq stagingDirName) s s') as Ho.
    { intros q Hq'. apply Hq. intros ->. by apply (Hq' stagingDirName []). }
    assert (forall x t, s' !! (root ++ stagingDirName :: x :: t) = s !! (root ++ stagingDirName :: x :: t)) as Hb.
    { intros x t. apply Hq. intros H. by apply app_inv_head in H. }
    destruct Hs as [(?&?&?&?&Hd&He)|[Hs ?]].
    - left. split_and!; eauto with frame.
      + destruct Hd as [[? H']|[? H']]; [left|right]; (split; [by eauto with frame|]);
          unfold NoDataStaged, DataStaged; by rewrite Hb.
      + destruct He as [[? H']|[? H']]; [left|right]; (split; [by eauto with frame|]);
          intros t; by rewrite Hb.
    - right. split; [|by eauto with frame]. eapply frame_Post; eauto with frame. }
  apply triple_mkdir_entry.
  - intros s Hs. destruct (K1_base s Hs) as ([? _] & _ & ?). done.
  - intros s s' Hs Hq Hdir. split; [|done]. apply (Hf s); [done..|].
    intros k c. destruct Hdir as [k' Hk']. congruence.
  - intros s s' Hs Hq Hok. apply K1_Inv. by apply (Hf s).
Qed.

Lemma stat_entry name s : dir_err s root = None ->
  fs_stat s (root ++ [name]) =
    match s !! (root ++ [name]) with Some n => Ok n | None => Err (Errno ENOENT) end.
Proof. apply fs_stat_ok. Qed.

Lemma staging_resolves s : dir_err s root = None -> StgDir s -> dir_err s stg_path = None.
Proof. intros Hd Hs. by apply dir_err_app. Qed.

Lemma staged_path name : stg_path ++ [name] = root ++ [stagingDirName; name].
Proof. by rewrite <- app_assoc. Qed.

Lemma strip_staged name t : name <> stagingDirName ->
  strip (root ++ [name]) (root ++ stagingDirName :: t) = None.
Proof. intros. by apply strip_sibling. Qed.

Lemma rename_data s k c : dir_err s root = None -> StgDir s ->
  s !! (root ++ ["tlsrpt.json"]) = Some (File k c) -> NoDataStaged s ->
  fs_rename (dataFilePath root) (stg_path ++ ["tlsrpt.json"]) s =
    (Ok tt, <[root ++ [stagingDirName; "tlsrpt.json"] := File k c]> (delete (root ++ ["tlsrpt.json"]) s)).
Proof.
  intros Hd Hs Hf Hn. unfold fs_rename, dataFilePath. rewrite stat_entry, Hf by done.
  rewrite parent_app, staging_resolves by done. rewrite staged_path.
  rewrite bool_decide_false by (intros H; by apply app_inv_head in H).
  rewrite strip_staged by done. unfold NoDataStaged in Hn. by rewrite Hn.
Qed.

Lemma stage_data_K1 :
  triple b tm (fun s => K1 s /\ StgDir s) (stageDataFile root stg_path)
    (fun _ s => K1 s /\ StgDir s /\ DataGone s) Inv.
Proof.
  intros s [Hs Hdir]. destruct (K1_base s Hs) as ((Hd & Hg) & Hm & Hok).
  unfold stageDataFile. apply wp_bind. apply wp_read.
  2:{ intros Hb. split; [by apply K1_Inv|]. intros e He. rewrite (injected_not_exist e) by done.
      apply wp_ret. split; [done|by apply K1_Inv]. }
  unfold dataFilePath at 1. rewrite stat_entry by done.
  destruct (s !! (root ++ ["tlsrpt.json"])) as [n|] eqn:Hn; [|by apply wp_ret].
  apply wp_bind. apply wp_prim.
  2:{ intros Hb d. split; [by apply K1_Inv|]. intros e _. apply wp_ret.
      split; [done|by apply K1_Inv]. }
  destruct Hs as [(?&?&?&?&Hdata&Hemails)|[(?&?&?&?&?&?) _]]; [|unfold DataGone in *; congruence].
  destruct Hdata as [[HA HN]|[HG _]]; [|unfold DataGone in HG; congruence].
  unfold DataAt in HA. rewrite Hn in HA. destruct n as [k|k c]; [by destruct (HD k)|].
  rewrite (rename_data s k c) by done. apply wp_ret. cbn [snd].
  set (s1 := <[_ := _]> _).
  assert (only root (fun d => d = "tlsrpt.json" \/ d = stagingDirName) s s1) as Ho.
  { etransitivity; [eapply only_mono; [|apply (only_delete root "tlsrpt.json" [])]; by auto|].
    eapply only_mono; [|apply only_insert]; by auto. }
  assert (forall t, s1 !! (root ++ stagingDirName :: t) =
    if decide (t = ["tlsrpt.json"]) then Some (File k c) else s !! (root ++ stagingDirName :: t)) as Hl.
  { intros t. unfold s1. case_decide as Ht; [subst; by rewrite lookup_insert_eq|].
    rewrite lookup_insert_ne by (intros H'; apply app_inv_head in H'; congruence).
    rewrite lookup_delete_ne; [done|]. intros H'. apply app_inv_head in H'. discriminate. }
  assert (StgDir s1) as Hdir1 by (destruct Hdir as [k' Hk']; exists k'; by rewrite Hl).
  assert (DataGone s1) as Hgone.
  { unfold DataGone, s1. rewrite lookup_insert_ne by (intros H'; by apply app_inv_head in H').
    apply lookup_delete_eq. }
  split; [|done]. left. split_and!; eauto with frame.
  - intros k' c' Heq. rewrite (Hl []) in Heq. destruct Hdir as [? H']. simpl in Heq. rewrite H' in Heq. done.
  - right. split; [done|]. unfold DataStaged. by rewrite Hl.
  - destruct Hemails as [[? H']|[? H']]; [left|right]; (split; [by eauto with frame|]);
      intros t; rewrite Hl, decide_False by done; apply H'.
Qed.

Lemma rename_emails s k : dir_err s root = None -> StgDir s ->
  s !! (root ++ ["emails"]) = Some (Dir k) -> NoEmailsStaged s ->
  fs_rename (emailsPath root) (stg_path ++ ["emails"]) s =
    (Ok tt, move_tree (root ++ ["emails"]) (root ++ [stagingDirName; "emails"]) s
            ∪ delete_tree (root ++ ["emails"]) (delete_tree (root ++ [stagingDirName; "emails"]) s)).
Proof.
  intros Hd Hs Hf Hn. unfold fs_rename, emailsPath. rewrite stat_entry, Hf by done.
  rewrite parent_app, staging_resolves by done. rewrite staged_path.
  rewrite bool_decide_false by (intros H; by apply app_inv_head in H).
  rewrite strip_staged by done. specialize (Hn []). by rewrite Hn.
Qed.

(** The emails directory moved: what is found where. *)
Section moved.
Context (s s1 : fs).
Context (Hs1 : s1 = move_tree (root ++ ["emails"]) (root ++ [stagingDirName; "emails"]) s
          ∪ delete_tree (root ++ ["emails"]) (delete_tree (root ++ [stagingDirName; "emails"]) s)).

Lemma moved_staged t : s1 !! (root ++ stagingDirName :: "emails" :: t) = s !! (root ++ "emails" :: t).
Proof using Hs1.
  rewrite Hs1, lookup_moved.
  replace (root ++ stagingDirName :: "emails" :: t) with ((root ++ [stagingDirName; "emails"]) ++ t)
    by by rewrite <- app_assoc.
  rewrite strip_app. by rewrite <- app_assoc.
Qed.

Lemma moved_gone : EmailsGone s1.
Proof using Hs1.
  intros t. rewrite Hs1, lookup_moved.
  replace (strip (root ++ [stagingDirName; "emails"]) (root ++ "emails" :: t)) with (@None path).
  - replace (root ++ "emails" :: t) with ((root ++ ["emails"]) ++ t) by by rewrite <- app_assoc.
    by rewrite strip_app.
  - symmetry. apply strip_None. intros u H. rewrite <- app_assoc in H. by apply app_inv_head in H.
Qed.

Lemma moved_staging x t : x <> "emails" ->
  s1 !! (root ++ stagingDirName :: x :: t) = s !! (root ++ stagingDirName :: x :: t).
Proof using Hs1.
  intros Hx. rewrite Hs1, lookup_moved.
  replace (strip (root ++ [stagingDirName; "emails"]) (root ++ stagingDirName :: x :: t)) with (@None path).
  - replace (strip (root ++ ["emails"]) _) with (@None path); [done|].
    symmetry. apply strip_staged. done.
  - symmetry. apply strip_None. intros u H. rewrite <- app_assoc in H. apply app_inv_head in H.
    injection H as H _. done.
Qed.

Lemma moved_staging_dir : s1 !! stg_path = s !! stg_path.
Proof using Hs1.
  rewrite Hs1, lookup_moved.
  replace (strip (root ++ [stagingDirName; "emails"]) stg_path) with (@None path).
  - replace (strip (root ++ ["emails"]) _) with (@None path); [done|].
    symmetry. by apply strip_staged.
  - symmetry. apply strip_None. intros u H. rewrite <- app_assoc in H. by apply app_inv_head in H.
Qed.

Lemma moved_only : only root (fun d => d = "emails" \/ d = stagingDirName) s s1.
Proof using Hs1.
  intros q Hq. rewrite Hs1, lookup_moved.
  destruct (strip (root ++ [stagingDirName; "emails"]) q) as [t|] eqn:Ha.
  { apply strip_Some in Ha as ->. exfalso. apply (Hq stagingDirName ("emails" :: t)); [by rewrite <- app_assoc|by right]. }
  destruct (strip (root ++ ["emails"]) q) as [t|] eqn:Hb; [|done].
  apply strip_Some in Hb as ->. exfalso. apply (Hq "emails" t); [by rewrite <- app_assoc|by left].
Qed.
End moved.

Lemma stage_emails_K1 :
  triple b tm (fun s => K1 s /\ StgDir s /\ DataGone s) (stageEmailsDir root stg_path)
    (fun _ s => K1 s /\ DataGone s /\ EmailsGone s) Inv.
Proof.
  intros s (Hs & Hdir & Hgone). destruct (K1_base s Hs) as ((Hd & Hg) & Hm & Hok).
  unfold stageEmailsDir. apply wp_bind. apply wp_read.
  2:{ intros Hb. split; [by apply K1_Inv|]. intros e He. rewrite (injected_not_exist e) by done.
      apply wp_ret. split; [done|by apply K1_Inv]. }
  unfold emailsPath at 1. rewrite stat_entry by done.
  destruct (s !! (root ++ ["emails"])) as [n|] eqn:Hn.
  2:{ apply wp_ret. split_and!; [done..|]. destruct Hs as [(?&?&?&?&?&Hemails)|[(?&?&?&?&?&?) _]]; [|done].
      destruct Hemails as [[HA HN]|[HG _]]; [|done]. intros t. rewrite HA. apply HE0.
      by rewrite <- HA. }
  apply wp_bind. apply wp_prim.
  2:{ intros Hb d. split; [by apply K1_Inv|]. intros e _. apply wp_ret.
      split; [done|by apply K1_Inv]. }
  destruct Hs as [(?&?&?&?&Hdata&Hemails)|[(?&?&?&?&?&HG) _]]; [|by rewrite HG in Hn].
  destruct Hemails as [[HA HN]|[HG _]]; [|by rewrite HG in Hn].
  destruct n as [k|k c]; [|destruct (HE k c); by rewrite <- HA].
  rewrite (rename_emails s k) by done. apply wp_ret. cbn [snd].
  remember (_ ∪ _) as s1 eqn:Hs1. pose proof (moved_only _ _ Hs1) as Ho.
  pose proof (moved_gone _ _ Hs1) as Hegone. split_and!; [|by eauto with frame|done].
  left. split_and!; eauto with frame.
  - intros k' c'. rewrite (moved_staging_dir _ _ Hs1). apply Hok.
  - destruct Hdata as [[? H']|[? H']]; [left|right]; (split; [by eauto with frame|]);
      unfold NoDataStaged, DataStaged; by rewrite (moved_staging _ _ Hs1).
  - right. split; [done|]. intros t. by rewrite (moved_staged _ _ Hs1).
Qed.

(** Everything is staged: what is left is the commit. *)
Definition Ready (s : fs) : Prop := K1 s /\ DataGone s /\ EmailsGone s.

Lemma guard_only k c s : only root (eq guardFilename) s (<[root ++ [guardFilename] := File k c]> s).
Proof. apply (only_insert root guardFilename []). Qed.

Lemma Base_guard k c s : Base root s -> Base root (<[root ++ [guardFilename] := File k c]> s).
Proof.
  intros [Hd _]. split; [by rewrite (only_dir_err _ _ _ _ (guard_only k c s))|].
  intros [k' H]. by rewrite lookup_insert_eq in H.
Qed.

Lemma Pre0_guard s k c : Pre0 s -> Pre0 (<[root ++ [guardFilename] := File k c]> s).
Proof.
  intros (HB&?&?&?&?). pose proof (guard_only k c s) as Ho.
  split_and!; eauto using Base_guard with frame.
Qed.

Lemma Pre1_guard s k c : Pre1 s -> Pre1 (<[root ++ [guardFilename] := File k c]> s).
Proof.
  intros (HB&?&?&?&?&?). pose proof (guard_only k c s) as Ho.
  split_and!; eauto using Base_guard with frame.
Qed.

Lemma Post_guard s k c : Post s -> Post (<[root ++ [guardFilename] := File k c]> s).
Proof.
  intros (HB&?&Hm&?&?&?). pose proof (guard_only k c s) as Ho.
  split_and!; eauto using Base_guard with frame. destruct Hm as [?|[?|?]]; eauto 6 with frame.
Qed.

Lemma Ready_guard s k c : Ready s -> Ready (<[root ++ [guardFilename] := File k c]> s).
Proof.
  intros (H & ? & ?). pose proof (guard_only k c s) as Ho. split_and!; [|by eauto with frame..].
  destruct H as [H|[H ?]]; [left; by apply Pre1_guard|right; split; [by apply Post_guard|eauto with frame]].
Qed.

(** The sentinel a resumed reset finds commits to the same sentinel. *)
Lemma Ready_sentinel s : Ready s ->
  exists x, sentinel_at root s = Ok (Some x) /\ commit_sentinel curr x = se' /\ Ready s.
Proof using Hse.
  intros H. pose proof H as ([Hp|[Hp Hm]] & Hd & He).
  - exists se. split_and!; [|done|done]. destruct Hp as ((? & ?) & ? & _).
    by apply sentinel_at_is.
  - exists se'. split_and!; [|done|done]. destruct Hp as ((? & ?) & ? & _).
    apply sentinel_at_is; [done..|]. apply se'_valid.
Qed.

Lemma Ready_Inv s : Ready s -> Inv s.
Proof. intros [H _]. by apply K1_Inv. Qed.

Lemma Ready_commit s : Ready s ->
  let s' := written (root ++ [sentinelFilename]) (JSentinel se') s in Post s' /\ ManIs root m1 s'.
Proof.
  intros (H & ? & ?). destruct (K1_base s H) as (? & ? & ?).
  pose proof (only_written root sentinelFilename (JSentinel se') s) as Ho.
  assert (ManIs root m1 (written (root ++ [sentinelFilename]) (JSentinel se') s)) by eauto with frame.
  split; [|done]. split_and!; eauto with frame. exists filePerm. apply written_lookup.
Qed.

Lemma Post_commit s : Post s -> ManIs root m1 s ->
  let s' := written man_path (JManifest m4) s in Post s' /\ ManIs root m4 s'.
Proof.
  intros (?&?&?&?&?&?) Hm.
  pose proof (only_written root manifestFilename (JManifest m4) s) as Ho.
  assert (ManIs root m4 (written man_path (JManifest m4) s)) by (exists filePerm; apply written_lookup).
  split; [|done]. split_and!; eauto with frame.
Qed.

Lemma commit_Ready :
  triple b tm Ready (commitReset st man_path curr) (fun _ s => Post s /\ ManIs root m4 s) Inv.
Proof.
  unfold commitReset. apply triple_guard.
  - intros s [H _]. by apply K1_base in H as (? & _).
  - intros. by apply Ready_guard.
  - apply Ready_Inv.
  - intros s [H _]. by right; right.
  - eapply triple_try with (R := fun x s => commit_sentinel curr x = se' /\ Ready s).
    { unfold loadOrInitSentinelForWrite. simpl.
      eapply triple_try with (h := fun e => e)
        (R := fun o s => (exists x, o = Some x /\ commit_sentinel curr x = se') /\ Ready s).
      - eapply triple_reads; [apply reads_loadSentinel|apply Ready_Inv|].
        intros s H. destruct (Ready_sentinel s H) as (x & Hx & Hc & _). by eexists; split_and!; [done|exists x|].
      - intros o. apply triple_pure. intros (x & -> & Hc). apply triple_ret. done. }
    intros x. apply triple_pure. intros ->.
    eapply triple_try with (R := fun _ s => Post s /\ ManIs root m1 s).
    { pose proof se'_valid as Hv. unfold valid_sentinel in Hv. zbool.
      apply triple_saveSentinel; [done|..].
      - intros s [H' _]. destruct (K1_base s H') as ([? _] & _). split; [done|].
        destruct H' as [(_ & [k Hk] & _)|[(_ & [k Hk] & _) _]]; by eapply no_dir_of_file.
      - intros s s' H' Ht. eapply Inv_tmp; [done|by apply Ready_Inv].
      - apply Ready_commit.
      - intros s H'. right; right. by apply Ready_commit. }
    intros []. apply (triple_atomicWriteFile root b tm manifestFilename); [done|..].
    + intros s [((Hd & _) & _) [k Hk]]. split; [done|]. by eapply no_dir_of_file.
    + intros s s' [H' _] Ht. eapply Inv_tmp; [done|by right; right].
    + intros s [? ?]. by apply Post_commit.
    + intros s [? ?]. right; right. by apply Post_commit.
Qed.

Lemma advance_K1 :
  triple b tm K1 (advanceResetPhases st curr stg_path man_path)
    (fun _ s => Post s /\ ManIs root m4 s) Inv.
Proof.
  unfold advanceResetPhases. eapply triple_try; [apply mkdir_staging_K1|].
  intros []. eapply triple_try; [apply stage_data_K1|].
  intros []. eapply triple_try; [apply stage_emails_K1|].
  intros []. eapply triple_try; [apply commit_Ready|].
  intros []. by apply triple_ret.
Qed.

(** ** The tail *)

Lemma Post_Inv s : Post s -> Inv s.
Proof. by right; right. Qed.

(** The end of a reset: nothing of the old data is left in the store, and without faults
    nothing is left in the staging directory either. *)
Definition Clean (s : fs) : Prop :=
  Post s /\ ManNone root s /\ (b = false -> forall t, s !! (root ++ stagingDirName :: t) = None).

Lemma remove_manifest_Post m :
  triple b tm (fun s => Post s /\ ManIs root m s /\ (b = false -> StgGone s))
    (remove_if_exists man_path) (fun _ => Clean) Inv.
Proof.
  intros s [(HB&?&?&?&?&?) [[k Hk] Hstg]]. unfold remove_if_exists. apply wp_bind.
  assert (Inv s) as HI by by apply Post_Inv; split_and!.
  apply wp_prim.
  2:{ intros Hb d. split; [done|]. intros e He. rewrite (injected_not_exist e) by done. simpl.
      apply wp_ret. by split. }
  unfold fs_remove. rewrite stat_entry, Hk by apply HB. simpl. apply wp_ret.
  pose proof (only_delete root manifestFilename [] s) as Ho.
  assert (ManNone root (delete man_path s)) as Hn by apply lookup_delete_eq.
  split; [|split; [done|]].
  - split_and!; eauto with frame.
  - intros Hb t. rewrite (only_lookup _ _ _ _ _ _ Ho) by name_ne. by apply Hstg.
Qed.

Lemma ManIs_staging m s s' : ManIs root m s -> only root (eq stagingDirName) s s' -> ManIs root m s'.
Proof. intros H Ho. eauto with frame. Qed.

Lemma execute_K1 :
  triple b tm K1 (executeResetFromManifest st m1 stg_path man_path) (fun _ => Clean) Inv.
Proof.
  unfold executeResetFromManifest. cbn [rm_CurrUIDValidity m1].
  eapply triple_try with (h := fun e => e); [apply advance_K1|]. intros [].
  eapply triple_ignore; [apply remove_staging_Post; eauto using ManIs_staging| |intros s [? _]; by apply Post_Inv].
  eapply triple_try; [apply remove_manifest_Post|]. intros []. by apply triple_ret.
Qed.

Lemma resume_Post :
  triple b tm (fun s => Post s /\ ManIs root m4 s) (resumeOrCleanupCommitted st curr stg_path man_path)
    (fun _ => Clean) Inv.
Proof.
  unfold resumeOrCleanupCommitted. eapply triple_try with (h := fun e => e) (R := fun _ => Clean).
  - unfold removeStaleCommittedManifest.
    eapply triple_try.
    { eapply triple_weaken; [apply (remove_staging_Post (ManIs root m4)); eauto using ManIs_staging|
        done|intros a s H; exact H|intros s [? _]; by apply Post_Inv]. }
    intros []. eapply triple_try; [apply remove_manifest_Post|]. intros []. by apply triple_ret.
  - intros []. eapply triple_try with (R := fun r s => r = None /\ Clean s).
    + eapply triple_reads; [apply reads_LoadRecoveryRequired|intros s [? _]; by apply Post_Inv|].
      intros s Hs. exists None. split; [|done]. destruct Hs as ((Hd & ? & _) & _).
      rewrite (recovery_at_is root s se'); [done|apply Hd|done|apply se'_valid].
    + intros o. apply triple_pure. intros ->. by apply triple_ret.
Qed.

(** ** The whole operation *)

(** The reset has still something to do. *)
Definition Pending (s : fs) : Prop := Pre0 s \/ Pre1 s \/ Post s /\ ~ ManNone root s.

Lemma start_Pre0 :
  triple b tm Pre0 (reset_from_start st curr stg_path man_path) (fun _ => Clean) Inv.
Proof.
  unfold reset_from_start. eapply triple_try with (h := fun e => e); [apply init_Pre0|].
  intros m. apply triple_pure. intros ->. eapply triple_weaken; [apply execute_K1|by left|done..].
Qed.

Lemma reset_Pending : triple b tm Pending (ResetForRecovery st curr) (fun _ => Clean) Inv.
Proof.
  intros s Hs. unfold ResetForRecovery. rewrite bool_decide_true by done. simpl negb. cbv iota zeta.
  assert (Inv s) as HI by (destruct Hs as [?|[?|[? _]]]; [by left|right; by left|by right; right]).
  assert (dir_err s root = None) as Hd by (destruct Hs as [[[? _] _]|[[[? _] _]|[[[? _] _] _]]]; done).
  apply wp_bind. apply (reads_readResetManifest root).
  2:{ intros Hb. split; [done|]. intros e He. unfold hard in He. rewrite He. by apply wp_ret. }
  assert (forall m, (m = m1 \/ m = m4) -> (rm_Version m =? resetManifestVersion) = true /\
            validateManifestPhase (rm_Phase m) = Ok tt /\ rm_CurrUIDValidity m = curr) as Hm.
  { by intros m [-> | ->]. }
  destruct Hs as [Hs|[Hs|[Hs Hn]]].
  - destruct (manifest_at_none root s) as (e & -> & ->); [done|by destruct Hs as (_&_&?&_)|].
    by apply start_Pre0.
  - rewrite (manifest_at_is root s m1) by (done || by destruct Hs as (_&_&?&_)).
    simpl. rewrite Z.eqb_refl, andb_false_r. by apply execute_K1; left.
  - destruct Hs as (?&?&[?|[Hm1|Hm4]]&?&?&?); [done|..].
    + rewrite (manifest_at_is root s m1) by done. simpl. rewrite Z.eqb_refl, andb_false_r.
      apply execute_K1. right. split; [|done]. split_and!; auto.
    + rewrite (manifest_at_is root s m4) by done. simpl. apply resume_Post.
      split; [|done]. split_and!; auto.
Qed.

(** A reset already complete is refused without touching the disk. *)
Lemma reset_done s : Done s -> wp b tm (ResetForRecovery st curr) (fun _ s' => s' = s) (eq s) s.
Proof.
  intros [Hp Hn]. destruct Hp as ((Hd & Hg) & Hs & _). unfold ResetForRecovery.
  rewrite bool_decide_true by done. simpl negb. cbv iota zeta. apply wp_bind.
  assert (wp b tm (reset_from_start st curr stg_path man_path) (fun _ s' => s' = s) (eq s) s) as Hstart.
  { unfold reset_from_start, initResetManifest. apply wp_bind. apply wp_bind.
    apply reads_LoadRecoveryRequired.
    - rewrite (recovery_at_is root s se' Hd Hs se'_valid). simpl. by do 2 apply wp_ret.
    - intros Hb. split; [done|]. intros e _. by do 2 apply wp_ret. }
  apply (reads_readResetManifest root).
  - destruct (manifest_at_none root s Hd Hn) as (e & -> & ->). done.
  - intros Hb. split; [done|]. intros e He. unfold hard in He. rewrite He. by apply wp_ret.
Qed.

Lemma Inv_cases s : Inv s -> Pending s \/ Done s.
Proof.
  intros [?|[?|H]]; [by left; left|by left; right; left|].
  destruct (s !! man_path) eqn:Em.
  - left; right; right. split; [done|]. unfold ManNone. congruence.
  - right. by split.
Qed.

(** What a process that opens the store may rely on, whatever the stage of the reset. *)
Definition openable (P : fs -> Prop) : Prop :=
  (forall s, P s -> Base root s /\ (SentIs root se s \/ SentIs root se' s)) /\
  (forall s k c, P s -> P (<[root ++ [guardFilename] := File k c]> s)).

Lemma Pending_openable : openable Pending.
Proof.
  split.
  - intros s [(?&?&_)|[(?&?&_)|[(?&?&_) _]]]; auto.
  - intros s k c [?|[?|[? Hn]]]; [left; by apply Pre0_guard|right; left; by apply Pre1_guard|].
    right; right. split; [by apply Post_guard|]. intros Hg. apply Hn. unfold ManNone in *.
    by rewrite (only_lookup _ _ _ _ _ [] (guard_only k c s)) in Hg by name_ne.
Qed.

Lemma Inv_openable : openable Inv.
Proof.
  split.
  - intros s [(?&?&_)|[(?&?&_)|(?&?&_)]]; auto.
  - intros s k c [?|[?|?]];
      [left; by apply Pre0_guard|right; left; by apply Pre1_guard|right; right; by apply Post_guard].
Qed.

Lemma Done_openable : openable Done.
Proof.
  split; [intros s [(?&?&_) _]; auto|]. intros s k c [? ?]. split; [by apply Post_guard|].
  eapply frame_ManNone; [apply guard_only|name_ne|done].
Qed.
End reset.
