(* ===== verification/EmailsSpec.v ===== *)
(** * What the email operations do

    The index as a map from keys to first entries; the path of an email read back; and the
    deletion, followed through every error and crash: an entry leaves the index only when its
    file is gone, and nothing else is removed but empty directories. *)
From S2P Require Import Prelude GoStr GoTime GoErr Tlsrpt StoreTypes Fs Io AtomicFile Sentinel.
From S2P Require Import FileStore Reports Emails Reset.

(** ** The index *)

Definition find_key (k : emailKey) (es : list EmailMeta) : option EmailMeta :=
  List.find (fun e => bool_decide (key_of e = k)) es.

Lemma find_key_app k es es' :
  find_key k (es ++ es') = match find_key k es with Some e => Some e | None => find_key k es' end.
Proof. unfold find_key. induction es as [|e es IH]; simpl; [done|]. by destruct (bool_decide _). Qed.

Lemma find_key_None k es : find_key k es = None <-> k ∉ key_of <$> es.
Proof.
  unfold find_key. induction es as [|e es IH]; simpl; [split; [inversion 2|done]|].
  rewrite not_elem_of_cons. case_bool_decide as H; [naive_solver|]. rewrite IH. naive_solver.
Qed.

Definition knows (existing : gset emailKey) (es : list EmailMeta) : Prop :=
  forall k, k ∈ existing <-> k ∈ key_of <$> es.

Lemma knows_existing es : knows (existing_keys es) es.
Proof. intros k. unfold existing_keys. by rewrite elem_of_list_to_set. Qed.

Lemma knows_snoc ex es m : knows ex es -> knows ({[key_of m]} ∪ ex) (es ++ [m]).
Proof.
  intros H k. rewrite elem_of_union, elem_of_singleton, (H k), fmap_app, elem_of_app. simpl.
  rewrite list_elem_of_singleton. naive_solver.
Qed.

(** The loop fails exactly on a zero date. *)
Lemma add_metas_None es ex metas :
  add_metas es ex metas = None <-> Exists (fun m => IsZero (InternalDate m) = true) metas.
Proof.
  revert es ex. induction metas as [|m metas IH]; intros es ex; simpl; [split; [done|inversion 1]|].
  rewrite Exists_cons. destruct (IsZero (InternalDate m)); [naive_solver|].
  case_decide; rewrite IH; naive_solver.
Qed.

(** The first entry of every key wins, and stored entries keep their places. *)
Lemma add_metas_Some es ex metas es' : knows ex es -> add_metas es ex metas = Some es' ->
  es `prefix_of` es' /\
  (forall k, find_key k es' = match find_key k es with Some e => Some e | None => find_key k metas end) /\
  (NoDup (key_of <$> es) -> NoDup (key_of <$> es')).
Proof.
  revert es ex. induction metas as [|m metas IH]; intros es ex Hex; simpl.
  - intros [= <-]. split_and!; [done| |done]. intros k. by destruct (find_key k es).
  - destruct (IsZero (InternalDate m)); [done|]. case_decide as Hk; intros H.
    + destruct (IH es ex Hex H) as (H1 & H2 & H3). split_and!; [done| |done]. intros k. rewrite H2.
      destruct (find_key k es) eqn:E; [done|]. unfold find_key at 2. simpl.
      rewrite bool_decide_false; [done|]. intros <-. apply find_key_None in E. by apply E, Hex.
    + destruct (IH (es ++ [m]) _ (knows_snoc _ _ _ Hex) H) as (H1 & H2 & H3). split_and!.
      * etransitivity; [|exact H1]. by apply prefix_app_r.
      * intros k. rewrite H2, find_key_app. destruct (find_key k es) eqn:E; [done|].
        unfold find_key at 1 3. simpl. by destruct (bool_decide _).
      * intros Hn. apply H3. rewrite fmap_app. apply list.NoDup_app. split_and!; [done| |apply NoDup_singleton].
        intros k Hk1 Hk2. simpl in Hk2. apply list_elem_of_singleton in Hk2 as ->. by apply Hk, Hex.
Qed.

(** Repeating the same batch adds nothing. *)
Lemma add_metas_again es ex metas :
  knows ex es -> (forall m, m ∈ metas -> key_of m ∈ key_of <$> es) ->
  Forall (fun m => IsZero (InternalDate m) = false) metas -> add_metas es ex metas = Some es.
Proof.
  intros Hex. induction metas as [|m metas IH]; intros Hin Hz; simpl; [done|].
  apply Forall_cons_1 in Hz as [Hm Hz]. rewrite Hm.
  rewrite decide_True by (apply Hex, Hin; by left). apply IH; [|done]. intros. apply Hin. by right.
Qed.

(** ** Paths *)

(** A date the storage path can carry: its year has four digits. *)
Definition path_date (d : Time) : Prop := 0 <= year_of d <= 9999.

(** The first of the month of a date. *)
Definition first_of_month (d : Time) : Time :=
  midnight_of_day (days_of_civil (year_of d) (month_of d) 1).

Lemma parse_format_month d : path_date d -> parse_yyyymm (format_yyyymm d) = Some (first_of_month d).
Proof.
  intros H. unfold format_yyyymm. apply parse_yyyymm_ints; [done|]. apply month_of_range.
Qed.

Lemma format_first_of_month d : path_date d -> format_yyyymm (first_of_month d) = format_yyyymm d.
Proof.
  intros H. unfold format_yyyymm, first_of_month.
  destruct (first_of_month_fields (year_of d) (month_of d)) as [-> ->]; [done|apply month_of_range|done].
Qed.

Lemma fmt_u_uint n : in_uint32 n -> ParseUint32 (fmt_u n) = Some n.
Proof. intros H. rewrite <- fmt_d_nonneg by apply H. by apply ParseUint32_fmt_d. Qed.

Lemma pad10_uint n : in_uint32 n -> ParseUint32 (TrimSuffix (String.append (pad10 n) ".eml") ".eml") = Some n.
Proof.
  intros H. rewrite TrimSuffix_append. unfold pad10. rewrite <- fmt_d_nonneg by apply H.
  by apply ParseUint32_padded.
Qed.

(** The path of an email gives its uid and uidvalidity. *)
Lemma email_rel_path_inj uid uv d uid' uv' d' :
  in_uint32 uid -> in_uint32 uv -> in_uint32 uid' -> in_uint32 uv' ->
  email_rel_path uid uv d = email_rel_path uid' uv' d' -> uid = uid' /\ uv = uv'.
Proof.
  intros H1 H2 H3 H4 [= Hv _ Hu].
  apply (f_equal ParseUint32) in Hv. rewrite !fmt_u_uint in Hv by done.
  apply (f_equal (fun x => ParseUint32 (TrimSuffix x ".eml"))) in Hu. rewrite !pad10_uint in Hu by done.
  split; congruence.
Qed.

(** The path of an email names its key; its date is the indexed one, or the first of the month. *)
Lemma email_of_built_path dates full uid uv d :
  in_uint32 uid -> in_uint32 uv -> path_date d ->
  email_of_path dates full (email_rel_path uid uv d) =
    Ok (uid, uv, default (first_of_month d) (dates !! (uid, uv))).
Proof.
  intros Hu Hv Hd. unfold email_of_path, email_rel_path. rewrite fmt_u_uint, pad10_uint by done.
  destruct (dates !! (uid, uv)) as [d'|]; [done|]. simpl. by rewrite parse_format_month.
Qed.

(** ** Absence of a file *)

Definition absent (s : fs) (p : path) : Prop := forall n, fs_stat s p <> Ok n.

Lemma fs_stat_Ok s p n : fs_stat s p = Ok n <-> dir_err s (parent p) = None /\ s !! p = Some n.
Proof.
  unfold fs_stat. destruct (dir_err s (parent p)); [naive_solver|].
  destruct (s !! p); naive_solver.
Qed.

Lemma absent_mono s s' p : s' ⊆ s -> absent s p -> absent s' p.
Proof.
  intros Hs Ha n Hn. apply fs_stat_Ok in Hn as [H1 H2]. apply (Ha n). apply fs_stat_Ok.
  split; [by eapply dir_err_mono|by eapply lookup_weaken].
Qed.

Lemma fs_stat_only root (c : string -> Prop) s s' d t :
  only root c s s' -> ~ c d -> fs_stat s' (root ++ d :: t) = fs_stat s (root ++ d :: t).
Proof.
  intros Ho Hd. unfold fs_stat. rewrite (only_lookup _ _ _ _ _ _ Ho) by done.
  replace (dir_err s' (parent (root ++ d :: t))) with (dir_err s (parent (root ++ d :: t))); [done|].
  symmetry. apply dir_err_ext. intros q u Hp Hq. apply Ho. intros d' t' -> Hc.
  assert (root ++ d :: t = (root ++ d' :: t') ++ (u ++ [List.last (root ++ d :: t) ""])) as H.
  { rewrite app_assoc, <- Hp. unfold parent. apply app_removelast_last. by destruct root. }
  rewrite <- app_assoc in H. apply app_inv_head in H. injection H as <- _. done.
Qed.

Lemma absent_only root (c : string -> Prop) s s' d t :
  only root c s s' -> ~ c d -> absent s (root ++ d :: t) -> absent s' (root ++ d :: t).
Proof. intros Ho Hd Ha n. rewrite (fs_stat_only root c s s') by done. apply Ha. Qed.

(** ** Removals of files *)

(** [s'] is [s] without some of the paths in [ps]. *)
Definition removed (ps : path -> Prop) (s s' : fs) : Prop :=
  s' ⊆ s /\ forall q, ~ ps q -> s' !! q = s !! q.

#[export] Instance removed_preorder ps : PreOrder (removed ps).
Proof.
  split; [by split|]. intros s1 s2 s3 [H1 H2] [H3 H4]. split; [by etransitivity|].
  intros q Hq. rewrite H4 by done. by apply H2.
Qed.

Lemma removed_delete (ps : path -> Prop) p s : ps p -> removed ps s (delete p s).
Proof.
  intros Hp. split; [apply delete_subseteq|]. intros q Hq. rewrite lookup_delete_ne; [done|]. by intros ->.
Qed.

(** A successful [os.Remove] removes the entry, and one that fails changes nothing. *)
Lemma fs_remove_cases p s :
  (exists e, fs_remove p s = (Err e, s)) \/
  fs_remove p s = (Ok tt, delete p s) /\ is_Some (s !! p).
Proof.
  unfold fs_remove. destruct (fs_stat s p) as [[k|k c]|e] eqn:E.
  - apply fs_stat_Ok in E as [_ E]. destruct (children s p); [right|left; by eexists].
    split; [done|]. by eexists.
  - apply fs_stat_Ok in E as [_ E]. right. split; [done|]. by eexists.
  - left. by eexists.
Qed.

Lemma fs_remove_gone p s e : fs_remove p s = (Err e, s) -> is_not_exist e = true -> absent s p.
Proof.
  unfold fs_remove. intros H He n Hn. rewrite Hn in H. destruct n as [k|k c]; [|done].
  destruct (children s p); [done|]. by injection H as <-.
Qed.

Lemma absent_deleted p s : absent (delete p s) p.
Proof. intros n H. apply fs_stat_Ok in H as [_ H]. by rewrite lookup_delete_eq in H. Qed.

Lemma wp_remove (b : bool) (t : Time) (ps : path -> Prop) p s (Q : result unit -> fs -> Prop) (C : fs -> Prop) :
  ps p ->
  (forall s', removed ps s s' -> absent s' p -> Q (Ok tt) s') ->
  (forall e s', removed ps s s' -> (is_not_exist e = true -> absent s' p) -> Q (Err e) s') ->
  (b = true -> C s) ->
  wp b t (sys_remove p) Q C s.
Proof.
  intros Hp HOk HErr HC. apply wp_prim.
  - destruct (fs_remove_cases p s) as [[e He]|[He _]]; rewrite He; simpl.
    + apply HErr; [done|]. intros Hn. by eapply fs_remove_gone.
    + apply HOk; [by apply removed_delete|apply absent_deleted].
  - intros Hb d. split; [by apply HC|]. intros e He. apply HErr; [done|].
    intros Hn. by rewrite injected_not_exist in Hn.
Qed.

(** Removing empty directories. *)
Lemma wp_remove_empty (b : bool) (t : Time) (ps : path -> Prop) dirs s (Q : unit -> fs -> Prop) (C : fs -> Prop) :
  (forall d, d ∈ dirs -> ps d) ->
  (forall s', removed ps s s' -> Q tt s') ->
  (b = true -> forall s', removed ps s s' -> C s') ->
  wp b t (remove_empty dirs) Q C s.
Proof.
  revert s. induction dirs as [|d dirs IH]; intros s Hps HQ HC; simpl; [by apply wp_ret, HQ|].
  assert (wp b t (remove_empty dirs) Q C s) as Hrest.
  { apply IH; [|done..]. intros. apply Hps. by right. }
  apply wp_bind. apply wp_read; [|intros Hb; split; [by apply HC|done]].
  destruct (dir_err s d); [done|]. destruct (entries s d); [|done].
  apply wp_bind. apply (wp_remove b t ps); [apply Hps; by left|..|intros Hb; by apply HC].
  - intros s' H _. apply IH; [intros; apply Hps; by right|..].
    + intros s2 H2. apply HQ. by etransitivity.
    + intros Hb s2 H2. apply HC; [done|]. by etransitivity.
  - intros e s' H _. apply IH; [intros; apply Hps; by right|..].
    + intros s2 H2. apply HQ. by etransitivity.
    + intros Hb s2 H2. apply HC; [done|]. by etransitivity.
Qed.

(** ** [DeleteEmailsBefore] *)

Section delete.
Context (root : path) (cutoff : Time).

Definition expired_path (es : list EmailMeta) (p : path) : Prop :=
  exists e, e ∈ es /\ expired cutoff e = true /\ p = entry_path root e.

(** Nothing but a regular file, or nothing at all, is where an expired email should be. *)
Definition removable (s : fs) (e : EmailMeta) : Prop :=
  match fs_stat s (entry_path root e) with
  | Ok n => is_dir n = false
  | Err err => is_not_exist err = true
  end.

Lemma entry_path_parent e :
  parent (entry_path root e) =
    root ++ ["emails"; fmt_u (UIDValidity e); format_yyyymm (InternalDate e)].
Proof.
  unfold entry_path, buildEmailPath, email_rel_path.
  replace (root ++ _) with ((root ++ ["emails"; fmt_u (UIDValidity e); format_yyyymm (InternalDate e)])
    ++ [String.append (pad10 (UID e)) ".eml"]); [apply parent_app|by rewrite <- app_assoc].
Qed.

Lemma expired_path_length es p : expired_path es p -> length p = (length root + 4)%nat.
Proof.
  intros (e & _ & _ & ->). unfold entry_path, buildEmailPath. rewrite length_app. simpl. lia.
Qed.

(** Removing expired files leaves the directories they are in. *)
Lemma removed_parent es s s' e :
  removed (expired_path es) s s' ->
  dir_err s' (parent (entry_path root e)) = dir_err s (parent (entry_path root e)).
Proof.
  intros [_ H]. apply dir_err_ext. intros q u Hp _. apply H. intros Hq.
  apply expired_path_length in Hq. rewrite entry_path_parent in Hp.
  apply (f_equal length) in Hp. rewrite !length_app in Hp. simpl in Hp. lia.
Qed.

Lemma removed_removable es s s' e :
  removed (expired_path es) s s' -> removable s e -> removable s' e.
Proof.
  intros H. unfold removable, fs_stat. rewrite (removed_parent es s s' e H).
  destruct (dir_err s _); [done|]. destruct (s' !! entry_path root e) as [n|] eqn:E; [|done].
  destruct H as [H _]. by rewrite (lookup_weaken _ _ _ _ E H).
Qed.

Lemma removed_emails es s s' : removed (expired_path es) s s' -> only root (eq "emails") s s'.
Proof.
  intros [_ H] q Hq. apply H. intros (e & _ & _ & ->). by apply (Hq "emails" (email_rel_path (UID e) (UIDValidity e) (InternalDate e))).
Qed.

Lemma removed_mono (ps ps' : path -> Prop) s s' :
  (forall p, ps p -> ps' p) -> removed ps s s' -> removed ps' s s'.
Proof. intros Hp [H1 H2]. split; [done|]. intros q Hq. apply H2. auto. Qed.

(** What the loop has decided about the entries [es]. *)
Record decided (es : list EmailMeta) (s' : fs) (gc surv : list EmailMeta) : Prop := {
  dec_gc : forall e, e ∈ gc -> e ∈ es /\ expired cutoff e = true /\ absent s' (entry_path root e);
  dec_surv : surv `sublist_of` es;
  dec_all : forall e, e ∈ es -> e ∈ gc \/ e ∈ surv;
  dec_young : forall e, e ∈ es -> expired cutoff e = false -> e ∈ surv
}.

Definition swept (a : sweep) (gc surv : list EmailMeta) (errs : list goerr) : sweep :=
  {| sw_deleted := sw_deleted a + Z.of_nat (length gc); sw_gc := sw_gc a ++ gc;
     sw_surviving := sw_surviving a ++ surv; sw_errs := sw_errs a ++ errs |}.

Lemma swept_nil a : swept a [] [] [] = a.
Proof. destruct a. unfold swept. simpl. rewrite !app_nil_r. f_equal. lia. Qed.

Lemma swept_drop a e gc surv errs : swept (drop_entry e a) gc surv errs = swept a (e :: gc) surv errs.
Proof. unfold swept, drop_entry. simpl. f_equal; [lia|by rewrite <- app_assoc]. Qed.

Lemma swept_keep a e errs0 gc surv errs :
  swept (keep_entry e errs0 a) gc surv errs = swept a gc (e :: surv) (errs0 ++ errs).
Proof. unfold swept, keep_entry. simpl. f_equal; by rewrite <- app_assoc. Qed.

Lemma decided_nil s : decided [] s [] [].
Proof. split; [by intros e He%elem_of_nil|done|by intros e ?%elem_of_nil..]. Qed.

Lemma decided_keep e es s gc surv : decided es s gc surv -> decided (e :: es) s gc (e :: surv).
Proof.
  intros [H1 H2 H3 H4]. split.
  - intros x Hx. destruct (H1 x Hx) as (? & ? & ?). split_and!; [by right|done..].
  - by constructor.
  - intros x Hx. apply elem_of_cons in Hx as [->|Hx]; [right; by left|].
    destruct (H3 x Hx); [by left|right; by right].
  - intros x Hx Hxe. apply elem_of_cons in Hx as [->|Hx]; [by left|]. right. by apply H4.
Qed.

Lemma decided_drop e es s gc surv : expired cutoff e = true -> absent s (entry_path root e) ->
  decided es s gc surv -> decided (e :: es) s (e :: gc) surv.
Proof.
  intros He Ha [H1 H2 H3 H4]. split.
  - intros x Hx. apply elem_of_cons in Hx as [->|Hx]; [by split_and!; [left|..]|].
    destruct (H1 x Hx) as (? & ? & ?). split_and!; [by right|done..].
  - by constructor.
  - intros x Hx. apply elem_of_cons in Hx as [->|Hx]; [left; by left|].
    destruct (H3 x Hx); [left; by right|by right].
  - intros x Hx Hxe. apply elem_of_cons in Hx as [->|Hx]; [congruence|]. by apply H4.
Qed.

(** The loop, with any errors, any crash; and exactly, when every file can be removed. *)
Lemma wp_delete_loop (b : bool) (t : Time) all es a s (Q : sweep -> fs -> Prop) (C : fs -> Prop) :
  (forall e, e ∈ es -> e ∈ all) ->
  (forall gc surv errs s', removed (expired_path all) s s' -> decided es s' gc surv ->
     (b = false -> (forall e, e ∈ es -> expired cutoff e = true -> removable s e) ->
        gc = List.filter (expired cutoff) es /\ surv = List.filter (fun e => negb (expired cutoff e)) es /\
        errs = []) ->
     Q (swept a gc surv errs) s') ->
  (b = true -> forall s', removed (expired_path all) s s' -> C s') ->
  wp b t (delete_loop root cutoff es a) Q C s.
Proof.
  revert a s Q. induction es as [|e es IH]; intros a s Q Hall HQ HC; cbn [delete_loop].
  { apply wp_ret. rewrite <- (swept_nil a). apply HQ; [done|apply decided_nil|done]. }
  assert (forall e, e ∈ es -> e ∈ all) as Hall' by (intros; apply Hall; by right).
  destruct (expired cutoff e) eqn:Ee; cbn [negb].
  2:{ apply IH; [done| |done]. intros gc surv errs s' H1 H2 H3. rewrite swept_keep. apply HQ;
        [done|by apply decided_keep|]. intros Hb Hr. cbn [List.filter]. rewrite Ee. cbn [negb].
      destruct (H3 Hb) as (-> & -> & ->); [|done]. intros x Hx. apply Hr. by right. }
  assert (expired_path all (entry_path root e)) as Hp.
  { exists e. split_and!; [apply Hall; by left|done..]. }
  assert (forall s1, removed (expired_path all) s s1 -> absent s1 (entry_path root e) ->
    wp b t (delete_loop root cutoff es (drop_entry e a)) Q C s1) as Hdrop.
  { intros s1 Hr1 Ha1. apply IH; [done| |].
    - intros gc surv errs s' H1 H2 H3. rewrite swept_drop. apply HQ; [by etransitivity| |].
      + apply decided_drop; [done| |done]. eapply absent_mono; [apply H1|done].
      + intros Hb Hr. cbn [List.filter]. rewrite Ee. cbn [negb].
        destruct (H3 Hb) as (-> & -> & ->); [|done]. intros x Hx Hxe.
        apply (removed_removable all s s1); [done|]. apply Hr; [by right|done].
    - intros Hb s2 H2. apply HC; [done|]. by etransitivity. }
  apply wp_bind. apply wp_prim.
  - destruct (fs_remove_cases (entry_path root e) s) as [[err He]|[He _]]; rewrite He; cbn [fst snd].
    + destruct (is_not_exist err) eqn:En; cbn [negb].
      { apply Hdrop; [done|]. by eapply fs_remove_gone. }
      apply IH; [done| |done]. intros gc surv errs s' H1 H2 H3. rewrite swept_keep.
      apply HQ; [done|by apply decided_keep|]. intros Hb Hr. exfalso.
      specialize (Hr e ltac:(by left) Ee). unfold removable in Hr. unfold fs_remove in He.
      destruct (fs_stat s (entry_path root e)) as [[k|k c]|e']; [done..|]. congruence.
    + apply Hdrop; [by apply removed_delete|apply absent_deleted].
  - intros Hb d. split; [by apply HC|]. intros err He. rewrite (injected_not_exist err) by done. cbn [negb].
    apply IH; [done| |done]. intros gc surv errs s' H1 H2 H3. rewrite swept_keep.
    apply HQ; [done|by apply decided_keep|]. congruence.
Qed.

(** ** The whole operation *)

(** The directories [cleanupEmptyDirs] may remove. *)
Definition gc_dir (es : list EmailMeta) (p : path) : Prop :=
  exists e, e ∈ es /\
    (p = root ++ ["emails"; fmt_u (UIDValidity e); format_yyyymm (InternalDate e)] \/
     p = root ++ ["emails"; fmt_u (UIDValidity e)]).

(** What a deletion may have done by the time it returns or dies: the index has lost only
    expired entries, those whose file is gone, and below the emails directory nothing but the
    files of expired entries and their directories has been removed. *)
Record delete_outcome (df df' : internalDataFile) (s s' : fs) : Prop := {
  do_index : data_at root s' = Ok df';
  do_reports : df_Reports df' = df_Reports df;
  do_sub : df_Emails df' `sublist_of` df_Emails df;
  do_young : forall e, e ∈ df_Emails df -> expired cutoff e = false -> e ∈ df_Emails df';
  do_gone : forall e, e ∈ df_Emails df -> e ∉ df_Emails df' ->
    expired cutoff e = true /\ absent s' (entry_path root e);
  do_kept : forall t n, s' !! (root ++ "emails" :: t) = Some n -> s !! (root ++ "emails" :: t) = Some n;
  do_files : forall t, let p := root ++ "emails" :: t in
    ~ expired_path (df_Emails df) p -> ~ gc_dir (df_Emails df) p -> s' !! p = s !! p
}.

Lemma data_at_only (c : string -> Prop) s s' :
  only root c s s' -> ~ c "tlsrpt.json" -> data_at root s' = data_at root s.
Proof.
  intros Ho Hc. unfold data_at, fs_read_file, dataFilePath. by rewrite (fs_stat_only root c s s').
Qed.

Lemma not_tmp_data : ~ (HasPrefix "tlsrpt.json" tmp_prefix = true).
Proof. done. Qed.
Lemma not_tmp_emails : ~ (HasPrefix "emails" tmp_prefix = true).
Proof. done. Qed.

(** The index is as it was: nothing has been decided yet, or the write failed. *)
Lemma outcome_unwritten df s s1 s' :
  data_at root s = Ok df -> removed (expired_path (df_Emails df)) s s1 -> s1 ⊑{root} s' ->
  delete_outcome df df s s'.
Proof.
  intros Hdf H1 H2. apply only_tmp_ext in H2. split; try done.
  - rewrite (data_at_only _ _ _ H2 not_tmp_data).
    by rewrite (data_at_only _ _ _ (removed_emails _ _ _ H1)) by done.
  - intros t n. rewrite (only_lookup _ _ _ _ _ _ H2) by apply not_tmp_emails. intros H.
    by eapply lookup_weaken; [|apply H1].
  - intros t p He _. unfold p. rewrite (only_lookup _ _ _ _ _ _ H2) by apply not_tmp_emails.
    by apply H1.
Qed.

Lemma sublist_valid es df : es `sublist_of` df_Emails df -> valid_data df = true ->
  valid_data (set_emails es df) = true.
Proof.
  unfold valid_data, data_times_ok. simpl. intros Hs H. zbool. rewrite H.
  apply andb_true_iff. split; [done|]. apply andb_true_iff. split; [done|].
  apply forallb_forall. intros e He. rewrite forallb_forall in H1. apply H1.
  apply list_elem_of_In in He. apply list_elem_of_In. by eapply elem_of_sublist.
Qed.

(** The index has been rewritten, and empty directories may have gone. *)
Lemma outcome_written df s s1 s' gc surv :
  data_at root s = Ok df -> dir_err s root = None ->
  removed (expired_path (df_Emails df)) s s1 -> decided (df_Emails df) s1 gc surv ->
  removed (gc_dir (df_Emails df)) (with_data root (set_emails surv df) s1) s' ->
  delete_outcome df (set_emails surv df) s s'.
Proof.
  intros Hdf Hd H1 [Hgc Hsurv Hall Hyoung] H2.
  assert (dir_err s1 root = None) as Hd1 by by rewrite (only_dir_err _ _ _ _ (removed_emails _ _ _ H1)).
  assert (only root (eq "emails") (with_data root (set_emails surv df) s1) s') as Ho.
  { intros q Hq. apply H2. intros (e & _ & [-> | ->]); by eapply (Hq "emails"). }
  pose proof (only_written root "tlsrpt.json" (JData (set_emails surv df)) s1) as Hw.
  split; try done.
  - rewrite (data_at_only _ _ _ Ho) by done. apply data_at_with; [done|].
    apply sublist_valid; [done|]. by eapply data_at_valid.
  - intros e He Hn. destruct (Hall e He) as [Hin|?]; [|done]. destruct (Hgc e Hin) as (_ & ? & Ha).
    split; [done|]. eapply absent_mono; [apply H2|]. unfold with_data.
    unfold entry_path, buildEmailPath in *. eapply absent_only; [apply Hw|done|done].
  - intros t n H. eapply lookup_weaken in H; [|apply H2]. unfold with_data in H.
    rewrite (only_lookup _ _ _ _ _ _ Hw) in H by done. by eapply lookup_weaken; [|apply H1].
  - intros t p He Hg. unfold p in *. destruct H2 as [_ H2]. rewrite H2 by done.
    unfold with_data. rewrite (only_lookup _ _ _ _ _ _ Hw) by done. by apply H1.
Qed.

Lemma gc_dirs_ok idn md df s1 gc surv d : decided (df_Emails df) s1 gc surv ->
  let st := newStore root idn md in
  d ∈ mm_dirs (emailsDirPath st) gc \/ d ∈ uv_dirs (emailsDirPath st) gc -> gc_dir (df_Emails df) d.
Proof.
  intros [Hgc _ _ _] st [Hd|Hd]; unfold mm_dirs, uv_dirs in Hd; rewrite elem_of_remove_dups in Hd;
    apply list_elem_of_In, in_map_iff in Hd as (e & <- & He); apply list_elem_of_In in He;
    exists e; (split; [by apply Hgc|]); [left|right]; simpl; unfold emailsPath; by rewrite <- app_assoc.
Qed.

Lemma wp_DeleteEmailsBefore idn md df s (b : bool) (t : Time) (Q : Z * option goerr -> fs -> Prop)
    (C : fs -> Prop) :
  md <> OpenReadOnly -> IsZero cutoff = false -> dir_err s root = None -> data_at root s = Ok df ->
  (forall r df' s', delete_outcome df df' s s' ->
     (b = false -> (forall e, e ∈ df_Emails df -> expired cutoff e = true -> removable s e) ->
        data_writable root s ->
        r = (count_if (expired cutoff) (df_Emails df), None) /\
        df' = set_emails (List.filter (fun e => negb (expired cutoff e)) (df_Emails df)) df) ->
     Q r s') ->
  (b = true -> forall df' s', delete_outcome df df' s s' -> C s') ->
  wp b t (DeleteEmailsBefore (newStore root idn md) cutoff) Q C s.
Proof.
  intros Hmd Hz Hd Hdf HQ HC. unfold DeleteEmailsBefore. simpl. rewrite bool_decide_false, Hz by done.
  assert (forall s1 s', removed (expired_path (df_Emails df)) s s1 -> s1 ⊑{root} s' ->
    delete_outcome df df s s') as Hun by (intros; by eapply outcome_unwritten).
  apply wp_bind. apply (reads_loadDataFile root idn md).
  2:{ intros Hb. split; [apply (HC Hb df), (Hun s); reflexivity|]. intros e _. apply wp_ret.
      apply (HQ _ df); [apply (Hun s); reflexivity|congruence]. }
  rewrite Hdf. apply wp_bind. apply (wp_delete_loop b t (df_Emails df)); [done| |].
  2:{ intros Hb s' H. apply (HC Hb df), (Hun s'); [done|reflexivity]. }
  intros gc surv errs s1 Hr1 Hdec Hexact. unfold swept.
  cbn [sw_deleted sw_gc sw_surviving sw_errs app]. rewrite Z.add_0_l.
  destruct (Z.eqb_spec (Z.of_nat (length gc)) 0) as [H0|H0].
  { apply wp_ret. apply (HQ _ df); [apply (Hun s1); [done|reflexivity]|].
    intros Hb Hrem Hw. destruct (Hexact Hb Hrem) as (-> & -> & ->). unfold count_if. rewrite H0.
    split; [done|]. assert (length (List.filter (expired cutoff) (df_Emails df)) = 0%nat) as Hl by lia.
    rewrite filter_all; [by destruct df|]. intros e He. apply negb_true_iff.
    destruct (expired cutoff e) eqn:Ee; [|done]. apply length_zero_iff_nil in Hl.
    assert (In e []) as []. rewrite <- Hl. by apply filter_In. }
  assert (dir_err s1 root = None) as Hd1 by by rewrite (only_dir_err _ _ _ _ (removed_emails _ _ _ Hr1)).
  assert (forall s', removed (gc_dir (df_Emails df)) (with_data root (set_emails surv df) s1) s' ->
    delete_outcome df (set_emails surv df) s s') as Hwr by (intros; by eapply outcome_written).
  apply wp_bind. apply wp_save_data.
  - intros _ _. apply wp_bind. unfold cleanupEmptyDirs. apply wp_bind.
    apply (wp_remove_empty b t (gc_dir (df_Emails df))).
    { intros d Hin. eapply (gc_dirs_ok idn md); [done|by left]. }
    2:{ intros Hb s' H. by eapply (HC Hb), Hwr. }
    intros s2 H2. apply (wp_remove_empty b t (gc_dir (df_Emails df))).
    { intros d Hin. eapply (gc_dirs_ok idn md); [done|by right]. }
    2:{ intros Hb s' H. eapply (HC Hb), Hwr. by etransitivity. }
    intros s3 H3. apply wp_ret. eapply HQ; [apply Hwr; by etransitivity|].
    intros Hb Hrem Hw. by destruct (Hexact Hb Hrem) as (-> & -> & ->).
  - intros e s' Ht Hf. apply wp_ret. eapply HQ; [by apply (Hun s1)|]. intros Hb Hrem [_ Hw]. exfalso.
    apply (Hf Hb); [|split; [done|]].
    + pose proof (sublist_valid surv df (dec_surv _ _ _ _ Hdec) (data_at_valid _ _ _ Hdf)) as Hv.
      unfold valid_data in Hv. by zbool.
    + intros [k Hk]. apply Hw. exists k. rewrite <- Hk. symmetry.
      apply (only_lookup _ _ _ _ _ [] (removed_emails _ _ _ Hr1)). done.
  - intros Hb s' [H|H]; [apply (HC Hb df), (Hun s1); done|].
    destruct H as (_ & _ & ->). eapply (HC Hb), Hwr. reflexivity.
Qed.
End delete.

(** ** [SaveEmail] *)

Section save.
Context (root : path) (idn : IMAPIdentity) (md : OpenMode) (Hmd : md <> OpenReadOnly).
Context (uid uv : Z) (d : Time) (raw : string) (Hd : IsZero d = false).
Local Abbreviation st := (newStore root idn md).

Definition email_dir : path := root ++ ["emails"; fmt_u uv; format_yyyymm d].
Definition email_file : string := String.append (pad10 uid) ".eml".

Lemma email_target : buildEmailPath root uid uv d = email_dir ++ [email_file].
Proof. unfold buildEmailPath, email_rel_path, email_dir. by rewrite <- app_assoc. Qed.

Lemma email_file_not_tmp : HasPrefix email_file tmp_prefix = false.
Proof.
  unfold email_file, pad10, pad_zeros.
  destruct (10 - String.length (fmt_u uid))%nat as [|k]; [|done].
  change (String.append (zeros 0) (fmt_u uid)) with (fmt_u uid).
  pose proof (digits_head (S (Z.to_nat (Z.log2 uid))) uid "" ltac:(done)) as H.
  fold (fmt_u uid) in H. pose proof (fmt_u_nonempty uid). destruct (fmt_u uid) as [|c r]; [done|].
  change (String.append (String c r) ".eml") with (String c (String.append r ".eml")).
  unfold HasPrefix. cbn [strip_prefix tmp_prefix]. rewrite Ascii.eqb_sym, H. done.
Qed.

(** The email is stored as soon as something is stored: a reader finds no part of it. *)
Definition email_stored (s s' : fs) : Prop :=
  exists s1, dirs_added email_dir s s1 /\ dir_err s1 email_dir = None /\
    s' = written (email_dir ++ [email_file]) (Raw raw) s1.
Definition email_not_stored (s s' : fs) : Prop :=
  exists s1, dirs_added email_dir s s1 /\ s1 ⊑{email_dir} s'.

Lemma wp_SaveEmail (b : bool) (t : Time) s (Q : result unit -> fs -> Prop) (C : fs -> Prop) :
  ((exists n, fs_stat s (buildEmailPath root uid uv d) = Ok n /\ is_dir n = false) -> Q (Ok tt) s) ->
  (forall s', fs_stat s (buildEmailPath root uid uv d) = Err (Errno ENOENT) ->
     email_stored s s' -> Q (Ok tt) s') ->
  (forall e s', email_not_stored s s' ->
     (b = false -> blocked s email_dir \/
                   is_dir_at s (buildEmailPath root uid uv d)) -> Q (Err e) s') ->
  (b = true -> forall s', email_not_stored s s' \/
     (fs_stat s (buildEmailPath root uid uv d) = Err (Errno ENOENT) /\ email_stored s s') -> C s') ->
  wp b t (SaveEmail st uid uv d raw) Q C s.
Proof.
  intros HOld HNew HErr HC. unfold SaveEmail. simpl. rewrite bool_decide_false, Hd by done.
  assert (email_not_stored s s) as H0 by by exists s; split; [apply dirs_added_refl|].
  apply wp_bind. apply wp_read.
  2:{ intros Hb. split; [apply HC; auto|]. intros e He. rewrite (injected_not_exist e) by done.
      apply wp_ret. apply HErr; [done|congruence]. }
  destruct (fs_stat s (buildEmailPath root uid uv d)) as [n|e] eqn:Es.
  { destruct n as [k|k c]; simpl; apply wp_ret; [apply HErr; [done|]; right; apply fs_stat_Ok in Es as [_ Es]; by exists k|].
    apply HOld. by exists (File k c). }
  assert (e = Errno ENOENT \/ e = Errno ENOTDIR /\ blocked s email_dir) as [-> | [-> Hbl]].
  { unfold fs_stat in Es. destruct (dir_err s (parent _)) as [e'|] eqn:E.
    - injection Es as <-. apply dir_err_Some in E as [->|[-> Hb]]; [by left|right].
      split; [done|]. by rewrite email_target, parent_app in Hb.
    - destruct (s !! _); [done|]. injection Es as <-. by left. }
  2:{ apply wp_ret. apply HErr; [done|]. by left. }
  simpl. rewrite email_target, parent_app. apply wp_bind. unfold email_dir.
  replace (root ++ ["emails"; fmt_u uv; format_yyyymm d])
    with ((root ++ ["emails"; fmt_u uv]) ++ [format_yyyymm d]) by by rewrite <- app_assoc.
  apply wp_ensureDirExists;
    replace ((root ++ ["emails"; fmt_u uv]) ++ [format_yyyymm d]) with email_dir
      by by unfold email_dir; rewrite <- app_assoc.
  - intros s1 H1 Hd1 _. apply wp_atomicWriteFile; [apply email_file_not_tmp|..].
    + intros _ _. apply HNew; [done|]. by exists s1.
    + intros op e s' H2 Hf. apply HErr; [by exists s1|]. intros Hb.
      destruct (Hf Hb) as [_ [k Hk]]; [done|]. apply H1 in Hk as [Hk|(_ & Hne & u & Hu)].
      * right. rewrite email_target. by exists k.
      * exfalso. apply (f_equal length) in Hu. rewrite !length_app in Hu. simpl in Hu. lia.
    + intros Hb s' [H2|[_ ->]]; apply HC; [done| |done|]; [left|right; split; [done|]]; by exists s1.
  - intros e s' H1 Hf. apply wp_ret. apply HErr; [by exists s'|]. intros Hb. left.
    by apply Hf.
  - intros Hb s' H1. apply HC; [done|]. left. by exists s'.
Qed.
End save.
