(* ===== verification/StoreOpen.v ===== *)
(** * Opening a store (internal/store/store.go)

    [Open] is what every command starts with. In read-write mode it refuses a store whose
    discard-old reset is under way and clears up after one that is complete; in read-only mode
    it writes nothing; in recover-reset mode it leaves alone what a reset may have staged. *)
From S2P Require Import Prelude GoStr GoTime GoErr Tlsrpt StoreTypes Fs Io AtomicFile Sentinel.
From S2P Require Import FileStore Recovery Reset.

(** The part of [Open] that creates what is missing. *)
Definition prepare (rootDir : path) (mode : OpenMode) : M (result unit) :=
  try! _ := ensureDirExists rootDir
    else err => ret (Err (errorf "Open: ensure root dir: " err)) in
  try! _ :=
    (if negb (bool_decide (mode = OpenRecoverReset)) then
       try! _ := ensureDirExists (emailsPath rootDir)
         else err => ret (Err (errorf "Open: ensure emails dir: " err)) in
       try! _ := initDataFile rootDir
         else err => ret (Err (errorf "Open: init data file: " err)) in
       ret (Ok tt)
     else ret (Ok tt))
    else err => ret (Err err) in
  try! _ := sys_open_create (guardFilePath rootDir) filePerm
    else err => ret (Err (errorf "Open: create guard file: " err)) in
  let! _ := sys_close in
  ret (Ok tt).

(** The part that reads or creates the sentinel, and checks whose store it is. *)
Definition open_sentinel (rootDir : path) (identity : IMAPIdentity) (readOnly : bool)
  : M (result unit) :=
  try! sentinel := loadSentinel rootDir
    else err => ret (Err (errorf "Open: load sentinel: " err)) in
  match sentinel with
  | Some sentinel =>
      match verifySentinelIdentity rootDir sentinel identity with
      | Err err => ret (Err err)
      | Ok _ => let! _ := checkFilePermissions (sentinelPath rootDir) in ret (Ok tt)
      end
  | None =>
      if negb readOnly then
        try! _ := initSentinel rootDir identity
          else err => ret (Err (errorf "Open: init sentinel: " err)) in
        ret (Ok tt)
      else ret (Ok tt)
  end.

Definition Open (rootDir : path) (identity : IMAPIdentity) (mode : OpenMode) : M (result fileStore) :=
  let readOnly := bool_decide (mode = OpenReadOnly) in
  try! _ :=
    (if bool_decide (mode = OpenReadWrite) then cleanupCompletedReset rootDir else ret (Ok tt))
    else err => ret (Err err) in
  try! _ := (if negb readOnly then prepare rootDir mode else ret (Ok tt))
    else err => ret (Err err) in
  try! _ := open_sentinel rootDir identity readOnly
    else err => ret (Err err) in
  let! statErr := sys_stat (dataFilePath rootDir) in
  let! _ := (match statErr with Ok _ => checkFilePermissions (dataFilePath rootDir) | Err _ => ret tt end) in
  ret (Ok (newStore rootDir identity mode)).

Section open.
Context (root : path) (idn : IMAPIdentity).

(** ** Read-only *)

(** What a read-only [Open] answers, by the sentinel it finds. *)
Definition open_ro_result (s : fs) : result fileStore :=
  match sentinel_at root s with
  | Err err => Err (errorf "Open: load sentinel: " err)
  | Ok (Some se) =>
      match verifySentinelIdentity root se idn with
      | Err err => Err err
      | Ok _ => Ok (newStore root idn OpenReadOnly)
      end
  | Ok None => Ok (newStore root idn OpenReadOnly)
  end.

(** The permission checks at the end read and log. *)
Lemma wp_stat_checks (b : bool) (t : Time) md (Q : result fileStore -> fs -> Prop) C s :
  Q (Ok (newStore root idn md)) s -> (b = true -> C s) ->
  wp b t (let! statErr := sys_stat (dataFilePath root) in
          let! _ := (match statErr with
                     | Ok _ => checkFilePermissions (dataFilePath root) | Err _ => ret tt end) in
          ret (Ok (newStore root idn md))) Q C s.
Proof.
  intros HQ HC. apply wp_bind. apply wp_read.
  - destruct (fs_stat s (dataFilePath root)); apply wp_bind.
    + apply wp_checkFilePermissions; [by apply wp_ret|done].
    + apply wp_ret. by apply wp_ret.
  - intros Hb. split; [by apply HC|]. intros e _. apply wp_bind. apply wp_ret. by apply wp_ret.
Qed.

Lemma reads_Open_ro : reads (Open root idn OpenReadOnly) open_ro_result (fun _ => True).
Proof.
  intros b t s Q C HQ HF. unfold Open.
  change (bool_decide (OpenReadOnly = OpenReadOnly)) with true.
  change (bool_decide (OpenReadOnly = OpenReadWrite)) with false. simpl. apply wp_bind, wp_ret. apply wp_bind, wp_ret.
  assert (b = true -> C s) as HC by (intros Hb; apply HF; done).
  assert (forall e, b = true -> Q (Err e) s) as HE by (intros e Hb; by apply HF).
  apply wp_bind. unfold open_sentinel. apply wp_bind. apply (reads_loadSentinel root).
  - unfold open_ro_result in HQ. destruct (sentinel_at root s) as [[se|]|e]; simpl.
    + destruct (verifySentinelIdentity root se idn) as [[]|e].
      * apply wp_bind. apply wp_checkFilePermissions; [|done]. apply wp_ret.
        by apply wp_stat_checks.
      * by do 2 apply wp_ret.
    + apply wp_ret. by apply wp_stat_checks.
    + by do 2 apply wp_ret.
  - intros Hb. split; [by apply HC|]. intros e _. do 2 apply wp_ret. by apply HE.
Qed.

(** ** The reset left by an earlier process *)

(** What [cleanupCompletedReset] decides from the manifest and the sentinel. *)
Inductive leftover : Type :=
  | LNone (** no manifest: an orphaned staging directory may be removed *)
  | LRefuse (e : goerr) (** fail closed *)
  | LStale. (** the manifest and the staging directory are removed *)

Definition classify (s : fs) : leftover :=
  match manifest_at root s with
  | Err err =>
      if is_not_exist err then LNone else LRefuse (errorf "cleanupCompletedReset: read manifest: " err)
  | Ok m =>
      if negb (rm_Version m =? resetManifestVersion)
      then LRefuse (ErrResetManifestVersionMismatch (rm_Version m) resetManifestVersion)
      else
        match validateManifestPhase (rm_Phase m) with
        | Err err => LRefuse err
        | Ok _ =>
            match sentinel_at root s with
            | Err err => LRefuse (errorf "cleanupCompletedReset: load sentinel: " err)
            | Ok None => LRefuse (Sentinel ErrPendingReset)
            | Ok (Some se) =>
                match RecoveryRequired se with
                | Some rr =>
                    if rm_CurrUIDValidity m =? CurrUIDValidity rr
                    then LRefuse (Sentinel ErrPendingReset) else LStale
                | None => LStale
                end
            end
        end
  end.

(** Only the manifest and the staging tree may differ, and only by removals. *)
Definition cleared (s s' : fs) : Prop :=
  s' ⊆ s /\ only root (fun d => d = manifestFilename \/ d = stagingDirName) s s'.

#[export] Instance cleared_preorder : PreOrder cleared.
Proof.
  split; [by intros s; split|]. intros s1 s2 s3 [? ?] [? ?]. split; by etransitivity.
Qed.

Lemma cleared_filter (P : path * node -> Prop) `{!forall x, Decision (P x)} (s : fs) d :
  d = manifestFilename \/ d = stagingDirName ->
  (forall q, strip (root ++ [d]) q = None -> forall n, P (q, n)) ->
  cleared s (filter P s).
Proof.
  intros Hd HP. split; [apply map_filter_subseteq|]. intros q Hq.
  destruct (s !! q) as [n|] eqn:E; [|apply map_lookup_filter_None; by left].
  apply map_lookup_filter_Some. split; [done|]. apply HP.
  destruct (strip (root ++ [d]) q) as [t|] eqn:Es; [|done]. apply strip_Some in Es as ->.
  exfalso. apply (Hq d t); [by rewrite <- app_assoc|done].
Qed.

Lemma cleared_delete_staging s : cleared s (delete_tree (resetStagingPath root) s).
Proof.
  apply (cleared_filter _ s stagingDirName); [by right|]. intros q Hq n. simpl. exact Hq.
Qed.

Lemma cleared_delete_some gone s : cleared s (delete_some (resetStagingPath root) gone s).
Proof.
  apply (cleared_filter _ s stagingDirName); [by right|]. intros q Hq n. simpl. by left.
Qed.

Lemma cleared_delete_manifest s : cleared s (delete (resetManifestPath root) s).
Proof.
  split; [apply delete_subseteq|]. eapply only_mono; [|apply (only_delete root manifestFilename [])].
  intros d <-. by left.
Qed.

Lemma cleared_remove_all s : cleared s (fs_remove_all (resetStagingPath root) s).2.
Proof.
  unfold fs_remove_all. destruct (dir_err s _) as [[]|]; simpl; try reflexivity.
  apply cleared_delete_staging.
Qed.

Lemma cleared_remove s : cleared s (fs_remove (resetManifestPath root) s).2.
Proof.
  unfold fs_remove. destruct (fs_stat s _) as [[k|k c]|e]; simpl; [|apply cleared_delete_manifest|reflexivity].
  destruct (children s _); simpl; [apply cleared_delete_manifest|reflexivity].
Qed.

(** [cleanupCompletedReset] answers as [classify] says and removes no more than it may. *)
Lemma wp_cleanupCompletedReset (b : bool) (t : Time) s (Q : result unit -> fs -> Prop) (C : fs -> Prop) :
  match classify s with
  | LRefuse e => Q (Err e) s
  | LNone | LStale => forall s', cleared s s' -> Q (Ok tt) s'
  end ->
  (b = true -> (forall e, Q (Err e) s) /\ forall s', cleared s s' -> C s') ->
  wp b t (cleanupCompletedReset root) Q C s.
Proof.
  intros HQ HF. unfold cleanupCompletedReset. apply wp_bind. apply (reads_readResetManifest root).
  2:{ intros Hb. split; [apply HF; [done|reflexivity]|]. intros e He. unfold hard in He. rewrite He.
      apply wp_ret. by apply HF. }
  unfold classify in HQ. destruct (manifest_at root s) as [m|e].
  - destruct (negb (rm_Version m =? resetManifestVersion)); [by apply wp_ret|].
    destruct (validateManifestPhase (rm_Phase m)) as [[]|e]; [|by apply wp_ret].
    assert ((forall s', cleared s s' -> Q (Ok tt) s') ->
      wp b t (remove_leftovers root (resetManifestPath root)) Q C s) as Hrm.
    { intros HQ'. unfold remove_leftovers. apply wp_bind.
      eapply wp_mono with (Q := fun _ => cleared s) (C := cleared s);
        [apply wp_call; [apply cleared_remove_all|intros; apply cleared_delete_some]| |
         intros Hb; by apply HF].
      intros _ s1 H1. apply wp_bind.
      eapply wp_mono with (Q := fun _ => cleared s) (C := cleared s);
        [apply wp_call; [etransitivity; [done|apply cleared_remove]|by intros]| |
         intros Hb; by apply HF].
      intros _ s2 H2. apply wp_ret. by apply HQ'. }
    apply wp_bind. apply (reads_loadSentinel root).
    2:{ intros Hb. split; [apply HF; [done|reflexivity]|]. intros e He. apply wp_ret. by apply HF. }
    destruct (sentinel_at root s) as [[se|]|e]; [|by apply wp_ret..].
    destruct (RecoveryRequired se) as [rr|]; [|by apply Hrm].
    destruct (rm_CurrUIDValidity m =? CurrUIDValidity rr); simpl; [by apply wp_ret|by apply Hrm].
  - destruct (is_not_exist e); [|by apply wp_ret]. apply wp_bind. apply wp_read.
    + destruct (fs_stat s _); [|apply wp_ret; by apply HQ]. apply wp_bind.
      eapply wp_mono with (Q := fun _ => cleared s) (C := cleared s);
        [apply wp_call; [apply cleared_remove_all|intros; apply cleared_delete_some]| |
         intros Hb; by apply HF].
      intros _ s1 H1. apply wp_ret. by apply HQ.
    + intros Hb. split; [apply HF; [done|reflexivity]|]. intros e' _. apply wp_ret. by apply HQ.
Qed.
End open.

(** ** Reopening a store that is being reset *)

Section reopen.
Context (root : path) (x : string) (idn : IMAPIdentity).
Local Abbreviation r := (root ++ [x]).
Context (se : internalSentinelFile) (curr : Z).
Context (Hse : valid_sentinel se = true) (Hid : sentinel_identity se = idn).
Context (b : bool) (tm : Time).

(** Nothing to create where everything resolves. *)
Lemma dirs_added_resolved p s s' : dir_err s p = None -> dirs_added p s s' -> s' = s.
Proof.
  intros Hd [Hs Hn]. apply map_eq. intros q. destruct (s !! q) as [n|] eqn:E; [by eapply lookup_weaken|].
  destruct (s' !! q) as [n|] eqn:E'; [|done]. apply Hn in E' as [?|(_ & Hq & u & Hu)]; [congruence|].
  rewrite dir_err_None in Hd. destruct (Hd q u Hu Hq). congruence.
Qed.

Lemma not_blocked s p : dir_err s p = None -> ~ blocked s p.
Proof.
  rewrite dir_err_None. intros Hd (q & u & k & c & Hp & Hq & Hl). destruct (Hd q u Hp Hq). congruence.
Qed.

Lemma triple_open_reset (P : fs -> Prop) :
  openable r se curr P ->
  triple b tm P (Open r idn OpenRecoverReset)
    (fun st s => st = newStore r idn OpenRecoverReset /\ P s) P.
Proof.
  intros [HP HG]. unfold Open.
  change (bool_decide (OpenRecoverReset = OpenReadOnly)) with false.
  change (bool_decide (OpenRecoverReset = OpenReadWrite)) with false. cbn [negb].
  eapply triple_try with (h := fun e => e) (R := fun _ => P); [by apply triple_ret|]. intros [].
  eapply triple_try with (h := fun e => e) (R := fun _ => P).
  { unfold prepare. eapply triple_try with (R := fun _ => P).
    - intros s Hs. destruct (HP s Hs) as ((Hd & _) & _). apply wp_ensureDirExists.
      + intros s' H1 _ _. by rewrite (dirs_added_resolved _ _ _ Hd H1).
      + intros e s' H1 Hb. rewrite (dirs_added_resolved _ _ _ Hd H1). split; [|done].
        destruct b; [done|]. by destruct (not_blocked _ _ Hd (Hb eq_refl)).
      + intros _ s' H1. by rewrite (dirs_added_resolved _ _ _ Hd H1).
    - intros []. change (bool_decide (OpenRecoverReset = OpenRecoverReset)) with true. cbn [negb].
      eapply triple_try with (h := fun e => e) (R := fun _ => P); [by apply triple_ret|]. intros [].
      eapply triple_try with (R := fun _ => P).
      + apply triple_prim; [|by intros]. intros s Hs. destruct (HP s Hs) as ((Hd & Hg) & _).
        unfold fs_open_create, guardFilePath. rewrite parent_app, Hd.
        destruct (s !! (r ++ [guardFilename])) as [[k|k c]|] eqn:E.
        * destruct Hg. by exists k.
        * by exists tt, s.
        * eexists tt, _. split; [done|]. by apply HG.
      + intros []. eapply triple_ignore; [apply triple_prim; [|by intros]| |done].
        * intros s Hs. by exists tt, s.
        * by apply triple_ret. }
  intros []. eapply triple_try with (h := fun e => e) (R := fun _ => P).
  { unfold open_sentinel. eapply triple_try with (R := fun o s => (exists y, o = Some y /\
      verifySentinelIdentity r y idn = Ok tt) /\ P s).
    - eapply triple_reads; [apply reads_loadSentinel|done|]. intros s Hs.
      destruct (HP s Hs) as ((Hd & _) & [H|H]).
      + exists (Some se). split; [by apply sentinel_at_is|]. split; [|done]. exists se.
        split; [done|]. by apply verifySentinelIdentity_ok.
      + exists (Some (se' se curr)). split; [apply sentinel_at_is; [done..|by apply se'_valid]|].
        split; [|done]. exists (se' se curr). split; [done|]. by apply verifySentinelIdentity_ok.
    - intros o. apply triple_pure. intros (y & -> & Hy). rewrite Hy.
      intros s Hs. apply wp_bind. apply wp_checkFilePermissions; [by apply wp_ret|done]. }
  intros [] s Hs. apply (wp_stat_checks r idn); [done|by intros].
Qed.

(** One attempt through the operations of the store: open it for a reset, and reset it. What the
    command does around them is in RecoverProps.v. *)
Definition reset_attempt : M (result unit) :=
  try! st := Open r idn OpenRecoverReset else e => ret (Err e) in ResetForRecovery st curr.
End reopen.

(** ** Attempts, crashes and retries *)

Section attempts.
Context (p : path) (x : string) (idn : IMAPIdentity).
Local Abbreviation r := (p ++ [x]).
Context (se : internalSentinelFile) (rr : internalRecoveryState).
Context (Hse : valid_sentinel se = true) (Hid : sentinel_identity se = idn).
Context (Hrr : RecoveryRequired se = Some rr).
Local Abbreviation curr := (CurrUIDValidity rr).
Context (D : option node) (E : path -> option node).
Context (HD : forall k, D <> Some (Dir k)).
Context (HE : forall k c, E [] <> Some (File k c)) (HE0 : E [] = None -> forall t, E t = None).

(** The state after a number of attempts, each under its own schedule of faults; an attempt
    that dies is followed by the next. *)
Definition after_attempts (tm : Time) (schedules : list (list fault)) (s : fs) : fs :=
  foldl (fun s fl => w_fs (reset_attempt p x idn curr (World s fl tm)).2) s schedules.

Lemma attempt_Pending (b : bool) tm :
  triple b tm (Pending r se curr D E) (reset_attempt p x idn curr)
    (fun _ => Clean r se curr b) (Inv r se curr D E).
Proof.
  unfold reset_attempt. eapply triple_try with (h := fun e => e).
  - eapply triple_weaken; [apply (triple_open_reset p x idn se curr Hse Hid b tm (Pending r se curr D E))|done..|].
    + apply Pending_openable.
    + intros s [?|[?|[? _]]]; [by left|right; by left|by right; right].
  - intros st. apply triple_pure. intros ->.
    by apply (reset_Pending r idn se curr D E Hse HD HE HE0 b tm rr Hrr).
Qed.

Lemma attempt_Done (b : bool) tm s : Done r se curr s ->
  wp b tm (reset_attempt p x idn curr) (fun _ => Done r se curr) (Done r se curr) s.
Proof.
  intros Hs. unfold reset_attempt. apply wp_bind. eapply wp_mono;
    [apply (triple_open_reset p x idn se curr Hse Hid b tm (Done r se curr)); [apply Done_openable|done]| |done].
  intros [st|e] s'; [|intros [_ H]; by apply wp_ret]. intros [-> H].
  eapply wp_mono; [by apply (reset_done r idn se curr Hse b tm)| |].
  - by intros _ s2 ->.
  - by intros _ s2 <-.
Qed.

Lemma Done_Inv s : Done r se curr s -> Inv r se curr D E s.
Proof. intros [H _]. by right; right. Qed.

(** One attempt, whatever happens to it. *)
Lemma attempt_Inv tm fl s : Inv r se curr D E s ->
  Inv r se curr D E (w_fs (reset_attempt p x idn curr (World s fl tm)).2).
Proof.
  intros H. destruct (Inv_cases _ _ _ _ _ _ H) as [Hp|Hd].
  - pose proof (triple_run true tm _ _ _ _ s fl (attempt_Pending true tm) Hp ltac:(done)) as Hr.
    destruct (reset_attempt _ _ _ _ _) as [[[[]|e]|] w]; simpl; [|apply Hr..].
    destruct Hr as (Hr & _). by right; right.
  - pose proof (wp_run true tm _ _ _ s fl (attempt_Done true tm s Hd) ltac:(done)) as Hr.
    destruct (reset_attempt _ _ _ _ _) as [[a|] w]; simpl; apply Done_Inv; [done|apply Hr].
Qed.

Lemma attempts_Inv tm schedules s : Inv r se curr D E s ->
  Inv r se curr D E (after_attempts tm schedules s).
Proof.
  unfold after_attempts. revert s. induction schedules as [|fl fls IH]; intros s H; simpl; [done|].
  apply IH. by apply attempt_Inv.
Qed.
End attempts.
