(* ===== verification/StoreProps.v ===== *)
(** * Properties of the store

    The theorems about internal/store: what every operation does on every path, under every
    schedule of I/O errors and crashes. *)
From S2P Require Import Prelude GoStr GoTime GoErr Tlsrpt StoreTypes Fs Io AtomicFile Sentinel.
From S2P Require Import FileStore Reports Emails Recovery Reset EmailsSpec StoreOpen.

(** ** A store to evaluate the operations on *)

Module Example.
Definition root : path := ["srv"; "tlsrpt"].
Definition idn : IMAPIdentity := {| Host := "imap.example.com"; Port := 993; Mailbox := "INBOX" |}.
Definition tm : Time := 63900000000 * ns_per_sec.
Definition rr : internalRecoveryState :=
  {| PrevUIDValidity := 7; CurrUIDValidity := 9; DetectedAt := tm |}.
Definition se : internalSentinelFile := set_recovery (Some rr) (set_uidvalidity (Some 7) (new_sentinel idn tm)).
Definition meta : EmailMeta := {| UID := 3; UIDValidity := 7; InternalDate := tm |}.
Definition df : internalDataFile := {| df_Version := 1; df_Reports := []; df_Emails := [meta] |}.

(** A store with one indexed email and a recorded UIDVALIDITY change. *)
Definition s0 : fs :=
  list_to_map [
    (["srv"], Dir 493);
    (root, Dir 448);
    (root ++ [sentinelFilename], File 384 (JSentinel se));
    (root ++ [guardFilename], File 384 (Raw ""));
    (root ++ ["tlsrpt.json"], File 384 (JData df));
    (root ++ ["emails"], Dir 448)].
End Example.

(** ** The discard-old reset *)

(** A store with a recorded UIDVALIDITY change and no reset under way. *)
Record ResetReady (root : path) (se : internalSentinelFile) (s : fs) : Prop := {
  ready_root : dir_err s root = None;
  ready_guard : ~ is_dir_at s (guardFilePath root);
  ready_sentinel : exists k, s !! sentinelPath root = Some (File k (JSentinel se));
  ready_manifest : s !! resetManifestPath root = None;
  ready_data : ~ is_dir_at s (dataFilePath root);
  ready_emails : forall k c, s !! emailsPath root <> Some (File k c);
  ready_no_emails : s !! emailsPath root = None -> forall t, s !! (emailsPath root ++ t) = None
}.

Lemma ResetReady_Pre0 root se s : ResetReady root se s ->
  Pre0 root se (s !! dataFilePath root) (fun t => s !! (root ++ "emails" :: t)) s.
Proof. intros [H1 H2 H3 H4 H5 H6 H7]. by split_and!. Qed.

Lemma ResetReady_data root se s : ResetReady root se s -> forall k, s !! dataFilePath root <> Some (Dir k).
Proof. intros H k Hk. apply (ready_data _ _ _ H). by exists k. Qed.

Lemma ResetReady_emails root se s : ResetReady root se s ->
  s !! (root ++ "emails" :: []) = None -> forall t, s !! (root ++ "emails" :: t) = None.
Proof.
  intros H H0 t. pose proof (ready_no_emails _ _ _ H H0 t) as Ht.
  unfold emailsPath in Ht. by rewrite <- app_assoc in Ht.
Qed.

(** What a leftover manifest can do. A reset is killed after the sentinel was committed and before
    the manifest was marked as committed; a run that opens the store afterwards fails to remove
    the manifest, which only is a warning, and stores a new email. For the next recovery no
    recovery is required, but [HasPendingReset] answers true: what recover takes for the end of a
    cleanup, [ResetForRecovery] with 0, then resets the store again, and the new email is gone from
    the index. *)
Module Leftover.
Definition killed : world :=
  (reset_attempt ["srv"] "tlsrpt" Example.idn 9
    (World Example.s0 (repeat FNone 39 ++ [FCrash nothing]) Example.tm)).2.

Definition opened : option (result fileStore) * world :=
  Open Example.root Example.idn OpenReadWrite
    (World (w_fs killed) (repeat FNone 3 ++ [FFail IoFail nothing]) Example.tm).

Definition writer : fileStore := newStore Example.root Example.idn OpenReadWrite.
Definition new_email : EmailMeta := {| UID := 1; UIDValidity := 9; InternalDate := Example.tm |}.
Definition saved : option (result unit) * world := SaveEmailMetas writer [new_email] opened.2.

Definition recovered : option (result unit) * world :=
  reset_attempt ["srv"] "tlsrpt" Example.idn 0 saved.2.

Example committed_manifest_discards_again :
  opened.1 = Some (Ok writer) /\ saved.1 = Some (Ok tt) /\
  (exists df, data_at Example.root (w_fs saved.2) = Ok df /\ df_Emails df = [new_email]) /\
  (LoadRecoveryRequired writer saved.2).1 = Some (Ok None) /\
  (HasPendingReset writer saved.2).1 = Some (Ok true) /\
  recovered.1 = Some (Ok tt) /\ w_fs recovered.2 !! dataFilePath Example.root = None.
Proof.
  split; [vm_compute; reflexivity|]. split; [vm_compute; reflexivity|].
  split; [eexists; split; vm_compute; reflexivity|]. repeat split; vm_compute; reflexivity.
Qed.
End Leftover.

(** The data file [D] and the emails [E] of a store are whole: each in its place or in the staging
    directory, and anything that is staged is announced by a pending manifest. *)
Definition data_whole (root : path) (curr : Z) (s0 s : fs) : Prop :=
  let staged t := root ++ stagingDirName :: t in
  (s !! dataFilePath root = s0 !! dataFilePath root /\
     (forall t, s !! (root ++ "emails" :: t) = s0 !! (root ++ "emails" :: t)))
  \/
  (manifest_at root s = Ok (m1 curr) /\
   (s !! dataFilePath root = s0 !! dataFilePath root \/
    s !! staged ["tlsrpt.json"] = s0 !! dataFilePath root) /\
   ((forall t, s !! (root ++ "emails" :: t) = s0 !! (root ++ "emails" :: t)) \/
    (forall t, s !! staged ("emails" :: t) = s0 !! (root ++ "emails" :: t)))).

(** C3: no interrupted reset loses data it has not been told to discard: after any number of
    attempts to open the store for a reset and to reset it, under any faults, either the sentinel still asks for recovery and the data file and
    every email are on disk in one piece, in place or staged behind a pending manifest, or the
    sentinel has been committed to the new UIDVALIDITY and none of the old data is left in
    place. *)
Theorem reset_never_loses_data (p : path) (x : string) se rr tm s schedules :
  let root := p ++ [x] in
  let curr := CurrUIDValidity rr in
  valid_sentinel se = true -> RecoveryRequired se = Some rr -> ResetReady root se s ->
  let s1 := after_attempts p x (sentinel_identity se) rr tm schedules s in
  (sentinel_at root s1 = Ok (Some se) /\ data_whole root curr s s1) \/
  (sentinel_at root s1 = Ok (Some (commit_sentinel curr se)) /\
   s1 !! dataFilePath root = None /\ forall t, s1 !! (root ++ "emails" :: t) = None).
Proof.
  intros root curr Hse Hrr Hs s1.
  assert (Inv root se curr (s !! dataFilePath root) (fun t => s !! (root ++ "emails" :: t)) s1) as HI.
  { apply attempts_Inv; try done; [apply (ResetReady_data _ _ _ Hs)|apply (ready_emails _ _ _ Hs)|
      apply (ResetReady_emails _ _ _ Hs)|]. left. by apply ResetReady_Pre0. }
  destruct HI as [((Hd&_)&Hsent&_&HD&HE)|[((Hd&_)&Hsent&Hm&_&HD&HE)|((Hd&_)&Hsent&_&_&HD&HE)]].
  - left. split; [by apply sentinel_at_is|]. by left.
  - left. split; [by apply sentinel_at_is|]. right. split; [by apply manifest_at_is|].
    split; [destruct HD as [[? _]|[_ ?]]; auto|destruct HE as [[? _]|[_ ?]]; auto].
  - right. split; [|done]. apply sentinel_at_is; [done..|]. by apply se'_valid.
Qed.

Lemma reset_never_loses_data_witness :
  let sch := [[FNone; FFail IoFail nothing]; []] in
  let s1 := after_attempts ["srv"] "tlsrpt" (sentinel_identity Example.se) Example.rr Example.tm sch Example.s0 in
  (sentinel_at Example.root s1 = Ok (Some Example.se) /\ data_whole Example.root 9 Example.s0 s1) \/
  (sentinel_at Example.root s1 = Ok (Some (commit_sentinel 9 Example.se)) /\
   s1 !! dataFilePath Example.root = None /\ forall t, s1 !! (Example.root ++ "emails" :: t) = None).
Proof.
  apply (reset_never_loses_data ["srv"] "tlsrpt" Example.se Example.rr Example.tm Example.s0).
  - vm_compute. reflexivity.
  - reflexivity.
  - split; try (vm_compute; reflexivity).
    + intros [k H]. vm_compute in H. discriminate H.
    + exists 384. vm_compute. reflexivity.
    + intros [k H]. vm_compute in H. discriminate H.
    + intros k c H. vm_compute in H. discriminate H.
    + intros H. vm_compute in H. discriminate H.
Defined.

(** ** A pending reset blocks the other writers *)

(** A reset is under way for the change the sentinel records. *)
Definition reset_pending (root : path) (se : internalSentinelFile) (s : fs) : Prop :=
  sentinel_at root s = Ok (Some se) /\
  exists rr, RecoveryRequired se = Some rr /\ manifest_at root s = Ok (m1 (CurrUIDValidity rr)).

Lemma reset_pending_classify root se s : reset_pending root se s ->
  classify root s = LRefuse (Sentinel ErrPendingReset).
Proof. intros (Hs & rr & Hrr & Hm). unfold classify. rewrite Hm. simpl. by rewrite Hs, Hrr, Z.eqb_refl. Qed.

(** C15: while a discard-old reset is under way, opening the store read-write fails whatever else
    happens, without faults with ErrPendingReset, and changes nothing on disk. *)
Theorem pending_reset_blocks_open (root : path) se idn tm s fl :
  reset_pending root se s ->
  match Open root idn OpenReadWrite (World s fl tm) with
  | (Some r, w) =>
      w_fs w = s /\ exists e, r = Err e /\ (fl = [] -> is_sentinel ErrPendingReset e = true)
  | (None, w) => w_fs w = s
  end.
Proof.
  intros Hp.
  assert (forall b, wp b tm (Open root idn OpenReadWrite)
    (fun r s' => s' = s /\ exists e, r = Err e /\ (b = false -> is_sentinel ErrPendingReset e = true))
    (fun s' => s' = s) s) as Hwp.
  { intros b. unfold Open. change (bool_decide (OpenReadWrite = OpenReadWrite)) with true.
    apply wp_bind. unfold cleanupCompletedReset. apply wp_bind.
    destruct Hp as (Hs & rr & Hrr & Hm).
    apply (reads_readResetManifest root).
    2:{ intros Hb. split; [done|]. intros e He. unfold hard in He. rewrite He. apply wp_ret.
        apply wp_ret. split; [done|]. eexists. split; [done|]. congruence. }
    rewrite Hm. simpl. apply wp_bind. apply (reads_loadSentinel root).
    2:{ intros Hb. split; [done|]. intros e He. apply wp_ret.
        apply wp_ret. split; [done|]. eexists. split; [done|]. congruence. }
    rewrite Hs, Hrr, Z.eqb_refl. simpl. apply wp_ret. apply wp_ret. split; [done|]. by eexists. }
  destruct fl as [|f fl].
  - pose proof (wp_run _ _ _ _ _ _ [] (Hwp false) ltac:(done)) as H.
    destruct (Open _ _ _ _) as [[r|] w]; [|by destruct H]. destruct H as (-> & e & -> & He).
    split; [done|]. exists e. split; [done|]. intros _. by apply He.
  - pose proof (wp_run _ _ _ _ _ _ (f :: fl) (Hwp true) ltac:(done)) as H.
    destruct (Open _ _ _ _) as [[r|] w]; [|by destruct H]. destruct H as (-> & e & -> & He).
    split; [done|]. by exists e.
Qed.

(** The example store with a manifest of phase 1. *)
Definition pending_fs : fs :=
  <[resetManifestPath Example.root := File 384 (JManifest (m1 9))]> Example.s0.

Lemma pending_reset_blocks_open_witness :
  match Open Example.root Example.idn OpenReadWrite (World pending_fs [] 0) with
  | (Some r, w) =>
      w_fs w = pending_fs /\
      exists e, r = Err e /\ (([] : list fault) = [] -> is_sentinel ErrPendingReset e = true)
  | (None, w) => w_fs w = pending_fs
  end.
Proof.
  apply (pending_reset_blocks_open Example.root Example.se Example.idn 0 pending_fs []).
  split; [vm_compute; reflexivity|]. exists Example.rr. split; vm_compute; reflexivity.
Defined.

(** [HasPendingReset] by the manifest it reads. *)
Definition pending_at (root : path) (s : fs) : result bool :=
  match manifest_at root s with
  | Err err => if is_not_exist err then Ok false else Err (errorf "HasPendingReset: " err)
  | Ok m =>
      if negb (rm_Version m =? resetManifestVersion)
      then Err (ErrResetManifestVersionMismatch (rm_Version m) resetManifestVersion)
      else
        match validateManifestPhase (rm_Phase m) with
        | Err err => Err err
        | Ok _ => Ok (negb (rm_Phase m =? resetPhaseCommitted))
        end
  end.

Lemma reads_HasPendingReset root idn md :
  reads (HasPendingReset (newStore root idn md)) (pending_at root) hard.
Proof.
  intros b t s Q C HQ HF. unfold HasPendingReset. apply wp_bind. apply (reads_readResetManifest root).
  - unfold pending_at in HQ. destruct (manifest_at root s) as [m|e].
    + destruct (negb _); [by apply wp_ret|].
      destruct (validateManifestPhase _); by apply wp_ret.
    + destruct (is_not_exist e); by apply wp_ret.
  - intros Hb. destruct (HF Hb) as [HC HE]. split; [done|]. intros e He. unfold hard in He. rewrite He.
    apply wp_ret. apply HE. done.
Qed.

(** The effect of [ApplyRecovery] on the sentinel file, all at once or not at all. *)
Definition sentinel_or_commit (root : path) (uid : Z) (se : internalSentinelFile) (s' : fs) : Prop :=
  sentinel_at root s' = Ok (Some se) \/ sentinel_at root s' = Ok (Some (commit_sentinel uid se)).

Section apply.
Context (root : path) (idn : IMAPIdentity) (md : OpenMode) (se : internalSentinelFile).
(** What the operation makes of the sentinel, and of the errors of its calls. *)
Context (g : internalSentinelFile -> internalSentinelFile) (h1 h2 : goerr -> goerr).
Local Abbreviation st := (newStore root idn md).

(** The states of a store whose sentinel is [se], or the updated one. *)
Let A (s : fs) : Prop := Base root s /\ SentIs root se s.
Let B (s : fs) : Prop := Base root s /\ SentIs root (g se) s.

Definition update_sentinel : M (result unit) :=
  try! sentinel := loadOrInitSentinelForWrite st else err => ret (Err (h1 err)) in
  try! _ := saveSentinel root (g sentinel) else err => ret (Err (h2 err)) in
  ret (Ok tt).

Lemma apply_guard x s k c : Base root s /\ SentIs root x s ->
  Base root (<[root ++ [guardFilename] := File k c]> s) /\
  SentIs root x (<[root ++ [guardFilename] := File k c]> s).
Proof.
  intros [H1 H2]. split; [by apply Base_guard|]. eapply frame_SentIs; [apply guard_only|name_ne|done].
Qed.

Lemma apply_tmp x s s' : s ⊑{root} s' -> Base root s /\ SentIs root x s -> Base root s' /\ SentIs root x s'.
Proof.
  intros Ht [H1 H2]. apply only_tmp_ext in Ht. split.
  - eapply frame_Base; [done|name_ne|done].
  - eapply frame_SentIs; [done|name_ne|done].
Qed.

Lemma triple_update (b : bool) tm :
  valid_sentinel se = true -> sentinel_times_ok (g se) = true ->
  triple b tm A update_sentinel (fun _ => B) (fun s => A s \/ B s).
Proof.
  intros Hv Hg. unfold update_sentinel. eapply triple_try with (R := fun x s => x = se /\ A s).
  { unfold loadOrInitSentinelForWrite. simpl. eapply triple_try with (h := fun e => e)
      (R := fun o s => o = Some se /\ A s).
    - eapply triple_reads; [apply reads_loadSentinel|by left|]. intros s [[Hd ?] Hs].
      exists (Some se). split; [by apply sentinel_at_is|]. done.
    - intros o. apply triple_pure. intros ->. by apply triple_ret. }
  intros x. apply triple_pure. intros ->.
  assert (forall s, A s -> B (written (root ++ [sentinelFilename]) (JSentinel (g se)) s)) as Hw.
  { intros s [H1 H2]. pose proof (only_written root sentinelFilename (JSentinel (g se)) s) as Ho.
    split; [eapply frame_Base; [exact Ho|name_ne|done]|]. exists filePerm. apply written_lookup. }
  eapply triple_try with (R := fun _ => B); [|by intros []; apply triple_ret].
  apply triple_saveSentinel; [done|..].
  - intros s [[Hd _] [k Hk]]. split; [done|]. by eapply no_dir_of_file.
  - intros s s' H Ht. left. by eapply apply_tmp.
  - done.
  - intros s H. right. auto.
Qed.

Lemma triple_guarded_update (b : bool) tm :
  valid_sentinel se = true -> sentinel_times_ok (g se) = true ->
  triple b tm A (withGuardExclusive st update_sentinel) (fun _ => B) (fun s => A s \/ B s).
Proof.
  intros Hv Hg. apply triple_guard.
  - by intros s [H _].
  - intros s k c H. by apply apply_guard.
  - by left.
  - by right.
  - by apply triple_update.
Qed.
End apply.

Lemma commit_times uid se : valid_sentinel se = true -> sentinel_times_ok (commit_sentinel uid se) = true.
Proof. unfold valid_sentinel. intros H. zbool. by apply sentinel_times_clear. Qed.

(** C16: [ApplyRecovery] (recover --mode keep-old) writes the new UIDVALIDITY and clears the
    recovery-required record in one step: at whatever call it fails or dies, the sentinel reads as
    it was or with both changes, and it succeeds exactly with both. While a reset is pending it is
    refused and changes nothing. *)
Theorem ApplyRecovery_atomic (root : path) idn se uid tm s fl :
  Base root s -> SentIs root se s -> valid_sentinel se = true ->
  match ApplyRecovery (newStore root idn OpenReadWrite) uid (World s fl tm) with
  | (Some (Ok _), w) =>
      sentinel_at root (w_fs w) = Ok (Some (commit_sentinel uid se)) /\ pending_at root s = Ok false
  | (_, w) =>
      sentinel_or_commit root uid se (w_fs w) /\ (pending_at root s <> Ok false -> w_fs w = s)
  end.
Proof.
  intros HB HS Hv.
  assert (forall s' x, Base root s' /\ SentIs root x s' -> valid_sentinel x = true ->
    sentinel_at root s' = Ok (Some x)) as Hat.
  { intros s' x [[Hd _] Hs] Hx. by apply sentinel_at_is. }
  assert (valid_sentinel (commit_sentinel uid se) = true) as Hv' by by apply se'_valid.
  assert (wp true tm (ApplyRecovery (newStore root idn OpenReadWrite) uid)
    (fun r s' => match r with
      | Ok _ => sentinel_at root s' = Ok (Some (commit_sentinel uid se)) /\ pending_at root s = Ok false
      | Err _ => sentinel_or_commit root uid se s' /\ (pending_at root s <> Ok false -> s' = s)
      end)
    (fun s' => sentinel_or_commit root uid se s' /\ (pending_at root s <> Ok false -> s' = s)) s) as Hwp.
  { assert (sentinel_or_commit root uid se s) as H0 by (left; by apply Hat).
    unfold ApplyRecovery. simpl. apply wp_bind. apply reads_HasPendingReset.
    - destruct (pending_at root s) as [[|]|e] eqn:Hp; [by apply wp_ret| |by apply wp_ret].
      eapply wp_mono; [by apply (triple_guarded_update root idn OpenReadWrite se (commit_sentinel uid) _ _ true tm Hv
        (commit_times uid se Hv))| |]; simpl.
      + intros [[]|e] s'; [intros H; split; [by apply Hat|done]|].
        intros [_ [H|H]]; (split; [|done]); [left|right]; by apply Hat.
      + intros _ s' [H|H]; (split; [|done]); [left|right]; by apply Hat.
    - intros _. split; [done|]. intros e _. by apply wp_ret. }
  pose proof (wp_run _ _ _ _ _ _ fl Hwp ltac:(done)) as H.
  destruct (ApplyRecovery _ _ _) as [[[[]|e]|] w]; [done..|]. apply H.
Qed.

Lemma ApplyRecovery_atomic_witness :
  match ApplyRecovery (newStore Example.root Example.idn OpenReadWrite) 9 (World Example.s0 [] 0) with
  | (Some (Ok _), w) =>
      sentinel_at Example.root (w_fs w) = Ok (Some (commit_sentinel 9 Example.se)) /\
      pending_at Example.root Example.s0 = Ok false
  | (_, w) =>
      sentinel_or_commit Example.root 9 Example.se (w_fs w) /\
      (pending_at Example.root Example.s0 <> Ok false -> w_fs w = Example.s0)
  end.
Proof.
  apply ApplyRecovery_atomic.
  - split; [vm_compute; reflexivity|]. intros [k H]. vm_compute in H. discriminate H.
  - exists 384. vm_compute. reflexivity.
  - vm_compute. reflexivity.
Defined.

(** What an open in read-write mode does about a reset an earlier process left is decided by
    the manifest and the sentinel alone, and at every error and crash it has removed nothing but
    the manifest and the staging directory: data file, emails and sentinel are untouched. *)
Theorem cleanup_removes_only_leftovers (root : path) tm s fl :
  match cleanupCompletedReset root (World s fl tm) with
  | (Some r, w) =>
      cleared root s (w_fs w) /\
      (fl = [] -> match classify root s with LRefuse e => r = Err e /\ w_fs w = s | _ => r = Ok tt end)
  | (None, w) => cleared root s (w_fs w)
  end.
Proof.
  assert (forall b, wp b tm (cleanupCompletedReset root)
    (fun r s' => cleared root s s' /\
       (b = false -> match classify root s with LRefuse e => r = Err e /\ s' = s | _ => r = Ok tt end))
    (cleared root s) s) as Hwp.
  { intros b. apply wp_cleanupCompletedReset.
    - destruct (classify root s); intros; (split; [first [assumption|reflexivity]|by intros]).
    - intros Hb. split; [|done]. intros e. split; [reflexivity|congruence]. }
  destruct fl as [|f fl].
  - pose proof (wp_run _ _ _ _ _ _ [] (Hwp false) ltac:(done)) as H.
    destruct (cleanupCompletedReset _ _) as [[r|] w]; [|by destruct H]. destruct H as [H1 H2].
    split; [done|]. intros _. by apply H2.
  - pose proof (wp_run _ _ _ _ _ _ (f :: fl) (Hwp true) ltac:(done)) as H.
    destruct (cleanupCompletedReset _ _) as [[r|] w]; [|by destruct H]. destruct H as [H1 H2]. by split.
Qed.

(** ** Read-only stores *)

(** The operations of a store on which a read-only caller can insist. *)
Inductive write_op : Type :=
  | WSaveReports (inputs : list ReportInput)
  | WSaveEmailMetas (metas : list EmailMeta)
  | WSaveEmail (uid uv : Z) (d : Time) (raw : string)
  | WSaveUIDValidity (v : Z)
  | WSaveRecoveryRequired (prev curr : Z) (t : Time)
  | WClearRecoveryRequired
  | WApplyRecovery (uid : Z)
  | WDeleteReportsBefore (cutoff : Time)
  | WDeleteEmailsBefore (cutoff : Time).

(** The error each of them returns. *)
Definition run_write (st : fileStore) (op : write_op) : M (option goerr) :=
  let err {A} (m : M (result A)) : M (option goerr) :=
    let! r := m in ret (match r with Ok _ => None | Err e => Some e end) in
  match op with
  | WSaveReports inputs => err (SaveReports st inputs)
  | WSaveEmailMetas metas => err (SaveEmailMetas st metas)
  | WSaveEmail uid uv d raw => err (SaveEmail st uid uv d raw)
  | WSaveUIDValidity v => err (SaveUIDValidity st v)
  | WSaveRecoveryRequired prev curr t => err (SaveRecoveryRequired st prev curr t)
  | WClearRecoveryRequired => err (ClearRecoveryRequired st)
  | WApplyRecovery uid => err (ApplyRecovery st uid)
  | WDeleteReportsBefore cutoff => err (DeleteReportsBefore st cutoff)
  | WDeleteEmailsBefore cutoff => let! r := DeleteEmailsBefore st cutoff in ret r.2
  end.

(** A store opened read-only is never written: opening it changes nothing under any faults,
    and without faults succeeds exactly on a missing sentinel or one of the same mailbox; every
    write operation of the store it returns answers ErrReadOnly at once and makes no system
    call. *)
Theorem read_only_store_never_writes (root : path) idn tm s fl op :
  w_fs (Open root idn OpenReadOnly (World s fl tm)).2 = s /\
  (Open root idn OpenReadOnly (World s [] tm)).1 = Some (open_ro_result root idn s) /\
  run_write (newStore root idn OpenReadOnly) op (World s fl tm) =
    (Some (Some (Sentinel ErrReadOnly)), World s fl tm).
Proof.
  split_and!.
  - pose proof (reads_Open_ro root idn true tm s (fun _ s' => s' = s) (fun s' => s' = s)) as H.
    pose proof (wp_run _ _ _ _ _ _ fl (H eq_refl (fun _ => conj eq_refl (fun _ _ => eq_refl))) ltac:(done)) as Hr.
    destruct (Open _ _ _ _) as [[r|] w]; [done|]. apply Hr.
  - by rewrite (reads_run _ _ _ s tm (reads_Open_ro root idn)).
  - by destruct op.
Qed.

(** A sentinel that belongs to another mailbox is never served: in read-only mode [Open]
    answers ErrStoreIdentityMismatch with both identities unless host, port and mailbox are all
    equal. *)
Theorem open_checks_identity (root : path) idn se tm s :
  sentinel_at root s = Ok (Some se) ->
  (Open root idn OpenReadOnly (World s [] tm)).1 =
    Some (if decide (sentinel_identity se = idn)
          then Ok (newStore root idn OpenReadOnly)
          else Err (ErrStoreIdentityMismatch root
                 {| id_host := Host idn; id_port := Port idn; id_mailbox := Mailbox idn |}
                 {| id_host := IMAPHost se; id_port := IMAPPort se; id_mailbox := IMAPMailbox se |})).
Proof.
  intros Hs. rewrite (reads_run _ _ _ s tm (reads_Open_ro root idn)). simpl.
  unfold open_ro_result. rewrite Hs. pose proof (verifySentinelIdentity_ok root se idn) as Hv.
  destruct (verifySentinelIdentity root se idn) as [[]|e] eqn:E.
  - case_decide as Hd; [done|]. destruct Hd. by apply Hv.
  - case_decide as Hd; [by apply Hv in Hd|]. unfold verifySentinelIdentity in E.
    destruct (_ || _) in E; [|done]. by injection E as <-.
Qed.

Lemma open_checks_identity_witness :
  (Open Example.root Example.idn OpenReadOnly (World Example.s0 [] 0)).1 =
    Some (if decide (sentinel_identity Example.se = Example.idn)
          then Ok (newStore Example.root Example.idn OpenReadOnly)
          else Err (ErrStoreIdentityMismatch Example.root
                 {| id_host := "imap.example.com"; id_port := 993; id_mailbox := "INBOX" |}
                 {| id_host := "imap.example.com"; id_port := 993; id_mailbox := "INBOX" |})).
Proof. apply (open_checks_identity Example.root Example.idn Example.se 0 Example.s0). vm_compute. reflexivity. Defined.

(** ** Atomic writes *)

(** C23: [atomicWriteFile] is all-or-nothing at every error and crash: afterwards the target holds
    the new data with mode 0600, or the directory tree is as it was, in both cases up to a
    leftover temporary file; success means the data is there and nothing else has changed. *)
Theorem atomicWriteFile_all_or_nothing dir name c tm s fl :
  HasPrefix name tmp_prefix = false ->
  let target := dir ++ [name] in
  let new := <[target := File filePerm c]> s in
  match atomicWriteFile target c (World s fl tm) with
  | (Some (Ok _), w) => w_fs w = new
  | (Some (Err e), w) => s ⊑{dir} w_fs w /\ exists op e', e = ErrAtomicWriteFailed target op e'
  | (None, w) => s ⊑{dir} w_fs w \/ w_fs w = new
  end.
Proof.
  intros Hn target new.
  assert (wp true tm (atomicWriteFile target c)
    (fun r s' => match r with
      | Ok _ => s' = new
      | Err e => s ⊑{dir} s' /\ exists op e', e = ErrAtomicWriteFailed target op e' end)
    (fun s' => s ⊑{dir} s' \/ s' = new) s) as Hwp.
  { apply wp_atomicWriteFile; [done|done| |].
    - intros op e s' H _. split; [done|]. by exists op, e.
    - intros _ s' [H|[_ H]]; auto. }
  pose proof (wp_run _ _ _ _ _ _ fl Hwp ltac:(done)) as H.
  destruct (atomicWriteFile _ _ _) as [[[[]|e]|] w]; [done..|]. apply H.
Qed.

Lemma atomicWriteFile_all_or_nothing_witness :
  let target := ["d"; "f"] in
  let s := <[["d"] := Dir 448]> ∅ in
  match atomicWriteFile target (Raw "x") (World s [] 0) with
  | (Some (Ok _), w) => w_fs w = <[target := File filePerm (Raw "x")]> s
  | (Some (Err e), w) => tmp_ext ["d"] s (w_fs w) /\ exists op e', e = ErrAtomicWriteFailed target op e'
  | (None, w) => tmp_ext ["d"] s (w_fs w) \/ w_fs w = <[target := File filePerm (Raw "x")]> s
  end.
Proof. apply (atomicWriteFile_all_or_nothing ["d"] "f"). reflexivity. Defined.
