(* ===== verification/DataProps.v ===== *)
(** * Properties of the data file

    The theorems about the reports and the email index: what is stored, what is deleted, and what
    survives errors and crashes. *)
From S2P Require Import Prelude GoStr GoTime GoErr Tlsrpt StoreTypes Fs Io AtomicFile Sentinel.
From S2P Require Import FileStore Reports Emails Recovery Reset EmailsSpec StoreOpen.

(** A temporary file left behind does not show in what is read. *)
Lemma data_at_tmp root s s' : s ⊑{root} s' -> data_at root s' = data_at root s.
Proof. intros H. eapply data_at_only; [by apply only_tmp_ext|done]. Qed.

Lemma valid_set_reports rs df : valid_data df = true -> data_times_ok (set_reports rs df) = true ->
  valid_data (set_reports rs df) = true.
Proof. unfold valid_data. simpl. intros H1 H2. zbool. rewrite H2, H. done. Qed.

Lemma valid_set_emails es df : valid_data df = true -> data_times_ok (set_emails es df) = true ->
  valid_data (set_emails es df) = true.
Proof. unfold valid_data. simpl. intros H1 H2. zbool. rewrite H2, H. done. Qed.

Lemma expire_valid cutoff df : valid_data df = true -> valid_data (expire_reports cutoff df) = true.
Proof.
  intros Hv. apply valid_set_reports; [done|]. unfold valid_data, data_times_ok in *. simpl. zbool.
  apply andb_true_iff. split; [|done]. apply forallb_forall. intros r Hr.
  apply filter_In in Hr as [Hr _]. rewrite forallb_forall in H0. by apply H0.
Qed.

(** A data file to evaluate the operations on. *)
Module DataExample.
Definition root : path := ["d"].
Definition idn : IMAPIdentity := {| Host := "h"; Port := 993; Mailbox := "INBOX" |}.
Definition report (id : string) (ending : Time) : Report :=
  {| OrganizationName := "org"; ReportID := id;
     DateRangeOf := {| StartDatetime := 1; EndDatetime := ending |}; Policies := Some [] |}.
Definition meta (uid : Z) (d : Time) : EmailMeta :=
  {| UID := uid; UIDValidity := 1; InternalDate := d |}.
Definition df : internalDataFile :=
  {| df_Version := 1; df_Reports := [report "a" 5; report "b" 50];
     df_Emails := [meta 1 5; meta 2 50] |}.
Definition s0 : fs :=
  list_to_map [(root, Dir 448); (root ++ ["tlsrpt.json"], File 384 (JData df))].
End DataExample.

(** ** Reports *)

(** C8: [SaveReports] is an update of a map from report ids to reports: on success the stored
    reports are the old ones with every input put at its id, the last input of an id winning;
    stored ids keep their places, new ones are appended in the order of the inputs, no id becomes
    duplicate, and the email index is untouched. On an error nothing has changed, and after a
    crash the data file reads as before or as after. *)
Theorem SaveReports_refines_map (root : path) idn md inputs tm s fl df :
  md <> OpenReadOnly -> data_at root s = Ok df ->
  let saved s' := exists df', data_at root s' = Ok df' /\
    reports_map (df_Reports df') = upsert_map (reports_map (df_Reports df)) inputs /\
    ids (df_Reports df') = add_ids (ids (df_Reports df)) (map (fun i => ReportID (ri_Report i)) inputs) /\
    (NoDup (ids (df_Reports df)) -> NoDup (ids (df_Reports df'))) /\
    df_Emails df' = df_Emails df in
  match SaveReports (newStore root idn md) inputs (World s fl tm) with
  | (Some (Ok _), w) => saved (w_fs w)
  | (Some (Err _), w) => data_at root (w_fs w) = Ok df
  | (None, w) => data_at root (w_fs w) = Ok df \/ saved (w_fs w)
  end.
Proof.
  intros Hmd Hdf saved.
  assert (forall s', let df' := set_reports (upsert_reports (df_Reports df) inputs) df in
    data_times_ok df' = true -> dir_err s root = None -> s' = with_data root df' s -> saved s') as Hs.
  { intros s' df' Ht Hd ->. exists df'. split_and!.
    - apply data_at_with; [done|]. apply valid_set_reports; [by eapply data_at_valid|done].
    - apply upsert_reports_map.
    - apply upsert_reports_ids.
    - intros Hn. unfold df'. simpl. rewrite upsert_reports_ids. by apply add_ids_NoDup.
    - done. }
  assert (wp true tm (SaveReports (newStore root idn md) inputs)
    (fun r s' => match r with Ok _ => saved s' | Err _ => data_at root s' = Ok df end)
    (fun s' => data_at root s' = Ok df \/ saved s') s) as Hwp.
  { apply wp_SaveReports; [done|..].
    - intros df0 H0 df' Ht Hd. rewrite Hdf in H0. injection H0 as <-. by eapply Hs.
    - intros e s' H _. by rewrite (data_at_tmp _ _ _ H).
    - intros _ s' [H|(df0 & H0 & Ht & Hd & ->)]; [left; by rewrite (data_at_tmp _ _ _ H)|].
      rewrite Hdf in H0. injection H0 as <-. right. by eapply Hs. }
  pose proof (wp_run _ _ _ _ _ _ fl Hwp ltac:(done)) as H.
  destruct (SaveReports _ _ _) as [[[[]|e]|] w]; [done..|]. apply H.
Qed.

Lemma SaveReports_refines_map_witness :
  let inputs := [{| ri_Report := DataExample.report "b" 60; ri_UID := 1; ri_UIDValidity := 1 |};
                 {| ri_Report := DataExample.report "c" 70; ri_UID := 2; ri_UIDValidity := 1 |}] in
  let df := DataExample.df in
  let saved s' := exists df', data_at DataExample.root s' = Ok df' /\
    reports_map (df_Reports df') = upsert_map (reports_map (df_Reports df)) inputs /\
    ids (df_Reports df') = add_ids (ids (df_Reports df)) (map (fun i => ReportID (ri_Report i)) inputs) /\
    (NoDup (ids (df_Reports df)) -> NoDup (ids (df_Reports df'))) /\
    df_Emails df' = df_Emails df in
  match SaveReports (newStore DataExample.root DataExample.idn OpenReadWrite) inputs
          (World DataExample.s0 [] 0) with
  | (Some (Ok _), w) => saved (w_fs w)
  | (Some (Err _), w) => data_at DataExample.root (w_fs w) = Ok df
  | (None, w) => data_at DataExample.root (w_fs w) = Ok df \/ saved (w_fs w)
  end.
Proof. apply SaveReports_refines_map; [done|vm_compute; reflexivity]. Defined.

(** What [SaveReports] has stored is what [GetAllReports] returns: saved and read back, the
    reports are the ones in the order of the ids, each with the last content given for it, and
    both calls succeed where the data file is readable and writable. *)
Theorem SaveReports_GetAllReports (root : path) idn md inputs tm s df :
  md <> OpenReadOnly -> data_at root s = Ok df -> data_writable root s ->
  data_times_ok (set_reports (upsert_reports (df_Reports df) inputs) df) = true ->
  exists s',
    SaveReports (newStore root idn md) inputs (World s [] tm) = (Some (Ok tt), World s' [] tm) /\
    GetAllReports (newStore root idn md) (World s' [] tm) =
      (Some (Ok (upsert_reports (df_Reports df) inputs)), World s' [] tm).
Proof.
  intros Hmd Hdf Hw Ht.
  assert (wp false tm (SaveReports (newStore root idn md) inputs)
    (fun r s' => r = Ok tt /\ data_at root s' = Ok (set_reports (upsert_reports (df_Reports df) inputs) df))
    (fun _ => True) s) as Hwp0.
  { apply wp_SaveReports; [done|..|done].
    - intros df0 H0 df' Ht' Hd. rewrite Hdf in H0. injection H0 as <-. split; [done|].
      apply data_at_with; [done|]. apply valid_set_reports; [by eapply data_at_valid|done].
    - intros e s' _ H. exfalso. by apply (H eq_refl df). }
  pose proof (Hwp0 [] ltac:(done)) as Hwp.
  destruct (SaveReports _ _ _) as [[r|] [s' fl t]]; simpl in Hwp; [|naive_solver].
  destruct Hwp as (Hfl & -> & -> & Hs'). rewrite (Hfl eq_refl). exists s'. split; [done|].
  rewrite (reads_run _ _ _ s' tm (reads_GetAllReports root idn md)). by rewrite Hs'.
Qed.

Lemma SaveReports_GetAllReports_witness :
  let inputs := [{| ri_Report := DataExample.report "c" 70; ri_UID := 2; ri_UIDValidity := 1 |}] in
  exists s',
    SaveReports (newStore DataExample.root DataExample.idn OpenReadWrite) inputs
      (World DataExample.s0 [] 0) = (Some (Ok tt), World s' [] 0) /\
    GetAllReports (newStore DataExample.root DataExample.idn OpenReadWrite) (World s' [] 0) =
      (Some (Ok (upsert_reports (df_Reports DataExample.df) inputs)), World s' [] 0).
Proof.
  apply SaveReports_GetAllReports; [done|vm_compute; reflexivity| |vm_compute; reflexivity].
  split; [vm_compute; reflexivity|]. intros [k H]. vm_compute in H. discriminate H.
Defined.

(** C25: [DeleteReportsBefore] deletes the reports whose range ended before the cutoff and no
    others: on success the data file holds exactly the others, in order, the number returned is
    the one [CountReportsBefore] gave before, and running it again deletes nothing; an error or a
    crash leaves the old or the new data file. *)
Theorem DeleteReportsBefore_exact (root : path) idn md cutoff tm s fl df :
  md <> OpenReadOnly -> data_at root s = Ok df ->
  let n := count_if (ended_before cutoff) (df_Reports df) in
  let df' := expire_reports cutoff df in
  CountReportsBefore (newStore root idn md) cutoff (World s [] tm) = (Some (Ok n), World s [] tm) /\
  match DeleteReportsBefore (newStore root idn md) cutoff (World s fl tm) with
  | (Some (Ok k), w) => k = n /\ data_at root (w_fs w) = Ok df' /\
      DeleteReportsBefore (newStore root idn md) cutoff (World (w_fs w) [] tm) =
        (Some (Ok 0), World (w_fs w) [] tm)
  | (Some (Err _), w) => data_at root (w_fs w) = Ok df
  | (None, w) => data_at root (w_fs w) = Ok df \/ data_at root (w_fs w) = Ok df'
  end.
Proof.
  intros Hmd Hdf n df'. split.
  { rewrite (reads_run _ _ _ s tm (reads_CountReportsBefore root idn md cutoff)). by rewrite Hdf. }
  assert (dir_err s root = None -> data_at root (with_data root df' s) = Ok df') as Hnew.
  { intros Hd. apply data_at_with; [done|]. apply expire_valid. by eapply data_at_valid. }
  assert (forall s1, data_at root s1 = Ok df' ->
    DeleteReportsBefore (newStore root idn md) cutoff (World s1 [] tm) = (Some (Ok 0), World s1 [] tm)) as Hagain.
  { intros s1 H1. unfold DeleteReportsBefore.
    replace (readOnly (newStore root idn md)) with false by by symmetry; apply bool_decide_false.
    rewrite run_bind, (reads_run _ _ _ s1 tm (reads_loadDataFile root idn md)), H1.
    rewrite sweep_reports_spec. unfold df', expire_reports, count_if. cbn [df_Reports set_reports].
    by rewrite filter_filter_negb. }
  assert (wp true tm (DeleteReportsBefore (newStore root idn md) cutoff)
    (fun r s' => match r with
      | Ok k => k = n /\ data_at root s' = Ok df' /\
          DeleteReportsBefore (newStore root idn md) cutoff (World s' [] tm) = (Some (Ok 0), World s' [] tm)
      | Err _ => data_at root s' = Ok df end)
    (fun s' => data_at root s' = Ok df \/ data_at root s' = Ok df') s) as Hwp.
  { apply wp_DeleteReportsBefore; [done|..].
    - intros df0 H0 Hz. rewrite Hdf in H0. injection H0 as <-.
      assert (df' = df) as Heq.
      { unfold df', expire_reports. apply count_if_zero in Hz. rewrite filter_all; [by destruct df|].
        intros r Hr. apply negb_true_iff. destruct (ended_before cutoff r) eqn:E; [|done].
        assert (In r []) as []. rewrite <- Hz. by apply filter_In. }
      rewrite Heq in *. split_and!; [done|done|by apply Hagain].
    - intros df0 H0 k Hk Hd. rewrite Hdf in H0. injection H0 as <-.
      split_and!; [done|by apply Hnew|apply Hagain; by apply Hnew].
    - intros e s' H _. by rewrite (data_at_tmp _ _ _ H).
    - intros _ s' [H|(df0 & H0 & Hd & ->)]; [left; by rewrite (data_at_tmp _ _ _ H)|].
      rewrite Hdf in H0. injection H0 as <-. right. by apply Hnew. }
  pose proof (wp_run _ _ _ _ _ _ fl Hwp ltac:(done)) as H.
  destruct (DeleteReportsBefore _ _ _) as [[[k|e]|] w]; [done..|]. apply H.
Qed.

Lemma DeleteReportsBefore_exact_witness :
  let st := newStore DataExample.root DataExample.idn OpenReadWrite in
  let n := count_if (ended_before 10) (df_Reports DataExample.df) in
  let df' := expire_reports 10 DataExample.df in
  CountReportsBefore st 10 (World DataExample.s0 [] 0) = (Some (Ok n), World DataExample.s0 [] 0) /\
  match DeleteReportsBefore st 10 (World DataExample.s0 [] 0) with
  | (Some (Ok k), w) => k = n /\ data_at DataExample.root (w_fs w) = Ok df' /\
      DeleteReportsBefore st 10 (World (w_fs w) [] 0) = (Some (Ok 0), World (w_fs w) [] 0)
  | (Some (Err _), w) => data_at DataExample.root (w_fs w) = Ok DataExample.df
  | (None, w) => data_at DataExample.root (w_fs w) = Ok DataExample.df \/
                 data_at DataExample.root (w_fs w) = Ok df'
  end.
Proof.
  apply (DeleteReportsBefore_exact DataExample.root DataExample.idn OpenReadWrite 10 0 DataExample.s0 []);
    [done|vm_compute; reflexivity].
Defined.

(** ** The email index *)

(** What [SaveEmailMetas] leaves: nothing new, or the batch added to the index. *)
Lemma wp_SaveEmailMetas root idn md metas s (b : bool) (t : Time) (Q : result unit -> fs -> Prop)
    (C : fs -> Prop) df :
  md <> OpenReadOnly -> data_at root s = Ok df ->
  (forall es, add_metas (df_Emails df) (existing_keys (df_Emails df)) metas = Some es ->
     data_times_ok (set_emails es df) = true -> dir_err s root = None ->
     Q (Ok tt) (with_data root (set_emails es df) s)) ->
  (forall e s', s ⊑{root} s' ->
     (b = false -> forall es, add_metas (df_Emails df) (existing_keys (df_Emails df)) metas = Some es ->
        data_times_ok (set_emails es df) = true -> ~ data_writable root s) -> Q (Err e) s') ->
  (b = true -> forall s', s ⊑{root} s' \/
     (exists es, add_metas (df_Emails df) (existing_keys (df_Emails df)) metas = Some es /\
      data_times_ok (set_emails es df) = true /\ dir_err s root = None /\
      s' = with_data root (set_emails es df) s) -> C s') ->
  wp b t (SaveEmailMetas (newStore root idn md) metas) Q C s.
Proof.
  intros Hmd Hdf HOk HErr HC. unfold SaveEmailMetas. simpl. rewrite bool_decide_false by done.
  apply wp_bind. apply (reads_loadDataFile root idn md).
  2:{ intros Hb. split; [apply HC; auto with go|]. intros e _. apply wp_ret. apply HErr; [done|congruence]. }
  rewrite Hdf. destruct (add_metas _ _ metas) as [es|] eqn:E.
  - apply wp_save_data; [by auto| |].
    + intros e s' H1 H2. apply HErr; [done|]. intros Hb es' [= <-] Ht. by apply H2.
    + intros Hb s' [H|(? & ? & ?)]; apply HC; [done|by left|done|right]. by exists es.
  - apply wp_ret. apply HErr; [done|]. by intros.
Qed.

(** [SaveEmailMetas] keeps for every email the first date it was given: on success the index
    finds under each key the entry it had, or else the first one of the batch; entries keep their
    places, no key becomes duplicate, the reports are untouched, and it succeeds only if no date is
    zero. On an error nothing has changed, and after a crash the data file reads as before or as
    after. *)
Theorem SaveEmailMetas_first_wins (root : path) idn md metas tm s fl df :
  md <> OpenReadOnly -> data_at root s = Ok df ->
  let saved s' := exists df', data_at root s' = Ok df' /\
    Forall (fun m => IsZero (InternalDate m) = false) metas /\
    df_Emails df `prefix_of` df_Emails df' /\
    (forall k, find_key k (df_Emails df') =
       match find_key k (df_Emails df) with Some e => Some e | None => find_key k metas end) /\
    (NoDup (key_of <$> df_Emails df) -> NoDup (key_of <$> df_Emails df')) /\
    df_Reports df' = df_Reports df in
  match SaveEmailMetas (newStore root idn md) metas (World s fl tm) with
  | (Some (Ok _), w) => saved (w_fs w)
  | (Some (Err _), w) => data_at root (w_fs w) = Ok df
  | (None, w) => data_at root (w_fs w) = Ok df \/ saved (w_fs w)
  end.
Proof.
  intros Hmd Hdf saved.
  assert (forall es s', add_metas (df_Emails df) (existing_keys (df_Emails df)) metas = Some es ->
    data_times_ok (set_emails es df) = true -> dir_err s root = None ->
    s' = with_data root (set_emails es df) s -> saved s') as Hs.
  { intros es s' He Ht Hd ->. exists (set_emails es df).
    destruct (add_metas_Some _ _ _ _ (knows_existing _) He) as (H1 & H2 & H3). split_and!; try done.
    - apply data_at_with; [done|]. apply valid_set_emails; [by eapply data_at_valid|done].
    - apply Forall_forall. intros m Hm. destruct (IsZero (InternalDate m)) eqn:E; [|done]. exfalso.
      assert (add_metas (df_Emails df) (existing_keys (df_Emails df)) metas = None) as Hnone; [|congruence].
      apply add_metas_None. apply Exists_exists. by exists m. }
  assert (wp true tm (SaveEmailMetas (newStore root idn md) metas)
    (fun r s' => match r with Ok _ => saved s' | Err _ => data_at root s' = Ok df end)
    (fun s' => data_at root s' = Ok df \/ saved s') s) as Hwp.
  { apply (wp_SaveEmailMetas root idn md metas s true tm _ _ df); [done|done|..].
    - intros es He Ht Hd. by eapply Hs.
    - intros e s' H _. by rewrite (data_at_tmp _ _ _ H).
    - intros _ s' [H|(es & He & Ht & Hd & ->)]; [left; by rewrite (data_at_tmp _ _ _ H)|].
      right. by eapply Hs. }
  pose proof (wp_run _ _ _ _ _ _ fl Hwp ltac:(done)) as H.
  destruct (SaveEmailMetas _ _ _) as [[[[]|e]|] w]; [done..|]. apply H.
Qed.

Lemma SaveEmailMetas_first_wins_witness :
  let metas := [DataExample.meta 2 99; DataExample.meta 3 60] in
  let df := DataExample.df in
  let saved s' := exists df', data_at DataExample.root s' = Ok df' /\
    Forall (fun m => IsZero (InternalDate m) = false) metas /\
    df_Emails df `prefix_of` df_Emails df' /\
    (forall k, find_key k (df_Emails df') =
       match find_key k (df_Emails df) with Some e => Some e | None => find_key k metas end) /\
    (NoDup (key_of <$> df_Emails df) -> NoDup (key_of <$> df_Emails df')) /\
    df_Reports df' = df_Reports df in
  match SaveEmailMetas (newStore DataExample.root DataExample.idn OpenReadWrite) metas
          (World DataExample.s0 [] 0) with
  | (Some (Ok _), w) => saved (w_fs w)
  | (Some (Err _), w) => data_at DataExample.root (w_fs w) = Ok df
  | (None, w) => data_at DataExample.root (w_fs w) = Ok df \/ saved (w_fs w)
  end.
Proof. apply SaveEmailMetas_first_wins; [done|vm_compute; reflexivity]. Defined.

(** ** Email files *)

(** C24: the path an email is stored under reads back to the email: [LoadEmails] gets the uid and
    uidvalidity from it and, for an email the index does not know, a date of the month that leads
    to the same path again, so that re-indexing it never moves it. *)
Theorem email_path_roundtrip (root full : path) dates uid uv d :
  in_uint32 uid -> in_uint32 uv -> path_date d ->
  exists d',
    email_of_path dates full (email_rel_path uid uv d) = Ok (uid, uv, d') /\
    (dates !! (uid, uv) = Some d' \/
     dates !! (uid, uv) = None /\ buildEmailPath root uid uv d' = buildEmailPath root uid uv d).
Proof.
  intros Hu Hv Hd. rewrite email_of_built_path by done. eexists. split; [done|].
  destruct (dates !! (uid, uv)) as [d'|]; [by left|]. right. split; [done|].
  unfold buildEmailPath, email_rel_path. simpl. by rewrite format_first_of_month.
Qed.

Lemma email_path_roundtrip_witness :
  exists d',
    email_of_path ∅ ["x"] (email_rel_path 42 7 (63900000000 * ns_per_sec)) = Ok (42, 7, d') /\
    ((∅ : gmap emailKey Time) !! (42, 7) = Some d' \/
     (∅ : gmap emailKey Time) !! (42, 7) = None /\
     buildEmailPath [] 42 7 d' = buildEmailPath [] 42 7 (63900000000 * ns_per_sec)).
Proof.
  apply (email_path_roundtrip [] ["x"] ∅ 42 7 (63900000000 * ns_per_sec)).
  - unfold in_uint32. lia.
  - unfold in_uint32. lia.
  - unfold path_date. vm_compute. split; discriminate.
Defined.

(** [SaveEmail] stores an email whole or not at all: a file that is already there is left as it
    is and the call succeeds; otherwise, at every error and crash, what is at the email's path is
    either what was there or exactly the raw message, and success means it is the message. *)
Theorem SaveEmail_whole_or_nothing (root : path) idn md uid uv d raw tm s fl :
  md <> OpenReadOnly -> IsZero d = false ->
  let target := buildEmailPath root uid uv d in
  match SaveEmail (newStore root idn md) uid uv d raw (World s fl tm) with
  | (Some (Ok _), w) =>
      (exists n, fs_stat s target = Ok n /\ is_dir n = false /\ w_fs w = s) \/
      w_fs w !! target = Some (File filePerm (Raw raw))
  | (_, w) => w_fs w !! target = s !! target \/
              w_fs w !! target = Some (File filePerm (Raw raw))
  end.
Proof.
  intros Hmd Hd target.
  assert (forall s', email_stored root uid uv d raw s s' ->
    s' !! target = Some (File filePerm (Raw raw))) as Hst.
  { intros s' (s1 & _ & _ & ->). unfold target. rewrite email_target. apply lookup_insert_eq. }
  assert (forall s', email_not_stored root uv d s s' -> s' !! target = s !! target) as Hnot.
  { intros s' (s1 & [Hs1 Hn1] & Ht). unfold target. rewrite email_target.
    rewrite (tmp_ext_lookup _ _ [] _ _ Ht) by apply email_file_not_tmp.
    destruct (s !! _) as [n|] eqn:E; [by eapply lookup_weaken|].
    destruct (s1 !! _) as [n|] eqn:E'; [|done]. apply Hn1 in E' as [H|(_ & _ & u & Hu)]; [congruence|].
    exfalso. apply (f_equal length) in Hu. rewrite !length_app in Hu. simpl in Hu. lia. }
  assert (wp true tm (SaveEmail (newStore root idn md) uid uv d raw)
    (fun r s' => match r with
      | Ok _ => (exists n, fs_stat s target = Ok n /\ is_dir n = false /\ s' = s) \/
                s' !! target = Some (File filePerm (Raw raw))
      | Err _ => s' !! target = s !! target \/ s' !! target = Some (File filePerm (Raw raw)) end)
    (fun s' => s' !! target = s !! target \/ s' !! target = Some (File filePerm (Raw raw))) s) as Hwp.
  { apply wp_SaveEmail; [done|done|..].
    - intros (n & Hn & Hdir). left. by exists n.
    - intros s' _ H. right. by apply Hst.
    - intros e s' H _. left. by apply Hnot.
    - intros _ s' [H|[_ H]]; [left; by apply Hnot|right; by apply Hst]. }
  pose proof (wp_run _ _ _ _ _ _ fl Hwp ltac:(done)) as H.
  destruct (SaveEmail _ _ _ _ _ _) as [[[[]|e]|] w]; [done..|]. apply H.
Qed.

Lemma SaveEmail_whole_or_nothing_witness :
  let target := buildEmailPath DataExample.root 3 1 60 in
  match SaveEmail (newStore DataExample.root DataExample.idn OpenReadWrite) 3 1 60 "x"
          (World DataExample.s0 [] 0) with
  | (Some (Ok _), w) =>
      (exists n, fs_stat DataExample.s0 target = Ok n /\ is_dir n = false /\ w_fs w = DataExample.s0) \/
      w_fs w !! target = Some (File filePerm (Raw "x"))
  | (_, w) => w_fs w !! target = DataExample.s0 !! target \/
              w_fs w !! target = Some (File filePerm (Raw "x"))
  end.
Proof. apply SaveEmail_whole_or_nothing; done. Defined.

(** C10: [DeleteEmailsBefore] never loses track of a file: however it ends, an entry has left the
    index only if it was before the cutoff and its file is gone, entries not before the cutoff are
    still indexed, and below the emails directory nothing has been removed but files of expired
    entries and the directories they were in. *)
Theorem DeleteEmailsBefore_safe (root : path) idn md cutoff tm s fl df :
  md <> OpenReadOnly -> IsZero cutoff = false -> dir_err s root = None -> data_at root s = Ok df ->
  exists df', delete_outcome root cutoff df df' s
    (w_fs (DeleteEmailsBefore (newStore root idn md) cutoff (World s fl tm)).2).
Proof.
  intros Hmd Hz Hd Hdf.
  assert (wp true tm (DeleteEmailsBefore (newStore root idn md) cutoff)
    (fun _ s' => exists df', delete_outcome root cutoff df df' s s')
    (fun s' => exists df', delete_outcome root cutoff df df' s s') s) as Hwp.
  { apply (wp_DeleteEmailsBefore root cutoff idn md df); [done..| |].
    - intros r df' s' H _. by exists df'.
    - intros _ df' s' H. by exists df'. }
  pose proof (wp_run _ _ _ _ _ _ fl Hwp ltac:(done)) as H.
  destruct (DeleteEmailsBefore _ _ _) as [[r|] w]; [done|]. apply H.
Qed.

Lemma DeleteEmailsBefore_safe_witness :
  exists df', delete_outcome DataExample.root 10 DataExample.df df' DataExample.s0
    (w_fs (DeleteEmailsBefore (newStore DataExample.root DataExample.idn OpenReadWrite) 10
       (World DataExample.s0 [] 0)).2).
Proof.
  apply DeleteEmailsBefore_safe; [done|reflexivity|vm_compute; reflexivity|vm_compute; reflexivity].
Defined.

(** Without faults [DeleteEmailsBefore] deletes what [CountEmailsBefore] counts: where no
    expired email's path is occupied by a directory and the data file can be written, it returns
    that number and no error, and the index holds exactly the other entries. *)
Theorem DeleteEmailsBefore_exact (root : path) idn md cutoff tm s df :
  md <> OpenReadOnly -> IsZero cutoff = false -> data_writable root s -> data_at root s = Ok df ->
  (forall e, e ∈ df_Emails df -> expired cutoff e = true -> removable root s e) ->
  let n := count_if (expired cutoff) (df_Emails df) in
  CountEmailsBefore (newStore root idn md) cutoff (World s [] tm) = (Some (Ok n), World s [] tm) /\
  exists s', DeleteEmailsBefore (newStore root idn md) cutoff (World s [] tm) =
      (Some (n, None), World s' [] tm) /\
    data_at root s' =
      Ok (set_emails (List.filter (fun e => negb (expired cutoff e)) (df_Emails df)) df).
Proof.
  intros Hmd Hz [Hd Hw] Hdf Hrem n. split.
  { unfold CountEmailsBefore. rewrite Hz. rewrite run_bind,
      (reads_run _ _ _ s tm (reads_loadDataFile root idn md)), Hdf. rewrite foldl_count. done. }
  assert (wp false tm (DeleteEmailsBefore (newStore root idn md) cutoff)
    (fun r s' => r = (n, None) /\ data_at root s' =
       Ok (set_emails (List.filter (fun e => negb (expired cutoff e)) (df_Emails df)) df))
    (fun _ => True) s) as Hwp0.
  { apply (wp_DeleteEmailsBefore root cutoff idn md df); [done..| |done].
    intros r df' s' H He. destruct (He eq_refl Hrem ltac:(by split)) as [-> Heq]. split; [done|].
    rewrite <- Heq. apply H. }
  pose proof (Hwp0 [] ltac:(done)) as Hwp.
  destruct (DeleteEmailsBefore _ _ _) as [[r|] [s' fl t]]; simpl in Hwp; [|naive_solver].
  destruct Hwp as (Hfl & -> & -> & Hs'). rewrite (Hfl eq_refl). by exists s'.
Qed.

Lemma DeleteEmailsBefore_exact_witness :
  let n := count_if (expired 10) (df_Emails DataExample.df) in
  let st := newStore DataExample.root DataExample.idn OpenReadWrite in
  CountEmailsBefore st 10 (World DataExample.s0 [] 0) = (Some (Ok n), World DataExample.s0 [] 0) /\
  exists s', DeleteEmailsBefore st 10 (World DataExample.s0 [] 0) = (Some (n, None), World s' [] 0) /\
    data_at DataExample.root s' =
      Ok (set_emails (List.filter (fun e => negb (expired 10 e)) (df_Emails DataExample.df)) DataExample.df).
Proof.
  apply DeleteEmailsBefore_exact; [done|reflexivity| |vm_compute; reflexivity|].
  - split; [vm_compute; reflexivity|]. intros [k H]. vm_compute in H. discriminate H.
  - intros e He _. apply elem_of_cons in He as [-> |He]; [vm_compute; reflexivity|].
    apply elem_of_cons in He as [-> |He]; [vm_compute; reflexivity|]. by apply elem_of_nil in He.
Defined.
