(* ===== verification/Confine.v ===== *)
(** * Where the operations of the store write

    [preserves I m]: whatever fails and wherever the process dies, [m] keeps the fact [I] about the
    files. Reading operations preserve everything. [confined c m]: with the root directory there,
    [m] changes nothing but entries of it that [c] names, and what is below them; each operation of
    the store has its names. Facts about other entries follow. *)
From S2P Require Import Prelude GoStr GoTime GoErr.
From S2P Require Tlsrpt.
From S2P Require Import StoreTypes Fs Io AtomicFile Sentinel FileStore Reports Emails Recovery Reset EmailsSpec StoreOpen.

(** ** Calls of the store that only read *)

Lemma preserves_read {A} (I : fs -> Prop) (f : fs -> result A) :
  preserves I (prim (fun s => (f s, s)) unchanged).
Proof. eapply preserves_reads, reads_prim. Qed.

#[export] Hint Resolve preserves_read : go.

Ltac preserves_go :=
  repeat first
    [ apply preserves_ret | apply preserves_now | apply preserves_read
    | apply preserves_bind; [|intros ?] | apply preserves_defer
    | match goal with |- preserves _ (match ?x with _ => _ end) => destruct x end
    | assumption | progress simpl ].

Section readers.
Context (root : path) (idn : IMAPIdentity) (md : OpenMode).
Abbreviation st := (newStore root idn md).
Context (I : fs -> Prop).

Lemma preserves_loadDataFile : preserves I (loadDataFile st).
Proof. eapply preserves_reads, reads_loadDataFile. Qed.

Lemma preserves_loadSentinel r : preserves I (loadSentinel r).
Proof. eapply preserves_reads, reads_loadSentinel. Qed.

Lemma preserves_walk_dir {Message} (ReadMessage : content -> result Message) fuel dates d full isDir acc :
  preserves I (walk_dir ReadMessage fuel dates d full isDir acc).
Proof.
  revert full isDir acc. induction fuel as [|fuel IH]; intros full isDir acc; cbn [walk_dir]; [preserves_go|].
  apply preserves_bind; [unfold load_entry, sys_read_file; preserves_go|]. intros acc1.
  destruct (negb isDir); [preserves_go|]. apply preserves_bind; [unfold sys_read_dir; preserves_go|]. intros dirs.
  destruct (match dirs with Ok _ => _ | Err _ => _ end) as [[acc2 stop] dirs']. destruct stop; [preserves_go|].
  revert acc2. induction dirs' as [|[name d'] dirs' IHd]; intros acc2; [preserves_go|].
  apply preserves_bind; [apply IH|]. intros [acc3 [e|]]; [preserves_go|apply IHd].
Qed.

Lemma preserves_LoadEmails {Message} (ReadMessage : content -> result Message) : preserves I (Emails.LoadEmails ReadMessage st).
Proof.
  unfold Emails.LoadEmails, validateEmailsDir, loadIndexedEmailDates, sys_stat.
  assert (Hd : preserves I Emails.depth_fuel) by (intros b tm s Hs fl Hf; by split_and!).
  pose proof preserves_loadDataFile. preserves_go; apply preserves_walk_dir.
Qed.

Lemma preserves_LoadRecoveryRequired : preserves I (Recovery.LoadRecoveryRequired st).
Proof. unfold Recovery.LoadRecoveryRequired. pose proof (preserves_loadSentinel root). preserves_go. Qed.

Lemma preserves_LoadUIDValidity : preserves I (Recovery.LoadUIDValidity st).
Proof. unfold Recovery.LoadUIDValidity. pose proof (preserves_loadSentinel root). preserves_go. Qed.

Lemma preserves_HasPendingReset : preserves I (Recovery.HasPendingReset st).
Proof. unfold Recovery.HasPendingReset, readResetManifest, sys_read_file. preserves_go. Qed.

Lemma preserves_CheckRecoveryRequired guard : preserves I (Recovery.CheckRecoveryRequired guard).
Proof.
  unfold Recovery.CheckRecoveryRequired. destruct guard as [|r]; [preserves_go|].
  pose proof (preserves_loadSentinel r). preserves_go.
Qed.

Lemma preserves_GetAllReports : preserves I (Reports.GetAllReports st).
Proof. unfold Reports.GetAllReports. pose proof preserves_loadDataFile. preserves_go. Qed.

Lemma preserves_CountReportsBefore cutoff : preserves I (Reports.CountReportsBefore st cutoff).
Proof. unfold Reports.CountReportsBefore. pose proof preserves_loadDataFile. preserves_go. Qed.

Lemma preserves_CountEmailsBefore cutoff : preserves I (Emails.CountEmailsBefore st cutoff).
Proof. unfold Emails.CountEmailsBefore. pose proof preserves_loadDataFile. preserves_go. Qed.
End readers.

(** ** Where the calls of the store write *)

(** Names of temporary files, which every write may leave behind. *)
Abbreviation tmp_entry := (fun d => HasPrefix d tmp_prefix = true).

Section confined.
Context (root : path) (idn : IMAPIdentity) (md : OpenMode).
Abbreviation st := (newStore root idn md).

(** With the root directory there, [m] changes nothing but entries of it with the names [c]. *)
Definition confined {A} (c : string -> Prop) (m : M A) : Prop :=
  forall (b : bool) (tm : Time) s, dir_err s root = None -> wp b tm m (fun _ s' => only root c s s') (only root c s) s.

Lemma confined_reads {A} c (m : M A) : (forall I, preserves I m) -> confined c m.
Proof. intros Hm b tm s _. eapply wp_mono; [by apply (Hm (fun s' => s' = s))|..]; simpl; intros; subst; reflexivity. Qed.

Lemma confined_ret {A} c (a : A) : confined c (ret a).
Proof. apply confined_reads. intros. apply preserves_ret. Qed.

Lemma confined_bind {A B} c (m : M A) (f : A -> M B) :
  confined c m -> (forall a, confined c (f a)) -> confined c (m ≫= f).
Proof.
  intros Hm Hf b tm s Hd. apply wp_bind. eapply wp_mono; [by apply Hm| |done].
  simpl. intros a s1 H1. eapply wp_mono; [apply Hf; by rewrite (only_dir_err _ _ _ _ H1)|..]; simpl;
    intros _ s2 H2; etransitivity; eassumption.
Qed.

Lemma confined_defer {A B} c (fin : M B) (m : M A) : confined c fin -> confined c m -> confined c (defer fin m).
Proof.
  intros Hf Hm. unfold defer. apply confined_bind; [done|]. intros a.
  apply confined_bind; [done|]. intros. apply confined_ret.
Qed.

Lemma confined_mono {A} (c c' : string -> Prop) (m : M A) : (forall d, c d -> c' d) -> confined c m -> confined c' m.
Proof. intros Hc Hm b tm s Hd. eapply wp_mono; [by apply Hm|..]; simpl; intros; by eapply only_mono. Qed.

(** Facts about the root directory and its other entries stay. *)
Lemma confined_preserves {A} c (I : fs -> Prop) (m : M A) :
  (forall s, I s -> dir_err s root = None) -> (forall s s', only root c s s' -> I s -> I s') ->
  confined c m -> preserves I m.
Proof.
  intros Hd HI Hm b tm s Hs. eapply wp_mono; [apply Hm; by apply Hd|..]; simpl; intros _ s' H; by eapply HI.
Qed.

(** ** System calls *)

Lemma confined_prim {A} c (op : fs -> result A * fs) (part : partial -> fs -> fs) `{!Interruptible part} :
  (forall s, only root c s (op s).2) -> (forall d s, only root c s (part d s)) -> confined c (prim op part).
Proof. intros Ho Hp b tm s _. apply wp_call; auto. Qed.

Lemma confined_lock c (l : io (result unit)) : l = FlockGuard \/ l = CloseGuardFile -> confined c (Prog.call l : M _).
Proof. intros Hl b tm s _. apply wp_lock; [done|reflexivity|]. intros _. split; [|intros e _]; reflexivity. Qed.

Lemma only_removed (c : string -> Prop) d t s : c d -> only root c s (fs_remove (root ++ d :: t) s).2.
Proof.
  intros Hc. destruct (fs_remove_cases (root ++ d :: t) s) as [[e ->]|[-> _]]; [reflexivity|].
  eapply only_mono; [|apply only_delete]. by intros ? <-.
Qed.

Lemma confined_remove (c : string -> Prop) d t : c d -> confined c (sys_remove (root ++ d :: t)).
Proof. intros Hc. apply confined_prim; [|by intros]. intros s. by apply only_removed. Qed.

Lemma confined_remove_all (c : string -> Prop) d t : c d -> confined c (sys_remove_all (root ++ d :: t)).
Proof.
  intros Hc. apply confined_prim; intros s.
  - unfold fs_remove_all. destruct (dir_err s _) as [[]|]; simpl; try reflexivity.
    eapply only_mono; [|apply only_delete_tree]. by intros ? <-.
  - intros s'. eapply only_mono; [|apply only_delete_some]. by intros ? <-.
Qed.

(** A path below an entry with another name is not touched by a move. *)
Lemma only_renamed (c : string -> Prop) d t d' t' s :
  c d -> c d' -> only root c s (fs_rename (root ++ d :: t) (root ++ d' :: t') s).2.
Proof.
  intros Hd Hd'. set (a := root ++ d :: t). set (b := root ++ d' :: t').
  assert (Hins : forall n, only root c s (<[b := n]> (delete a s))).
  { intros n. etransitivity; (eapply only_mono; [|first [apply only_delete|apply only_insert]]); by intros ? <-. }
  assert (Hmv : only root c s (move_tree a b s ∪ delete_tree a (delete_tree b s))).
  { intros q Hq. rewrite lookup_moved.
    assert (Hs : forall x u, c x -> strip (root ++ x :: u) q = None).
    { intros x u Hx. apply strip_None. intros v ->. apply (Hq x (u ++ v)); [by rewrite <- app_assoc|done]. }
    unfold a, b. by rewrite !Hs. }
  unfold fs_rename. destruct (fs_stat s a) as [[k|k x]|e]; [| |reflexivity];
    (destruct (dir_err s (parent b)); [reflexivity|]); case_bool_decide; try reflexivity;
    (destruct (strip a b); [reflexivity|]); destruct (s !! b) as [[k'|k' x']|]; try reflexivity; try apply Hins;
    try apply Hmv; destruct (children s b); [apply Hmv|reflexivity].
Qed.

Lemma confined_rename (c : string -> Prop) d t d' t' :
  c d -> c d' -> confined c (sys_rename (root ++ d :: t) (root ++ d' :: t')).
Proof. intros Hd Hd'. apply confined_prim; [|by intros]. intros s. by apply only_renamed. Qed.

Lemma confined_mkdir_all (c : string -> Prop) d perm : c d -> confined c (sys_mkdir_all (root ++ [d]) perm).
Proof.
  intros Hc b tm s Hd.
  assert (H : forall s', dirs_added (root ++ [d]) s s' -> only root c s s').
  { intros s' H q Hq. eapply dirs_added_entry; [done|done|]. intros ->. by apply (Hq d []). }
  apply wp_mkdir_path; auto.
Qed.

Lemma confined_ensureDirExists (c : string -> Prop) d : c d -> confined c (ensureDirExists (root ++ [d])).
Proof.
  intros Hc b tm s Hd.
  assert (H : forall s', dirs_added (root ++ [d]) s s' -> only root c s s').
  { intros s' H q Hq. eapply dirs_added_entry; [done|done|]. intros ->. by apply (Hq d []). }
  apply wp_ensureDirExists; auto.
Qed.

Lemma confined_open_create (c : string -> Prop) d perm : c d -> confined c (sys_open_create (root ++ [d]) perm).
Proof.
  intros Hc. apply confined_prim; [|by intros]. intros s. unfold fs_open_create.
  destruct (dir_err s _); [reflexivity|]. destruct (s !! _) as [[]|]; [reflexivity..|].
  eapply only_mono; [|apply only_insert]. by intros ? <-.
Qed.

(** ** Atomic writes *)

Lemma confined_atomicWriteFile (c : string -> Prop) d x :
  HasPrefix d tmp_prefix = false -> c d -> (forall d, tmp_entry d -> c d) -> confined c (atomicWriteFile (root ++ [d]) x).
Proof.
  intros Hd Hc Ht b tm s _.
  assert (Htmp : forall s', s ⊑{root} s' -> only root c s s')
    by (intros s' H; eapply only_mono; [exact Ht|by apply only_tmp_ext]).
  assert (Hw : only root c s (written (root ++ [d]) x s))
    by (eapply only_mono; [|apply only_insert]; by intros ? <-).
  apply wp_atomicWriteFile; [done|done|auto|]. intros _ s' [H|[_ ->]]; auto.
Qed.

Lemma confined_saveSentinel (c : string -> Prop) se :
  c sentinelFilename -> (forall d, tmp_entry d -> c d) -> confined c (saveSentinel root se).
Proof.
  intros Hc Ht. unfold saveSentinel. destruct (marshal_sentinel se); [|apply confined_ret].
  apply confined_bind; [by apply confined_atomicWriteFile|]. intros [|e]; apply confined_ret.
Qed.

Lemma confined_saveDataFile (c : string -> Prop) df :
  c "tlsrpt.json" -> (forall d, tmp_entry d -> c d) -> confined c (saveDataFile st df).
Proof.
  intros Hc Ht. unfold saveDataFile. destruct (marshal_data df); [|apply confined_ret].
  by apply confined_atomicWriteFile.
Qed.


(** ** The operations *)

Lemma confined_loadOrInit c : confined c (loadOrInitSentinelForWrite st).
Proof.
  apply confined_reads. intros I. unfold loadOrInitSentinelForWrite. pose proof (preserves_loadSentinel I root).
  preserves_go.
Qed.

Lemma confined_readResetManifest c p : confined c (readResetManifest p).
Proof. apply confined_reads. intros I. unfold readResetManifest, sys_read_file. preserves_go. Qed.

Lemma confined_HasPendingReset c : confined c (HasPendingReset st).
Proof. apply confined_reads. intros. apply preserves_HasPendingReset. Qed.

Lemma confined_LoadRecoveryRequired c : confined c (LoadRecoveryRequired st).
Proof. apply confined_reads. intros. apply preserves_LoadRecoveryRequired. Qed.

End confined.

(** Confinement by the structure of a program: names are left to show. *)
Ltac confined_step :=
  first
    [ apply confined_ret | apply confined_loadOrInit | apply confined_readResetManifest
    | apply confined_HasPendingReset | apply confined_LoadRecoveryRequired
    | apply confined_saveSentinel | apply confined_saveDataFile | apply confined_atomicWriteFile
    | apply confined_open_create | apply confined_remove | apply confined_remove_all
    | apply confined_rename | apply confined_mkdir_all | apply confined_ensureDirExists
    | solve [apply confined_lock; auto]
    | apply confined_bind; [|intros ?] | apply confined_defer
    | match goal with |- confined _ _ (match ?x with _ => _ end) => destruct x end
    | solve [apply confined_reads; intros; apply preserves_read]
    | solve [apply confined_reads; intros; apply preserves_loadDataFile]
    | solve [apply confined_reads; intros; apply preserves_loadSentinel]
    | assumption | reflexivity ].

Ltac confined_go := repeat confined_step.

Section operations.
Context (root : path) (idn : IMAPIdentity) (md : OpenMode).
Abbreviation st := (newStore root idn md).


(** An email's file: what is there, and what saving an email adds. *)
Lemma dirs_added_only uv d s s1 :
  dir_err s root = None -> dirs_added (email_dir root uv d) s s1 -> only root (eq "emails") s s1.
Proof.
  intros Hd [Hs Hn] q Hq. destruct (s !! q) as [n|] eqn:E; [by eapply lookup_weaken|].
  destruct (s1 !! q) as [n|] eqn:E1; [|done]. exfalso.
  destruct (Hn _ _ E1) as [?|(_ & Hne & u & Hu)]; [congruence|]. unfold email_dir in Hu.
  apply app_eq_app in Hu as (l & [[-> Hl]|[-> Hl]]).
  - destruct (proj1 (dir_err_None s _) Hd q l eq_refl Hne) as [k Hk]. congruence.
  - destruct l as [|x l]; [|injection Hl as <- _; by apply (Hq "emails" l)].
    rewrite app_nil_r in *. destruct (proj1 (dir_err_None s _) Hd root [] ltac:(by rewrite app_nil_r) Hne) as [k Hk].
    congruence.
Qed.

(** Below a directory of emails is below the emails. *)
Lemma email_below_only uv d (c : string -> Prop) s s' :
  only (email_dir root uv d) c s s' -> only root (eq "emails") s s'.
Proof.
  intros H q Hq. apply H. intros x t -> _. unfold email_dir in Hq.
  by apply (Hq "emails" ([fmt_u uv; format_yyyymm d] ++ x :: t)); [rewrite <- app_assoc|].
Qed.

(** [c] names what an operation writes; every write may leave a temporary file. *)
Section names.
Context (c : string -> Prop) (Htmp : forall d, tmp_entry d -> c d).

Lemma confined_SaveUIDValidity v : c sentinelFilename -> confined root c (SaveUIDValidity st v).
Proof using Htmp. intros Hs. unfold SaveUIDValidity. confined_go. Qed.

Lemma confined_guarded (fn : M (result unit)) :
  c guardFilename -> confined root c fn -> confined root c (withGuardExclusive st fn).
Proof using Htmp. intros Hg Hfn. unfold withGuardExclusive, guardFilePath. confined_go. Qed.

Lemma confined_SaveRecoveryRequired p u d :
  c sentinelFilename -> c guardFilename -> confined root c (SaveRecoveryRequired st p u d).
Proof using Htmp. intros Hs Hg. unfold SaveRecoveryRequired. destruct (readOnly st); [confined_go|]. apply confined_guarded; confined_go. Qed.

Lemma confined_SaveReports inputs : c "tlsrpt.json" -> confined root c (SaveReports st inputs).
Proof using Htmp. intros Hd. unfold SaveReports. confined_go. Qed.

Lemma confined_DeleteReportsBefore cutoff : c "tlsrpt.json" -> confined root c (DeleteReportsBefore st cutoff).
Proof using Htmp. intros Hd. unfold DeleteReportsBefore. confined_go. Qed.

Lemma confined_SaveEmailMetas metas : c "tlsrpt.json" -> confined root c (SaveEmailMetas st metas).
Proof using Htmp. intros Hd. unfold SaveEmailMetas. confined_go. Qed.

Lemma confined_SaveEmail uid uv d raw : c "emails" -> confined root c (SaveEmail st uid uv d raw).
Proof.
  intros Hc. apply (confined_mono root (eq "emails")); [by intros ? <-|]. intros b tm s Hd.
  destruct (decide (md = OpenReadOnly)) as [->|Hmd]; [by apply wp_ret|].
  destruct (IsZero d) eqn:Ez.
  { unfold SaveEmail. simpl. rewrite bool_decide_false, Ez by done. by apply wp_ret. }
  assert (Hs : forall s', email_stored root uid uv d raw s s' -> only root (eq "emails") s s').
  { intros s' (s1 & H1 & _ & ->). etransitivity; [by apply (dirs_added_only uv d)|].
    apply (email_below_only uv d (eq (email_file uid))), only_insert. }
  assert (Hn : forall s', email_not_stored root uv d s s' -> only root (eq "emails") s s').
  { intros s' (s1 & H1 & H2). etransitivity; [by apply (dirs_added_only uv d)|].
    by eapply (email_below_only uv d), only_tmp_ext. }
  apply wp_SaveEmail; [done|done|..].
  - intros _. reflexivity.
  - intros s' _. apply Hs.
  - intros e s' H _. by apply Hn.
  - intros _ s' [H|[_ H]]; auto.
Qed.

Lemma confined_delete_loop cutoff es a : c "emails" -> confined root c (delete_loop root cutoff es a).
Proof.
  intros Hc. revert a. induction es as [|e es IH]; intros a; cbn [delete_loop]; [confined_go|].
  unfold entry_path, buildEmailPath. confined_go; apply IH.
Qed.

Lemma confined_remove_empty (dirs : list path) :
  (forall p, p ∈ dirs -> exists t, p = root ++ "emails" :: t) -> c "emails" -> confined root c (remove_empty dirs).
Proof.
  intros Hp Hc. induction dirs as [|p dirs IH]; cbn [remove_empty]; [confined_go|].
  destruct (Hp p) as [t ->]; [by left|]. unfold sys_read_dir.
  confined_go; apply IH; intros q Hq; apply Hp; by right.
Qed.

Lemma confined_cleanupEmptyDirs gc : c "emails" -> confined root c (cleanupEmptyDirs st gc).
Proof.
  intros Hc. unfold cleanupEmptyDirs. apply confined_bind; [|intros _]; apply confined_remove_empty; try done;
    intros p Hp; unfold mm_dirs, uv_dirs in Hp; rewrite elem_of_remove_dups, list_elem_of_In in Hp;
    apply in_map_iff in Hp as (e & <- & _); eexists; simpl; unfold emailsPath; by rewrite <- app_assoc.
Qed.

Lemma confined_DeleteEmailsBefore cutoff :
  c "emails" -> c "tlsrpt.json" -> confined root c (DeleteEmailsBefore st cutoff).
Proof.
  intros He Hd. unfold DeleteEmailsBefore.
  repeat first [by apply confined_delete_loop | by apply confined_cleanupEmptyDirs | confined_step].
Qed.
End names.

End operations.
