(* ===== verification/LoadSpec.v ===== *)
(** * What [LoadEmails] returns

    The walk over the emails directory visits every file below it once. Without faults [LoadEmails]
    is a fold over these files, so what it returns is described file by file: an [.eml] file whose
    path and content can be read is returned once, every other [.eml] file is an error, and nothing
    else is in the result. *)
From S2P Require Import Prelude GoStr GoTime GoErr.
From S2P Require Tlsrpt.
From S2P Require Import StoreTypes Fs Io AtomicFile Sentinel FileStore Reports Emails Reset EmailsSpec DataProps Confine.

(** ** The entries of a directory *)

Lemma elem_of_children s p c : c ∈ children s p <-> is_Some (s !! (p ++ [c])).
Proof.
  unfold children. rewrite merge_sort_Permutation, list_elem_of_omap. split.
  - intros ([q n] & Hin%elem_of_map_to_list & Hq). simpl in Hq.
    destruct (strip p q) as [[|x [|]]|] eqn:E; try done. injection Hq as <-.
    apply strip_Some in E as ->. by exists n.
  - intros [n Hn]. exists (p ++ [c], n). split; [by apply elem_of_map_to_list|]. simpl. by rewrite strip_app.
Qed.

Lemma NoDup_children s p : NoDup (children s p).
Proof.
  unfold children. rewrite merge_sort_Permutation.
  assert (H : forall l : list (path * node), NoDup l.*1 ->
    NoDup (omap (fun qn => match strip p qn.1 with Some [c] => Some c | _ => None end) l)).
  { induction l as [|[q n] l IH]; simpl; [constructor|]. intros [Hq Hl]%list.NoDup_cons.
    destruct (strip p q) as [[|x [|]]|] eqn:E; try by apply IH.
    apply strip_Some in E as ->. constructor; [|by apply IH].
    intros ([q' n'] & Hin & Hx)%list_elem_of_omap. simpl in Hx.
    destruct (strip p q') as [[|y [|]]|] eqn:E'; try done. injection Hx as ->.
    apply strip_Some in E' as ->. apply Hq. by apply (list_elem_of_fmap_2 fst _ (p ++ [x], n')). }
  apply H, NoDup_fst_map_to_list.
Qed.

Lemma elem_of_entries s p c d :
  In (c, d) (entries s p) <-> exists n, s !! (p ++ [c]) = Some n /\ d = is_dir n.
Proof.
  unfold entries. rewrite in_map_iff. split.
  - intros (x & [= <- <-] & Hx). apply list_elem_of_In, elem_of_children in Hx as [n Hn]. exists n. by rewrite Hn.
  - intros (n & Hn & ->). exists c. rewrite Hn. split; [done|]. apply list_elem_of_In, elem_of_children. by exists n.
Qed.

(** ** What is on the way to a file *)

(** It can be looked up, and writing elsewhere does not hide the file. *)
Lemma stat_prefix s q u n : fs_stat s (q ++ u) = Ok n -> q <> [] -> exists n', fs_stat s q = Ok n'.
Proof.
  intros H Hq. destruct u as [|x u _] using rev_ind; [rewrite app_nil_r in H; eauto|].
  apply fs_stat_Ok in H as [Hd _]. rewrite app_assoc, parent_app in Hd. rewrite dir_err_None in Hd.
  destruct (Hd q u eq_refl Hq) as [k Hk]. exists (Dir k). apply fs_stat_Ok. split; [|done].
  apply dir_err_None. intros q1 u1 Hp Hq1. apply (Hd q1 (u1 ++ [List.last q ""] ++ u)); [|done].
  rewrite !app_assoc, <- Hp. f_equal. by apply app_removelast_last.
Qed.

Lemma stat_insert s p q n n' :
  fs_stat s p = Ok n -> (forall u, p <> q ++ u) -> fs_stat (<[q := n']> s) p = Ok n.
Proof.
  intros H Hq. apply fs_stat_Ok in H as [Hd Hl]. apply fs_stat_Ok. split.
  - rewrite dir_err_insert; [done|]. intros u Hu. destruct p as [|x p]; [by apply (Hq u)|].
    apply (Hq (u ++ [List.last (x :: p) ""])). rewrite app_assoc, <- Hu. by apply app_removelast_last.
  - rewrite lookup_insert_ne; [done|]. intros ->. apply (Hq []). by rewrite app_nil_r.
Qed.

Lemma Ext_eml name : Ext (String.append name ".eml") = ".eml".
Proof. induction name as [|c name IH]; [done|]. simpl. by rewrite IH. Qed.

(** ** The walk *)

Section walk.
Context {Message : Type} (ReadMessage : content -> result Message).
Abbreviation LoadedEmail := (@LoadedEmail Message).
Abbreviation load_acc := (@load_acc Message).

(** What the walk makes of one file: nothing, a loaded email or an error. *)
Definition file_outcome (s : fs) (dates : gmap emailKey Time) (emailsDir full : path)
  : option (LoadedEmail + goerr) :=
  if negb (String.eqb (Ext (base full)) ".eml") then None
  else
    let relPath := default [] (strip emailsDir full) in
    match email_of_path dates full relPath with
    | Err err => Some (inr err)
    | Ok (uid, uidValidity, internalDate) =>
        match fs_read_file full s with
        | Err readErr => Some (inr (ErrLoadEmailFailed full uid uidValidity readErr))
        | Ok data =>
            match ReadMessage data with
            | Err parseErr => Some (inr (ErrLoadEmailFailed full uid uidValidity parseErr))
            | Ok msg => Some (inl {| le_Message := msg; le_UID := uid; le_UIDValidity := uidValidity;
                                     le_InternalDate := internalDate; le_Path := relPath |})
            end
        end
    end.

Definition loaded_of (o : option (LoadedEmail + goerr)) : option LoadedEmail :=
  match o with Some (inl m) => Some m | _ => None end.
Definition error_of (o : option (LoadedEmail + goerr)) : option goerr :=
  match o with Some (inr e) => Some e | _ => None end.

(** The files at or below an entry, in the order of the walk. *)
Fixpoint files_below (fuel : nat) (s : fs) (full : path) (isDir : bool) : list path :=
  match fuel with
  | O => []
  | S fuel' =>
      if isDir then flat_map (fun e => files_below fuel' s (full ++ [e.1]) e.2) (entries s full) else [full]
  end.

Lemma run_read {A} (f : fs -> result A) s tm :
  prim (fun s => (f s, s)) unchanged (World s [] tm) = (Some (f s), World s [] tm).
Proof. apply (reads_run _ _ _ s tm (reads_prim f)). Qed.

Definition add_outcome (o : option (LoadedEmail + goerr)) (acc : load_acc) : load_acc :=
  match o with Some (inl m) => add_email m acc | Some (inr e) => add_err e acc | None => acc end.

Lemma load_entry_run s tm dates emailsDir full isDir acc :
  load_entry ReadMessage dates emailsDir full isDir acc (World s [] tm) =
    (Some (if isDir then acc else add_outcome (file_outcome s dates emailsDir full) acc), World s [] tm).
Proof.
  unfold load_entry, file_outcome. destruct isDir; [done|]. destruct (negb _); [done|].
  destruct (email_of_path _ _ _) as [[[uid uv] d]|e]; [|done].
  rewrite run_bind. unfold sys_read_file. rewrite run_read.
  destruct (fs_read_file full s) as [c|e]; [|done]. by destruct (ReadMessage c).
Qed.

Lemma walk_dir_run fuel s tm dates emailsDir full isDir acc :
  (isDir = true -> dir_err s full = None) ->
  walk_dir ReadMessage fuel dates emailsDir full isDir acc (World s [] tm) =
    (Some (foldl (fun acc p => add_outcome (file_outcome s dates emailsDir p) acc) acc (files_below fuel s full isDir), None),
     World s [] tm).
Proof.
  revert full isDir acc. induction fuel as [|fuel IH]; intros full isDir acc Hd; [done|].
  cbn [walk_dir files_below]. rewrite run_bind, load_entry_run. destruct isDir; [|done]. cbn [negb].
  rewrite run_bind. unfold sys_read_dir. rewrite run_read, Hd by done. cbn beta iota.
  assert (Hsub : forall c d, In (c, d) (entries s full) -> d = true -> dir_err s (full ++ [c]) = None).
  { intros c d (n & Hn & ->)%elem_of_entries Hdir. apply dir_err_app. split; [by apply Hd|].
    destruct n as [k|]; [by exists k|done]. }
  revert acc Hsub. generalize (entries s full). intros dirs.
  induction dirs as [|[c d] dirs IHd]; intros acc Hsub; [done|]. cbn [flat_map]. rewrite foldl_app, run_bind.
  rewrite IH by (apply (Hsub c d); by left). cbn beta iota. apply IHd. intros. eapply Hsub; [by right|done].
Qed.
(** Every file below the directory is visited if the walk may go deep enough. *)
Lemma elem_of_files_below fuel s full p : dir_err s full = None ->
  In p (files_below fuel s full true) <->
  exists t k c, p = full ++ t /\ t <> [] /\ (length t < fuel)%nat /\ fs_stat s p = Ok (File k c).
Proof.
  revert full. induction fuel as [|fuel IH]; intros full Hd; cbn [files_below].
  { split; [done|]. intros (t & k & c & _ & _ & H & _). lia. }
  rewrite in_flat_map. split.
  - intros ([x d] & (n & Hn & ->)%elem_of_entries & Hp). simpl in Hp. destruct n as [k|k c].
    + apply IH in Hp as (t & k' & c & -> & _ & Hl & Hs); [|apply dir_err_app; by split; [|exists k]].
      exists (x :: t), k', c. rewrite <- app_assoc in *. split_and!; [done|done|simpl; lia|done].
    + destruct fuel as [|fuel]; [done|]. destruct Hp as [<-|[]]. exists [x], k, c.
      split_and!; [done|done|simpl; lia|]. by rewrite fs_stat_ok, Hn.
  - intros (t & k & c & -> & Ht & Hl & [Hdir Hs]%fs_stat_Ok). destruct t as [|x t]; [done|]. simpl in Hl.
    destruct t as [|y t].
    + exists (x, false). split; [apply elem_of_entries; by exists (File k c)|]. simpl.
      destruct fuel as [|fuel]; [lia|]. by left.
    + assert (Hx : exists k', s !! (full ++ [x]) = Some (Dir k')).
      { rewrite dir_err_None in Hdir. apply (Hdir _ (removelast (y :: t))); [|by destruct full].
        unfold parent. rewrite removelast_app by done. by rewrite <- app_assoc. }
      destruct Hx as [k' Hx]. exists (x, true). split; [apply elem_of_entries; by exists (Dir k')|]. simpl.
      apply IH; [apply dir_err_app; by split; [|exists k']|]. exists (y :: t), k, c.
      rewrite <- app_assoc. split_and!; [done|done|simpl in *; lia|]. by apply fs_stat_Ok.
Qed.

(** And once. *)
Lemma files_below_prefix fuel s full d p : In p (files_below fuel s full d) -> exists t, p = full ++ t.
Proof.
  revert full d. induction fuel as [|fuel IH]; intros full d; cbn [files_below]; [done|].
  destruct d; [|intros [<-|[]]; exists []; by rewrite app_nil_r].
  intros ([x d] & _ & (t & ->)%IH)%in_flat_map. exists (x :: t). by rewrite <- app_assoc.
Qed.

Lemma NoDup_files_below fuel s full d : NoDup (files_below fuel s full d).
Proof.
  revert full d. induction fuel as [|fuel IH]; intros full d; cbn [files_below]; [constructor|].
  destruct d; [|apply NoDup_singleton].
  unfold entries. generalize (NoDup_children s full). generalize (children s full) as l.
  induction l as [|x l IHl]; simpl; [constructor|]. intros [Hx Hl]%list.NoDup_cons.
  apply list.NoDup_app. split_and!; [apply IH| |by apply IHl].
  intros p Hp1 Hp2. apply list_elem_of_In in Hp1, Hp2. apply files_below_prefix in Hp1 as [t ->].
  apply in_flat_map in Hp2 as ([y d] & Hy & [u Hu]%files_below_prefix).
  apply in_map_iff in Hy as (y' & [= <- _] & Hy). simpl in Hu. rewrite <- !app_assoc in Hu.
  apply app_inv_head in Hu. injection Hu as <- _. by apply Hx, list_elem_of_In.
Qed.

(** The walk may go deep enough. *)
Lemma height_bound s p n : s !! p = Some n -> (length p + 2 <= height s)%nat.
Proof.
  intros H. unfold height. assert (Hm : (length p <= map_fold (fun p _ n => Nat.max (length p) n) 0 s)%nat); [|lia].
  revert H. apply (map_fold_weak_ind (fun r (m : fs) => m !! p = Some n -> (length p <= r)%nat)).
  - intros H. by rewrite lookup_empty in H.
  - intros q x m r _ IH H. destruct (decide (q = p)) as [->|Hne]; [lia|].
    rewrite lookup_insert_ne in H by done. specialize (IH H). lia.
Qed.

Lemma files_of_tree s full p : dir_err s full = None ->
  In p (files_below (height s) s full true) <->
  exists t k c, p = full ++ t /\ t <> [] /\ fs_stat s p = Ok (File k c).
Proof.
  intros Hd. rewrite elem_of_files_below by done. split.
  - intros (t & k & c & -> & ? & _ & ?). by exists t, k, c.
  - intros (t & k & c & -> & ? & Hs). exists t, k, c. split_and!; [done..| |done].
    apply fs_stat_Ok in Hs as [_ Hs]. apply height_bound in Hs. rewrite length_app in Hs. lia.
Qed.

(** The loop over the files collects the loaded emails and the errors. *)
Lemma foldl_outcomes (f : path -> option (LoadedEmail + goerr)) l (acc : load_acc) :
  foldl (fun acc p => add_outcome (f p) acc) acc l =
    (acc.1 ++ omap (fun p => loaded_of (f p)) l, acc.2 ++ omap (fun p => error_of (f p)) l).
Proof.
  revert acc. induction l as [|p l IH]; intros acc; simpl; [by rewrite !app_nil_r; destruct acc|].
  rewrite IH. destruct (f p) as [[m|e]|]; simpl; by rewrite <- ?app_assoc.
Qed.
End walk.

(** ** [LoadEmails] *)

(** The dates [LoadEmails] takes from the index: none when the data file cannot be read. *)
Definition indexed_dates (root : path) (s : fs) : gmap emailKey Time :=
  match data_at root s with
  | Ok df => foldl (fun m e => <[key_of e := InternalDate e]> m) ∅ (df_Emails df)
  | Err _ => ∅
  end.

(** A successful [SaveEmail] of an email that was not there. *)
Lemma SaveEmail_stored root idn md uid uv d raw s fl tm w :
  s !! buildEmailPath root uid uv d = None ->
  SaveEmail (newStore root idn md) uid uv d raw (World s fl tm) = (Some (Ok tt), w) ->
  email_stored root uid uv d raw s (w_fs w).
Proof.
  intros Hnew H. destruct (decide (md = OpenReadOnly)) as [->|Hmd]; [done|].
  destruct (IsZero d) eqn:Ez.
  { unfold SaveEmail in H. simpl in H. by rewrite bool_decide_false, Ez in H by done. }
  assert (Hw : wp true tm (SaveEmail (newStore root idn md) uid uv d raw)
    (fun r s' => r = Ok tt -> email_stored root uid uv d raw s s') (fun _ => True) s).
  { apply wp_SaveEmail; [done|done| |done|done|done].
    intros (n & [_ Hn]%fs_stat_Ok & _). congruence. }
  pose proof (wp_run _ _ _ _ _ _ fl Hw ltac:(done)) as Hr. rewrite H in Hr. by apply Hr.
Qed.

Section load.
Context (root : path) (idn : IMAPIdentity) (md : OpenMode).
Context {Message : Type} (ReadMessage : content -> result Message).
Abbreviation st := (newStore root idn md).
Abbreviation emails := (emailsPath root).

Lemma emails_run s tm : dir_err s emails = None ->
  let files := files_below (height s) s emails true in
  let outcome := file_outcome ReadMessage s (indexed_dates root s) emails in
  LoadEmails ReadMessage st (World s [] tm) =
    (Some (Ok (omap (fun p => loaded_of (outcome p)) files,
               join_errs (map Some (omap (fun p => error_of (outcome p)) files) ++ [None]))),
     World s [] tm).
Proof.
  intros Hd files outcome.
  assert (Hstat : exists k, fs_stat s emails = Ok (Dir k)).
  { unfold emailsPath in *. apply dir_err_app in Hd as [Hr [k Hk]]. exists k. by rewrite fs_stat_ok, Hk. }
  destruct Hstat as [k Hk].
  assert (Hv : validateEmailsDir emails (World s [] tm) = (Some (Ok true), World s [] tm)).
  { unfold validateEmailsDir, sys_stat. by rewrite run_bind, run_read, Hk. }
  assert (Hi : loadIndexedEmailDates st (World s [] tm) = (Some (indexed_dates root s), World s [] tm)).
  { unfold loadIndexedEmailDates, indexed_dates.
    rewrite run_bind, (reads_run _ _ _ s tm (reads_loadDataFile root idn md)). by destruct (data_at root s). }
  unfold LoadEmails. simpl emailsDirPath. rewrite run_bind, Hv. cbn beta iota. cbn [negb].
  rewrite run_bind, Hi, run_bind.
  change (depth_fuel (World s [] tm)) with (Some (height s), World s [] tm). cbn beta iota.
  rewrite run_bind. unfold sys_stat. rewrite run_read, Hk. cbn beta iota.
  pose proof (walk_dir_run ReadMessage (height s) s tm (indexed_dates root s) emails emails true ([], [])
    ltac:(done)) as Hw. rewrite foldl_outcomes in Hw.
  rewrite run_bind. change (is_dir (Dir k)) with true. unfold load_acc in *. by rewrite Hw.
Qed.

Lemma no_emails_run s tm : fs_stat s emails = Err (Errno ENOENT) ->
  LoadEmails ReadMessage st (World s [] tm) = (Some (Ok ([], None)), World s [] tm).
Proof.
  intros H. unfold LoadEmails, validateEmailsDir, sys_stat. simpl emailsDirPath.
  by rewrite !run_bind, run_read, H.
Qed.

(** An email as it is on disk: a file at its path, whose name and content read as the email. *)
Definition email_at (s : fs) (m : @LoadedEmail Message) : Prop :=
  exists k c, fs_stat s (emails ++ le_Path m) = Ok (File k c) /\
    Ext (base (emails ++ le_Path m)) = ".eml" /\
    email_of_path (indexed_dates root s) (emails ++ le_Path m) (le_Path m) =
      Ok (le_UID m, le_UIDValidity m, le_InternalDate m) /\
    ReadMessage c = Ok (le_Message m).

Lemma outcome_email s t k c : fs_stat s (emails ++ t) = Ok (File k c) -> forall m,
  file_outcome ReadMessage s (indexed_dates root s) emails (emails ++ t) = Some (inl m) <->
  le_Path m = t /\ email_at s m.
Proof.
  intros Hs m. unfold file_outcome, email_at. rewrite strip_app. simpl default.
  unfold fs_read_file. rewrite Hs.
  destruct (String.eqb_spec (Ext (base (emails ++ t))) ".eml") as [He|He]; simpl;
    [|by split; [done|intros (-> & ? & ? & _ & ? & _)]].
  split.
  - destruct (email_of_path _ _ _) as [[[uid uv] d]|e] eqn:Ep; [|done].
    destruct (ReadMessage c) as [msg|e] eqn:Em; [|done]. intros [= <-]. simpl. split; [done|]. by exists k, c.
  - intros (<- & k' & c' & H1 & _ & -> & H2). rewrite Hs in H1. injection H1 as <- <-. rewrite H2. by destruct m.
Qed.

(** A failure to load is an error, and other files are passed over. *)
Lemma outcome_none s t k c : fs_stat s (emails ++ t) = Ok (File k c) ->
  file_outcome ReadMessage s (indexed_dates root s) emails (emails ++ t) = None <->
  Ext (base (emails ++ t)) <> ".eml".
Proof.
  intros Hs. unfold file_outcome. rewrite strip_app. simpl default. unfold fs_read_file. rewrite Hs.
  destruct (String.eqb_spec (Ext (base (emails ++ t))) ".eml") as [He|He]; simpl; [|done].
  split; [|done]. destruct (email_of_path _ _ _) as [[[uid uv] d]|e]; [|done]. by destruct (ReadMessage c).
Qed.

(** The files the walk visits, and what it makes of them. *)
Section visited.
Context (s : fs) (Hd : dir_err s emails = None).
Local Abbreviation files := (files_below (height s) s emails true).
Local Abbreviation outcome := (file_outcome ReadMessage s (indexed_dates root s) emails).

Lemma visited p : In p files <-> exists t k c, p = emails ++ t /\ fs_stat s p = Ok (File k c).
Proof using Hd ReadMessage.
  rewrite (files_of_tree s emails p) by done. split; intros (t & k & c & -> & Hx); [naive_solver|].
  exists t, k, c. split_and!; [done| |done]. intros ->. rewrite app_nil_r in Hx.
  unfold emailsPath in *. apply dir_err_app in Hd as [Hr [k' Hk']]. by rewrite fs_stat_ok, Hk' in Hx by done.
Qed.

Lemma loaded_path p m : In p files -> loaded_of (outcome p) = Some m -> p = emails ++ le_Path m /\ email_at s m.
Proof using Hd ReadMessage.
  intros (t & k & c & -> & Hs)%visited Hm. unfold loaded_of in Hm.
  destruct (outcome (emails ++ t)) as [[m'|e]|] eqn:E; try done. injection Hm as ->.
  by apply (outcome_email s t k c Hs) in E as [<- H].
Qed.

Lemma in_loaded m : In m (omap (fun p => loaded_of (outcome p)) files) <-> email_at s m.
Proof using Hd ReadMessage.
  rewrite <- list_elem_of_In, list_elem_of_omap. split.
  - intros (p & Hp%list_elem_of_In & Hm). by apply (loaded_path p m Hp) in Hm as [_ Hm].
  - intros Hm. pose proof Hm as (k & c & Hs & _). exists (emails ++ le_Path m).
    split; [apply list_elem_of_In, visited; by exists (le_Path m), k, c|].
    by rewrite (proj2 (outcome_email s _ k c Hs m)).
Qed.

Lemma NoDup_loaded : NoDup (map le_Path (omap (fun p => loaded_of (outcome p)) files)).
Proof using Hd ReadMessage.
  assert (H : forall l, NoDup l -> incl l files -> NoDup (map le_Path (omap (fun p => loaded_of (outcome p)) l)));
    [|by apply H; [apply NoDup_files_below|apply incl_refl]].
  induction l as [|p l IH]; [by intros; constructor|].
  intros [Hp Hl]%list.NoDup_cons [Hin Hall]%incl_cons_inv. simpl.
  destruct (loaded_of (outcome p)) as [m|] eqn:Em; [|by apply IH].
  constructor; [|by apply IH]. intros (m' & Heq & Hm')%list_elem_of_In%in_map_iff.
  apply list_elem_of_In, list_elem_of_omap in Hm' as (p' & Hp' & Hm').
  apply loaded_path in Em as [Em _]; [|done].
  apply loaded_path in Hm' as [Hm' _]; [|by apply Hall, list_elem_of_In].
  rewrite Heq, <- Em in Hm'. by subst p'.
Qed.

Lemma no_errors : omap (fun p => error_of (outcome p)) files = [] <->
  forall t k c, fs_stat s (emails ++ t) = Ok (File k c) -> Ext (base (emails ++ t)) = ".eml" ->
    exists m, email_at s m /\ le_Path m = t.
Proof using Hd ReadMessage.
  split.
  - intros He t k c Hs Hx. destruct (outcome (emails ++ t)) as [[m|e]|] eqn:E.
    + pose proof (proj1 (outcome_email s t k c Hs m) E) as [<- Hm]. by exists m.
    + exfalso. enough (He' : e ∈ omap (fun p => error_of (outcome p)) files) by (rewrite He in He'; by apply elem_of_nil in He').
      apply list_elem_of_omap. exists (emails ++ t). rewrite E. split; [|done].
      apply list_elem_of_In, visited. by exists t, k, c.
    + by apply (outcome_none s t k c Hs) in E.
  - intros Hall. destruct (omap _ files) as [|e l] eqn:El; [done|]. exfalso.
    assert (He : e ∈ omap (fun p => error_of (outcome p)) files) by (rewrite El; by left).
    apply list_elem_of_omap in He as (p & (t & k & c & -> & Hs)%list_elem_of_In%visited & He).
    destruct (outcome (emails ++ t)) as [[m|e']|] eqn:E; try done.
    destruct (decide (Ext (base (emails ++ t)) = ".eml")) as [Hx|Hx]; [|by apply (outcome_none s t k c Hs) in Hx; congruence].
    destruct (Hall t k c Hs Hx) as (m & Hm & Ht).
    assert (Ho : outcome (emails ++ t) = Some (inl m)) by (by apply (outcome_email s t k c Hs)). congruence.
Qed.
End visited.

Lemma join_errs_nil l : join_errs (map Some l ++ [None]) = None <-> l = [].
Proof.
  rewrite join_errs_none. split; [|by intros ->; repeat constructor].
  destruct l as [|e l]; [done|]. intros H. by apply Forall_cons_1 in H as [? _].
Qed.

(** The emails directory is there, or there is none yet. *)
Definition can_load (s : fs) : Prop := dir_err s emails = None \/ fs_stat s emails = Err (Errno ENOENT).

Lemma no_emails_below s t n : fs_stat s emails = Err (Errno ENOENT) -> fs_stat s (emails ++ t) <> Ok n.
Proof.
  intros He H. destruct (stat_prefix s emails t n H) as [n' Hn']; [by destruct root|]. congruence.
Qed.

(** What [LoadEmails] returns, however many files there are. *)
Lemma load_spec s tm : can_load s ->
  exists loaded err,
    LoadEmails ReadMessage st (World s [] tm) = (Some (Ok (loaded, err)), World s [] tm) /\
    (forall m, In m loaded <-> email_at s m) /\
    NoDup (map le_Path loaded) /\
    (err = None <-> forall t k c, fs_stat s (emails ++ t) = Ok (File k c) ->
       Ext (base (emails ++ t)) = ".eml" -> exists m, email_at s m /\ le_Path m = t).
Proof.
  intros [Hd|Hn].
  - eexists _, _. split; [by apply emails_run|].
    split_and!; [intros m; by apply in_loaded|by apply NoDup_loaded|].
    rewrite join_errs_nil. by apply no_errors.
  - exists [], None. split; [by apply no_emails_run|]. split_and!; [|by constructor|].
    + intros m. split; [done|]. intros (k & c & H & _). by apply no_emails_below in H.
    + split; [|done]. intros _ t k c H. by apply no_emails_below in H.
Qed.

(** ** After [SaveEmail] *)

(** Every entry of a file system is in a directory. *)
Definition tree (s : fs) : Prop := map_Forall (fun p _ => dir_err s (parent p) = None) s.

Lemma tree_stat s p n : tree s -> s !! p = Some n -> fs_stat s p = Ok n.
Proof. intros Ht H. apply fs_stat_Ok. split; [by apply (Ht p n)|done]. Qed.

Section saved.
Context (uid uv : Z) (d : Time) (raw : string).
Context (s s' : fs) (Htree : tree s) (Hroot : dir_err s root = None).
Context (Hnew : s !! buildEmailPath root uid uv d = None) (Hst : email_stored root uid uv d raw s s').
Local Abbreviation target := (buildEmailPath root uid uv d).

(** The file is there, and the others are as they were. *)
Lemma stored_stat p k c : (forall n, s !! p = Some n -> fs_stat s p = Ok n) ->
  fs_stat s' p = Ok (File k c) <-> fs_stat s p = Ok (File k c) \/ p = target /\ k = filePerm /\ c = Raw raw.
Proof using Hnew Hst.
  intros Hp. destruct Hst as (s1 & [Hs1 Hn1] & Hd1 & ->). rewrite email_target in *. unfold written. split.
  - intros [_ H]%fs_stat_Ok. destruct (decide (p = email_dir root uv d ++ [email_file uid])) as [->|Hne].
    + rewrite lookup_insert_eq in H. injection H as <- <-. by right.
    + rewrite lookup_insert_ne in H by done. left. apply Hp.
      by destruct (Hn1 _ _ H) as [?|[? _]].
  - intros [H|(-> & -> & ->)].
    + apply stat_insert.
      * apply fs_stat_Ok in H as [H1 H2]. apply fs_stat_Ok.
        split; [by eapply dir_err_mono|by eapply lookup_weaken].
      * intros u ->. destruct (stat_prefix _ _ _ _ H) as [n Hn]; [by destruct (email_dir root uv d)|].
        apply fs_stat_Ok in Hn as [_ Hn]. congruence.
    + apply fs_stat_Ok. rewrite parent_app, dir_err_insert_below, lookup_insert_eq. done.
Qed.

Lemma stored_only : Fs.only root (eq "emails") s s'.
Proof using Hroot Hst.
  destruct Hst as (s1 & H1 & _ & ->). etransitivity; [by apply (dirs_added_only root uv d)|].
  apply (email_below_only root uv d (eq (email_file uid))), only_insert.
Qed.

Lemma stored_dates : indexed_dates root s' = indexed_dates root s.
Proof using Hroot Hst.
  unfold indexed_dates. rewrite (data_at_only root (eq "emails") s s'); [done|apply stored_only|done].
Qed.

(** The email as [LoadEmails] returns it. *)
Definition saved_email (msg : Message) : @LoadedEmail Message :=
  {| le_Message := msg; le_UID := uid; le_UIDValidity := uv;
     le_InternalDate := default (first_of_month d) (indexed_dates root s !! (uid, uv));
     le_Path := email_rel_path uid uv d |}.

Lemma stored_email_at msg m :
  in_uint32 uid -> in_uint32 uv -> path_date d -> ReadMessage (Raw raw) = Ok msg ->
  email_at s' m <-> email_at s m \/ m = saved_email msg.
Proof using Htree Hroot Hnew Hst ReadMessage.
  intros Hu Hv Hp Hm. unfold email_at. rewrite stored_dates.
  assert (Ht : emails ++ email_rel_path uid uv d = target) by (unfold emailsPath; by rewrite <- app_assoc).
  split.
  - intros (k & c & Hf & Hx & He & Hc). apply stored_stat in Hf as [H|(Hq & -> & ->)]; [left; by exists k, c| |by intros ?; apply tree_stat].
    right.
    rewrite <- Ht in Hq. apply app_inv_head in Hq. rewrite Hq, email_of_built_path in He by done.
    destruct m; simpl in *; subst. unfold saved_email. rewrite Hm in Hc. congruence.
  - intros [(k & c & H & Hx & He & Hc)| ->].
    + exists k, c. split_and!; [|done..]. apply stored_stat; [by intros ?; apply tree_stat|by left].
    + exists filePerm, (Raw raw). simpl. rewrite Ht. split_and!; [apply stored_stat; [by intros ?; apply tree_stat|by right]| | |done].
      * unfold base. rewrite email_target. rewrite last_last. apply Ext_eml.
      * by apply email_of_built_path.
Qed.

(** Whether there are emails that do not load. *)
Lemma stored_all_load msg :
  in_uint32 uid -> in_uint32 uv -> path_date d -> ReadMessage (Raw raw) = Ok msg ->
  (forall t k c, fs_stat s' (emails ++ t) = Ok (File k c) -> Ext (base (emails ++ t)) = ".eml" ->
     exists m, email_at s' m /\ le_Path m = t) <->
  (forall t k c, fs_stat s (emails ++ t) = Ok (File k c) -> Ext (base (emails ++ t)) = ".eml" ->
     exists m, email_at s m /\ le_Path m = t).
Proof using Htree Hroot Hnew Hst ReadMessage.
  intros Hu Hv Hp Hm.
  assert (Ht : emails ++ email_rel_path uid uv d = target) by (unfold emailsPath; by rewrite <- app_assoc).
  pose proof (fun m => stored_email_at msg m Hu Hv Hp Hm) as He. split; intros H t k c Hs Hx.
  - destruct (H t k c) as (m & [Hm'| ->]%He & <-); [apply stored_stat; [by intros ?; apply tree_stat|by left]|done|by exists m|].
    exfalso. simpl in Hs. rewrite Ht in Hs. apply fs_stat_Ok in Hs as [_ Hs]. congruence.
  - apply stored_stat in Hs as [Hs|(Hq & -> & ->)]; [| |by intros ?; apply tree_stat].
    + destruct (H t k c Hs Hx) as (m & Hm' & <-). exists m. split; [|done]. apply He. auto.
    + rewrite <- Ht in Hq. apply app_inv_head in Hq as ->. exists (saved_email msg).
      split; [|done]. apply He. auto.
Qed.

Lemma stored_can_load : can_load s /\ can_load s'.
Proof using Hroot Hst.
  destruct Hst as (s1 & [Hs1 _] & Hd1 & ->).
  assert (Hup : forall s0, dir_err s0 (email_dir root uv d) = None -> dir_err s0 emails = None).
  { intros s0. rewrite !dir_err_None. intros H q u Hq. apply (H q (u ++ [fmt_u uv; format_yyyymm d])).
    unfold email_dir, emailsPath in *. rewrite app_assoc, <- Hq. by rewrite <- app_assoc. }
  split; [|left; apply Hup; unfold written; by rewrite dir_err_insert_below].
  unfold can_load, emailsPath in *. apply Hup, dir_err_app in Hd1 as [_ [k Hk]].
  rewrite fs_stat_ok, dir_err_app by done.
  destruct (s !! (root ++ ["emails"])) as [n|] eqn:E; [left|by right]. split; [done|]. exists k.
  pose proof (lookup_weaken _ _ _ _ E Hs1). congruence.
Qed.
End saved.
End load.

(** ** Properties *)

(** C11: [LoadEmails] returns every stored email once and nothing else. Without faults, whatever is in
    the emails directory, the result holds exactly the files with the extension [.eml] whose path
    is that of an email and whose content reads as a message, each with the uid and uidvalidity of
    its path and the date of the index, or else of its month; no two have the same path; and the
    joined error is nil exactly when every [.eml] file is in the result. Nothing is changed. *)
Theorem LoadEmails_complete (root : path) idn md {Message} (ReadMessage : content -> result Message) tm s :
  can_load root s ->
  exists loaded err,
    LoadEmails ReadMessage (newStore root idn md) (World s [] tm) = (Some (Ok (loaded, err)), World s [] tm) /\
    (forall m, In m loaded <-> email_at root ReadMessage s m) /\
    NoDup (map le_Path loaded) /\
    (err = None <-> forall t k c, fs_stat s (emailsPath root ++ t) = Ok (File k c) ->
       Ext (base (emailsPath root ++ t)) = ".eml" -> exists m, In m loaded /\ le_Path m = t).
Proof.
  intros H. destruct (load_spec root idn md ReadMessage s tm H) as (loaded & err & Hrun & Hin & Hn & He).
  exists loaded, err. split_and!; [done..|]. rewrite He. by setoid_rewrite Hin.
Qed.

(** A store with an email, a file that is no email, and one that does not load. *)
Module LoadExample.
Definition root : path := DataExample.root.
Definition read_text (c : content) : result string :=
  match c with Raw "" => Err (Text "EOF") | Raw t => Ok t | _ => Err (Text "no message") end.
Definition month : path := root ++ ["emails"; "1"; "000101"].
Definition s0 : fs :=
  list_to_map [(root, Dir 448); (root ++ ["tlsrpt.json"], File 384 (JData DataExample.df));
    (root ++ ["emails"], Dir 448); (root ++ ["emails"; "1"], Dir 448); (month, Dir 448);
    (month ++ ["0000000001.eml"], File 384 (Raw "hello")); (month ++ ["notes.txt"], File 384 (Raw "x"));
    (month ++ ["0000000002.eml"], File 384 (Raw ""))].
End LoadExample.

Lemma LoadEmails_complete_witness :
  exists loaded err,
    LoadEmails LoadExample.read_text (newStore LoadExample.root DataExample.idn OpenReadOnly) (World LoadExample.s0 [] 0) =
      (Some (Ok (loaded, err)), World LoadExample.s0 [] 0) /\
    (forall m, In m loaded <-> email_at LoadExample.root LoadExample.read_text LoadExample.s0 m) /\
    NoDup (map le_Path loaded) /\
    (err = None <-> forall t k c, fs_stat LoadExample.s0 (emailsPath LoadExample.root ++ t) = Ok (File k c) ->
       Ext (base (emailsPath LoadExample.root ++ t)) = ".eml" -> exists m, In m loaded /\ le_Path m = t).
Proof. apply LoadEmails_complete. left. vm_compute. reflexivity. Defined.

(** C12: what [SaveEmail] stores is what [LoadEmails] returns: when a new email has been saved, with
    whatever faults on the way, [LoadEmails] returns what it returned before and one email more, with
    the uid, the uidvalidity and the message that were saved and a date of the index or one that
    leads to the same path; whether there are files that do not load has not changed. *)
Theorem SaveEmail_LoadEmails (root : path) idn md {Message} (ReadMessage : content -> result Message)
    uid uv d raw msg tm s fl w :
  tree s -> dir_err s root = None -> in_uint32 uid -> in_uint32 uv -> path_date d ->
  ReadMessage (Raw raw) = Ok msg -> s !! buildEmailPath root uid uv d = None ->
  SaveEmail (newStore root idn md) uid uv d raw (World s fl tm) = (Some (Ok tt), w) ->
  let load s' := LoadEmails ReadMessage (newStore root idn md) (World s' [] tm) in
  exists before err after err' d',
    load s = (Some (Ok (before, err)), World s [] tm) /\
    load (w_fs w) = (Some (Ok (after, err')), World (w_fs w) [] tm) /\
    (forall m, In m after <-> In m before \/
       m = {| le_Message := msg; le_UID := uid; le_UIDValidity := uv; le_InternalDate := d';
              le_Path := email_rel_path uid uv d |}) /\
    (err = None <-> err' = None) /\
    (indexed_dates root s !! (uid, uv) = Some d' \/ buildEmailPath root uid uv d' = buildEmailPath root uid uv d).
Proof.
  intros Ht Hr Hu Hv Hp Hm Hnew Hsave load.
  assert (Hst : email_stored root uid uv d raw s (w_fs w)) by by eapply SaveEmail_stored.
  destruct (stored_can_load root uid uv d raw s _ Hr Hst) as [Hc Hc'].
  destruct (load_spec root idn md ReadMessage s tm Hc) as (l & e & Hrun & Hin & _ & He).
  destruct (load_spec root idn md ReadMessage (w_fs w) tm Hc') as (l' & e' & Hrun' & Hin' & _ & He').
  exists l, e, l', e', (default (first_of_month d) (indexed_dates root s !! (uid, uv))).
  split_and!; [done|done| | |].
  - intros m. rewrite Hin, Hin'. by apply (stored_email_at root ReadMessage uid uv d raw s).
  - rewrite He, He'. symmetry. by apply (stored_all_load root ReadMessage uid uv d raw s _ Ht Hr Hnew Hst msg).
  - destruct (indexed_dates root s !! (uid, uv)) as [d'|]; [by left|right]. simpl.
    unfold buildEmailPath, email_rel_path. by rewrite format_first_of_month.
Qed.

Lemma SaveEmail_LoadEmails_witness :
  let st := newStore LoadExample.root DataExample.idn OpenReadWrite in
  let w := (SaveEmail st 3 1 60 "new" (World LoadExample.s0 [] 0)).2 in
  let load s' := LoadEmails LoadExample.read_text st (World s' [] 0) in
  exists before err after err' d',
    load LoadExample.s0 = (Some (Ok (before, err)), World LoadExample.s0 [] 0) /\
    load (w_fs w) = (Some (Ok (after, err')), World (w_fs w) [] 0) /\
    (forall m, In m after <-> In m before \/
       m = {| le_Message := "new"; le_UID := 3; le_UIDValidity := 1; le_InternalDate := d';
              le_Path := email_rel_path 3 1 60 |}) /\
    (err = None <-> err' = None) /\
    (indexed_dates LoadExample.root LoadExample.s0 !! (3, 1) = Some d' \/
     buildEmailPath LoadExample.root 3 1 d' = buildEmailPath LoadExample.root 3 1 60).
Proof.
  apply (SaveEmail_LoadEmails LoadExample.root DataExample.idn OpenReadWrite LoadExample.read_text 3 1 60 "new" "new" 0
    LoadExample.s0 []).
  - unfold tree. apply (bool_decide_unpack _). vm_compute. exact I.
  - vm_compute. reflexivity.
  - unfold in_uint32. lia.
  - unfold in_uint32. lia.
  - vm_compute. split; discriminate.
  - reflexivity.
  - vm_compute. reflexivity.
  - vm_compute. reflexivity.
Defined.
