(* ===== verification/NotifyTypes.v ===== *)
(** * Notification payloads (internal/notify/types.go, message.go) and log records

    The payloads of the four kinds of notification, the Slack message structure, and the part of
    [log/slog] through which payloads travel: a record is a level, a message and attributes,
    whose values keep their kind. Field names carry the initials of their type. *)
From S2P Require Import Prelude GoStr GoTime GoErr.

(** ** Payloads *)

Definition PolicyTypeUnknown : string := "".

Record DateRange := MkDateRange {
  dr_Start : Time;
  dr_End : Time
}.

Record FailureDetail := MkFailureDetail {
  fd_ResultType : string;
  fd_FailedSessionCount : Z;
  fd_ReceivingMXHostname : string;
  fd_FailureReasonCode : string
}.

Record Alert := MkAlert {
  al_OrganizationName : string;
  al_PolicyType : string;
  al_FailureCount : Z;
  al_DateRange : DateRange;
  al_ReportID : string;
  al_FailureDetails : list FailureDetail;
  al_FailureDetailsTotalCount : Z;
  al_FailureDetailsTotalSessions : Z
}.

(** [WarningKind] and [SystemErrorKind] are string types. *)
Definition WarningKindSizeMismatch : string := "size_mismatch".
Definition WarningKindParseFailure : string := "parse_failure".
Definition WarningKindMailboxReadOnly : string := "mailbox_read_only".

Record Warning := MkWarning {
  w_Kind : string;
  w_UID : Z;
  w_UIDValidity : Z;
  w_MessageID : string
}.

Definition SystemErrorKindLockHeld : string := "lock_held".
Definition SystemErrorKindStoreIdentityMismatch : string := "store_identity_mismatch".
Definition SystemErrorKindStorePermission : string := "store_permission".
Definition SystemErrorKindStoreCorruption : string := "store_corruption".
Definition SystemErrorKindIMAPCredentialsMissing : string := "imap_credentials_missing".
Definition SystemErrorKindIMAPConnectFailed : string := "imap_connect_failed".
Definition SystemErrorKindIMAPAuthFailed : string := "imap_auth_failed".
Definition SystemErrorKindIMAPOperationFailed : string := "imap_operation_failed".
Definition SystemErrorKindUIDValidityChanged : string := "uidvalidity_changed".
Definition SystemErrorKindRecoveryRequired : string := "recovery_required".
Definition SystemErrorKindResetIncomplete : string := "reset_incomplete".

Record SystemError := MkSystemError {
  se_Kind : string;
  se_Component : string;
  se_Mailbox : string
}.

Record Summary := MkSummary {
  su_Period : DateRange;
  su_OrganizationStats : gmap string Z;
  su_ReportCount : Z
}.

#[export] Instance DateRange_eq_dec : EqDecision DateRange.
Proof. solve_decision. Defined.
#[export] Instance FailureDetail_eq_dec : EqDecision FailureDetail.
Proof. solve_decision. Defined.
#[export] Instance Alert_eq_dec : EqDecision Alert.
Proof. solve_decision. Defined.
#[export] Instance Warning_eq_dec : EqDecision Warning.
Proof. solve_decision. Defined.
#[export] Instance SystemError_eq_dec : EqDecision SystemError.
Proof. solve_decision. Defined.
#[export] Instance Summary_eq_dec : EqDecision Summary.
Proof. solve_decision. Defined.

(** ** Slack messages *)

Record slackField := {
  Title : string;
  Value : string;
  Short : bool
}.

Record slackAttachment := {
  Color : string;
  Fields : list slackField
}.

Record slackMessage := {
  sm_Text : string;
  Attachments : list slackAttachment
}.

(** ** Log records *)

Definition LevelDebug : Z := -4.
Definition LevelInfo : Z := 0.
Definition LevelWarn : Z := 4.
Definition LevelError : Z := 8.

(** [slog.Value] of the kinds the program stores. *)
Inductive value : Type :=
  | KindString (s : string)
  | KindInt64 (n : Z)
  | KindUint64 (n : Z)
  | KindTime (t : Time)
  | KindGroup (attrs : list (string * value)).

Abbreviation attr := (string * value)%type.

Definition isEmptyGroup (a : attr) : bool :=
  match a.2 with KindGroup [] => true | _ => false end.

(** [slog.Group(key, attrs...)]: empty groups among the attributes are dropped. *)
Definition Group (key : string) (attrs : list attr) : attr :=
  (key, KindGroup (List.filter (fun a => negb (isEmptyGroup a)) attrs)).

(** [slog.Record], without its time and program counter, which nothing reads. *)
Record record := {
  Level : Z;
  Message : string;
  Attrs : list attr
}.

(** [slog.NewRecord] and [r.AddAttrs], which leaves empty groups out. *)
Definition NewRecord (level : Z) (message : string) : record :=
  {| Level := level; Message := message; Attrs := [] |}.

Definition AddAttrs (r : record) (attrs : list attr) : record :=
  {| Level := Level r; Message := Message r;
     Attrs := Attrs r ++ List.filter (fun a => negb (isEmptyGroup a)) attrs |}.
