(* ===== verification/Helpers.v ===== *)
(** * Logging of payloads (internal/notify/helpers.go)

    Each helper encodes its payload as the attributes of one log record and hands the record to
    the handler when the handler's level filter accepts it. [h.Enabled] is an argument; the
    result is the record to be handled, if there is one ([Handle] itself cannot fail). *)
From S2P Require Import Prelude GoStr GoTime GoErr NotifyTypes.

Definition maxFailureDetails : nat := 10.

(** The loop over [alert.FailureDetails]: entries and sessions, as [int64]. *)
Definition detail_totals (details : list FailureDetail) : Z * Z :=
  foldl (fun '(c, s) fd => (wrap64 (c + 1), wrap64 (s + fd_FailedSessionCount fd))) (0, 0) details.

Definition detail_attr (i : nat) (fd : FailureDetail) : attr :=
  Group (fmt_d (Z.of_nat i))
    [("result_type", KindString (fd_ResultType fd));
     ("failed_session_count", KindInt64 (fd_FailedSessionCount fd));
     ("receiving_mx_hostname", KindString (fd_ReceivingMXHostname fd));
     ("failure_reason_code", KindString (fd_FailureReasonCode fd))].

(** [cmp.Compare] of two [int64]s, and the comparison that is given to [slices.SortFunc]. *)
Definition cmp_Compare (x y : Z) : Z := if x <? y then -1 else if x >? y then 1 else 0.

Definition compare_details (a b : FailureDetail) : Z :=
  cmp_Compare (fd_FailedSessionCount b) (fd_FailedSessionCount a).

(** Keys of a Go map in the order of [slices.Sorted(maps.Keys(m))]. *)
Definition str_le (a b : string) : Prop := str_leb a b = true.

#[export] Instance str_le_dec : RelDecision str_le.
Proof. intros a b. unfold str_le. apply _. Defined.

Definition sorted_keys {V} (m : gmap string V) : list string :=
  merge_sort str_le (map_to_list m).*1.

(** [m[k]], zero when there is no entry. *)
Definition stat (m : gmap string Z) (k : string) : Z := default 0 (m !! k).

Section helpers.
(** [slices.SortFunc]: some sorting algorithm for a comparison, not necessarily a stable one. *)
Variable SortFunc : (FailureDetail -> FailureDetail -> Z) -> list FailureDetail -> list FailureDetail.
(** [h.Enabled] *)
Variable Enabled : Z -> bool.

Definition LogAlert (alert : Alert) : option record :=
  if negb (Enabled LevelWarn) then None else
  let r := AddAttrs (NewRecord LevelWarn "tls_failure_alert")
    [("organization_name", KindString (al_OrganizationName alert));
     ("policy_type", KindString (al_PolicyType alert));
     ("failure_count", KindInt64 (al_FailureCount alert));
     ("date_start", KindTime (dr_Start (al_DateRange alert)));
     ("date_end", KindTime (dr_End (al_DateRange alert)));
     ("report_id", KindString (al_ReportID alert))] in
  let '(totalCount, totalSessions) := detail_totals (al_FailureDetails alert) in
  let r := AddAttrs r
    [("failure_details_total_count", KindInt64 totalCount);
     ("failure_details_total_sessions", KindInt64 totalSessions)] in
  let details := SortFunc compare_details (al_FailureDetails alert) in
  let details :=
    if (Z.of_nat (length details) >? Z.of_nat maxFailureDetails)
    then take maxFailureDetails details else details in
  Some (AddAttrs r [Group "failure_details" (imap detail_attr details)]).

Definition LogSystemError (e : SystemError) : option record :=
  if negb (Enabled LevelError) then None else
  let r := AddAttrs (NewRecord LevelError "system_error")
    [("kind", KindString (se_Kind e)); ("component", KindString (se_Component e))] in
  Some (if negb (String.eqb (se_Mailbox e) "")
        then AddAttrs r [("mailbox", KindString (se_Mailbox e))] else r).

Definition LogWarning (w : Warning) : option record :=
  if negb (Enabled LevelWarn) then None else
  Some (AddAttrs (NewRecord LevelWarn "fetch_warning")
    [("kind", KindString (w_Kind w)); ("uid", KindUint64 (w_UID w));
     ("uidvalidity", KindUint64 (w_UIDValidity w)); ("message_id", KindString (w_MessageID w))]).

Definition LogSummary (s : Summary) : option record :=
  if negb (Enabled LevelInfo) then None else
  let stats := su_OrganizationStats s in
  Some (AddAttrs (NewRecord LevelInfo "periodic_summary")
    [("period_start", KindTime (dr_Start (su_Period s)));
     ("period_end", KindTime (dr_End (su_Period s)));
     ("report_count", KindInt64 (su_ReportCount s));
     Group "organization_stats"
       (map (fun organization => (organization, KindInt64 (stat stats organization)))
            (sorted_keys stats))]).
End helpers.

(** ** What sorting promises *)

(** [a] may come before [b] in the order of a comparison. *)
Definition in_order {A} (cmp : A -> A -> Z) (a b : A) : Prop := cmp a b <= 0.

#[export] Instance in_order_dec {A} (cmp : A -> A -> Z) : RelDecision (in_order cmp).
Proof. intros a b. unfold in_order. apply _. Defined.

(** A comparison that is a total order of the values up to ties. *)
Definition compares {A} (cmp : A -> A -> Z) : Prop :=
  Total (in_order cmp) /\ Transitive (in_order cmp).

(** The documented behaviour of [slices.SortFunc]: the same elements, in ascending order. *)
Class Sorts {A} (SortFunc : (A -> A -> Z) -> list A -> list A) : Prop := {
  sort_perm cmp l : SortFunc cmp l ≡ₚ l;
  sort_sorted cmp l : compares cmp -> StronglySorted (in_order cmp) (SortFunc cmp l)
}.

(** Merge sort is one such algorithm. *)
Definition merge_func {A} (cmp : A -> A -> Z) (l : list A) : list A := merge_sort (in_order cmp) l.

#[export] Instance merge_func_Sorts {A} : Sorts (@merge_func A).
Proof.
  split; intros cmp l; [apply merge_sort_Permutation|]. intros [Htot Htrans].
  apply StronglySorted_merge_sort; apply _.
Qed.

Lemma compare_details_le a b :
  in_order compare_details a b <-> fd_FailedSessionCount b <= fd_FailedSessionCount a.
Proof.
  unfold in_order, compare_details, cmp_Compare. rewrite Z.gtb_ltb.
  destruct (Z.ltb_spec (fd_FailedSessionCount b) (fd_FailedSessionCount a)),
    (Z.ltb_spec (fd_FailedSessionCount a) (fd_FailedSessionCount b)); lia.
Qed.

Lemma compare_details_compares : compares compare_details.
Proof. split; [intros a b|intros a b c]; rewrite !compare_details_le; lia. Qed.

#[export] Instance str_le_total : Total str_le.
Proof. intros a b. apply str_leb_total. Qed.

Lemma sorted_keys_perm {V} (m : gmap string V) : sorted_keys m ≡ₚ (map_to_list m).*1.
Proof. apply merge_sort_Permutation. Qed.

Lemma sorted_keys_NoDup {V} (m : gmap string V) : NoDup (sorted_keys m).
Proof. rewrite sorted_keys_perm. apply NoDup_fst_map_to_list. Qed.

Lemma elem_of_sorted_keys {V} (m : gmap string V) k : k ∈ sorted_keys m <-> is_Some (m !! k).
Proof.
  rewrite sorted_keys_perm, list_elem_of_fmap. split.
  - intros ([k' v] & -> & Hm%elem_of_map_to_list). by exists v.
  - intros [v Hm]. exists (k, v). split; [done|]. by apply elem_of_map_to_list.
Qed.
