(* ===== verification/Format.v ===== *)
(** * Formatting of notifications (internal/notify/format.go, message.go)

    From buffered log records to Slack messages: extraction of the payloads from attributes, the
    four message formats, and the length limits. *)
From S2P Require Import Prelude GoStr GoTime GoErr Utf8 NotifyTypes Helpers.

Definition maxTextRunes : Z := 4000.
Definition maxFieldRunes : Z := 1000.
Definition truncSuffix : string := "...".

Definition colorGood : string := "good".
Definition colorWarning : string := "warning".
Definition colorDanger : string := "danger".

Definition emojiAlert : string := "⚠️".
Definition emojiError : string := "🚨".
Definition emojiSuccess : string := "✅".

(** ** Length limits *)

Definition TruncateText (s : string) (maxLen : Z) : string :=
  if maxLen <=? 0 then ""
  else
    let suffixLen := RuneCount truncSuffix in
    if maxLen <=? suffixLen then of_runes (take (Z.to_nat maxLen) (runes truncSuffix))
    else if RuneCount s <=? maxLen then s
    else String.append (of_runes (take (Z.to_nat (maxLen - suffixLen)) (runes s))) truncSuffix.

Definition truncate_field (f : slackField) : slackField :=
  {| Title := Title f; Value := TruncateText (Value f) maxFieldRunes; Short := Short f |}.

Definition truncate_attachment (a : slackAttachment) : slackAttachment :=
  {| Color := Color a; Fields := map truncate_field (Fields a) |}.

Definition truncateMessage (m : slackMessage) : slackMessage :=
  {| sm_Text := TruncateText (sm_Text m) maxTextRunes;
     Attachments := map truncate_attachment (Attachments m) |}.

(** ** Extraction of payloads *)

(** The unexpected keys logged so far: key and message of the record. *)
Abbreviation unknown_keys := (list (string * string)).

Definition warnUnknownKey (key recordMsg : string) (ws : unknown_keys) : unknown_keys :=
  ws ++ [(key, recordMsg)].

(** A loop over attributes with an accumulator and the log; [None] is a panic. *)
Fixpoint each {T} (f : T -> unknown_keys -> attr -> option (T * unknown_keys))
    (t : T) (ws : unknown_keys) (attrs : list attr) : option (T * unknown_keys) :=
  match attrs with
  | [] => Some (t, ws)
  | a :: attrs' => '(t', ws') ← f t ws a; each f t' ws' attrs'
  end.

Section extract.
(** [v.String()] of a value that is not a string. *)
Variable value_text : value -> string.

Definition value_String (v : value) : string :=
  match v with KindString s => s | _ => value_text v end.

(** [v.Int64()] and [v.Uint64()] panic on other kinds. *)
Definition value_Int64 (v : value) : option Z := match v with KindInt64 n => Some n | _ => None end.
Definition value_Uint64 (v : value) : option Z := match v with KindUint64 n => Some n | _ => None end.

(** [if t, ok := v.Any().(time.Time); ok { x = t }] *)
Definition value_Time (v : value) (x : Time) : Time := match v with KindTime t => t | _ => x end.

Definition extract_detail_field (child msg : string)
    (fd : FailureDetail) (ws : unknown_keys) (a : attr) : option (FailureDetail * unknown_keys) :=
  let '(key, v) := a in
  let 'MkFailureDetail rt n mx rc := fd in
  if String.eqb key "result_type" then Some (MkFailureDetail (value_String v) n mx rc, ws)
  else if String.eqb key "failed_session_count" then
    n' ← value_Int64 v; Some (MkFailureDetail rt n' mx rc, ws)
  else if String.eqb key "receiving_mx_hostname" then Some (MkFailureDetail rt n (value_String v) rc, ws)
  else if String.eqb key "failure_reason_code" then Some (MkFailureDetail rt n mx (value_String v), ws)
  else Some (fd, warnUnknownKey (Join "" ["failure_details."; child; "."; key]) msg ws).

Definition extract_detail (msg : string) (fds : list FailureDetail) (ws : unknown_keys) (child : attr)
  : option (list FailureDetail * unknown_keys) :=
  match child.2 with
  | KindGroup fields =>
      '(fd, ws') ← each (extract_detail_field child.1 msg) (MkFailureDetail "" 0 "" "") ws fields;
      Some (fds ++ [fd], ws')
  | _ => Some (fds, warnUnknownKey (String.append "failure_details." child.1) msg ws)
  end.

Definition extract_alert_attr (msg : string) (a : Alert) (ws : unknown_keys) (at_ : attr)
  : option (Alert * unknown_keys) :=
  let '(key, v) := at_ in
  let 'MkAlert org pt fc dr rid fds tc ts := a in
  if String.eqb key "organization_name" then Some (MkAlert (value_String v) pt fc dr rid fds tc ts, ws)
  else if String.eqb key "policy_type" then Some (MkAlert org (value_String v) fc dr rid fds tc ts, ws)
  else if String.eqb key "failure_count" then
    n ← value_Int64 v; Some (MkAlert org pt n dr rid fds tc ts, ws)
  else if String.eqb key "date_start" then
    Some (MkAlert org pt fc (MkDateRange (value_Time v (dr_Start dr)) (dr_End dr)) rid fds tc ts, ws)
  else if String.eqb key "date_end" then
    Some (MkAlert org pt fc (MkDateRange (dr_Start dr) (value_Time v (dr_End dr))) rid fds tc ts, ws)
  else if String.eqb key "report_id" then Some (MkAlert org pt fc dr (value_String v) fds tc ts, ws)
  else if String.eqb key "failure_details_total_count" then
    n ← value_Int64 v; Some (MkAlert org pt fc dr rid fds n ts, ws)
  else if String.eqb key "failure_details_total_sessions" then
    n ← value_Int64 v; Some (MkAlert org pt fc dr rid fds tc n, ws)
  else if String.eqb key "failure_details" then
    match v with
    | KindGroup children =>
        '(fds', ws') ← each (extract_detail msg) [] ws children;
        Some (MkAlert org pt fc dr rid fds' tc ts, ws')
    | _ => Some (a, ws)
    end
  else Some (a, warnUnknownKey key msg ws).

Definition zeroAlert : Alert :=
  MkAlert "" "" 0 (MkDateRange zeroTime zeroTime) "" [] 0 0.

Definition extractAlert (r : record) (ws : unknown_keys) : option (Alert * unknown_keys) :=
  each (extract_alert_attr (Message r)) zeroAlert ws (Attrs r).

Definition extract_error_attr (msg : string) (e : SystemError) (ws : unknown_keys) (at_ : attr)
  : option (SystemError * unknown_keys) :=
  let '(key, v) := at_ in
  let 'MkSystemError k c m := e in
  if String.eqb key "kind" then Some (MkSystemError (value_String v) c m, ws)
  else if String.eqb key "component" then Some (MkSystemError k (value_String v) m, ws)
  else if String.eqb key "mailbox" then Some (MkSystemError k c (value_String v), ws)
  else Some (e, warnUnknownKey key msg ws).

Definition extractSystemError (r : record) (ws : unknown_keys) : option (SystemError * unknown_keys) :=
  each (extract_error_attr (Message r)) (MkSystemError "" "" "") ws (Attrs r).

(** [uint32(n)] *)
Definition wrap32 (n : Z) : Z := n mod 2 ^ 32.

Definition extract_warning_attr (msg : string) (w : Warning) (ws : unknown_keys) (at_ : attr)
  : option (Warning * unknown_keys) :=
  let '(key, v) := at_ in
  let 'MkWarning k u uv m := w in
  if String.eqb key "kind" then Some (MkWarning (value_String v) u uv m, ws)
  else if String.eqb key "uid" then n ← value_Uint64 v; Some (MkWarning k (wrap32 n) uv m, ws)
  else if String.eqb key "uidvalidity" then n ← value_Uint64 v; Some (MkWarning k u (wrap32 n) m, ws)
  else if String.eqb key "message_id" then Some (MkWarning k u uv (value_String v), ws)
  else Some (w, warnUnknownKey key msg ws).

Definition extractWarning (r : record) (ws : unknown_keys) : option (Warning * unknown_keys) :=
  each (extract_warning_attr (Message r)) (MkWarning "" 0 0 "") ws (Attrs r).

Definition extract_stat (msg : string) (m : gmap string Z) (ws : unknown_keys) (at_ : attr)
  : option (gmap string Z * unknown_keys) :=
  match at_.2 with
  | KindInt64 n => Some (<[at_.1 := n]> m, ws)
  | _ => Some (m, warnUnknownKey (String.append "organization_stats." at_.1) msg ws)
  end.

Definition extract_summary_attr (msg : string) (s : Summary) (ws : unknown_keys) (at_ : attr)
  : option (Summary * unknown_keys) :=
  let '(key, v) := at_ in
  let 'MkSummary p st n := s in
  if String.eqb key "report_count" then n' ← value_Int64 v; Some (MkSummary p st n', ws)
  else if String.eqb key "period_start" then
    Some (MkSummary (MkDateRange (value_Time v (dr_Start p)) (dr_End p)) st n, ws)
  else if String.eqb key "period_end" then
    Some (MkSummary (MkDateRange (dr_Start p) (value_Time v (dr_End p))) st n, ws)
  else if String.eqb key "organization_stats" then
    match v with
    | KindGroup stats =>
        '(st', ws') ← each (extract_stat msg) st ws stats; Some (MkSummary p st' n, ws')
    | _ => Some (s, ws)
    end
  else Some (s, warnUnknownKey key msg ws).

Definition extractSummary (r : record) (ws : unknown_keys) : option (Summary * unknown_keys) :=
  each (extract_summary_attr (Message r)) (MkSummary (MkDateRange zeroTime zeroTime) ∅ 0) ws (Attrs r).
End extract.

(** ** Message formats *)

Definition maxAlertOrganizationRunes : Z := 120.
Definition maxAlertPolicyTypeRunes : Z := 80.
Definition maxAlertReportIDRunes : Z := 160.
Definition maxAlertResultTypeRunes : Z := 80.
Definition maxAlertMXHostnameRunes : Z := 120.
Definition maxAlertReasonCodeRunes : Z := 80.
Definition maxAlertDetailDisplay : nat := 3.

(** The line breaks a client may render: control characters and U+2028, U+2029. *)
Definition renders_break (r : rune) : bool := IsControl r || (r =? 8232) || (r =? 8233).

Definition normalizeControlChars (s : string) : string :=
  Map (fun r => if renders_break r then 32 else r) s.

Definition uniqueOrgCount (alerts : list Alert) : Z :=
  Z.of_nat (size (list_to_set (map al_OrganizationName alerts) : gset string)).

Definition policyTypeStr (pt : string) : string :=
  if String.eqb pt PolicyTypeUnknown then "(unknown)" else TrimSpace pt.

Definition buildPolicySummaryText (a : Alert) : string :=
  let orgName := TruncateText (normalizeControlChars (al_OrganizationName a)) maxAlertOrganizationRunes in
  let policyType :=
    TruncateText (normalizeControlChars (policyTypeStr (al_PolicyType a))) maxAlertPolicyTypeRunes in
  Join "" [orgName; " | "; policyType; " | "; fmt_d (al_FailureCount a); " | ";
           format_date_only (dr_Start (al_DateRange a)); " – ";
           format_date_only (dr_End (al_DateRange a))].

Definition sum_sessions (fds : list FailureDetail) : Z :=
  foldl (fun n fd => wrap64 (n + fd_FailedSessionCount fd)) 0 fds.

(** One line of the details text, with its index from 1. *)
Definition detail_line (i : nat) (fd : FailureDetail) : string :=
  let resultType := TruncateText (normalizeControlChars (fd_ResultType fd)) maxAlertResultTypeRunes in
  let line := Join "" ["["; fmt_d (Z.of_nat (S i)); "] "; resultType; ": ";
                       fmt_d (fd_FailedSessionCount fd); " sessions"] in
  let line :=
    if negb (String.eqb (fd_ReceivingMXHostname fd) "")
    then Join "" [line; " | MX: ";
                  TruncateText (normalizeControlChars (fd_ReceivingMXHostname fd)) maxAlertMXHostnameRunes]
    else line in
  if negb (String.eqb (fd_FailureReasonCode fd) "")
  then Join "" [line; " | Reason: ";
                TruncateText (normalizeControlChars (fd_FailureReasonCode fd)) maxAlertReasonCodeRunes]
  else line.

Definition newline : string := String "010" "".

Definition buildFailureDetailsText (a : Alert) : string :=
  match al_FailureDetails a with
  | [] => ""
  | details =>
      let shown := if Z.of_nat (length details) >? Z.of_nat maxAlertDetailDisplay
                   then take maxAlertDetailDisplay details else details in
      let detailsSessions := sum_sessions details in
      let totalCount := Z.max (al_FailureDetailsTotalCount a) (Z.of_nat (length details)) in
      let totalSessions := Z.max (al_FailureDetailsTotalSessions a) detailsSessions in
      let other :=
        if totalCount >? Z.of_nat maxAlertDetailDisplay
        then
          let topSessions := sum_sessions shown in
          let otherCount := wrap64 (totalCount - Z.of_nat maxAlertDetailDisplay) in
          let otherSessions := Z.max (wrap64 (totalSessions - topSessions)) 0 in
          Join "" ["Other "; fmt_d otherCount; " entries ("; fmt_d otherSessions;
                   " sessions total)"; newline]
        else "" in
      String.append other (Join newline (imap detail_line shown))
  end.

Definition maxAlertPoliciesPerChunk : nat := 3.
Definition maxAlertAttachments : nat := 100.
Definition maxPoliciesInLastChunkWithOverflow : nat := 2.

Definition field (title v : string) (short : bool) : slackField :=
  {| Title := title; Value := v; Short := short |}.

(** The fields of one alert. *)
Definition alert_fields (a : Alert) : list slackField :=
  let details := buildFailureDetailsText a in
  [field "Organization / Policy / Failures / Period" (buildPolicySummaryText a) false]
  ++ (if negb (String.eqb (al_ReportID a) "")
      then [field "Report ID"
              (TruncateText (normalizeControlChars (al_ReportID a)) maxAlertReportIDRunes) false]
      else [])
  ++ (if negb (String.eqb details "") then [field "Failure Details" details false] else []).

(** The loop over [shown] in steps of three; [rest] is [shown[i:]]. *)
Fixpoint alert_attachments (fuel : nat) (rest : list Alert) (overflowText runID : string)
  : list slackAttachment :=
  match fuel, rest with
  | S f, _ :: _ =>
      let chunk := take maxAlertPoliciesPerChunk rest in
      let rest' := drop maxAlertPoliciesPerChunk rest in
      let last :=
        match rest' with
        | [] => (if negb (String.eqb overflowText "")
                 then [field "Additional Policies" overflowText false] else [])
                ++ [field "Run ID" runID false]
        | _ => []
        end in
      {| Color := colorWarning; Fields := concat (map alert_fields chunk) ++ last |}
      :: alert_attachments f rest' overflowText runID
  | _, _ => []
  end.

Definition sum_failures (alerts : list Alert) : Z :=
  foldl (fun n a => wrap64 (n + al_FailureCount a)) 0 alerts.

(** [shown] and [overflowAlerts]. *)
Definition split_overflow (alerts : list Alert) : list Alert * list Alert :=
  let maxPoliciesShown := (maxAlertAttachments * maxAlertPoliciesPerChunk)%nat in
  let maxWithOverflow := ((maxAlertAttachments - 1) * maxAlertPoliciesPerChunk
                          + maxPoliciesInLastChunkWithOverflow)%nat in
  if Z.of_nat (length alerts) >? Z.of_nat maxPoliciesShown
  then (take maxWithOverflow alerts, drop maxWithOverflow alerts)
  else (alerts, []).

Definition overflow_text (overflowAlerts : list Alert) : string :=
  match overflowAlerts with
  | [] => ""
  | _ => Join "" [fmt_d (Z.of_nat (length overflowAlerts));
                  " additional policies omitted; organizations: ";
                  fmt_d (uniqueOrgCount overflowAlerts); "; failed sessions: ";
                  fmt_d (sum_failures overflowAlerts)]
  end.

Definition formatAlerts (alerts : list Alert) (runID : string) : slackMessage :=
  let '(shown, overflowAlerts) := split_overflow alerts in
  {| sm_Text := Join "" [emojiAlert; " TLS Failures – "; fmt_d (uniqueOrgCount alerts);
                         " organizations affected"];
     Attachments := alert_attachments (length shown) shown (overflow_text overflowAlerts) runID |}.

Definition formatWarning (w : Warning) (runID : string) : slackMessage :=
  {| sm_Text := Join "" [emojiAlert; " Fetch Warning: "; w_Kind w];
     Attachments :=
       [{| Color := colorWarning;
           Fields :=
             [field "Kind" (w_Kind w) true]
             ++ (if negb (w_UID w =? 0) && negb (w_UIDValidity w =? 0)
                 then [field "UID" (fmt_d (w_UID w)) true;
                       field "UIDValidity" (fmt_d (w_UIDValidity w)) true]
                 else [])
             ++ (if negb (String.eqb (w_MessageID w) "")
                 then [field "Message-ID" (w_MessageID w) false] else [])
             ++ [field "Run ID" runID true] |}] |}.

Definition systemErrorHint (kind : string) : string :=
  if String.eqb kind SystemErrorKindUIDValidityChanged || String.eqb kind SystemErrorKindRecoveryRequired
  then "Run: tlsrpt-digest --config <path> recover --mode discard-old --yes"
  else if String.eqb kind SystemErrorKindIMAPCredentialsMissing
  then "Set TLSRPT_IMAP_USERNAME and TLSRPT_IMAP_PASSWORD environment variables"
  else "".

Definition formatSystemError (e : SystemError) (runID : string) : slackMessage :=
  let hint := systemErrorHint (se_Kind e) in
  {| sm_Text := Join "" [emojiError; " System Error: "; se_Kind e];
     Attachments :=
       [{| Color := colorDanger;
           Fields :=
             [field "Kind" (se_Kind e) true; field "Component" (se_Component e) true]
             ++ (if negb (String.eqb (se_Mailbox e) "")
                 then [field "Mailbox" (se_Mailbox e) true] else [])
             ++ (if negb (String.eqb hint "") then [field "Action Required" hint false] else [])
             ++ [field "Run ID" runID true] |}] |}.

Definition maxSummaryOrgFields : nat := 9.

Definition org_field (stats : gmap string Z) (organization : string) : slackField :=
  field organization (Join "" [fmt_d (stat stats organization); " successful sessions"]) true.

(** The loop over the sorted keys in steps of nine. *)
Fixpoint summary_attachments (fuel : nat) (keys : list string) (stats : gmap string Z) (runID : string)
  : list slackAttachment :=
  match fuel, keys with
  | S f, _ :: _ =>
      let rest := drop maxSummaryOrgFields keys in
      {| Color := colorGood;
         Fields := map (org_field stats) (take maxSummaryOrgFields keys)
                   ++ match rest with [] => [field "Run ID" runID true] | _ => [] end |}
      :: summary_attachments f rest stats runID
  | _, _ => []
  end.

Definition formatSummary (s : Summary) (runID : string) : slackMessage :=
  let stats := su_OrganizationStats s in
  let keys := sorted_keys stats in
  {| sm_Text := Join "" [emojiSuccess; " TLS Report Summary"; newline; "Period: ";
                         format_date_only (dr_Start (su_Period s)); " – ";
                         format_date_only (dr_End (su_Period s)); newline; "Reports: ";
                         fmt_d (su_ReportCount s); newline; "Organizations: ";
                         fmt_d (Z.of_nat (size stats))];
     Attachments :=
       match keys with
       | [] => [{| Color := colorGood; Fields := [field "Run ID" runID true] |}]
       | _ => summary_attachments (length keys) keys stats runID
       end |}.

(** ** All records of a batch *)

(** The payloads collected by the loop over the records, one list per kind. *)
Record payloads := MkPayloads {
  p_alerts : list Alert;
  p_warnings : list Warning;
  p_sysErrors : list SystemError;
  p_summaries : list Summary
}.

Section records.
Variable value_text : value -> string.

Definition collect_record (p : payloads) (ws : unknown_keys) (r : record)
  : option (payloads * unknown_keys) :=
  let 'MkPayloads al wa er su := p in
  if Level r >=? LevelError then
    '(e, ws') ← extractSystemError value_text r ws; Some (MkPayloads al wa (er ++ [e]) su, ws')
  else if Level r >=? LevelWarn then
    if String.eqb (Message r) "fetch_warning" then
      '(w, ws') ← extractWarning value_text r ws; Some (MkPayloads al (wa ++ [w]) er su, ws')
    else
      '(a, ws') ← extractAlert value_text r ws; Some (MkPayloads (al ++ [a]) wa er su, ws')
  else
    '(s, ws') ← extractSummary r ws; Some (MkPayloads al wa er (su ++ [s]), ws').

Fixpoint collect_records (p : payloads) (ws : unknown_keys) (rs : list record)
  : option (payloads * unknown_keys) :=
  match rs with
  | [] => Some (p, ws)
  | r :: rs' => '(p', ws') ← collect_record p ws r; collect_records p' ws' rs'
  end.

Definition format_payloads (p : payloads) (runID : string) : list slackMessage :=
  (match p_alerts p with [] => [] | al => [formatAlerts al runID] end)
  ++ map (fun w => formatWarning w runID) (p_warnings p)
  ++ map (fun e => formatSystemError e runID) (p_sysErrors p)
  ++ map (fun s => formatSummary s runID) (p_summaries p).

Definition formatRecords (rs : list record) (runID : string) : option (list slackMessage * unknown_keys) :=
  '(p, ws) ← collect_records (MkPayloads [] [] [] []) [] rs;
  Some (format_payloads p runID, ws).
End records.
