(* ===== verification/FormatProps.v ===== *)
(** * Properties of formatting (internal/notify/format.go, helpers.go)

    Length limits hold on every message; nothing that is to be reported is lost without being
    counted; payloads survive the way through log records; outside text cannot break lines. *)
From S2P Require Import Prelude GoStr GoTime GoErr Utf8 NotifyTypes Helpers Format.

(** ** Lengths *)

Lemma RuneCount_nonneg s : 0 <= RuneCount s.
Proof. unfold RuneCount. lia. Qed.

Lemma valid_runes_take n rs : valid_runes rs -> valid_runes (take n rs).
Proof. apply Forall_take. Qed.

Lemma RuneCount_of_runes_app rs s :
  valid_runes rs -> RuneCount (String.append (of_runes rs) s) = Z.of_nat (length rs) + RuneCount s.
Proof. intros H. unfold RuneCount. rewrite runes_of_runes_app, length_app by done. lia. Qed.

Lemma RuneCount_of_runes rs : valid_runes rs -> RuneCount (of_runes rs) = Z.of_nat (length rs).
Proof. intros H. unfold RuneCount. by rewrite runes_of_runes. Qed.

(** [TruncateText] never returns more than [maxLen] runes. For the limits in use, all beyond
    three, it returns the text itself when it is short enough and otherwise exactly [maxLen]
    runes: the first [maxLen - 3] of the text and [...]. *)
Theorem TruncateText_spec s maxLen :
  RuneCount (TruncateText s maxLen) <= Z.max 0 maxLen /\
  (3 < maxLen ->
   if RuneCount s <=? maxLen then TruncateText s maxLen = s
   else RuneCount (TruncateText s maxLen) = maxLen /\
        runes (TruncateText s maxLen) = take (Z.to_nat (maxLen - 3)) (runes s) ++ runes "...").
Proof.
  unfold TruncateText. change (RuneCount truncSuffix) with 3.
  destruct (Z.leb_spec maxLen 0); [split; [change (RuneCount "") with 0|]; lia|].
  destruct (Z.leb_spec maxLen 3).
  - split; [|lia]. rewrite RuneCount_of_runes by (apply valid_runes_take; auto with go).
    rewrite length_take. lia.
  - destruct (Z.leb_spec (RuneCount s) maxLen); [split; [lia|done]|].
    assert (Hc : RuneCount (String.append (of_runes (take (Z.to_nat (maxLen - 3)) (runes s))) truncSuffix)
                 = maxLen).
    { rewrite RuneCount_of_runes_app by (apply valid_runes_take; auto with go).
      change (RuneCount truncSuffix) with 3. rewrite length_take. unfold RuneCount in *. lia. }
    split; [lia|]. intros _. split; [done|].
    by rewrite runes_of_runes_app by (apply valid_runes_take; auto with go).
Qed.

Lemma TruncateText_le s n : 0 <= n -> RuneCount (TruncateText s n) <= n.
Proof.
  intros Hn. unfold TruncateText. change (RuneCount truncSuffix) with 3.
  destruct (Z.leb_spec n 0); [change (RuneCount "") with 0; lia|].
  destruct (Z.leb_spec n 3).
  - rewrite RuneCount_of_runes by (apply valid_runes_take; auto with go). rewrite length_take. lia.
  - destruct (Z.leb_spec (RuneCount s) n); [done|].
    rewrite RuneCount_of_runes_app by (apply valid_runes_take; auto with go).
    change (RuneCount truncSuffix) with 3. rewrite length_take. lia.
Qed.

(** Within the limits of three runes and fewer the suffix comes back even for a text that fits. *)
Example TruncateText_short : TruncateText "" 2 = "..".
Proof. reflexivity. Qed.

(** ** Messages within Slack's limits *)

Definition attachment_ok (a : slackAttachment) : Prop :=
  (1 <= length (Fields a) <= 10)%nat.

Definition message_ok (m : slackMessage) : Prop :=
  RuneCount (sm_Text m) <= maxTextRunes /\
  Forall (fun a => attachment_ok a /\ Forall (fun f => RuneCount (Value f) <= maxFieldRunes) (Fields a))
         (Attachments m).

Lemma truncateMessage_ok m :
  Forall attachment_ok (Attachments m) -> message_ok (truncateMessage m).
Proof.
  intros H. split; [by apply TruncateText_le|].
  simpl. apply Forall_map. eapply Forall_impl; [|exact H]. intros a Ha. split.
  - unfold attachment_ok in *. simpl. by rewrite length_map.
  - simpl. apply Forall_map. apply Forall_true. intros f. by apply TruncateText_le.
Qed.

Lemma alert_fields_length a : (1 <= length (alert_fields a) <= 3)%nat.
Proof. unfold alert_fields. rewrite !length_app. repeat case_match; simpl; lia. Qed.

Lemma concat_alert_fields_length l :
  (length l <= length (concat (map alert_fields l)) <= 3 * length l)%nat.
Proof.
  induction l as [|a l IH]; [simpl; lia|]. cbn [map concat]. rewrite length_app.
  pose proof (alert_fields_length a). rewrite length_cons. lia.
Qed.

(** A chunk fits even with the overflow text when it has no more than two alerts. *)
Lemma chunk_ok chunk (rest : list Alert) ov runID :
  (1 <= length chunk <= 3)%nat -> (rest = [] -> ov = "" \/ length chunk <= 2)%nat ->
  attachment_ok {| Color := colorWarning;
    Fields := concat (map alert_fields chunk) ++
      match rest with
      | [] => (if negb (String.eqb ov "") then [field "Additional Policies" ov false] else [])
              ++ [field "Run ID" runID false]
      | _ => []
      end |}.
Proof.
  intros Hc Hov. unfold attachment_ok. cbn [Fields]. rewrite length_app.
  pose proof (concat_alert_fields_length chunk) as Hl.
  destruct rest; [|simpl; lia]. specialize (Hov eq_refl). rewrite length_app.
  destruct (String.eqb_spec ov ""); simpl; destruct Hov; try done; lia.
Qed.

Lemma alert_attachments_ok fuel rest ov runID :
  (ov = "" \/ Nat.modulo (length rest) 3 = 2)%nat ->
  Forall attachment_ok (alert_attachments fuel rest ov runID).
Proof.
  revert rest. induction fuel as [|fuel IH]; intros rest Hov; [constructor|].
  destruct rest as [|a rest]; cbn [alert_attachments]; [constructor|]. constructor.
  - unfold maxAlertPoliciesPerChunk.
    apply chunk_ok; [rewrite length_take, length_cons; lia|]. intros Hd.
    destruct Hov as [?|Hm]; [by left|right].
    destruct rest as [|b [|c rest]]; [simpl; lia..|].
    simpl in Hd. rewrite ?drop_0 in Hd. subst rest. vm_compute in Hm. done.
  - unfold maxAlertPoliciesPerChunk.
    destruct rest as [|b [|c rest]]; [destruct fuel; constructor..|].
    apply IH. destruct Hov as [?|Hm]; [by left|right]. simpl drop. rewrite drop_0.
    change (length (a :: b :: c :: rest)) with (3 + length rest)%nat in Hm.
    replace (3 + length rest)%nat with (length rest + 1 * 3)%nat in Hm by lia.
    by rewrite Nat.Div0.mod_add in Hm.
Qed.

Lemma split_overflow_ok alerts :
  let '(shown, ov) := split_overflow alerts in
  (length shown <= 300)%nat /\ alerts = shown ++ ov /\
  (overflow_text ov = "" \/ Nat.modulo (length shown) 3 = 2)%nat.
Proof.
  unfold split_overflow. rewrite Z.gtb_ltb.
  change (Z.of_nat (maxAlertAttachments * maxAlertPoliciesPerChunk)) with 300.
  change ((maxAlertAttachments - 1) * maxAlertPoliciesPerChunk
          + maxPoliciesInLastChunkWithOverflow)%nat with 299%nat.
  destruct (Z.ltb_spec 300 (Z.of_nat (length alerts))) as [H|H].
  - assert (length (take 299 alerts) = 299)%nat as Hl by (rewrite length_take; lia).
    rewrite Hl. split; [lia|]. split; [by rewrite take_drop|by right].
  - split; [lia|]. split; [by rewrite app_nil_r|by left].
Qed.

Lemma formatAlerts_ok alerts runID : Forall attachment_ok (Attachments (formatAlerts alerts runID)).
Proof.
  unfold formatAlerts. pose proof (split_overflow_ok alerts) as H.
  destruct (split_overflow alerts) as [shown ov]. destruct H as (_ & _ & H). simpl.
  by apply alert_attachments_ok.
Qed.

Lemma summary_attachments_ok fuel keys stats runID :
  Forall attachment_ok (summary_attachments fuel keys stats runID).
Proof.
  revert keys. induction fuel as [|fuel IH]; intros [|k keys]; cbn [summary_attachments]; try constructor.
  - unfold attachment_ok. cbn [Fields]. rewrite length_app, length_map, length_take.
    unfold maxSummaryOrgFields. rewrite length_cons. case_match; cbn [length]; lia.
  - apply IH.
Qed.

Lemma formatSummary_ok s runID : Forall attachment_ok (Attachments (formatSummary s runID)).
Proof.
  unfold formatSummary. simpl. case_match; [|apply summary_attachments_ok].
  constructor; [|done]. unfold attachment_ok. simpl. lia.
Qed.

Lemma formatWarning_ok w runID : Forall attachment_ok (Attachments (formatWarning w runID)).
Proof.
  constructor; [|done]. unfold attachment_ok. simpl. rewrite !length_app.
  repeat case_match; simpl; lia.
Qed.

Lemma formatSystemError_ok e runID : Forall attachment_ok (Attachments (formatSystemError e runID)).
Proof.
  constructor; [|done]. unfold attachment_ok. simpl. rewrite !length_app.
  repeat case_match; simpl; lia.
Qed.

Lemma format_payloads_ok p runID :
  Forall (fun m => Forall attachment_ok (Attachments m)) (format_payloads p runID).
Proof.
  unfold format_payloads. rewrite !Forall_app. split_and!.
  - case_match; [done|]. constructor; [apply formatAlerts_ok|done].
  - apply Forall_map, Forall_true. intros. apply formatWarning_ok.
  - apply Forall_map, Forall_true. intros. apply formatSystemError_ok.
  - apply Forall_map, Forall_true. intros. apply formatSummary_ok.
Qed.

Lemma format_payloads_truncated p runID :
  Forall message_ok (map truncateMessage (format_payloads p runID)).
Proof.
  apply Forall_map. eapply Forall_impl; [|apply format_payloads_ok].
  intros m Hm. by apply truncateMessage_ok.
Qed.

(** What a batch of records becomes is within the limits once truncated. *)
Lemma formatRecords_ok value_text rs runID msgs ws :
  formatRecords value_text rs runID = Some (msgs, ws) -> Forall message_ok (map truncateMessage msgs).
Proof.
  unfold formatRecords. destruct (collect_records _ _ _ _) as [[p ws']|]; [|done].
  simpl. intros [= <- _]. apply format_payloads_truncated.
Qed.

(** ** How an alert is shown *)

(** Text of a report on one line, with at most [n] runes. *)
Definition clip (n : Z) (s : string) : string := TruncateText (normalizeControlChars s) n.

(** The organization, the policy, the number of failed sessions and the period. *)
Definition shown_summary (a : Alert) : string :=
  Join " | " [clip 120 (al_OrganizationName a);
              clip 80 (if decide (al_PolicyType a = "") then "(unknown)" else TrimSpace (al_PolicyType a));
              fmt_d (al_FailureCount a);
              Join " – " [format_date_only (dr_Start (al_DateRange a)); format_date_only (dr_End (al_DateRange a))]].

(** A failure detail: its number in the list, its kind and sessions, and what is known of the host
    and the reason. *)
Definition shown_detail (i : nat) (fd : FailureDetail) : string :=
  Join " | "
    ([Join "" ["["; fmt_d (Z.of_nat (i + 1)); "] "; clip 80 (fd_ResultType fd); ": ";
               fmt_d (fd_FailedSessionCount fd); " sessions"]]
     ++ (if decide (fd_ReceivingMXHostname fd = "") then []
         else [String.append "MX: " (clip 120 (fd_ReceivingMXHostname fd))])
     ++ (if decide (fd_FailureReasonCode fd = "") then []
         else [String.append "Reason: " (clip 80 (fd_FailureReasonCode fd))])).

(** The first three details, after a line about the others, which the alert may have by number only. *)
Definition shown_details (a : Alert) : string :=
  let details := al_FailureDetails a in
  let sessions l := wrap64 (sumZ (map fd_FailedSessionCount l)) in
  let total := Z.max (al_FailureDetailsTotalCount a) (Z.of_nat (length details)) in
  let total_sessions := Z.max (al_FailureDetailsTotalSessions a) (sessions details) in
  Join (String "010" "")
    ((if decide (3 < total)
      then [Join "" ["Other "; fmt_d (wrap64 (total - 3)); " entries (";
                     fmt_d (Z.max 0 (wrap64 (total_sessions - sessions (take 3 details)))); " sessions total)"]]
      else [])
     ++ imap shown_detail (take 3 details)).

(** The fields of an alert: the summary, the report id if there is one, and the details if there are
    any. *)
Definition shown_alert (a : Alert) : list slackField :=
  [{| Title := "Organization / Policy / Failures / Period"; Value := shown_summary a; Short := false |}]
  ++ (if decide (al_ReportID a = "") then []
      else [{| Title := "Report ID"; Value := clip 160 (al_ReportID a); Short := false |}])
  ++ (if decide (al_FailureDetails a = []) then []
      else [{| Title := "Failure Details"; Value := shown_details a; Short := false |}]).

Lemma shown_summary_code a : buildPolicySummaryText a = shown_summary a.
Proof.
  unfold buildPolicySummaryText, shown_summary, clip, policyTypeStr, PolicyTypeUnknown.
  destruct (String.eqb_spec (al_PolicyType a) ""), (decide (al_PolicyType a = "")); try done;
    cbn [Join]; by rewrite ?append_assoc.
Qed.

Lemma shown_detail_code i fd : detail_line i fd = shown_detail i fd.
Proof.
  unfold detail_line, shown_detail, clip. rewrite Nat.add_1_r.
  destruct (String.eqb_spec (fd_ReceivingMXHostname fd) ""), (decide (fd_ReceivingMXHostname fd = "")); try done;
    destruct (String.eqb_spec (fd_FailureReasonCode fd) ""), (decide (fd_FailureReasonCode fd = "")); try done;
    cbn [negb app Join]; by rewrite ?append_assoc, ?append_empty_r.
Qed.

Lemma sum_sessions_code l : sum_sessions l = wrap64 (sumZ (map fd_FailedSessionCount l)).
Proof. unfold sum_sessions. change 0 with (wrap64 0) at 1. by rewrite foldl_wrap. Qed.

Lemma Join_cons sep s ss : ss <> [] -> Join sep (s :: ss) = String.append s (String.append sep (Join sep ss)).
Proof. by destruct ss. Qed.

Lemma shown_details_code a : al_FailureDetails a <> [] -> buildFailureDetailsText a = shown_details a.
Proof.
  intros Hne. unfold buildFailureDetailsText, shown_details.
  destruct (al_FailureDetails a) as [|fd fds]; [done|]. set (l := fd :: fds) in *.
  assert (Et : (if Z.of_nat (length l) >? Z.of_nat maxAlertDetailDisplay then take maxAlertDetailDisplay l else l) = take 3 l).
  { rewrite Z.gtb_ltb. unfold maxAlertDetailDisplay. destruct (Z.ltb_spec (Z.of_nat 3) (Z.of_nat (length l))); [done|].
    by rewrite take_ge by lia. }
  rewrite Et, !sum_sessions_code, Z.max_comm with (m := 0). rewrite (imap_ext _ shown_detail) by (intros; apply shown_detail_code).
  change (Z.of_nat maxAlertDetailDisplay) with 3. rewrite Z.gtb_ltb.
  destruct (Z.ltb_spec 3 (Z.max (al_FailureDetailsTotalCount a) (Z.of_nat (length l)))); [rewrite decide_True by done|rewrite decide_False by lia; done].
  cbn [app]. rewrite Join_cons by done. cbn [Join]. unfold newline. by rewrite ?append_assoc.
Qed.

Lemma shown_alert_code a : alert_fields a = shown_alert a.
Proof.
  unfold alert_fields, shown_alert, clip, field. rewrite shown_summary_code. f_equal. f_equal.
  - by destruct (String.eqb_spec (al_ReportID a) ""), (decide (al_ReportID a = "")).
  - destruct (decide (al_FailureDetails a = [])) as [E|Hne]; [unfold buildFailureDetailsText; by rewrite E|].
    rewrite <- shown_details_code by done.
    destruct (String.eqb_spec (buildFailureDetailsText a) "") as [E|]; [|done]. exfalso. revert E.
    rewrite shown_details_code by done. unfold shown_details. destruct (al_FailureDetails a) as [|fd fds]; [done|].
    destruct (decide _); [done|]. cbn [app take imap]. unfold shown_detail at 1. by destruct (decide _), (decide _), fds.
Qed.

Lemma shown_alerts_code alerts : map alert_fields alerts = map shown_alert alerts.
Proof. apply map_ext, shown_alert_code. Qed.

Lemma sum_failures_code l : sum_failures l = wrap64 (sumZ (map al_FailureCount l)).
Proof. unfold sum_failures. change 0 with (wrap64 0) at 1. by rewrite foldl_wrap. Qed.

(** ** No alert is lost *)

Definition last_alert_fields (ov runID : string) : list slackField :=
  (if negb (String.eqb ov "") then [field "Additional Policies" ov false] else [])
  ++ [field "Run ID" runID false].

Lemma alert_attachments_S fuel rest ov runID :
  rest <> [] ->
  alert_attachments (S fuel) rest ov runID =
  {| Color := colorWarning;
     Fields := concat (map alert_fields (take 3 rest)) ++
               match drop 3 rest with [] => last_alert_fields ov runID | _ => [] end |}
  :: alert_attachments fuel (drop 3 rest) ov runID.
Proof. by destruct rest. Qed.

Lemma alert_attachments_fields fuel rest ov runID :
  (length rest <= fuel)%nat -> rest <> [] ->
  concat (map Fields (alert_attachments fuel rest ov runID))
  = concat (map alert_fields rest) ++ last_alert_fields ov runID.
Proof.
  revert rest. induction fuel as [|fuel IH]; intros rest Hf Hne; [destruct rest; simpl in *; [done|lia]|].
  assert (E : concat (map alert_fields rest)
              = concat (map alert_fields (take 3 rest)) ++ concat (map alert_fields (drop 3 rest)))
    by (by rewrite <- concat_app, <- map_app, take_drop).
  rewrite alert_attachments_S, E by done. rewrite map_cons. cbn [concat Fields].
  rewrite <- !app_assoc. f_equal.
  destruct (drop 3 rest) as [|b l] eqn:Hd.
  - replace (alert_attachments fuel [] ov runID) with (@nil slackAttachment) by (by destruct fuel).
    simpl. by rewrite app_nil_r.
  - rewrite IH; [done| |done]. rewrite <- Hd, length_drop. destruct rest; simpl in *; [done|lia].
Qed.

Lemma alert_attachments_length fuel rest ov runID :
  (3 * length (alert_attachments fuel rest ov runID) <= length rest + 2)%nat.
Proof.
  revert rest. induction fuel as [|fuel IH]; intros rest; [simpl; lia|].
  destruct rest as [|a rest]; cbn [alert_attachments]; [simpl; lia|].
  destruct rest as [|b [|c rest]]; [simpl; destruct fuel; simpl; lia..|].
  specialize (IH rest). unfold maxAlertPoliciesPerChunk. simpl drop. rewrite drop_0, !length_cons. lia.
Qed.

Lemma last_alert_fields_overflow a l runID :
  last_alert_fields (overflow_text (a :: l)) runID
  = [field "Additional Policies" (overflow_text (a :: l)) false; field "Run ID" runID false].
Proof.
  unfold last_alert_fields. destruct (String.eqb_spec (overflow_text (a :: l)) "") as [E|]; [|done].
  exfalso. revert E. unfold overflow_text. cbn [Join].
  destruct (fmt_d (Z.of_nat (length (a :: l)))) eqn:Ef; [|by rewrite append_String].
  exfalso. revert Ef. rewrite fmt_d_nonneg by lia. apply fmt_u_nonempty.
Qed.

(** C30: no alert of a batch is lost. Up to 300 alerts are all shown, in order, each with its
    summary (organization, policy, failed sessions and period), its report id and its first three
    details, with the number and the sessions of the others; of more than 300 the first 299 are shown
    and the others are accounted for in one more field, with their number, their organizations and
    the total of their failed sessions. The run id ends the message, which has at most 100
    attachments. *)
Theorem formatAlerts_complete alerts runID :
  alerts <> [] ->
  let m := formatAlerts alerts runID in
  let fields := concat (map Fields (Attachments m)) in
  let run_id := {| Title := "Run ID"; Value := runID; Short := false |} in
  (length (Attachments m) <= 100)%nat /\
  if Z.of_nat (length alerts) <=? 300
  then fields = concat (map shown_alert alerts) ++ [run_id]
  else
    let rest := drop 299 alerts in
    fields = concat (map shown_alert (take 299 alerts))
             ++ [{| Title := "Additional Policies";
                    Value := Join "" [fmt_d (Z.of_nat (length rest));
                               " additional policies omitted; organizations: ";
                               fmt_d (Z.of_nat (size (list_to_set (map al_OrganizationName rest) : gset string)));
                               "; failed sessions: "; fmt_d (wrap64 (sumZ (map al_FailureCount rest)))];
                    Short := false |}; run_id].
Proof.
  intros Hne. cbv zeta. rewrite <- !shown_alerts_code, <- sum_failures_code. unfold formatAlerts. pose proof (split_overflow_ok alerts) as Hs.
  destruct (split_overflow alerts) as [shown ov] eqn:E. destruct Hs as (Hlen & Happ & _).
  cbn [Attachments].
  assert (Hshown : shown <> []).
  { unfold split_overflow in E. case_match; injection E as <- _; [by destruct alerts|done]. }
  split; [pose proof (alert_attachments_length (length shown) shown (overflow_text ov) runID); lia|].
  rewrite alert_attachments_fields by done. unfold split_overflow in E. rewrite Z.gtb_ltb in E.
  change (Z.of_nat (maxAlertAttachments * maxAlertPoliciesPerChunk)) with 300 in E.
  change ((maxAlertAttachments - 1) * maxAlertPoliciesPerChunk
          + maxPoliciesInLastChunkWithOverflow)%nat with 299%nat in E.
  destruct (Z.ltb_spec 300 (Z.of_nat (length alerts))) as [H|H]; injection E as <- <-.
  - rewrite (proj2 (Z.leb_gt _ _)) by lia.
    destruct (drop 299 alerts) as [|a l] eqn:Hd; [|by rewrite last_alert_fields_overflow].
    apply (f_equal length) in Hd. rewrite length_drop in Hd. simpl in Hd. lia.
  - by rewrite (proj2 (Z.leb_le _ _)) by lia.
Qed.

Definition sample_alert (org : string) : Alert :=
  MkAlert org "sts" 3 (MkDateRange 0 0) "r" [MkFailureDetail "expired" 3 "mx" ""] 1 3.

Lemma formatAlerts_complete_witness :
  let alerts := repeat (sample_alert "a") 301 in
  alerts <> [] /\
  concat (map Fields (Attachments (formatAlerts alerts "run")))
  = concat (map shown_alert (take 299 alerts))
    ++ [field "Additional Policies"
          "2 additional policies omitted; organizations: 1; failed sessions: 6" false;
        field "Run ID" "run" false].
Proof.
  cbv zeta. assert (H : repeat (sample_alert "a") 301 <> []) by discriminate.
  split; [exact H|].
  pose proof (formatAlerts_complete (repeat (sample_alert "a") 301) "run" H) as [_ E].
  etransitivity; [exact E|]. vm_compute. reflexivity.
Defined.

(** ** Every organization is summarized *)

Lemma summary_attachments_fields fuel keys stats runID :
  (length keys <= fuel)%nat -> keys <> [] ->
  concat (map Fields (summary_attachments fuel keys stats runID))
  = map (org_field stats) keys ++ [field "Run ID" runID true].
Proof.
  revert keys. induction fuel as [|fuel IH]; intros keys Hf Hne; [destruct keys; simpl in *; [done|lia]|].
  destruct keys as [|k keys]; [done|]. cbn [summary_attachments]. rewrite map_cons. cbn [concat Fields].
  replace (map (org_field stats) (k :: keys))
    with (map (org_field stats) (take maxSummaryOrgFields (k :: keys))
          ++ map (org_field stats) (drop maxSummaryOrgFields (k :: keys)))
    by (by rewrite <- map_app, take_drop).
  rewrite <- !app_assoc. f_equal. destruct (drop maxSummaryOrgFields (k :: keys)) as [|b l] eqn:Hd.
  - replace (summary_attachments fuel [] stats runID) with (@nil slackAttachment) by (by destruct fuel).
    done.
  - rewrite IH; [done| |done]. rewrite <- Hd, length_drop. rewrite length_cons in *. unfold maxSummaryOrgFields. lia.
Qed.

(** The summary message names every organization of the summary exactly once, in the order of
    the names, with its number of successful sessions, and ends with the run id; this holds
    however many attachments the organizations need. *)
Theorem formatSummary_complete s runID :
  exists keys,
    NoDup keys /\ Sorted str_le keys /\
    (forall k, k ∈ keys <-> is_Some (su_OrganizationStats s !! k)) /\
    concat (map Fields (Attachments (formatSummary s runID)))
    = map (org_field (su_OrganizationStats s)) keys ++ [field "Run ID" runID true].
Proof.
  exists (sorted_keys (su_OrganizationStats s)). split; [apply sorted_keys_NoDup|].
  split; [apply Sorted_merge_sort; apply _|].
  split; [intros; apply elem_of_sorted_keys|]. unfold formatSummary. cbn [Attachments].
  destruct (sorted_keys (su_OrganizationStats s)) as [|k keys]; [done|].
  by apply summary_attachments_fields.
Qed.

(** ** Payloads through log records *)

(** The entries of an alert that are shown: the ten with the most failed sessions, in descending
    order, or all of them when there are no more. *)
Definition top_ten (details shown : list FailureDetail) : Prop :=
  exists rest, details ≡ₚ shown ++ rest /\ length shown = Nat.min 10 (length details) /\
    StronglySorted (fun a b => fd_FailedSessionCount b <= fd_FailedSessionCount a) shown /\
    forall a b, In a shown -> In b rest -> fd_FailedSessionCount b <= fd_FailedSessionCount a.

Definition sort_func : Type := (FailureDetail -> FailureDetail -> Z) -> list FailureDetail -> list FailureDetail.

(** The first ten after sorting. *)
Definition top (SortFunc : sort_func) (details : list FailureDetail) : list FailureDetail :=
  take 10 (SortFunc compare_details details).

Lemma StronglySorted_app_inv {A} (R : A -> A -> Prop) l1 l2 :
  StronglySorted R (l1 ++ l2) -> StronglySorted R l1 /\ forall a b, In a l1 -> In b l2 -> R a b.
Proof.
  induction l1 as [|x l1 IH]; simpl; [by repeat constructor|].
  intros [H Hx]%StronglySorted_inv. destruct (IH H) as [Hs Hr]. apply Forall_app in Hx as [Hx1 Hx2].
  split; [by constructor|]. intros a b [<-|Ha] Hb; [|by apply Hr]. by apply (proj1 (Forall_forall _ _) Hx2).
Qed.

Lemma top_top_ten SortFunc `{!Sorts SortFunc} details : top_ten details (top SortFunc details).
Proof.
  pose proof (sort_perm compare_details details) as Hp.
  pose proof (sort_sorted compare_details details compare_details_compares) as Hs. unfold top.
  exists (drop 10 (SortFunc compare_details details)). rewrite take_drop. split; [done|].
  split; [by rewrite length_take, Hp|].
  rewrite <- (take_drop 10 (SortFunc compare_details details)) in Hs. apply StronglySorted_app_inv in Hs as [Hs Hr]. split.
  - clear Hr Hp. induction Hs as [|x l Hs IH Hx]; constructor; [done|].
    eapply Forall_impl; [|exact Hx]. intros b. by rewrite compare_details_le.
  - intros a b Ha Hb. apply compare_details_le. by apply Hr.
Qed.

(** The alert as the receiving side sees it: the entries that are shown, with the number and the
    failed sessions of all entries, as [int64]s. *)
Definition sent_alert (shown : list FailureDetail -> list FailureDetail) (a : Alert) : Alert :=
  MkAlert (al_OrganizationName a) (al_PolicyType a) (al_FailureCount a) (al_DateRange a)
    (al_ReportID a) (shown (al_FailureDetails a)) (wrap64 (Z.of_nat (length (al_FailureDetails a))))
    (wrap64 (sumZ (map fd_FailedSessionCount (al_FailureDetails a)))).

Lemma detail_totals_spec details :
  detail_totals details =
  (wrap64 (Z.of_nat (length details)), wrap64 (sumZ (map fd_FailedSessionCount details))).
Proof.
  assert (H : forall c s, foldl (fun '(c, s) fd => (wrap64 (c + 1), wrap64 (s + fd_FailedSessionCount fd))) (wrap64 c, wrap64 s) details =
    (wrap64 (c + Z.of_nat (length details)), wrap64 (s + sumZ (map fd_FailedSessionCount details)))).
  { induction details as [|fd l IH]; intros c s; simpl; [by rewrite !Z.add_0_r|].
    rewrite !wrap64_add_l, IH. f_equal; f_equal; lia. }
  apply (H 0 0).
Qed.

Inductive notification : Type :=
  | NAlert (a : Alert)
  | NWarning (w : Warning)
  | NError (e : SystemError)
  | NSummary (s : Summary).

Definition log_notification (sort : sort_func) (n : notification) : option record :=
  match n with
  | NAlert a => LogAlert sort (fun _ => true) a
  | NWarning w => LogWarning (fun _ => true) w
  | NError e => LogSystemError (fun _ => true) e
  | NSummary s => LogSummary (fun _ => true) s
  end.

(** UIDs are 32-bit numbers. *)
Definition notification_ok (n : notification) : Prop :=
  match n with NWarning w => in_uint32 (w_UID w) /\ in_uint32 (w_UIDValidity w) | _ => True end.

Definition add_payload (shown : list FailureDetail -> list FailureDetail) (p : payloads) (n : notification) : payloads :=
  let 'MkPayloads al wa er su := p in
  match n with
  | NAlert a => MkPayloads (al ++ [sent_alert shown a]) wa er su
  | NWarning w => MkPayloads al (wa ++ [w]) er su
  | NError e => MkPayloads al wa (er ++ [e]) su
  | NSummary s => MkPayloads al wa er (su ++ [s])
  end.

Section roundtrip.
Context (value_text : value -> string) (sort : sort_func).

Lemma each_app {T} (f : T -> unknown_keys -> attr -> option (T * unknown_keys)) t ws l1 l2 :
  each f t ws (l1 ++ l2) = '(t', ws') ← each f t ws l1; each f t' ws' l2.
Proof.
  revert t ws. induction l1 as [|a l1 IH]; intros t ws; [done|]. simpl.
  destruct (f t ws a) as [[t' ws']|]; [|done]. simpl. apply IH.
Qed.

Lemma each_details msg fds ws i details :
  each (extract_detail value_text msg) fds ws (imap (fun k => detail_attr (i + k)) details)
  = Some (fds ++ details, ws).
Proof.
  revert fds i. induction details as [|fd details IH]; intros fds i; [by rewrite app_nil_r|].
  cbn [imap each]. unfold extract_detail at 1. unfold detail_attr at 1. simpl.
  destruct fd as [rt n mx rc]. simpl.
  rewrite (imap_ext _ (fun k => detail_attr (S i + k))).
  - by rewrite IH, <- app_assoc.
  - intros k x _. change (detail_attr (i + S k) x = detail_attr (S i + k) x). f_equal. lia.
Qed.

Lemma take_if_longer {A} (k : nat) (l : list A) :
  (if Z.of_nat (length l) >? Z.of_nat k then take k l else l) = take k l.
Proof.
  rewrite Z.gtb_ltb. destruct (Z.ltb_spec (Z.of_nat k) (Z.of_nat (length l))); [done|].
  by rewrite take_ge by lia.
Qed.

Lemma filter_detail_attrs i details :
  List.filter (fun a => negb (isEmptyGroup a)) (imap (fun k => detail_attr (i + k)) details)
  = imap (fun k => detail_attr (i + k)) details.
Proof. apply filter_all. intros x Hx%list_elem_of_In%elem_of_lookup_imap. naive_solver. Qed.

Lemma extract_LogAlert a r ws :
  LogAlert sort (fun _ => true) a = Some r ->
  extractAlert value_text r ws = Some (sent_alert (top sort) a, ws).
Proof.
  unfold LogAlert, sent_alert. rewrite detail_totals_spec, take_if_longer.
  change maxFailureDetails with 10%nat. fold (top sort (al_FailureDetails a)). remember (top sort (al_FailureDetails a)) as details.
  generalize (wrap64 (Z.of_nat (length (al_FailureDetails a)))) as c.
  generalize (wrap64 (sumZ (map fd_FailedSessionCount (al_FailureDetails a)))) as s. intros s c.
  pose proof (filter_detail_attrs 0 details : List.filter _ (imap detail_attr details) = imap detail_attr details) as Hf.
  pose proof (fun msg => each_details msg [] ws 0 details
              : each _ _ _ (imap detail_attr details) = _) as He.
  unfold Group. rewrite Hf. destruct a as [org pt fc [ds de] rid fds tc ts].
  destruct details as [|fd details]; [intros [= <-]; done|].
  destruct (imap detail_attr (fd :: details)) as [|ch chs] eqn:E; [done|].
  intros [= <-]. specialize (He "tls_failure_alert"). unfold extractAlert.
  cbn -[extract_detail] in He |- *. by rewrite He.
Qed.

Lemma extract_LogSystemError e r ws :
  LogSystemError (fun _ => true) e = Some r -> extractSystemError value_text r ws = Some (e, ws).
Proof.
  destruct e as [k c m]. unfold LogSystemError. simpl.
  destruct (String.eqb_spec m "") as [->|]; simpl; by intros [= <-].
Qed.

Lemma wrap32_id n : in_uint32 n -> wrap32 n = n.
Proof. intros H. by apply Z.mod_small. Qed.

Lemma extract_LogWarning w r ws :
  in_uint32 (w_UID w) -> in_uint32 (w_UIDValidity w) ->
  LogWarning (fun _ => true) w = Some r -> extractWarning value_text r ws = Some (w, ws).
Proof.
  destruct w as [k u uv m]. simpl. intros Hu Hv [= <-]. unfold extractWarning. simpl.
  by rewrite !wrap32_id.
Qed.

Lemma each_stats st msg m ws keys :
  each (extract_stat msg) m ws (map (fun k => (k, KindInt64 (stat st k))) keys)
  = Some (foldl (fun m k => <[k := stat st k]> m) m keys, ws).
Proof. revert m. induction keys as [|k keys IH]; intros m; [done|]. simpl. apply IH. Qed.

Lemma lookup_foldl_insert (st m : gmap string Z) keys k :
  foldl (fun m k => <[k := stat st k]> m) m keys !! k
  = if decide (k ∈ keys) then Some (stat st k) else m !! k.
Proof.
  revert m. induction keys as [|k' keys IH]; intros m; [done|]. simpl. rewrite IH.
  destruct (decide (k ∈ keys)); [by rewrite decide_True by (by right)|].
  destruct (decide (k = k')) as [->|Hne].
  - by rewrite decide_True, lookup_insert_eq by (by left).
  - rewrite decide_False, lookup_insert_ne; [done|done|]. by intros [?|?]%elem_of_cons.
Qed.

Lemma foldl_insert_all (st : gmap string Z) :
  foldl (fun m k => <[k := stat st k]> m) ∅ (sorted_keys st) = st.
Proof.
  apply map_eq. intros k. rewrite lookup_foldl_insert, lookup_empty. unfold stat.
  destruct (decide (k ∈ sorted_keys st)) as [[v Hv]%elem_of_sorted_keys|Hn]; [by rewrite Hv|].
  symmetry. apply eq_None_not_Some. by rewrite <- elem_of_sorted_keys.
Qed.

Lemma extract_LogSummary s r ws :
  LogSummary (fun _ => true) s = Some r -> extractSummary r ws = Some (s, ws).
Proof.
  destruct s as [[ps pe] st n]. unfold LogSummary. cbn [negb su_OrganizationStats su_Period su_ReportCount].
  pose proof (foldl_insert_all st) as Hst. pose proof (each_stats st "periodic_summary" ∅ ws (sorted_keys st)) as He.
  rewrite Hst in He. unfold Group.
  rewrite filter_all by (intros x (k & <- & _)%in_map_iff; done).
  intros [= <-]. unfold extractSummary. simpl.
  destruct (sorted_keys st) as [|k keys]; simpl in *; [by rewrite <- Hst|]. by rewrite He.
Qed.

(** The level and message each helper gives its record. *)
Definition head_of (n : notification) : Z * string :=
  match n with
  | NAlert _ => (LevelWarn, "tls_failure_alert")
  | NWarning _ => (LevelWarn, "fetch_warning")
  | NError _ => (LevelError, "system_error")
  | NSummary _ => (LevelInfo, "periodic_summary")
  end.

Lemma log_head n r : log_notification sort n = Some r -> (Level r, Message r) = head_of n.
Proof.
  destruct n as [a|w|e|s]; simpl.
  - unfold LogAlert. destruct (detail_totals _). by intros [= <-].
  - by intros [= <-].
  - unfold LogSystemError. simpl. destruct (negb _); by intros [= <-].
  - by intros [= <-].
Qed.

Lemma collect_log n r p ws :
  notification_ok n -> log_notification sort n = Some r ->
  collect_record value_text p ws r = Some (add_payload (top sort) p n, ws).
Proof.
  intros Hok Hl. pose proof (f_equal fst (log_head n r Hl)) as HL.
  pose proof (f_equal snd (log_head n r Hl)) as HM. cbn [fst snd] in HL, HM.
  unfold collect_record. destruct p as [al wa er su]. rewrite HL, HM.
  destruct n as [a|w|e|s]; cbn -[extractAlert extractWarning extractSystemError extractSummary].
  - by rewrite (extract_LogAlert a r ws Hl).
  - by rewrite (extract_LogWarning w r ws (proj1 Hok) (proj2 Hok) Hl).
  - by rewrite (extract_LogSystemError e r ws Hl).
  - by rewrite (extract_LogSummary s r ws Hl).
Qed.

Lemma log_notification_some n : is_Some (log_notification sort n).
Proof. destruct n as [a| | |]; simpl; try done. unfold LogAlert. by destruct (detail_totals _). Qed.

Lemma collect_records_log ns p ws :
  Forall notification_ok ns ->
  collect_records value_text p ws (omap (log_notification sort) ns)
  = Some (foldl (add_payload (top sort)) p ns, ws).
Proof.
  intros H. revert p. induction H as [|n ns Hn H IH]; intros p; [done|].
  simpl. destruct (log_notification_some n) as [r Hr]. rewrite Hr. simpl.
  rewrite (collect_log n r) by done. simpl. apply IH.
Qed.
End roundtrip.



(** ** Outside text cannot break lines *)

(** Well-formed text without anything a client renders as a line break. *)
Definition unbroken (s : string) : Prop :=
  exists rs, s = of_runes rs /\ valid_runes rs /\ Forall (fun r => renders_break r = false) rs.

Lemma unbroken_runes s : unbroken s -> Forall (fun r => renders_break r = false) (runes s).
Proof. intros (rs & -> & Hv & Hb). by rewrite runes_of_runes. Qed.

Lemma of_runes_app a b : of_runes (a ++ b) = String.append (of_runes a) (of_runes b).
Proof. induction a as [|r a IH]; [done|]. simpl. by rewrite IH, append_assoc. Qed.

Lemma unbroken_empty : unbroken "".
Proof. exists []. split; [done|]. split; constructor. Qed.

Lemma unbroken_append a b : unbroken a -> unbroken b -> unbroken (String.append a b).
Proof.
  intros (ra & -> & Hva & Hba) (rb & -> & Hvb & Hbb). exists (ra ++ rb). split_and!.
  - by rewrite of_runes_app.
  - by apply Forall_app.
  - by apply Forall_app.
Qed.

Lemma unbroken_Join sep ss : unbroken sep -> Forall unbroken ss -> unbroken (Join sep ss).
Proof.
  intros Hs H. induction H as [|s ss Hx H IH]; [apply unbroken_empty|].
  cbn [Join]. destruct ss; [done|]. by repeat apply unbroken_append.
Qed.

(** Constants of the source are checked by evaluation. *)
Definition unbroken_bool (s : string) : bool :=
  String.eqb s (of_runes (runes s)) && forallb (fun r => negb (renders_break r)) (runes s).

Lemma unbroken_const s : unbroken_bool s = true -> unbroken s.
Proof.
  unfold unbroken_bool. intros [He%String.eqb_eq Hb]%andb_true_iff.
  exists (runes s). split; [done|]. split; [apply runes_valid|].
  apply Forall_forall. intros r Hr.
  pose proof (proj1 (forallb_forall _ _) Hb r Hr) as Hn. by apply negb_true_iff in Hn.
Qed.

Lemma unbroken_normalize s : unbroken (normalizeControlChars s).
Proof.
  unfold normalizeControlChars, Map. eexists. split; [done|].
  pose proof (runes_valid s) as Hv. split.
  - apply Forall_map. eapply Forall_impl; [|exact Hv]. intros r Hr. simpl.
    by destruct (renders_break r).
  - apply Forall_map, Forall_true. intros r. by destruct (renders_break r) eqn:E.
Qed.

Lemma unbroken_Truncate s n : unbroken s -> unbroken (TruncateText s n).
Proof.
  intros (rs & -> & Hv & Hb). unfold TruncateText.
  repeat case_match; try apply unbroken_empty.
  - eexists. split; [done|]. split; [apply valid_runes_take, runes_valid|].
    apply Forall_take. by repeat constructor.
  - by exists rs.
  - apply unbroken_append; [|by apply unbroken_const].
    rewrite runes_of_runes by done. eexists. split; [done|].
    split; [by apply valid_runes_take|by apply Forall_take].
Qed.

Lemma unbroken_digits fuel n acc : unbroken acc -> unbroken (digits fuel n acc).
Proof.
  revert n acc. induction fuel as [|fuel IH]; intros n acc H; [done|]. cbn [digits].
  assert (Hd : unbroken (String (digit (n mod 10)) acc)).
  { pose proof (Z.mod_pos_bound n 10 ltac:(lia)) as Hm.
    apply (unbroken_append (String (digit (n mod 10)) "") acc); [|done].
    assert (Hr : forall_below 10 (fun d => unbroken_bool (String (digit d) "")) 0 = true)
      by (vm_compute; reflexivity).
    apply unbroken_const. apply (forall_below_spec _ _ _ _ Hr). lia. }
  destruct (n <? 10); [done|]. by apply IH.
Qed.

Lemma unbroken_fmt_u n : unbroken (fmt_u n).
Proof. apply unbroken_digits, unbroken_empty. Qed.

Lemma unbroken_fmt_d n : unbroken (fmt_d n).
Proof.
  unfold fmt_d. case_match; [|apply unbroken_fmt_u].
  apply unbroken_append; [by apply unbroken_const|apply unbroken_fmt_u].
Qed.

Lemma unbroken_zeros k : unbroken (zeros k).
Proof.
  induction k as [|k IH]; [apply unbroken_empty|].
  by apply (unbroken_append "0" (zeros k)); [apply unbroken_const|].
Qed.

Lemma unbroken_append_int w n : unbroken (append_int w n).
Proof.
  unfold append_int, pad_zeros. case_match; repeat apply unbroken_append;
    auto using unbroken_zeros, unbroken_fmt_u. by apply unbroken_const.
Qed.

Lemma unbroken_date t : unbroken (format_date_only t).
Proof.
  apply unbroken_Join; [by apply unbroken_const|]. repeat constructor; apply unbroken_append_int.
Qed.

Create HintDb unbroken.
#[export] Hint Resolve unbroken_empty unbroken_append unbroken_normalize unbroken_Truncate
  unbroken_fmt_d unbroken_date unbroken_Join : unbroken.
#[export] Hint Extern 1 (unbroken _) => (by apply unbroken_const) : unbroken.
#[export] Hint Constructors Forall : unbroken.

(** Text from a report cannot break the lines of a notification: whatever organization,
    policy type, host name, result type, reason code and report id a report contains, the summary
    of an alert, its report id and each line of its details hold no control character and no
    line or paragraph separator. *)
Theorem alert_text_unbroken a i fd :
  let clean s := Forall (fun r => renders_break r = false) (runes s) in
  clean (buildPolicySummaryText a) /\ clean (detail_line i fd) /\
  clean (TruncateText (normalizeControlChars (al_ReportID a)) maxAlertReportIDRunes).
Proof.
  cbv zeta. split_and!; apply unbroken_runes.
  - unfold buildPolicySummaryText. auto 20 with unbroken.
  - unfold detail_line. repeat case_match; auto 20 with unbroken.
  - auto with unbroken.
Qed.
