(* ===== verification/Retry.v ===== *)
(** * Delivery to a webhook (internal/notify/retry.go)

    One POST with retries. The outside world, the HTTP client, the context and the sleep, is
    described by functions of what was done so far: the events of the history are the requests
    sent, with their target and body, and the waits begun. Durations are [int64] nanoseconds. *)
From S2P Require Import Prelude GoStr GoTime GoErr NotifyTypes.

Definition Second : Z := 1000000000.
Definition maxCumulativeWait : Z := 14 * Second.

Record BackoffConfig := {
  Base : Z;
  RetryCount : Z
}.

Definition DefaultBackoffConfig : BackoffConfig := {| Base := 2 * Second; RetryCount := 3 |}.

Inductive event : Type :=
  | EPost (webhookURL body : string)
  | ESleep (d : Z).

(** The error of a request that got no response: [http.Client.Do] wraps it in a [*url.Error],
    which carries the URL. *)
Inductive request_error : Type :=
  | UrlError (op url : string) (e : goerr)
  | OtherError (e : goerr).

Inductive http_outcome : Type :=
  | PostFailed (e : request_error)
  | PostResult (statusCode : Z) (retryAfter : string).

Definition sanitizeRequestError (e : request_error) : goerr :=
  match e with
  | UrlError op _ e' => errorf (String.append op " [redacted]: ") e'
  | OtherError e' => e'
  end.

Definition maxBackoffShift : Z := 30.

Definition backoffDuration (base attempt : Z) : Z :=
  let attempt := if attempt >? maxBackoffShift then maxBackoffShift else attempt in
  let d := wrap64 (base * Z.shiftl 1 attempt) in
  if d >? maxCumulativeWait then maxCumulativeWait else d.

Definition maxRetryAfterSeconds : Z := Z.quot maxCumulativeWait Second.

Definition parseRetryAfter (header : string) : option Z :=
  if String.eqb header "" then None
  else match Atoi header with
       | None => None
       | Some secs =>
           if secs <? 0 then None
           else
             let secs := if secs >? maxRetryAfterSeconds then maxRetryAfterSeconds else secs in
             Some (wrap64 (secs * Second))
       end.

Definition maskedWebhookURL (_ : string) : string := "[webhook URL redacted]".

Definition StatusTooManyRequests : Z := 429.

(** What [doAttempt] returns. *)
Record attempt_result := MkAttempt {
  at_done : bool;
  at_retryWait : Z;
  at_retryAfterSeen : bool;
  at_err : option goerr
}.

(** How the loop is left: by a return, or by [break] or its condition with [lastErr]. *)
Inductive loop_exit : Type :=
  | Returned (r : option goerr)
  | Exhausted (lastErr : option goerr).

Section retry.
(** [ctx.Err()], [doPost] and [sleep] after a history. *)
Variable ctx_err : list event -> option goerr.
Variable doPost : list event -> http_outcome.
Variable sleep : list event -> Z -> option goerr.
(** [json.Marshal] *)
Variable marshal : slackMessage -> result string.

Definition doAttempt (webhookURL body : string) (h : list event) : list event * attempt_result :=
  match ctx_err h with
  | Some e => (h, MkAttempt true 0 false (Some e))
  | None =>
      let h' := h ++ [EPost webhookURL body] in
      match doPost h with
      | PostFailed postErr =>
          match ctx_err h' with
          | Some ctxErr => (h', MkAttempt true 0 false (Some ctxErr))
          | None => (h', MkAttempt false 0 false
                           (Some (SlackServerError 0 (Some (sanitizeRequestError postErr)))))
          end
      | PostResult sc retryAfter =>
          if (sc >=? 200) && (sc <? 300) then (h', MkAttempt true 0 false None)
          else if (sc =? StatusTooManyRequests) || (sc >=? 500) then
            match (if sc =? StatusTooManyRequests then parseRetryAfter retryAfter else None) with
            | Some d => (h', MkAttempt false d true (Some (SlackServerError sc None)))
            | None => (h', MkAttempt false 0 false (Some (SlackServerError sc None)))
            end
          else (h', MkAttempt true 0 false (Some (SlackClientError sc)))
      end
  end.

(** The loop; [fuel] is the number of iterations left by its condition [attempt <= RetryCount]. *)
Fixpoint retry_loop (webhookURL body : string) (fuel : nat) (backoff : BackoffConfig) (attempt : Z) (h : list event)
    (lastErr : option goerr) (cumulativeWait : Z) (retryAfterHandled : bool)
  : list event * loop_exit :=
  match fuel with
  | O => (h, Exhausted lastErr)
  | S f =>
      let continue h cumulativeWait :=
        let '(h, r) := doAttempt webhookURL body h in
        if at_done r then (h, Returned (at_err r))
        else
          let lastErr := match at_err r with Some e => Some e | None => lastErr end in
          if at_retryAfterSeen r then
            if attempt =? RetryCount backoff then (h, Exhausted lastErr)
            else if at_retryWait r >? 0 then
              if wrap64 (cumulativeWait + at_retryWait r) >? maxCumulativeWait
              then (h, Exhausted lastErr)
              else match sleep h (at_retryWait r) with
                   | Some e => (h ++ [ESleep (at_retryWait r)], Returned (Some e))
                   | None => retry_loop webhookURL body f backoff (attempt + 1) (h ++ [ESleep (at_retryWait r)])
                               lastErr (wrap64 (cumulativeWait + at_retryWait r)) true
                   end
            else retry_loop webhookURL body f backoff (attempt + 1) h lastErr cumulativeWait true
          else retry_loop webhookURL body f backoff (attempt + 1) h lastErr cumulativeWait false in
      if (attempt >? 0) && negb retryAfterHandled then
        let wait := backoffDuration (Base backoff) (attempt - 1) in
        if wrap64 (cumulativeWait + wait) >? maxCumulativeWait then (h, Exhausted lastErr)
        else match sleep h wait with
             | Some e => (h ++ [ESleep wait], Returned (Some e))
             | None => continue (h ++ [ESleep wait]) (wrap64 (cumulativeWait + wait))
             end
      else continue h cumulativeWait
  end.

(** [postConfig.backoff], with the default for the zero value. *)
Definition effective_backoff (b : BackoffConfig) : BackoffConfig :=
  if (Base b =? 0) && (RetryCount b =? 0) then DefaultBackoffConfig else b.

Definition postWithRetry (h : list event) (backoff : BackoffConfig) (webhookURL maskedURL : string)
    (payload : slackMessage) : list event * option goerr :=
  match marshal payload with
  | Err e => (h, Some (errorf "notify: marshal payload: " e))
  | Ok body =>
      let backoff := effective_backoff backoff in
      match retry_loop webhookURL body (Z.to_nat (RetryCount backoff + 1)) backoff 0 h None 0 false with
      | (h', Returned r) => (h', r)
      | (h', Exhausted lastErr) =>
          let lastErr := default (SlackServerError 0 None) lastErr in
          (h', Some (errorf (Join "" ["notify: all retries exhausted for "; maskedURL; ": "]) lastErr))
      end
  end.
End retry.
