(* ===== verification/RetryProps.v ===== *)
(** * Properties of delivery (internal/notify/retry.go)

    The number of requests and the total wait are bounded, a request is repeated only after an
    outcome that allows it, and the result tells whether a request succeeded. *)
From S2P Require Import Prelude GoStr GoTime GoErr NotifyTypes Retry.

(** The requests of a history, and the time it spends waiting. *)
Definition posts (l : list event) : nat :=
  length (List.filter (fun e => match e with EPost _ _ => true | _ => false end) l).

Fixpoint waited (l : list event) : Z :=
  match l with [] => 0 | ESleep d :: l' => d + waited l' | EPost _ _ :: l' => waited l' end.

Definition waits_nonneg (l : list event) : Prop :=
  Forall (fun e => match e with ESleep d => 0 <= d | EPost _ _ => True end) l.

(** No response, 429, or a server error. *)
Definition retryable (o : http_outcome) : Prop :=
  match o with PostFailed _ => True | PostResult sc _ => sc = 429 \/ 500 <= sc end.

Definition successful (o : http_outcome) : Prop :=
  match o with PostFailed _ => False | PostResult sc _ => 200 <= sc < 300 end.

Lemma retryable_not_successful o : retryable o -> successful o -> False.
Proof. destruct o; simpl; [done|lia]. Qed.

Lemma backoffDuration_bounds base attempt :
  0 <= base < 2 ^ 33 -> 0 <= attempt -> 0 <= backoffDuration base attempt <= maxCumulativeWait.
Proof.
  intros Hb Ha. unfold backoffDuration.
  set (a := if attempt >? maxBackoffShift then maxBackoffShift else attempt).
  assert (Ha' : 0 <= a <= 30).
  { unfold a, maxBackoffShift. rewrite Z.gtb_ltb. destruct (Z.ltb_spec 30 attempt); lia. }
  rewrite Z.shiftl_1_l.
  assert (H2 : 0 < 2 ^ a <= 2 ^ 30) by (split; [apply Z.pow_pos_nonneg|apply Z.pow_le_mono_r]; lia).
  assert (Hm : 0 <= base * 2 ^ a <= (2 ^ 33 - 1) * 2 ^ 30)
    by (split; [apply Z.mul_nonneg_nonneg|apply Z.mul_le_mono_nonneg]; lia).
  rewrite wrap64_id by (unfold in_int64; lia).
  rewrite Z.gtb_ltb. destruct (Z.ltb_spec maxCumulativeWait (base * 2 ^ a)); [done|lia].
Qed.

(** Beyond about 8.6 seconds the cap on the shift does not prevent the overflow it is there for:
    the wait becomes negative. *)
Example backoffDuration_overflow : backoffDuration (10 * Second) 30 < 0.
Proof. vm_compute. reflexivity. Qed.

Lemma parseRetryAfter_bounds s d : parseRetryAfter s = Some d -> 0 <= d <= maxCumulativeWait.
Proof.
  unfold parseRetryAfter. destruct (String.eqb s ""); [done|]. destruct (Atoi s) as [secs|]; [|done].
  change maxRetryAfterSeconds with 14. unfold maxCumulativeWait, Second.
  destruct (Z.ltb_spec secs 0); [done|]. rewrite Z.gtb_ltb. intros [= <-].
  destruct (Z.ltb_spec 14 secs); rewrite wrap64_id by (unfold in_int64; lia); lia.
Qed.

Section retry.
Context (ctx_err : list event -> option goerr) (doPost : list event -> http_outcome)
  (sleep : list event -> Z -> option goerr) (marshal : slackMessage -> result string) (url body : string).

Abbreviation doAttempt := (doAttempt ctx_err doPost url body).
Abbreviation retry_loop := (retry_loop ctx_err doPost sleep url body).

(** The four ways an attempt ends. *)
Lemma doAttempt_cases h :
  let '(h', r) := doAttempt h in
  (h' = h /\ at_done r = true /\ at_err r <> None) \/
  (h' = h ++ [EPost url body] /\
   (at_done r = true /\ (at_err r = None <-> successful (doPost h)) \/
    at_done r = false /\ retryable (doPost h) /\ at_err r <> None /\
    0 <= at_retryWait r <= maxCumulativeWait)).
Proof.
  unfold Retry.doAttempt, maxCumulativeWait, Second. destruct (ctx_err h); [by left|].
  destruct (doPost h) as [e|sc ra] eqn:Hp.
  - destruct (ctx_err _); right; (split; [done|]); simpl; [by left|].
    right. split_and!; try done; lia.
  - destruct ((sc >=? 200) && (sc <? 300)) eqn:Hs.
    { zbool. right. split; [done|]. left. simpl. split; [done|]. split; [lia|done]. }
    assert (Hns : ~ (200 <= sc < 300)).
    { intros [??]. rewrite Z.geb_leb, (proj2 (Z.leb_le _ _)), (proj2 (Z.ltb_lt _ _)) in Hs by lia. done. }
    destruct ((sc =? StatusTooManyRequests) || (sc >=? 500)) eqn:Hr.
    + assert (sc = 429 \/ 500 <= sc) by (apply orb_true_iff in Hr as [?|?]; zbool; auto).
      destruct (if sc =? StatusTooManyRequests then _ else _) as [d|] eqn:Hd; right; (split; [done|right]).
      * destruct (sc =? _); [|done]. apply parseRetryAfter_bounds in Hd.
        unfold maxCumulativeWait, Second in Hd. simpl. split_and!; try done; lia.
      * simpl. split_and!; try done; lia.
    + right. split; [done|]. left. simpl. split; [done|]. split; [done|]. by intros ?.
Qed.

(** What is known about the events [l] that follow [h], with [n] requests and [maxCumulativeWait
    - cum] of waiting left. *)
Record run_ok (h l : list event) (cum : Z) (n : nat) (x : loop_exit) : Prop := {
  run_posts : (posts l <= n)%nat;
  run_waited : cum + waited l <= maxCumulativeWait;
  run_waits : waits_nonneg l;
  run_retries l0 l1 : l = l0 ++ EPost url body :: l1 -> l1 <> [] -> retryable (doPost (h ++ l0));
  run_result : x = Returned None <-> exists l0, l = l0 ++ [EPost url body] /\ successful (doPost (h ++ l0))
}.

Lemma run_ok_nil h cum n x : cum <= maxCumulativeWait -> x <> Returned None -> run_ok h [] cum n x.
Proof.
  intros Hc Hx. split; simpl; [unfold posts; simpl; lia|lia|constructor| |].
  - by intros [|??] ?.
  - split; [done|]. by intros ([|??] & ? & _).
Qed.

Lemma run_ok_sleep h l d cum n x :
  0 <= d -> run_ok (h ++ [ESleep d]) l (cum + d) n x -> run_ok h (ESleep d :: l) cum n x.
Proof.
  intros Hd [Hp Hw Hn Hr Hx]. split; simpl; [done|lia|by constructor| |].
  - intros [|e l0] l1; [done|]. intros [= <- ->] Hl1.
    rewrite (app_assoc h [ESleep d] l0 : h ++ ESleep d :: l0 = _). by apply (Hr l0 l1).
  - rewrite Hx. split.
    + intros (l0 & -> & Hs). exists (ESleep d :: l0). by rewrite <- app_assoc in Hs.
    + intros ([|e l0] & Hl & Hs); [done|]. injection Hl as <- ->. exists l0. by rewrite <- app_assoc.
Qed.

Lemma run_ok_post h l cum n x :
  retryable (doPost h) -> run_ok (h ++ [EPost url body]) l cum n x -> run_ok h (EPost url body :: l) cum (S n) x.
Proof.
  intros Hret [Hp Hw Hn Hr Hx]. split; simpl; [unfold posts in *; simpl; lia|done|by constructor| |].
  - intros [|e l0] l1; [rewrite app_nil_r; done|]. intros [= <- ->] Hl1.
    rewrite (app_assoc h [EPost url body] l0 : h ++ EPost url body :: l0 = _). by apply (Hr l0 l1).
  - rewrite Hx. split.
    + intros (l0 & -> & Hs). exists (EPost url body :: l0). by rewrite <- app_assoc in Hs.
    + intros ([|e l0] & Hl & Hs).
      * rewrite app_nil_r in Hs. by destruct (retryable_not_successful _ Hret Hs).
      * injection Hl as <- ->. exists l0. by rewrite <- app_assoc.
Qed.

(** An attempt that ends the loop. *)
Lemma run_ok_last h cum n x :
  cum <= maxCumulativeWait -> (x = Returned None <-> successful (doPost h)) ->
  run_ok h [EPost url body] cum (S n) x.
Proof.
  intros Hc Hx. split; simpl; [unfold posts; simpl; lia|lia|by repeat constructor| |].
  - intros [|e l0] l1; [by intros [= <-]|]. by destruct l0.
  - rewrite Hx. split; [intros Hs; exists []; by rewrite app_nil_r|].
    intros ([|e l0] & Hl & Hs); [by rewrite app_nil_r in Hs|]. by destruct l0.
Qed.

Lemma sum_in_range cum d :
  0 <= cum <= maxCumulativeWait -> 0 <= d <= maxCumulativeWait -> wrap64 (cum + d) = cum + d.
Proof. intros. apply wrap64_id. unfold in_int64, maxCumulativeWait, Second in *. lia. Qed.

(** The run from a state on, as a statement about the result of the loop. *)
Definition loop_ok (h : list event) (cum : Z) (n : nat) (r : list event * loop_exit) : Prop :=
  exists l, r.1 = h ++ l /\ run_ok h l cum n r.2.

Lemma loop_ok_stop h cum n x :
  cum <= maxCumulativeWait -> x <> Returned None -> loop_ok h cum n (h, x).
Proof. intros Hc Hx. exists []. split; [by rewrite app_nil_r|by apply run_ok_nil]. Qed.

Lemma loop_ok_sleep h d cum n r :
  0 <= d -> loop_ok (h ++ [ESleep d]) (cum + d) n r -> loop_ok h cum n r.
Proof.
  intros Hd (l & Hl & Hr). exists (ESleep d :: l). split; [by rewrite Hl, <- app_assoc|].
  by apply run_ok_sleep.
Qed.

Lemma loop_ok_post h cum n r :
  retryable (doPost h) -> loop_ok (h ++ [EPost url body]) cum n r -> loop_ok h cum (S n) r.
Proof.
  intros Hd (l & Hl & Hr). exists (EPost url body :: l). split; [by rewrite Hl, <- app_assoc|].
  by apply run_ok_post.
Qed.
Lemma loop_ok_last h cum n x :
  cum <= maxCumulativeWait -> (x = Returned None <-> successful (doPost h)) ->
  loop_ok h cum (S n) (h ++ [EPost url body], x).
Proof. intros Hc Hx. exists [EPost url body]. split; [done|]. by apply run_ok_last. Qed.

(** The part of an iteration from the request on. *)
Lemma attempt_ok f backoff attempt h lastErr cum :
  (forall h lastErr cum handled, 0 <= cum <= maxCumulativeWait ->
     loop_ok h cum f (retry_loop f backoff (attempt + 1) h lastErr cum handled)) ->
  0 <= cum <= maxCumulativeWait ->
  loop_ok h cum (S f)
    (let '(h, r) := doAttempt h in
     if at_done r then (h, Returned (at_err r))
     else
       let lastErr := match at_err r with Some e => Some e | None => lastErr end in
       if at_retryAfterSeen r then
         if attempt =? RetryCount backoff then (h, Exhausted lastErr)
         else if at_retryWait r >? 0 then
           if wrap64 (cum + at_retryWait r) >? maxCumulativeWait then (h, Exhausted lastErr)
           else match sleep h (at_retryWait r) with
                | Some e => (h ++ [ESleep (at_retryWait r)], Returned (Some e))
                | None => retry_loop f backoff (attempt + 1) (h ++ [ESleep (at_retryWait r)])
                            lastErr (wrap64 (cum + at_retryWait r)) true
                end
         else retry_loop f backoff (attempt + 1) h lastErr cum true
       else retry_loop f backoff (attempt + 1) h lastErr cum false).
Proof.
  intros IH Hc. pose proof (doAttempt_cases h) as Ha. destruct (doAttempt h) as [h' r].
  destruct Ha as [(-> & -> & He)|[-> [(-> & He)|(-> & Hret & Her & Hw)]]].
  - apply loop_ok_stop; [lia|]. by intros [=].
  - apply loop_ok_last; [lia|]. rewrite <- He. split; [by intros [=]|by intros ->].
  - cbv zeta. apply loop_ok_post; [done|].
    destruct (at_retryAfterSeen r); [|by apply IH].
    destruct (attempt =? RetryCount backoff); [apply loop_ok_stop; [lia|done]|].
    destruct (at_retryWait r >? 0); [|by apply IH].
    rewrite sum_in_range by done. rewrite Z.gtb_ltb.
    destruct (Z.ltb_spec maxCumulativeWait (cum + at_retryWait r)); [apply loop_ok_stop; [lia|done]|].
    apply (loop_ok_sleep _ (at_retryWait r)); [lia|].
    destruct (sleep _ _); [apply loop_ok_stop; [lia|by intros [=]]|]. apply IH. lia.
Qed.

Lemma retry_loop_ok fuel backoff attempt h lastErr cum handled :
  0 <= Base backoff < 2 ^ 33 -> 0 <= attempt -> 0 <= cum <= maxCumulativeWait ->
  loop_ok h cum fuel (retry_loop fuel backoff attempt h lastErr cum handled).
Proof.
  intros Hb. revert attempt h lastErr cum handled.
  induction fuel as [|f IH]; intros attempt h lastErr cum handled Ha Hc;
    [apply loop_ok_stop; [lia|done]|].
  assert (IH' : forall h lastErr cum handled, 0 <= cum <= maxCumulativeWait ->
     loop_ok h cum f (retry_loop f backoff (attempt + 1) h lastErr cum handled))
    by (intros; apply IH; lia).
  cbn [Retry.retry_loop]. destruct ((attempt >? 0) && negb handled) eqn:Hw; [|by apply attempt_ok].
  zbool. pose proof (backoffDuration_bounds (Base backoff) (attempt - 1) Hb ltac:(lia)) as Hd.
  cbv zeta. rewrite sum_in_range by done. rewrite Z.gtb_ltb.
  destruct (Z.ltb_spec maxCumulativeWait (cum + backoffDuration (Base backoff) (attempt - 1)));
    [apply loop_ok_stop; [lia|done]|].
  apply (loop_ok_sleep _ (backoffDuration (Base backoff) (attempt - 1))); [lia|].
  destruct (sleep _ _); [apply loop_ok_stop; [lia|by intros [=]]|]. apply attempt_ok; [done|lia].
Qed.

(** The whole delivery, from an empty history. *)
Lemma postWithRetry_run backoff masked payload :
  0 <= Base backoff < 2 ^ 33 -> 0 <= RetryCount backoff -> marshal payload = Ok body ->
  exists l x,
    postWithRetry ctx_err doPost sleep marshal [] backoff url masked payload
    = (l, match x with
          | Returned r => r
          | Exhausted e => Some (errorf (Join "" ["notify: all retries exhausted for "; masked; ": "])
                                   (default (SlackServerError 0 None) e))
          end) /\
    run_ok [] l 0 (Z.to_nat (RetryCount (effective_backoff backoff) + 1)) x.
Proof.
  intros Hb Hr Hm. unfold postWithRetry. rewrite Hm. cbv zeta.
  assert (Hb' : 0 <= Base (effective_backoff backoff) < 2 ^ 33).
  { unfold effective_backoff. destruct (_ && _); [|done]. vm_compute. by split. }
  pose proof (retry_loop_ok (Z.to_nat (RetryCount (effective_backoff backoff) + 1))
                (effective_backoff backoff) 0 [] None 0 false Hb') as (l & Hl & Hrun).
  - done.
  - unfold maxCumulativeWait, Second. lia.
  - destruct (retry_loop _ _ _ _ _ _ _) as [h' x]. simpl in *. subst h'. exists l, x.
    split; [by destruct x|done].
Qed.
End retry.

Section properties.
Context (ctx_err : list event -> option goerr) (doPost : list event -> http_outcome)
  (sleep : list event -> Z -> option goerr) (marshal : slackMessage -> result string).

(** C28: however the server, the context and the clock behave, one message costs at most
    [RetryCount + 1] requests (four with the default configuration) and at most 14 seconds of
    waiting between them, and no wait is negative, for any base delay below [2^33] nanoseconds,
    about 8.6 seconds. *)
Theorem postWithRetry_bounded backoff url masked payload :
  0 <= Base backoff < 2 ^ 33 -> 0 <= RetryCount backoff ->
  let l := (postWithRetry ctx_err doPost sleep marshal [] backoff url masked payload).1 in
  Z.of_nat (posts l) <= RetryCount (effective_backoff backoff) + 1 /\
  waited l <= maxCumulativeWait /\ waits_nonneg l.
Proof.
  intros Hb Hr. cbv zeta. destruct (marshal payload) as [body|e] eqn:Hm.
  - destruct (postWithRetry_run ctx_err doPost sleep marshal url body backoff masked payload Hb Hr Hm)
      as (l & x & -> & Hrun). simpl. split_and!; [|apply (run_waited _ _ _ _ _ _ _ _ Hrun)|apply Hrun].
    pose proof (run_posts _ _ _ _ _ _ _ _ Hrun) as Hp.
    assert (0 <= RetryCount (effective_backoff backoff))
      by (unfold effective_backoff; case_match; [vm_compute; done|done]). lia.
  - unfold postWithRetry. rewrite Hm. simpl. split_and!; [|unfold maxCumulativeWait, Second; lia|constructor].
    unfold effective_backoff. case_match; vm_compute posts; simpl; [done|lia].
Qed.

(** A request is repeated only after no response, a 429 or a server error, never after
    another client error or a success; and delivery reports no error exactly when the last thing
    done was a request that the server answered with a 2xx status. *)
Theorem postWithRetry_result backoff url masked payload body :
  0 <= Base backoff < 2 ^ 33 -> 0 <= RetryCount backoff -> marshal payload = Ok body ->
  let '(l, r) := postWithRetry ctx_err doPost sleep marshal [] backoff url masked payload in
  (forall l0 l1, l = l0 ++ EPost url body :: l1 -> l1 <> [] -> retryable (doPost l0)) /\
  (r = None <-> exists l0, l = l0 ++ [EPost url body] /\ successful (doPost l0)).
Proof.
  intros Hb Hr Hm.
  destruct (postWithRetry_run ctx_err doPost sleep marshal url body backoff masked payload Hb Hr Hm)
    as (l & x & -> & Hrun). split; [apply (run_retries _ _ _ _ _ _ _ _ Hrun)|].
  rewrite <- (run_result _ _ _ _ _ _ _ _ Hrun). destruct x as [r|e]; [|done].
  split; [by intros ->|by intros [= ->]].
Qed.
End properties.

(** A server that is overloaded once, then fails once, then accepts. *)
Definition sample_server (h : list event) : http_outcome :=
  match posts h with
  | O => PostResult 429 "1"
  | 1%nat => PostFailed (UrlError "Post" "https://hooks.example/secret" (Text "connection reset"))
  | _ => PostResult 200 ""
  end.

Lemma postWithRetry_bounded_witness :
  0 <= Base DefaultBackoffConfig < 2 ^ 33 /\ 0 <= RetryCount DefaultBackoffConfig /\
  Z.of_nat (posts (postWithRetry (fun _ => None) sample_server (fun _ _ => None) (fun _ => Ok "{}") []
                     DefaultBackoffConfig "u" "m" {| sm_Text := ""; Attachments := [] |}).1) <= 4.
Proof.
  assert (Hb : 0 <= Base DefaultBackoffConfig < 2 ^ 33) by (vm_compute; split; [discriminate|reflexivity]).
  assert (Hr : 0 <= RetryCount DefaultBackoffConfig) by (vm_compute; discriminate).
  split; [exact Hb|]. split; [exact Hr|].
  exact (proj1 (postWithRetry_bounded (fun _ => None) sample_server (fun _ _ => None) (fun _ => Ok "{}")
                  DefaultBackoffConfig "u" "m" {| sm_Text := ""; Attachments := [] |} Hb Hr)).
Defined.

Lemma postWithRetry_result_witness :
  exists l0,
    (postWithRetry (fun _ => None) sample_server (fun _ _ => None) (fun _ => Ok "{}") []
       DefaultBackoffConfig "u" "m" {| sm_Text := ""; Attachments := [] |}).1 = l0 ++ [EPost "u" "{}"] /\
    l0 = [EPost "u" "{}"; ESleep Second; EPost "u" "{}"; ESleep (4 * Second)] /\ successful (sample_server l0).
Proof.
  assert (Hb : 0 <= Base DefaultBackoffConfig < 2 ^ 33) by (vm_compute; split; [discriminate|reflexivity]).
  assert (Hr : 0 <= RetryCount DefaultBackoffConfig) by (vm_compute; discriminate).
  pose proof (postWithRetry_result (fun _ => None) sample_server (fun _ _ => None) (fun _ => Ok "{}")
                DefaultBackoffConfig "u" "m" {| sm_Text := ""; Attachments := [] |} "{}" Hb Hr eq_refl) as H.
  vm_compute in H |- *. destruct H as [_ H]. destruct (proj1 H eq_refl) as (l0 & E & Hs).
  eexists [_; _; _; _]. split; [reflexivity|]. split; [reflexivity|]. split; [discriminate|reflexivity].
Defined.
