(* ===== verification/Handler.v ===== *)
(** * Slack handlers (internal/notify/handler.go, options.go, validate.go) and the notification
      sink (cmd/tlsrpt-digest/boot.go)

    A handler buffers log records and sends them when flushed. Its state is explicit; the outside
    world of a flush is that of [Retry]. The concurrent use of a handler is a sequence of the two
    atomic sections of its mutex, [Handle] and [takeSnapshot]. *)
From S2P Require Import Prelude GoStr GoTime GoErr NotifyTypes Helpers Format Retry.

(** ** Validation (validate.go) *)

Definition EnvSlackWebhookURLSuccess : string := "TLSRPT_SLACK_WEBHOOK_URL_SUCCESS".
Definition EnvSlackWebhookURLError : string := "TLSRPT_SLACK_WEBHOOK_URL_ERROR".

Definition ValidateEnvCombination (successURL errorURL : string) : option goerr :=
  if negb (String.eqb successURL "") && String.eqb errorURL ""
  then Some (WebhookValidationError
    (Join "" [EnvSlackWebhookURLSuccess; " is set but "; EnvSlackWebhookURLError;
              " is not; error notifications must be enabled to prevent silent failures"]))
  else None.

(** What the program looks at of a [*url.URL]. *)
Record url := { Scheme : string; Host : string; Hostname : string }.

Section validate.
(** [url.Parse] and [strings.ToLower] *)
Variable url_Parse : string -> option url.
Variable ToLower : string -> string.

Definition validateWebhookURL (webhookURL allowedHost : string) : option goerr :=
  if String.eqb webhookURL "" then Some (WebhookValidationError "webhook URL must not be empty")
  else match url_Parse webhookURL with
       | None => Some (WebhookValidationError "invalid webhook URL format")
       | Some u =>
           if negb (String.eqb (Scheme u) "https")
           then Some (WebhookValidationError
                        (String.append "webhook URL must use HTTPS scheme, got " (fmt_q (Scheme u))))
           else if String.eqb (Host u) ""
           then Some (WebhookValidationError "webhook URL must have a host")
           else if String.eqb allowedHost ""
           then Some (WebhookValidationError "notify.slack.allowed_host is not configured")
           else
             let hostname := ToLower (Hostname u) in
             if negb (String.eqb hostname (ToLower allowedHost))
             then Some (WebhookValidationError
                          (Join "" ["webhook URL host "; fmt_q hostname;
                                    " does not match allowed_host "; fmt_q allowedHost]))
             else None
       end.

(** ** Handlers (options.go, handler.go) *)

Definition LevelModeExactInfo : string := "exact_info".
Definition LevelModeWarnAndAbove : string := "warn_and_above".

(** The options that decide what a handler does; the HTTP client, the debug logger and the test
    hooks belong to the outside world. *)
Record SlackHandlerOptions := {
  WebhookURL : string;
  AllowedHost : string;
  RunID : string;
  LevelMode : string;
  IsDryRun : bool;
  Backoff : BackoffConfig
}.

Record SlackHandler := { opts : SlackHandlerOptions; buf : list record }.

Definition with_backoff (o : SlackHandlerOptions) (b : BackoffConfig) : SlackHandlerOptions :=
  {| WebhookURL := WebhookURL o; AllowedHost := AllowedHost o; RunID := RunID o;
     LevelMode := LevelMode o; IsDryRun := IsDryRun o; Backoff := b |}.

Definition with_url_mode (o : SlackHandlerOptions) (url mode : string) : SlackHandlerOptions :=
  {| WebhookURL := url; AllowedHost := AllowedHost o; RunID := RunID o;
     LevelMode := mode; IsDryRun := IsDryRun o; Backoff := Backoff o |}.

Definition with_mode (o : SlackHandlerOptions) (mode : string) : SlackHandlerOptions :=
  with_url_mode o (WebhookURL o) mode.

Definition NewSlackHandler (o : SlackHandlerOptions) : result SlackHandler :=
  match (if negb (IsDryRun o) || negb (String.eqb (WebhookURL o) "")
         then validateWebhookURL (WebhookURL o) (AllowedHost o) else None) with
  | Some e => Err e
  | None =>
      if (Base (Backoff o) <? 0) || (RetryCount (Backoff o) <? 0)
      then Err (WebhookValidationError "BackoffConfig.Base and RetryCount must not be negative")
      else Ok {| opts := if (Base (Backoff o) =? 0) && (RetryCount (Backoff o) =? 0)
                         then with_backoff o DefaultBackoffConfig else o;
                 buf := [] |}
  end.

Definition BuildHandlers (successURL errorURL allowedHost : string) (o : SlackHandlerOptions)
  : result (list SlackHandler) :=
  if String.eqb successURL "" && String.eqb errorURL "" then
    if negb (IsDryRun o) then Ok []
    else match NewSlackHandler (with_mode o LevelModeExactInfo) with
         | Err e => Err e
         | Ok hSuccess =>
             match NewSlackHandler (with_mode o LevelModeWarnAndAbove) with
             | Err e => Err e
             | Ok hErr => Ok [hSuccess; hErr]
             end
         end
  else
    match ValidateEnvCombination successURL errorURL with
    | Some e => Err e
    | None =>
    match (if negb (String.eqb successURL "") then validateWebhookURL successURL allowedHost else None) with
    | Some e => Err e
    | None =>
    match (if negb (String.eqb errorURL "") then validateWebhookURL errorURL allowedHost else None) with
    | Some e => Err e
    | None =>
        let add (handlers : list SlackHandler) url mode k :=
          if negb (String.eqb url "") then
            match NewSlackHandler (with_url_mode o url mode) with
            | Err e => Err e
            | Ok h => k (handlers ++ [h])
            end
          else k handlers in
        add [] successURL LevelModeExactInfo (fun handlers =>
        add handlers errorURL LevelModeWarnAndAbove (fun handlers => Ok handlers))
    end end end.
End validate.

Definition Enabled (h : SlackHandler) (level : Z) : bool :=
  if String.eqb (LevelMode (opts h)) LevelModeExactInfo then level =? LevelInfo
  else if String.eqb (LevelMode (opts h)) LevelModeWarnAndAbove then level >=? LevelWarn
  else level >=? LevelInfo.

Definition Handle (h : SlackHandler) (r : record) : SlackHandler :=
  {| opts := opts h; buf := buf h ++ [r] |}.

Definition takeSnapshot (h : SlackHandler) : list record * SlackHandler :=
  (buf h, {| opts := opts h; buf := [] |}).

Section flush.
Variable value_text : value -> string.
Variable ctx_err : list event -> option goerr.
Variable doPost : list event -> http_outcome.
Variable sleep : list event -> Z -> option goerr.
Variable marshal : slackMessage -> result string.

(** The loop of [send] over the messages: each is delivered whatever happened to those before. *)
Fixpoint send_loop (o : SlackHandlerOptions) (h : list event) (msgs : list slackMessage)
    (errs : list (option goerr)) : list event * list (option goerr) :=
  match msgs with
  | [] => (h, errs)
  | msg :: msgs' =>
      let '(h', err) := postWithRetry ctx_err doPost sleep marshal h (Backoff o)
                          (WebhookURL o) (maskedWebhookURL (WebhookURL o)) (truncateMessage msg) in
      send_loop o h' msgs' (errs ++ [err])
  end.

(** [None]: formatting panics. *)
Definition send (o : SlackHandlerOptions) (h : list event) (rs : list record)
  : option (list event * option goerr) :=
  '(msgs, _) ← formatRecords value_text rs (RunID o);
  let '(h', errs) := send_loop o h msgs [] in
  Some (h', join_errs errs).

(** [Flush]: the handler, the history, the messages logged in dry-run mode, and the error. *)
Definition Flush (hd : SlackHandler) (h : list event)
  : option (SlackHandler * list event * list slackMessage * option goerr) :=
  let '(snapshot, hd') := takeSnapshot hd in
  match snapshot with
  | [] => Some (hd', h, [], None)
  | _ =>
      if IsDryRun (opts hd) then
        '(msgs, _) ← formatRecords value_text snapshot (RunID (opts hd));
        Some (hd', h, msgs, None)
      else
        '(h', err) ← send (opts hd) h snapshot;
        Some (hd', h', [], err)
  end.
End flush.

(** ** The notification sink (boot.go) *)

Record notificationSink := { handlers : list SlackHandler; dryRun : bool }.

(** One helper call on a handler: the record, if the handler accepts it, is buffered. *)
Definition log_with (f : (Z -> bool) -> option record) (h : SlackHandler) : SlackHandler :=
  match f (Enabled h) with Some r => Handle h r | None => h end.

Definition sink_each (n : notificationSink) (f : SlackHandler -> SlackHandler) : notificationSink :=
  {| handlers := map f (handlers n); dryRun := dryRun n |}.

Section sink.
Variable SortFunc : (FailureDetail -> FailureDetail -> Z) -> list FailureDetail -> list FailureDetail.

Definition sink_LogAlert (n : notificationSink) (a : Alert) : notificationSink :=
  sink_each n (log_with (fun en => LogAlert SortFunc en a)).
Definition sink_LogWarning (n : notificationSink) (w : Warning) : notificationSink :=
  sink_each n (log_with (fun en => LogWarning en w)).
Definition sink_LogSystemError (n : notificationSink) (e : SystemError) : notificationSink :=
  sink_each n (log_with (fun en => LogSystemError en e)).
Definition sink_LogSummary (n : notificationSink) (s : Summary) : notificationSink :=
  sink_each n (log_with (fun en => LogSummary en s)).
End sink.

Section sink_flush.
Variable value_text : value -> string.
Variable ctx_err : list event -> option goerr.
Variable doPost : list event -> http_outcome.
Variable sleep : list event -> Z -> option goerr.
Variable marshal : slackMessage -> result string.

(** [notificationSink.Flush]: every handler is flushed, the errors are joined. *)
Fixpoint flush_all (hds : list SlackHandler) (h : list event)
  : option (list SlackHandler * list event * list slackMessage * list (option goerr)) :=
  match hds with
  | [] => Some ([], h, [], [])
  | hd :: hds' =>
      '(hd', h', logged, err) ← Flush value_text ctx_err doPost sleep marshal hd h;
      '(hds'', h'', logged', errs) ← flush_all hds' h';
      Some (hd' :: hds'', h'', logged ++ logged', err :: errs)
  end.

Definition sink_Flush (n : notificationSink) (h : list event)
  : option (notificationSink * list event * list slackMessage * option goerr) :=
  '(hds, h', logged, errs) ← flush_all (handlers n) h;
  Some ({| handlers := hds; dryRun := dryRun n |}, h', logged, join_errs errs).
End sink_flush.

Section setup.
Variable url_Parse : string -> option url.
Variable ToLower : string -> string.

Definition setupNotifyHandlers (successURL errorURL allowedHost runID : string) (dry : bool)
  : result notificationSink :=
  if negb dry && String.eqb successURL "" && String.eqb errorURL ""
  then Err (Sentinel errSlackWebhookURLRequired)
  else
    let o := {| WebhookURL := ""; AllowedHost := allowedHost; RunID := runID; LevelMode := "";
                IsDryRun := dry; Backoff := DefaultBackoffConfig |} in
    match BuildHandlers url_Parse ToLower successURL errorURL allowedHost o with
    | Err e => Err e
    | Ok hs => Ok {| handlers := hs; dryRun := dry |}
    end.
End setup.
