(* ===== verification/HandlerProps.v ===== *)
(** * Properties of handlers and the sink (internal/notify/handler.go, boot.go)

    Webhooks are validated before they are used, every notification goes to the one webhook that
    is meant for it, what is sent is within the limits of Slack, and concurrent logging and flushing
    neither loses nor repeats a record. *)
From S2P Require Import Prelude GoStr GoTime GoErr NotifyTypes Helpers Format FormatProps.
From S2P Require Import Retry RetryProps Handler.

Section setup.
Context (url_Parse : string -> option url) (ToLower : string -> string).

(** A webhook the program may post to. *)
Definition url_allowed (allowedHost u : string) : Prop :=
  exists p, url_Parse u = Some p /\ Scheme p = "https" /\ Host p <> "" /\ allowedHost <> "" /\
            ToLower (Hostname p) = ToLower allowedHost.

Lemma validateWebhookURL_ok u host :
  validateWebhookURL url_Parse ToLower u host = None <-> u <> "" /\ url_allowed host u.
Proof.
  unfold validateWebhookURL, url_allowed.
  destruct (String.eqb_spec u ""); [split; [done|by intros [? _]]|].
  destruct (url_Parse u) as [p|]; [|split; [done|by intros (_ & ? & ? & _)]].
  destruct (String.eqb_spec (Scheme p) "https"); simpl; [|split; [done|naive_solver]].
  destruct (String.eqb_spec (Host p) ""); [split; [done|naive_solver]|].
  destruct (String.eqb_spec host ""); [split; [done|naive_solver]|].
  destruct (String.eqb_spec (ToLower (Hostname p)) (ToLower host)); simpl; split; naive_solver.
Qed.

(** A handler as [setupNotifyHandlers] configures it. *)
Definition new_handler (allowedHost runID : string) (dry : bool) (u mode : string) : SlackHandler :=
  {| opts := {| WebhookURL := u; AllowedHost := allowedHost; RunID := runID; LevelMode := mode;
                IsDryRun := dry; Backoff := DefaultBackoffConfig |};
     buf := [] |}.

Abbreviation setup := (setupNotifyHandlers url_Parse ToLower).

(** The three configurations. *)
Lemma setup_shape s e host run dry n :
  setup s e host run dry = Ok n ->
  let mk := new_handler host run dry in
  (s = "" /\ e = "" /\ dry = true /\
     handlers n = [mk "" LevelModeExactInfo; mk "" LevelModeWarnAndAbove]) \/
  (s = "" /\ e <> "" /\ url_allowed host e /\ handlers n = [mk e LevelModeWarnAndAbove]) \/
  (s <> "" /\ e <> "" /\ url_allowed host s /\ url_allowed host e /\
     handlers n = [mk s LevelModeExactInfo; mk e LevelModeWarnAndAbove]).
Proof.
  unfold setupNotifyHandlers, BuildHandlers, NewSlackHandler.
  destruct (String.eqb_spec s "") as [->|Hs], (String.eqb_spec e "") as [->|He]; simpl.
  - destruct dry; simpl; [|done]. intros [= <-]. by left.
  - rewrite andb_false_r. destruct (validateWebhookURL _ _ e host) eqn:Hv; [done|]. simpl.
    rewrite ?(proj2 (String.eqb_neq _ _) He). simpl. rewrite ?orb_true_r, ?Hv. simpl. intros [= <-].
    right. left. by apply validateWebhookURL_ok in Hv as [_ ?].
  - rewrite andb_false_r. simpl. unfold ValidateEnvCombination.
    by rewrite ?(proj2 (String.eqb_neq _ _) Hs).
  - rewrite andb_false_r. unfold ValidateEnvCombination. simpl.
    rewrite ?(proj2 (String.eqb_neq _ _) Hs), ?(proj2 (String.eqb_neq _ _) He). simpl.
    destruct (validateWebhookURL _ _ s host) eqn:Hvs; [done|].
    destruct (validateWebhookURL _ _ e host) eqn:Hve; [done|]. simpl.
    rewrite ?(proj2 (String.eqb_neq _ _) Hs), ?(proj2 (String.eqb_neq _ _) He). simpl.
    rewrite ?orb_true_r, ?Hvs, ?Hve. simpl. intros [= <-]. right. right.
    apply validateWebhookURL_ok in Hvs as [_ ?], Hve as [_ ?]. done.
Qed.
End setup.

(** C33: no notification leaves for a webhook that was not validated: every handler of a sink that
    is set up either has a URL that parses, uses HTTPS, names a host and matches the configured
    host, or has none and only logs because this is a dry run. A success webhook without an error
    webhook is refused, and outside a dry run so is having neither. *)
Theorem setup_webhooks_validated url_Parse ToLower s e host run dry n :
  setupNotifyHandlers url_Parse ToLower s e host run dry = Ok n ->
  Forall (fun h => IsDryRun (opts h) = dry /\
                   (WebhookURL (opts h) = "" /\ dry = true \/
                    url_allowed url_Parse ToLower host (WebhookURL (opts h)))) (handlers n) /\
  (e = "" -> s = "" /\ dry = true).
Proof.
  intros H%setup_shape. destruct H as [(-> & -> & -> & ->)|[(-> & He & Hv & ->)|(Hs & He & Hv & Hv' & ->)]].
  - split; [|done]. repeat apply Forall_cons_2; [..|done]; (split; [done|by left]).
  - split; [|done]. repeat apply Forall_cons_2; [..|done]; (split; [done|by right]).
  - split; [|done]. repeat apply Forall_cons_2; [..|done]; (split; [done|by right]).
Qed.

(** ** Routing *)

Section routing.
Context (sort : sort_func).

(** A notification given to the sink. *)
Definition sink_log (n : notificationSink) (x : notification) : notificationSink :=
  match x with
  | NAlert a => sink_LogAlert sort n a
  | NWarning w => sink_LogWarning n w
  | NError e => sink_LogSystemError n e
  | NSummary s => sink_LogSummary n s
  end.

Definition is_summary (x : notification) : bool := match x with NSummary _ => true | _ => false end.

(** What a single handler does with a notification. *)
Definition handler_log (h : SlackHandler) (x : notification) : SlackHandler :=
  match x with
  | NAlert a => log_with (fun en => LogAlert sort en a) h
  | NWarning w => log_with (fun en => LogWarning en w) h
  | NError e => log_with (fun en => LogSystemError en e) h
  | NSummary s => log_with (fun en => LogSummary en s) h
  end.

Lemma sink_log_handlers n xs :
  handlers (foldl sink_log n xs) = map (fun h => foldl handler_log h xs) (handlers n).
Proof.
  revert n. induction xs as [|x xs IH]; intros n; simpl; [by rewrite map_id|].
  rewrite IH. destruct x; simpl; by rewrite map_map.
Qed.

(** Logging is decided by the level alone: an accepted notification is logged as if the handler
    accepted everything. *)
Lemma handler_log_enabled h x :
  handler_log h x
  = if Enabled h (head_of x).1
    then match log_notification sort x with Some r => Handle h r | None => h end else h.
Proof.
  destruct x; simpl; unfold log_with, LogAlert, LogWarning, LogSystemError, LogSummary;
    destruct (Enabled h _); simpl; try done; by destruct (detail_totals _).
Qed.

Lemma Enabled_opts h h' l : opts h = opts h' -> Enabled h l = Enabled h' l.
Proof. unfold Enabled. by intros ->. Qed.

Lemma handler_log_all h xs :
  let h' := foldl handler_log h xs in
  opts h' = opts h /\
  buf h' = buf h ++ omap (log_notification sort) (List.filter (fun x => Enabled h (head_of x).1) xs).
Proof.
  revert h. induction xs as [|x xs IH]; intros h; simpl; [by rewrite app_nil_r|].
  destruct (IH (handler_log h x)) as [Ho Hb].
  assert (Hx : opts (handler_log h x) = opts h)
    by (rewrite handler_log_enabled; repeat case_match; done).
  split; [by rewrite Ho|]. rewrite Hb.
  replace (List.filter (fun y => Enabled (handler_log h x) (head_of y).1) xs)
    with (List.filter (fun y => Enabled h (head_of y).1) xs)
    by (apply filter_ext; intros y; symmetry; by apply Enabled_opts).
  rewrite handler_log_enabled. destruct (Enabled h (head_of x).1); [|done].
  destruct (log_notification_some sort x) as [r Hr]. simpl. rewrite Hr. simpl. by rewrite <- app_assoc.
Qed.

Lemma enabled_exact_info h x :
  LevelMode (opts h) = LevelModeExactInfo -> Enabled h (head_of x).1 = is_summary x.
Proof. intros E. unfold Enabled. rewrite E. by destruct x. Qed.

Lemma enabled_warn_and_above h x :
  LevelMode (opts h) = LevelModeWarnAndAbove -> Enabled h (head_of x).1 = negb (is_summary x).
Proof. intros E. unfold Enabled. rewrite E. by destruct x. Qed.

Lemma handler_mode_buf h xs (p : notification -> bool) :
  buf h = [] -> (forall x, Enabled h (head_of x).1 = p x) ->
  buf (foldl handler_log h xs) = omap (log_notification sort) (List.filter p xs).
Proof.
  intros Hb Hp. destruct (handler_log_all h xs) as [_ ->]. rewrite Hb. simpl.
  f_equal. by apply filter_ext.
Qed.
End routing.

(** Every notification given to a sink is buffered for exactly one webhook, in order: alerts,
    warnings and system errors for the error webhook, summaries for the success webhook. Only
    when no success webhook is configured are summaries not sent. *)
Theorem sink_routing url_Parse ToLower sort s e host run dry n ns :
  setupNotifyHandlers url_Parse ToLower s e host run dry = Ok n ->
  exists hErr,
    buf hErr = omap (log_notification sort) (List.filter (fun x => negb (is_summary x)) ns) /\
    WebhookURL (opts hErr) = e /\
    (handlers (foldl (sink_log sort) n ns) = [hErr] /\ s = "" /\ e <> "" \/
     exists hOk,
       handlers (foldl (sink_log sort) n ns) = [hOk; hErr] /\ WebhookURL (opts hOk) = s /\
       buf hOk = omap (log_notification sort) (List.filter is_summary ns)).
Proof.
  intros H%setup_shape. rewrite sink_log_handlers.
  set (mk := new_handler host run dry) in *.
  assert (Herr : forall u, buf (foldl (handler_log sort) (mk u LevelModeWarnAndAbove) ns)
     = omap (log_notification sort) (List.filter (fun x => negb (is_summary x)) ns))
    by (intros; apply handler_mode_buf; [done|]; intros; by apply enabled_warn_and_above).
  assert (Hinf : forall u, buf (foldl (handler_log sort) (mk u LevelModeExactInfo) ns)
     = omap (log_notification sort) (List.filter is_summary ns))
    by (intros; apply handler_mode_buf; [done|]; intros; by apply enabled_exact_info).
  assert (Hopts : forall u m, WebhookURL (opts (foldl (handler_log sort) (mk u m) ns)) = u)
    by (intros; by rewrite (proj1 (handler_log_all _ _ _))).
  destruct H as [(-> & -> & -> & ->)|[(-> & He & Hv & ->)|(Hs & He & Hv & Hv' & ->)]];
    eexists; (split; [apply Herr|]); (split; [apply Hopts|]).
  - right. eexists. split; [done|]. split; [apply Hopts|apply Hinf].
  - by left.
  - right. eexists. split; [done|]. split; [apply Hopts|apply Hinf].
Qed.

(** A parser and a case conversion for the witnesses: the host of [https://host/...]. *)
Definition sample_parse (u : string) : option url :=
  match strip_prefix "https://" u with
  | None => None
  | Some rest =>
      let fix host s := match s with String "/" _ | "" => "" | String c s' => String c (host s') end in
      Some {| Scheme := "https"; Host := host rest; Hostname := host rest |}
  end.

Definition sample_setup : result notificationSink :=
  setupNotifyHandlers sample_parse id "https://hooks.example/ok" "https://hooks.example/err"
    "hooks.example" "run" false.

Lemma setup_webhooks_validated_witness :
  exists n, sample_setup = Ok n /\
    Forall (fun h => IsDryRun (opts h) = false /\
              (WebhookURL (opts h) = "" /\ false = true \/
               url_allowed sample_parse id "hooks.example" (WebhookURL (opts h)))) (handlers n).
Proof.
  destruct sample_setup as [n|] eqn:E; [|discriminate].
  exists n. split; [reflexivity|]. exact (proj1 (setup_webhooks_validated _ _ _ _ _ _ _ _ E)).
Defined.

Lemma sink_routing_witness :
  exists n hErr,
    sample_setup = Ok n /\ WebhookURL (opts hErr) = "https://hooks.example/err" /\
    length (buf hErr) = 2%nat.
Proof.
  destruct sample_setup as [n|] eqn:E; [|discriminate]. exists n.
  destruct (sink_routing sample_parse id merge_func _ _ _ _ _ n
              [NError (MkSystemError "k" "c" ""); NSummary (MkSummary (MkDateRange 0 0) ∅ 0);
               NWarning (MkWarning "w" 1 2 "")] E) as (hErr & Hb & Hu & _).
  exists hErr. split; [reflexivity|]. split; [exact Hu|]. rewrite Hb. reflexivity.
Defined.

(** ** Flushing *)

Section flush.
Context (value_text : value -> string) (ctx_err : list event -> option goerr)
  (doPost : list event -> http_outcome) (sleep : list event -> Z -> option goerr)
  (marshal : slackMessage -> result string).

(** The messages [msgs] are handed to the server one after the other, with the results [rs]. *)
Inductive deliveries (o : SlackHandlerOptions)
  : list event -> list slackMessage -> list (option goerr) -> list event -> Prop :=
  | deliveries_nil h : deliveries o h [] [] h
  | deliveries_cons h m ms h1 r rs h2 :
      postWithRetry ctx_err doPost sleep marshal h (Backoff o) (WebhookURL o) (maskedWebhookURL (WebhookURL o))
        (truncateMessage m) = (h1, r) ->
      deliveries o h1 ms rs h2 -> deliveries o h (m :: ms) (r :: rs) h2.

Lemma send_loop_deliveries o h msgs errs :
  let '(h', errs') := send_loop ctx_err doPost sleep marshal o h msgs errs in
  exists rs, errs' = errs ++ rs /\ deliveries o h msgs rs h'.
Proof.
  revert h errs. induction msgs as [|m msgs IH]; intros h errs; simpl.
  - exists []. rewrite app_nil_r. split; [done|constructor].
  - destruct (postWithRetry _ _ _ _ _ _ _ _ _) as [h1 r] eqn:E. specialize (IH h1 (errs ++ [r])).
    destruct (send_loop _ _ _ _ _ _ _ _) as [h' errs']. destruct IH as (rs & -> & Hd).
    exists (r :: rs). rewrite <- app_assoc. split; [done|]. by econstructor.
Qed.

Lemma deliveries_length o h ms rs h' : deliveries o h ms rs h' -> length rs = length ms.
Proof. induction 1; simpl; congruence. Qed.
End flush.

(** C32: flushing what was logged never panics and empties the buffer. In a dry run it sends
    nothing and logs the messages; otherwise every message of the batch is handed to the server,
    in order and truncated to the limits, whether or not those before it failed, and the result
    is an error exactly when some delivery had one. *)
Theorem Flush_delivers_all value_text ctx_err doPost sleep marshal sort hd ns h :
  Forall notification_ok ns ->
  buf hd = omap (log_notification sort) ns ->
  let msgs := format_payloads (foldl (add_payload (top sort)) (MkPayloads [] [] [] []) ns) (RunID (opts hd)) in
  exists h' logged err,
    Flush value_text ctx_err doPost sleep marshal hd h
    = Some ({| opts := opts hd; buf := [] |}, h', logged, err) /\
    if IsDryRun (opts hd) then h' = h /\ logged = msgs /\ err = None
    else exists rs, deliveries ctx_err doPost sleep marshal (opts hd) h msgs rs h' /\
                    length rs = length msgs /\ (err = None <-> Forall (fun r => r = None) rs).
Proof.
  intros Hok Hb. cbv zeta. unfold Flush, takeSnapshot. rewrite Hb.
  destruct ns as [|x ns].
  { eexists _, _, _. split; [done|]. destruct (IsDryRun (opts hd)); [done|].
    exists []. split; [constructor|]. done. }
  destruct (omap (log_notification sort) (x :: ns)) as [|r rs] eqn:E.
  { exfalso. simpl in E. destruct (log_notification_some sort x) as [r Hr]. by rewrite Hr in E. }
  rewrite <- E. unfold send, formatRecords. rewrite collect_records_log by done.
  set (msgs := format_payloads _ _). destruct (IsDryRun (opts hd)); simpl.
  { eexists _, _, _. split; [done|]. done. }
  pose proof (send_loop_deliveries ctx_err doPost sleep marshal (opts hd) h msgs []) as Hs.
  destruct (send_loop _ _ _ _ _ _ _ _) as [h' errs]. destruct Hs as (rs' & -> & Hd).
  eexists _, _, _. split; [done|]. exists rs'. split; [done|].
  split; [by eapply deliveries_length|]. apply join_errs_none.
Qed.

Lemma Flush_delivers_all_witness :
  let hd := foldl (handler_log merge_func)
              (new_handler "h" "run" true "" LevelModeWarnAndAbove) [NWarning (MkWarning "w" 1 2 "")] in
  exists h' logged err,
    Flush (fun _ => "") (fun _ => None) sample_server (fun _ _ => None) (fun _ => Ok "") hd []
    = Some ({| opts := opts hd; buf := [] |}, h', logged, err) /\ h' = [] /\ length logged = 1%nat.
Proof.
  assert (Hok : Forall notification_ok [NWarning (MkWarning "w" 1 2 "")])
    by (constructor; [unfold notification_ok, in_uint32; simpl; lia|constructor]).
  destruct (Flush_delivers_all (fun _ => "") (fun _ => None) sample_server (fun _ _ => None)
    (fun _ => Ok "") merge_func
    (foldl (handler_log merge_func)
       (new_handler "h" "run" true "" LevelModeWarnAndAbove) [NWarning (MkWarning "w" 1 2 "")])
    [NWarning (MkWarning "w" 1 2 "")] [] Hok eq_refl) as (h' & logged & err & Hf & Hd).
  simpl in Hd. destruct Hd as (Hh & Hl & _). subst logged.
  exists h'. eexists _, err. split; [exact Hf|]. split; [exact Hh|reflexivity].
Defined.

(** ** What is posted *)

Section posted.
Context (value_text : value -> string) (ctx_err : list event -> option goerr)
  (doPost : list event -> http_outcome) (sleep : list event -> Z -> option goerr)
  (marshal : slackMessage -> result string).

(** Between two histories every request is a post of [body] to [url]. *)
Definition posts_only (url body : string) (h h' : list event) : Prop :=
  exists t, h' = h ++ t /\
    Forall (fun e => match e with EPost u b => u = url /\ b = body | ESleep _ => True end) t.

Lemma posts_refl url body h : posts_only url body h h.
Proof. exists []. by rewrite app_nil_r. Qed.

Lemma posts_trans url body h1 h2 h3 : posts_only url body h1 h2 -> posts_only url body h2 h3 -> posts_only url body h1 h3.
Proof.
  intros (t1 & -> & H1) (t2 & -> & H2). exists (t1 ++ t2). split; [by rewrite app_assoc|by apply Forall_app_2].
Qed.

Lemma posts_sleep url body h d : posts_only url body h (h ++ [ESleep d]).
Proof. exists [ESleep d]. split; [done|by repeat constructor]. Qed.

Lemma doAttempt_posts url body h : posts_only url body h (doAttempt ctx_err doPost url body h).1.
Proof.
  unfold doAttempt. destruct (ctx_err h); [apply posts_refl|].
  assert (Hp : posts_only url body h (h ++ [EPost url body])) by (exists [EPost url body]; split; [done|by repeat constructor]).
  by repeat case_match.
Qed.

Lemma retry_loop_posts url body fuel b attempt h lastErr cum handled :
  posts_only url body h (retry_loop ctx_err doPost sleep url body fuel b attempt h lastErr cum handled).1.
Proof.
  revert attempt h lastErr cum handled. induction fuel as [|f IH]; intros attempt h lastErr cum handled;
    [apply posts_refl|].
  cbn [retry_loop]. cbv zeta.
  assert (Hsleep : forall h' d attempt lastErr cum handled,
    posts_only url body h' (retry_loop ctx_err doPost sleep url body f b attempt (h' ++ [ESleep d]) lastErr cum handled).1)
    by (intros; eapply posts_trans; [apply posts_sleep|apply IH]).
  destruct (_ && _).
  - destruct (_ >? _); [apply posts_refl|]. destruct (sleep h _); [apply posts_sleep|].
    set (h0 := h ++ [ESleep (backoffDuration (Base b) (attempt - 1))]).
    apply (posts_trans _ _ _ h0); [apply posts_sleep|]. pose proof (doAttempt_posts url body h0) as Ha.
    destruct (doAttempt _ _ _ _ h0) as [h1 r]. eapply posts_trans; [exact Ha|]. cbn [fst].
    repeat case_match; first [apply posts_refl|apply posts_sleep|apply Hsleep|apply IH].
  - pose proof (doAttempt_posts url body h) as Ha.
    destruct (doAttempt _ _ _ _ h) as [h1 r]. eapply posts_trans; [exact Ha|]. cbn [fst].
    repeat case_match; first [apply posts_refl|apply posts_sleep|apply Hsleep|apply IH].
Qed.

(** What is posted is a message within the limits, in JSON, to the webhook of the handler. *)
Definition posted_ok (o : SlackHandlerOptions) (e : event) : Prop :=
  match e with
  | EPost url body => url = WebhookURL o /\ exists m, message_ok m /\ marshal m = Ok body
  | ESleep _ => True
  end.

Lemma postWithRetry_posts h b o masked m :
  message_ok m ->
  exists t, (postWithRetry ctx_err doPost sleep marshal h b (WebhookURL o) masked m).1 = h ++ t /\
    Forall (posted_ok o) t.
Proof.
  intros Hm. unfold postWithRetry. destruct (marshal m) as [body|e] eqn:E; [|exists []; by rewrite app_nil_r].
  cbv zeta. destruct (retry_loop_posts (WebhookURL o) body (Z.to_nat (RetryCount (effective_backoff b) + 1))
    (effective_backoff b) 0 h None 0 false) as (t & Ht & Hp).
  exists t. split; [by destruct (retry_loop _ _ _ _ _ _ _ _ _ _ _ _) as [h' []]|].
  eapply Forall_impl; [|exact Hp]. intros [u b'|d]; [|done]. intros [-> ->]. split; [done|by exists m].
Qed.

Lemma send_loop_posts o h msgs errs :
  Forall message_ok (map truncateMessage msgs) ->
  exists t, (send_loop ctx_err doPost sleep marshal o h msgs errs).1 = h ++ t /\ Forall (posted_ok o) t.
Proof.
  revert h errs. induction msgs as [|m msgs IH]; intros h errs Hm; simpl; [exists []; by rewrite app_nil_r|].
  apply Forall_cons_iff in Hm as [Hm Hms].
  destruct (postWithRetry_posts h (Backoff o) o (maskedWebhookURL (WebhookURL o)) _ Hm) as (t1 & E1 & H1).
  destruct (postWithRetry _ _ _ _ _ _ _ _ _) as [h1 r]. simpl in E1. subst h1.
  destruct (IH (h ++ t1) (errs ++ [r]) Hms) as (t2 & E2 & H2). exists (t1 ++ t2).
  rewrite app_assoc. split; [done|by apply Forall_app_2].
Qed.
End posted.

(** C29: whatever records are in the buffer of a handler, every request of a flush goes to its
    webhook, and its body is the JSON of a message that respects the limits of Slack: at most 4000
    runes of text, in every attachment between one and ten fields, and at most 1000 runes in the
    value of every field. *)
Theorem sent_messages_within_limits value_text ctx_err doPost sleep marshal hd h hd' h' logged err :
  Flush value_text ctx_err doPost sleep marshal hd h = Some (hd', h', logged, err) ->
  exists t, h' = h ++ t /\
    forall url body, In (EPost url body) t ->
      url = WebhookURL (opts hd) /\ exists m, message_ok m /\ marshal m = Ok body.
Proof.
  intros H. assert (Hp : exists t, h' = h ++ t /\ Forall (posted_ok marshal (opts hd)) t).
  { unfold Flush, takeSnapshot in H. destruct (buf hd) as [|r rs]; [injection H as <- <- <- <-; exists []; by rewrite app_nil_r|].
    destruct (IsDryRun (opts hd)).
    - destruct (formatRecords _ _ _) as [[msgs ws]|]; [|done]. injection H as <- <- <- <-. exists []. by rewrite app_nil_r.
    - unfold send in H. destruct (formatRecords _ _ _) as [[msgs ws]|] eqn:E; [|done]. simpl in H.
      destruct (send_loop_posts ctx_err doPost sleep marshal (opts hd) h msgs []) as (t & Et & Ht);
        [by eapply formatRecords_ok|].
      destruct (send_loop _ _ _ _ _ _ _ _) as [h1 errs]. simpl in Et. injection H as <- <- <- <-. by exists t. }
  destruct Hp as (t & -> & Ht). exists t. split; [done|]. intros url body Hi.
  exact (proj1 (Forall_forall _ _) Ht _ Hi).
Qed.

(** A warning that is too long for a message. *)
Definition long_kind : string := String.string_of_list_ascii (repeat "x"%char 5000).

Lemma sent_messages_within_limits_witness :
  let hd := handler_log merge_func (new_handler "h" "run" false "u" LevelModeWarnAndAbove) (NWarning (MkWarning long_kind 1 2 "")) in
  exists hd' h' err,
    Flush (fun _ => "") (fun _ => None) sample_server (fun _ _ => None) (fun m => Ok (sm_Text m)) hd []
    = Some (hd', h', [], err) /\ (3 <= length h')%nat /\
    forall url body, In (EPost url body) h' ->
      url = "u" /\ exists m, message_ok m /\ Ok (sm_Text m) = Ok body.
Proof.
  cbv zeta. set (hd := handler_log _ _ _).
  destruct (Flush (fun _ => "") (fun _ => None) sample_server (fun _ _ => None) (fun m => Ok (sm_Text m)) hd [])
    as [[[[hd' h'] logged] err]|] eqn:E; [|vm_compute in E; discriminate].
  exists hd', h', err. assert (El : logged = [] /\ (3 <= length h')%nat).
  { vm_compute in E. injection E as _ <- <- _. split; [reflexivity|]. simpl. lia. }
  destruct El as [-> El]. split; [reflexivity|]. split; [exact El|].
  destruct (sent_messages_within_limits _ _ _ _ _ _ _ _ _ _ _ E) as (t & -> & Ht). exact Ht.
Defined.

(** ** Concurrent use *)

(** The critical sections of the handler's mutex; any interleaving of goroutines that log and
    flush is a sequence of them. *)
Inductive section : Type :=
  | SHandle (r : record)
  | STake.

Definition run_section (s : SlackHandler * list (list record)) (c : section)
  : SlackHandler * list (list record) :=
  match c with
  | SHandle r => (Handle s.1 r, s.2)
  | STake => let '(snapshot, h) := takeSnapshot s.1 in (h, s.2 ++ [snapshot])
  end.

Definition handled (cs : list section) : list record :=
  omap (fun c => match c with SHandle r => Some r | STake => None end) cs.

(** Under every interleaving of logging and flushing each record is in exactly one place: the
    snapshots taken so far, in the order they were taken, followed by the buffer are precisely the
    records handled, in the order they were handled. None is lost, repeated or reordered, also not
    those logged while a flush is sending. *)
Theorem handler_interleaving h cs :
  let '(h', snapshots) := foldl run_section (h, []) cs in
  concat snapshots ++ buf h' = buf h ++ handled cs /\ opts h' = opts h.
Proof.
  assert (H : forall cs h snaps,
    let '(h', snapshots) := foldl run_section (h, snaps) cs in
    concat snapshots ++ buf h' = concat snaps ++ buf h ++ handled cs /\ opts h' = opts h).
  { clear. induction cs as [|c cs IH]; intros h snaps; simpl; [by rewrite app_nil_r|].
    destruct c as [r|]; cbn [run_section fst snd takeSnapshot].
    - specialize (IH (Handle h r) snaps). destruct (foldl _ _ _) as [h' snapshots].
      destruct IH as [-> ->]. simpl. by rewrite <- !app_assoc.
    - specialize (IH {| opts := opts h; buf := [] |} (snaps ++ [buf h])).
      destruct (foldl _ _ _) as [h' snapshots]. destruct IH as [-> ->]. simpl.
      rewrite concat_app. simpl. by rewrite app_nil_r, <- !app_assoc. }
  by apply (H cs h []).
Qed.
