(* ===== verification/Aggregate.v ===== *)
(** * Aggregation of reports into a summary (internal/notify/aggregate.go)

    The loop over all stored reports, and what it computes. *)
From S2P Require Import Prelude GoStr GoTime GoErr.
From S2P Require Tlsrpt.
From S2P Require Import NotifyTypes.

Abbreviation Report := Tlsrpt.Report.

Definition report_end (r : Report) : Time := Tlsrpt.EndDatetime (Tlsrpt.DateRangeOf r).

Definition inSummaryPeriod (r : Report) (start end_ : Time) : bool :=
  negb (Before (report_end r) start) && Before (report_end r) end_.

Definition policy_successes (p : Tlsrpt.PolicyRecord) : Z :=
  Tlsrpt.TotalSuccessfulSessionCount (Tlsrpt.SummaryOf p).

Definition successfulSessionCount (r : Report) : Z :=
  foldl (fun total p => wrap64 (total + policy_successes p)) 0 (Tlsrpt.policies r).

(** A warning about successful sessions that are left out. *)
Record excluded := { ex_organization : string; ex_sessions : Z }.

(** [m[k] += n] on [int64] counts. *)
Definition add_stat (m : gmap string Z) (k : string) (n : Z) : gmap string Z :=
  <[k := wrap64 (default 0 (m !! k) + n)]> m.

Section generate.
(** [ctx.Err()] at its [i]-th check, and [st.GetAllReports()]. *)
Variable ctx_err : nat -> option goerr.
Variable reports : result (list Report).

Fixpoint summary_loop (i : nat) (start end_ : Time) (s : Summary) (log : list excluded)
    (rs : list Report) : Summary * list excluded * option goerr :=
  match rs with
  | [] => (s, log, None)
  | report :: rs' =>
      match ctx_err i with
      | Some e => (s, log, Some (errorf "GenerateSummary: " e))
      | None =>
          if negb (inSummaryPeriod report start end_) then summary_loop (S i) start end_ s log rs'
          else
            let successfulSessions := successfulSessionCount report in
            if Tlsrpt.HasFailure report then
              let log :=
                if successfulSessions >? 0
                then log ++ [{| ex_organization := Tlsrpt.OrganizationName report;
                                ex_sessions := successfulSessions |}]
                else log in
              summary_loop (S i) start end_ s log rs'
            else
              summary_loop (S i) start end_
                (MkSummary (su_Period s)
                   (add_stat (su_OrganizationStats s) (Tlsrpt.OrganizationName report) successfulSessions)
                   (wrap64 (su_ReportCount s + 1)))
                log rs'
      end
  end.

Definition GenerateSummary (start end_ : Time) : Summary * list excluded * option goerr :=
  let summary := MkSummary (MkDateRange start end_) ∅ 0 in
  match ctx_err 0%nat with
  | Some e => (summary, [], Some (errorf "GenerateSummary: " e))
  | None =>
      match reports with
      | Err e => (summary, [], Some (errorf "GenerateSummary: " e))
      | Ok rs => summary_loop 1 start end_ summary [] rs
      end
  end.
End generate.

(** ** What is aggregated *)

(** The reports a summary of the period is about: they end at its start or later and before its end,
    and none of their policies has failed sessions. *)
Definition summarized (start end_ : Time) (r : Report) : bool :=
  (start <=? report_end r) && (report_end r <? end_) &&
  forallb (fun p => Tlsrpt.TotalFailureSessionCount (Tlsrpt.SummaryOf p) <=? 0) (Tlsrpt.policies r).

Lemma summarized_code start end_ r :
  summarized start end_ r = inSummaryPeriod r start end_ && negb (Tlsrpt.HasFailure r).
Proof.
  unfold summarized, inSummaryPeriod, Before. rewrite Z.leb_antisym. f_equal.
  unfold Tlsrpt.HasFailure. induction (Tlsrpt.policies r) as [|p ps IH]; simpl; [done|].
  rewrite Z.gtb_ltb, Z.leb_antisym. by destruct (0 <? _).
Qed.

(** The successful sessions of a report, of all its policies. *)
Definition sessions (r : Report) : Z := sumZ (map policy_successes (Tlsrpt.policies r)).

Definition of_organization (org : string) (r : Report) : bool :=
  String.eqb (Tlsrpt.OrganizationName r) org.

Lemma successfulSessionCount_spec r : successfulSessionCount r = wrap64 (sessions r).
Proof. unfold successfulSessionCount. change 0 with (wrap64 0) at 1. by rewrite foldl_wrap. Qed.

(** The organization's entry of a summary after more reports [rs]. *)
Definition stat_after (m : gmap string Z) (org : string) (rs : list Report) : option Z :=
  match List.filter (of_organization org) rs with
  | [] => m !! org
  | rs' => Some (wrap64 (default 0 (m !! org) + sumZ (map sessions rs')))
  end.

Lemma stat_after_add m org r rs :
  stat_after (add_stat m (Tlsrpt.OrganizationName r) (successfulSessionCount r)) org rs
  = stat_after m org (r :: rs).
Proof.
  unfold stat_after, add_stat. cbn [List.filter].
  change (of_organization org r) with (String.eqb (Tlsrpt.OrganizationName r) org).
  rewrite successfulSessionCount_spec, wrap64_add_r.
  destruct (String.eqb_spec (Tlsrpt.OrganizationName r) org) as [->|Hne].
  - rewrite lookup_insert_eq. simpl. destruct (List.filter _ rs); simpl; [by rewrite Z.add_0_r|].
    rewrite wrap64_add_l. f_equal. f_equal. lia.
  - by rewrite lookup_insert_ne by done.
Qed.

Lemma summary_loop_spec i start end_ s log rs :
  in_int64 (su_ReportCount s) ->
  exists log',
    let '(s', log'', err) := summary_loop (fun _ => None) i start end_ s log rs in
    err = None /\ log'' = log' /\ su_Period s' = su_Period s /\
    su_ReportCount s' = wrap64 (su_ReportCount s + count_if (summarized start end_) rs) /\
    (forall org, su_OrganizationStats s' !! org
                 = stat_after (su_OrganizationStats s) org (List.filter (summarized start end_) rs)).
Proof.
  revert i s log. induction rs as [|r rs IH]; intros i s log Hs; cbn [summary_loop List.filter].
  - exists log. split_and!; try done. unfold count_if. simpl. by rewrite Z.add_0_r, wrap64_id.
  - rewrite count_if_cons.
    rewrite summarized_code.
    destruct (inSummaryPeriod r start end_); simpl; [|by apply IH].
    destruct (Tlsrpt.HasFailure r); simpl; [by apply IH|].
    destruct (IH (S i) (MkSummary (su_Period s)
                   (add_stat (su_OrganizationStats s) (Tlsrpt.OrganizationName r) (successfulSessionCount r))
                   (wrap64 (su_ReportCount s + 1))) log) as [log' H]; [apply wrap64_range|].
    exists log'. destruct (summary_loop _ _ _ _ _ _ _) as [[s' log''] err].
    destruct H as (He & Hl & Hp & Hc & Ho). split_and!; try done.
    + rewrite Hc. simpl. rewrite wrap64_add_l. f_equal. lia.
    + intros org. rewrite Ho. simpl. apply stat_after_add.
Qed.

(** [s] is the summary of [rs] for a period. *)
Definition is_summary_of (start end_ : Time) (rs : list Report) (s : Summary) : Prop :=
  let included := List.filter (summarized start end_) rs in
  su_Period s = MkDateRange start end_ /\
  su_ReportCount s = wrap64 (Z.of_nat (length included)) /\
  forall org,
    su_OrganizationStats s !! org =
    match List.filter (of_organization org) included with
    | [] => None
    | rs' => Some (wrap64 (sumZ (map sessions rs')))
    end.

Lemma generate_is_summary rs start end_ :
  let '(s, _, err) := GenerateSummary (fun _ => None) (Ok rs) start end_ in
  err = None /\ is_summary_of start end_ rs s.
Proof.
  unfold GenerateSummary, is_summary_of.
  destruct (summary_loop_spec 1 start end_ (MkSummary (MkDateRange start end_) ∅ 0) [] rs) as [log H];
    [unfold in_int64; simpl; lia|].
  destruct (summary_loop _ _ _ _ _ _ _) as [[s l] err]. destruct H as (-> & _ & Hp & Hc & Ho).
  split_and!; [done|done|by rewrite Hc|].
  intros org. rewrite Ho. unfold stat_after. simpl. rewrite lookup_empty. done.
Qed.

(** An aggregation that was not interrupted is the one of a context that is never done. *)
Lemma summary_loop_ctx ctx_err i start end_ s log rs s' log' :
  summary_loop ctx_err i start end_ s log rs = (s', log', None) ->
  summary_loop (fun _ => None) i start end_ s log rs = (s', log', None).
Proof.
  revert i s log. induction rs as [|r rs IH]; intros i s log; cbn [summary_loop]; [done|].
  destruct (ctx_err i); [done|]. destruct (negb _); [apply IH|]. destruct (Tlsrpt.HasFailure r); apply IH.
Qed.

Lemma generate_ctx ctx_err rs start end_ s log :
  GenerateSummary ctx_err (Ok rs) start end_ = (s, log, None) -> is_summary_of start end_ rs s.
Proof.
  intros H. pose proof (generate_is_summary rs start end_) as Hs. unfold GenerateSummary in *.
  destruct (ctx_err 0%nat); [done|]. apply summary_loop_ctx in H. rewrite H in Hs. apply Hs.
Qed.

(** C36: a summary counts exactly the reports that end at the start of the period or later and before
    its end, and have no policy with failed sessions, and for each organization the successful sessions of all policies of all its reports
    among these; an organization without such a report has no entry. Counts are [int64]: they are
    the exact sums whenever these fit. *)
Theorem GenerateSummary_exact rs start end_ :
  let '(s, _, err) := GenerateSummary (fun _ => None) (Ok rs) start end_ in
  err = None /\ is_summary_of start end_ rs s.
Proof. apply generate_is_summary. Qed.
