(* ===== verification/Config.v ===== *)
(** * Configuration (internal/config)

    Defaults, validation and loading. The TOML decoder, the file system and the certificate
    parser are arguments. A [Secret] is a string whose printed forms are redacted. *)
From S2P Require Import Prelude GoStr GoTime GoErr.

(** ** Types (types.go) *)

Record IMAPConfig := {
  im_Host : string;
  im_Port : Z;
  im_Mailbox : string;
  im_FetchDays : Z;
  im_TLSCACert : string;
  im_MaxMessageBytes : Z;
  im_RetentionDays : Z
}.

Record StoreConfig := {
  st_RootDir : string;
  st_RetentionDays : Z;
  st_MaxEmailAgeDays : Z
}.

Record Config := {
  cf_IMAP : IMAPConfig;
  cf_AllowedHost : string;    (** [Notify.Slack.AllowedHost] *)
  cf_Store : StoreConfig;
  cf_WindowDays : Z           (** [Summary.WindowDays] *)
}.

Record rawConfig := {
  raw_Host : option string;
  raw_Port : option Z;
  raw_Mailbox : option string;
  raw_FetchDays : option Z;
  raw_TLSCACert : option string;
  raw_MaxMessageBytes : option Z;
  raw_IMAPRetentionDays : option Z;
  raw_AllowedHost : option string;
  raw_RootDir : option string;
  raw_RetentionDays : option Z;
  raw_MaxEmailAgeDays : option Z;
  raw_WindowDays : option Z
}.

(** ** Defaults (defaults.go) *)

Definition stringValue (v : option string) : string := match v with None => "" | Some s => s end.
Definition stringDefault (v : option string) (fallback : string) : string :=
  match v with None => fallback | Some s => if String.eqb s "" then fallback else s end.
Definition intValue (v : option Z) : Z := match v with None => 0 | Some n => n end.
Definition intDefault (v : option Z) (fallback : Z) : Z := match v with None => fallback | Some n => n end.

Definition applyDefaults (raw : rawConfig) : Config :=
  {| cf_IMAP :=
       {| im_Host := stringValue (raw_Host raw);
          im_Port := intValue (raw_Port raw);
          im_Mailbox := stringDefault (raw_Mailbox raw) "INBOX";
          im_FetchDays := intDefault (raw_FetchDays raw) 14;
          im_TLSCACert := stringValue (raw_TLSCACert raw);
          im_MaxMessageBytes := intDefault (raw_MaxMessageBytes raw) (2 ^ 20);
          im_RetentionDays := intDefault (raw_IMAPRetentionDays raw) 0 |};
     cf_AllowedHost := stringValue (raw_AllowedHost raw);
     cf_Store :=
       {| st_RootDir := stringDefault (raw_RootDir raw) "./store";
          st_RetentionDays := intDefault (raw_RetentionDays raw) 30;
          st_MaxEmailAgeDays := intDefault (raw_MaxEmailAgeDays raw) 30 |};
     cf_WindowDays := intDefault (raw_WindowDays raw) 7 |}.

(** ** Validation (validate.go) *)

Definition is_alnum (c : ascii) : bool :=
  let n := N_of_ascii c in
  ((48 <=? n) && (n <=? 57) || (65 <=? n) && (n <=? 90) || (97 <=? n) && (n <=? 122))%N.

(** [[a-zA-Z0-9]([a-zA-Z0-9\-]{0,61}[a-zA-Z0-9])?] *)
Definition label_ok (label : list ascii) : bool :=
  match label with
  | [] => false
  | c :: rest =>
      is_alnum c &&
      match rev rest with
      | [] => true
      | l :: mid => is_alnum l && (length mid <=? 61)%nat
                    && forallb (fun x => is_alnum x || Ascii.eqb x "-") mid
      end
  end.

(** The labels between the dots. *)
Fixpoint split_dots (s : string) : list (list ascii) :=
  match s with
  | EmptyString => [[]]
  | String c s' =>
      if Ascii.eqb c "." then [] :: split_dots s'
      else match split_dots s' with
           | l :: ls => (c :: l) :: ls
           | [] => [[c]]
           end
  end.

(** [reValidHostname.MatchString(host)] *)
Definition hostname_ok (host : string) : bool := forallb label_ok (split_dots host).

Definition config_error (e : sentinel_error) (post : string) : goerr := Wrap "config: " (Sentinel e) post.

Definition config_error_d (e : sentinel_error) (n : Z) : goerr :=
  config_error e (String.append ": " (fmt_d n)).

Definition validateAllowedHost (host : string) : option goerr :=
  if String.eqb host "" then None
  else if negb (hostname_ok host) then Some (config_error ErrInvalidAllowedHost "")
  else None.

Section load.
(** [os.ReadFile], whether a certificate pool accepts a PEM file, [filepath.Abs] and the strict
    TOML decoder. *)
Variable ReadFile : string -> result string.
Variable AppendCertsFromPEM : string -> bool.
Variable Abs : string -> result string.
Variable Decode : string -> result rawConfig.

Definition validateTLSCACert (path : string) : option goerr :=
  if String.eqb path "" then None
  else match ReadFile path with
       | Err e => Some (Wrap2 "config: " (Sentinel ErrTLSCACertNotReadable) (Join "" [": "; path; ": "]) e)
       | Ok data =>
           if negb (AppendCertsFromPEM data)
           then Some (config_error ErrTLSCACertNotPEM (String.append ": " path)) else None
       end.

Definition validate (cfg : Config) : option goerr :=
  let im := cf_IMAP cfg in
  let st := cf_Store cfg in
  if String.eqb (im_Host im) "" then Some (config_error ErrInvalidIMAPHost "")
  else if (im_Port im <? 1) || (im_Port im >? 65535) then Some (config_error_d ErrInvalidIMAPPort (im_Port im))
  else if im_FetchDays im <? 1 then Some (config_error_d ErrInvalidFetchDays (im_FetchDays im))
  else if cf_WindowDays cfg <? 1 then Some (config_error_d ErrInvalidWindowDays (cf_WindowDays cfg))
  else if st_RetentionDays st <? 1 then Some (config_error_d ErrInvalidRetentionDays (st_RetentionDays st))
  else if st_MaxEmailAgeDays st <? 1 then Some (config_error_d ErrInvalidMaxEmailAgeDays (st_MaxEmailAgeDays st))
  else if im_MaxMessageBytes im <? 0 then Some (config_error_d ErrInvalidMaxMessageBytes (im_MaxMessageBytes im))
  else if im_RetentionDays im <? 0 then Some (config_error_d ErrInvalidIMAPRetentionDays (im_RetentionDays im))
  else if (im_RetentionDays im >? 0) && (im_RetentionDays im <? Z.max (im_FetchDays im) (cf_WindowDays cfg))
  then Some (config_error_d ErrIMAPRetentionTooShort (im_RetentionDays im))
  else match validateTLSCACert (im_TLSCACert im) with
       | Some e => Some e
       | None => validateAllowedHost (cf_AllowedHost cfg)
       end.

(** ** Loading (config.go, load_file.go) *)

Definition Load (data : string) : result Config :=
  match Decode data with
  | Err e => Err (Wrap2 "config: " (Sentinel ErrConfigDecode) ": " e)
  | Ok raw =>
      let cfg := applyDefaults raw in
      match validate cfg with
      | Some e => Err e
      | None => Ok cfg
      end
  end.

(** The consistency warnings that are logged. *)
Inductive config_warning : Type :=
  | RootDirConverted (abs : string)
  | EmailsDeletedBeforeReports
  | FetchWindowCoversDeleted.

Definition with_root_dir (cfg : Config) (dir : string) : Config :=
  {| cf_IMAP := cf_IMAP cfg; cf_AllowedHost := cf_AllowedHost cfg;
     cf_Store := {| st_RootDir := dir; st_RetentionDays := st_RetentionDays (cf_Store cfg);
                    st_MaxEmailAgeDays := st_MaxEmailAgeDays (cf_Store cfg) |};
     cf_WindowDays := cf_WindowDays cfg |}.

(** [filepath.IsAbs] *)
Definition IsAbs (p : string) : bool := HasPrefix p "/".

Definition LoadFile (path : string) : result Config * list config_warning :=
  if String.eqb path "" then (Err (config_error ErrConfigPathEmpty ""), [])
  else match ReadFile path with
  | Err e => (Err (Wrap2 "config: " (Sentinel ErrConfigFileRead) ": " e), [])
  | Ok data =>
  match Load data with
  | Err e => (Err e, [])
  | Ok cfg =>
  match Abs (st_RootDir (cf_Store cfg)) with
  | Err e => (Err (Wrap2 "config: " (Sentinel ErrStoreRootDirResolve) ": " e), [])
  | Ok abs =>
      let dir := st_RootDir (cf_Store cfg) in
      let cfg' := if negb (String.eqb abs dir) then with_root_dir cfg abs else cfg in
      let w1 := if negb (String.eqb abs dir) && negb (IsAbs dir) then [RootDirConverted abs] else [] in
      let st := cf_Store cfg' in
      let w2 := if st_RetentionDays st >? st_MaxEmailAgeDays st then [EmailsDeletedBeforeReports] else [] in
      let w3 := if im_FetchDays (cf_IMAP cfg') >=? st_RetentionDays st then [FetchWindowCoversDeleted] else [] in
      (Ok cfg', w1 ++ w2 ++ w3)
  end end end.
End load.

(** ** Secrets (secret.go) *)

Definition redactedSecret : string := "[REDACTED]".

(** [Secret.String] and [Secret.LogValue], the printed forms, and [Secret.Value]. *)
Definition Secret_String (s : string) : string := redactedSecret.
Definition Secret_Value (s : string) : string := s.

(** ** What is accepted *)

(** The ranges of a usable configuration. *)
Record config_ok (cfg : Config) : Prop := {
  ok_host : im_Host (cf_IMAP cfg) <> "";
  ok_port : 1 <= im_Port (cf_IMAP cfg) <= 65535;
  ok_fetch : 1 <= im_FetchDays (cf_IMAP cfg);
  ok_window : 1 <= cf_WindowDays cfg;
  ok_retention : 1 <= st_RetentionDays (cf_Store cfg);
  ok_email_age : 1 <= st_MaxEmailAgeDays (cf_Store cfg);
  ok_max_bytes : 0 <= im_MaxMessageBytes (cf_IMAP cfg);
  ok_imap_retention :
    im_RetentionDays (cf_IMAP cfg) = 0 \/
    0 < im_RetentionDays (cf_IMAP cfg) /\
    im_FetchDays (cf_IMAP cfg) <= im_RetentionDays (cf_IMAP cfg) /\
    cf_WindowDays cfg <= im_RetentionDays (cf_IMAP cfg)
}.

(** What a decoded text stands for, with the default of each value that is left out (an empty mailbox
    and an empty directory count as left out). *)
Definition completed (raw : rawConfig) : Config :=
  let text v fallback := match v with None | Some "" => fallback | Some s => s end in
  {| cf_IMAP :=
       {| im_Host := default "" (raw_Host raw); im_Port := default 0 (raw_Port raw);
          im_Mailbox := text (raw_Mailbox raw) "INBOX"; im_FetchDays := default 14 (raw_FetchDays raw);
          im_TLSCACert := default "" (raw_TLSCACert raw);
          im_MaxMessageBytes := default 1048576 (raw_MaxMessageBytes raw);
          im_RetentionDays := default 0 (raw_IMAPRetentionDays raw) |};
     cf_AllowedHost := default "" (raw_AllowedHost raw);
     cf_Store :=
       {| st_RootDir := text (raw_RootDir raw) "./store"; st_RetentionDays := default 30 (raw_RetentionDays raw);
          st_MaxEmailAgeDays := default 30 (raw_MaxEmailAgeDays raw) |};
     cf_WindowDays := default 7 (raw_WindowDays raw) |}.

Lemma applyDefaults_completed raw : applyDefaults raw = completed raw.
Proof.
  unfold applyDefaults, completed, stringDefault, stringValue, intDefault, intValue.
  assert (Hs : forall v fallback,
    match v with None => fallback | Some s => if String.eqb s "" then fallback else s end =
    match v with None | Some "" => fallback | Some s => s end) by (by intros [[|c s]|] fallback).
  by rewrite !Hs.
Qed.

(** A host name, by RFC 1123: labels of 1 to 63 letters, digits and hyphens, with no hyphen at
    either end, joined by dots. *)
Definition letter_or_digit (c : ascii) : Prop :=
  In c (String.list_ascii_of_string "abcdefghijklmnopqrstuvwxyzABCDEFGHIJKLMNOPQRSTUVWXYZ0123456789").

Definition dns_label (label : string) : Prop :=
  let chars := String.list_ascii_of_string label in
  (1 <= length chars <= 63)%nat /\ Forall (fun c => letter_or_digit c \/ c = "-"%char) chars /\
  hd_error chars <> Some "-"%char /\ hd_error (rev chars) <> Some "-"%char.

Definition host_name (host : string) : Prop :=
  exists labels, labels <> [] /\ host = String.concat "." labels /\ Forall dns_label labels.

Lemma is_alnum_letter c : is_alnum c = true <-> letter_or_digit c.
Proof.
  transitivity (bool_decide (c ∈ String.list_ascii_of_string
    "abcdefghijklmnopqrstuvwxyzABCDEFGHIJKLMNOPQRSTUVWXYZ0123456789") = true).
  - assert (H : is_alnum c = bool_decide (c ∈ String.list_ascii_of_string
      "abcdefghijklmnopqrstuvwxyzABCDEFGHIJKLMNOPQRSTUVWXYZ0123456789"))
      by (destruct c as [[] [] [] [] [] [] [] []]; vm_compute; reflexivity).
    by rewrite H.
  - rewrite bool_decide_eq_true. apply list_elem_of_In.
Qed.

Lemma not_alnum_hyphen : ~ letter_or_digit "-".
Proof. by rewrite <- is_alnum_letter. Qed.

Lemma label_ok_dns label : label_ok (String.list_ascii_of_string label) = true <-> dns_label label.
Proof.
  unfold dns_label. set (l := String.list_ascii_of_string label).
  assert (Hc : forall x, is_alnum x || Ascii.eqb x "-" = true <-> letter_or_digit x \/ x = "-"%char).
  { intros x. by rewrite orb_true_iff, is_alnum_letter, Ascii.eqb_eq. }
  pose proof not_alnum_hyphen as Hh.
  destruct l as [|c rest]; [split; [done|intros [? _]; simpl in *; lia]|]. cbn [label_ok].
  rewrite andb_true_iff, is_alnum_letter. destruct rest as [|d mid _] using rev_ind.
  - simpl. split.
    + intros [H _]. split_and!; [lia|lia|by constructor; [left|]|by intros [= ->]|by intros [= ->]].
    + intros (_ & H & H1 & _). split; [|done]. apply Forall_cons_iff in H as [[H|H] _]; [done|]. by rewrite H in H1.
  - rewrite rev_app_distr. cbn [rev app]. rewrite !andb_true_iff, is_alnum_letter, forallb_forall, Nat.leb_le, length_rev.
    change (c :: mid ++ [d]) with ((c :: mid) ++ [d]). rewrite rev_app_distr, length_app. cbn [length hd_error rev app].
    rewrite Forall_cons_iff, Forall_app, !Forall_forall. split.
    + intros (H1 & (H2 & H3) & H4). split_and!; [lia|lia|by left|..].
      * intros x Hx. apply Hc, H4. by apply in_rev in Hx.
      * intros x [<-|[]]. by left.
      * by intros [= ->].
      * by intros [= ->].
    + intros (H1 & (H2 & H3 & H4) & H5 & H6). split; [destruct H2 as [|H2]; [done|by rewrite H2 in H5]|].
      split; [split; [|lia]|].
      * destruct (H4 d) as [|H]; [by left|done|by rewrite H in H6].
      * intros x Hx. apply Hc, H3. by apply in_rev.
Qed.

Lemma split_dots_plain l :
  ~ In "."%char (String.list_ascii_of_string l) -> split_dots l = [String.list_ascii_of_string l].
Proof.
  induction l as [|c l IH]; [done|]. simpl. intros H. destruct (Ascii.eqb_spec c ".") as [->|Hc]; [by destruct H; left|].
  rewrite IH; [done|]. intros Hi. apply H. by right.
Qed.

Lemma split_dots_dot l s :
  ~ In "."%char (String.list_ascii_of_string l) ->
  split_dots (String.append l (String "." s)) = String.list_ascii_of_string l :: split_dots s.
Proof.
  induction l as [|c l IH]; [done|]. simpl. intros H. destruct (Ascii.eqb_spec c ".") as [->|Hc]; [by destruct H; left|].
  rewrite IH; [done|]. intros Hi. apply H. by right.
Qed.

Lemma dns_label_no_dot l : dns_label l -> ~ In "."%char (String.list_ascii_of_string l).
Proof.
  intros (_ & H & _) Hi. rewrite Forall_forall in H. destruct (H _ Hi) as [Hd|Hd]; [|done].
  by apply is_alnum_letter in Hd.
Qed.

Lemma split_dots_concat labels :
  labels <> [] -> Forall dns_label labels ->
  split_dots (String.concat "." labels) = map String.list_ascii_of_string labels.
Proof.
  intros Hn H. induction H as [|l labels Hl H IH]; [done|]. destruct labels as [|l' labels].
  - simpl. by apply split_dots_plain, dns_label_no_dot.
  - change (String.concat "." (l :: l' :: labels))
      with (String.append l (String "." (String.concat "." (l' :: labels)))).
    rewrite split_dots_dot by by apply dns_label_no_dot. by rewrite IH.
Qed.

Lemma concat_split_dots s : String.concat "." (map String.string_of_list_ascii (split_dots s)) = s /\ split_dots s <> [].
Proof.
  induction s as [|c s [IH Hn]]; [done|]. simpl. destruct (Ascii.eqb_spec c ".") as [->|Hc].
  - split; [|done]. destruct (split_dots s) as [|l ls]; [done|]. simpl in *. by rewrite IH.
  - destruct (split_dots s) as [|l ls]; [done|]. split; [|done]. simpl in *. destruct ls; simpl in *; by rewrite <- IH.
Qed.

Lemma hostname_ok_name host : hostname_ok host = true <-> host_name host.
Proof.
  unfold hostname_ok, host_name. rewrite forallb_forall. split.
  - intros H. destruct (concat_split_dots host) as [E Hn]. exists (map String.string_of_list_ascii (split_dots host)).
    split_and!; [by destruct (split_dots host)|done|]. apply Forall_map, Forall_forall. intros l Hl.
    apply label_ok_dns. rewrite String.list_ascii_of_string_of_list_ascii. by apply H.
  - intros (labels & Hn & -> & H) l. rewrite split_dots_concat by done. intros (label & <- & Hi)%in_map_iff.
    apply label_ok_dns. by apply (proj1 (Forall_forall _ _) H).
Qed.

Section accepted.
Context (ReadFile : string -> result string) (AppendCertsFromPEM : string -> bool)
  (Decode : string -> result rawConfig).

Lemma validate_ok cfg :
  validate ReadFile AppendCertsFromPEM cfg = None <->
  config_ok cfg /\
  validateTLSCACert ReadFile AppendCertsFromPEM (im_TLSCACert (cf_IMAP cfg)) = None /\
  validateAllowedHost (cf_AllowedHost cfg) = None.
Proof.
  unfold validate. split.
  - intros H. destruct (String.eqb_spec (im_Host (cf_IMAP cfg)) ""); [done|].
    repeat match type of H with
           | (if ?b then Some _ else _) = None => let E := fresh "E" in destruct b eqn:E; [done|]
           end.
    destruct (validateTLSCACert _ _ _); [done|]. split; [|done].
    apply orb_false_iff in E as [??]. zbool.
    assert (im_RetentionDays (cf_IMAP cfg) = 0 \/
            Z.max (im_FetchDays (cf_IMAP cfg)) (cf_WindowDays cfg) <= im_RetentionDays (cf_IMAP cfg)).
    { apply andb_false_iff in E6 as [?|?]; zbool; lia. }
    split; try done; lia.
  - intros ([Hh Hp Hf Hw Hr Ha Hb Hi] & -> & ->).
    rewrite (proj2 (String.eqb_neq _ _) Hh), !(proj2 (Z.ltb_ge _ _)) by lia.
    rewrite Z.gtb_ltb, (proj2 (Z.ltb_ge _ _)) by lia. simpl.
    rewrite (proj2 (andb_false_iff _ _)); [done|].
    rewrite Z.gtb_ltb. destruct Hi as [->|(? & ? & ?)]; [by left|right]. apply Z.ltb_ge. lia.
Qed.

(** The certificate file can be read and holds a certificate, if one is configured. *)
Definition certificate_usable (file : string) : Prop :=
  file = "" \/ exists pem, ReadFile file = Ok pem /\ AppendCertsFromPEM pem = true.

Lemma validateTLSCACert_usable file :
  validateTLSCACert ReadFile AppendCertsFromPEM file = None <-> certificate_usable file.
Proof.
  unfold validateTLSCACert, certificate_usable. destruct (String.eqb_spec file ""); [by split; [left|]|].
  destruct (ReadFile file) as [pem|e]; [|split; [done|naive_solver]].
  destruct (AppendCertsFromPEM pem) eqn:E; simpl; split; try done; [by right; exists pem|].
  intros [|(pem' & [= <-] & E')]; congruence.
Qed.

Lemma validateAllowedHost_name host : validateAllowedHost host = None <-> host = "" \/ host_name host.
Proof.
  unfold validateAllowedHost. rewrite <- hostname_ok_name. destruct (String.eqb_spec host ""); [by split; [left|]|].
  destruct (hostname_ok host); simpl; split; try done; [by right|]. by intros [|].
Qed.

(** C37: [Load] succeeds exactly when the text decodes and the decoded values, completed by the
    defaults, are all in range, the certificate file can be read and holds a certificate, and the
    allowed host is a host name (the file and the host may be left out); the result is then these
    values. In particular an enabled IMAP retention is never shorter than the fetch window or the
    summary window. *)
Theorem Load_accepts data cfg :
  Load ReadFile AppendCertsFromPEM Decode data = Ok cfg <->
  exists raw,
    Decode data = Ok raw /\ cfg = completed raw /\ config_ok cfg /\
    certificate_usable (im_TLSCACert (cf_IMAP cfg)) /\
    (cf_AllowedHost cfg = "" \/ host_name (cf_AllowedHost cfg)).
Proof.
  unfold Load. destruct (Decode data) as [raw|e]; [|split; [done|naive_solver]]. rewrite applyDefaults_completed.
  destruct (validate _ _ _) eqn:Hv.
  - split; [done|]. intros (raw' & [= <-] & -> & H1 & H2 & H3).
    assert (Hn : validate ReadFile AppendCertsFromPEM (completed raw) = None); [|congruence].
    apply validate_ok. by rewrite validateTLSCACert_usable, validateAllowedHost_name.
  - apply validate_ok in Hv as H. rewrite validateTLSCACert_usable, validateAllowedHost_name in H.
    split; [intros [= <-]; eauto|]. intros (raw' & [= <-] & -> & _). done.
Qed.
End accepted.

(** The bytes of a host name: no scheme, port, path or white space. *)
Definition host_char (c : ascii) : bool := is_alnum c || Ascii.eqb c "-" || Ascii.eqb c ".".

Lemma label_ok_chars l : label_ok l = true -> forallb host_char l = true.
Proof.
  assert (Ha : forall c, is_alnum c = true -> host_char c = true)
    by (intros c E; unfold host_char; by rewrite E).
  destruct l as [|c rest]; [done|]. simpl. intros [Hc Hr]%andb_true_iff. rewrite (Ha c Hc). simpl.
  rewrite <- (rev_involutive rest). destruct (rev rest) as [|x mid]; [done|].
  apply andb_true_iff in Hr as [[Hx _]%andb_true_iff Hm].
  apply forallb_forall. intros y Hy%in_rev. destruct Hy as [<-|Hy]; [by apply Ha|].
  pose proof (proj1 (forallb_forall _ _) Hm y Hy) as H. simpl in H. unfold host_char. by rewrite H.
Qed.

Lemma split_dots_chars s :
  forallb (forallb host_char) (split_dots s) = true -> forallb host_char (String.list_ascii_of_string s) = true.
Proof.
  induction s as [|c s IH]; [done|]. simpl. destruct (Ascii.eqb_spec c ".") as [->|Hc]; [done|].
  destruct (split_dots s) as [|l ls]; simpl.
  - rewrite !andb_true_r. intros ->. by apply IH.
  - rewrite <- andb_assoc. intros [-> H]%andb_true_iff. by apply IH.
Qed.

(** An allowed host that passes validation is empty or consists of letters, digits, hyphens
    and dots only, in labels of 1 to 63 bytes: no scheme, port, path, blank or secret can hide in
    it. *)
Theorem validateAllowedHost_plain host :
  validateAllowedHost host = None ->
  host = "" \/
  (forallb host_char (String.list_ascii_of_string host) = true /\
   Forall (fun l => (1 <= length l <= 63)%nat) (split_dots host)).
Proof.
  unfold validateAllowedHost. destruct (String.eqb_spec host ""); [by left|].
  destruct (hostname_ok host) eqn:H; [|done]. intros _. right. unfold hostname_ok in H.
  split.
  - apply split_dots_chars. apply forallb_forall. intros l Hl. apply label_ok_chars.
    by apply (proj1 (forallb_forall _ _) H).
  - apply Forall_forall. intros l Hl. pose proof (proj1 (forallb_forall _ _) H l Hl) as Hok.
    destruct l as [|c rest]; [done|]. simpl in Hok |- *. apply andb_true_iff in Hok as [_ Hok].
    rewrite <- (length_rev rest). destruct (rev rest) as [|x mid]; simpl; [lia|].
    apply andb_true_iff in Hok as [[_ Hm%Nat.leb_le]%andb_true_iff _]. lia.
Qed.

Lemma validateAllowedHost_plain_witness :
  validateAllowedHost "hooks.slack.com" = None /\
  forallb host_char (String.list_ascii_of_string "hooks.slack.com") = true.
Proof.
  assert (H : validateAllowedHost "hooks.slack.com" = None) by (vm_compute; reflexivity).
  split; [exact H|].
  destruct (validateAllowedHost_plain "hooks.slack.com" H) as [E|[E _]]; [discriminate E|exact E].
Defined.
