(* ===== verification/Imap.v ===== *)
(** * The IMAP client (internal/imap/imap.go, client.go)

    Every operation of the client as a program over the session it holds ([imapSession], the
    go-imap client): each call of the session is a call of the program, with any answer. The
    client's own state is its configuration and whether the last selection was read-only. *)
From S2P Require Import Prelude GoStr GoTime GoErr Tlsrpt Prog.

(** [imap.Config], without the connection and login fields used before there is a client. *)
Record ImapConfig := {
  ic_Mailbox : string;
  ic_MaxMessageBytes : Z
}.

Record MessageMeta := {
  mm_UID : Z;
  mm_Size : Z;
  mm_Date : Time;
  mm_Seen : bool;
  mm_MessageID : string
}.

Record FetchMetaResult := {
  Messages : list MessageMeta;
  fm_UIDValidity : Z
}.

(** ** The session *)

Record MailboxStatus := { ReadOnly : bool; UidValidity : Z }.

(** The two criteria the client searches by. *)
Record SearchCriteria := { Since : option Time; Before_ : option Time }.

(** A message as fetched: the literal of its body is a stream, bytes up to its end or the first
    read error. *)
Record imap_message := {
  g_Uid : Z;
  g_Size : Z;
  g_Flags : list string;
  g_MessageId : option string;   (** of the envelope, when there is one *)
  g_InternalDate : Time;
  g_Body : option (string * option goerr)
}.

Inductive fetch_items : Type :=
  | FetchMetaItems    (** UID, size, flags, envelope, internal date *)
  | FetchBodyPeek.    (** UID and [BODY.PEEK[]] *)

Definition SeenFlag : string := "\Seen".
Definition DeletedFlag : string := "\Deleted".

Inductive session_call : Type -> Type :=
  | SLogout : session_call (option goerr)
  | SClose : session_call (option goerr)
  | SSelect (mailbox : string) (readOnly : bool) : session_call (result MailboxStatus)
  | SUidSearch (criteria : SearchCriteria) : session_call (result (list Z))
  (* the messages received on the channel, of which some may be nil, and the error *)
  | SUidFetch (uids : list Z) (items : fetch_items)
      : session_call (list (option imap_message) * option goerr)
  | SUidStore (uids : list Z) (addFlag : string) : session_call (option goerr)
  | SSupport (name : string) : session_call (result bool)
  | SUidExpunge (uids : list Z) : session_call (option goerr).

Abbreviation session_prog := (prog session_call).

(** ** The client *)

Record imapClient := { cfg : ImapConfig; lastSelectReadOnly : bool }.

Definition with_ro (c : imapClient) (b : bool) : imapClient := {| cfg := cfg c; lastSelectReadOnly := b |}.

(** Midnight of the day of [t] in the location of [t]; the callers' times are in UTC. *)
Definition truncateToDate (t : Time) : Time := midnight_of_day (day_of t).

Definition isTooLarge (size maxBytes : Z) : bool := if maxBytes <=? 0 then false else size >? maxBytes.

Fixpoint firstMissingUID (requested : list Z) (got : gmap Z string) : option Z :=
  match requested with
  | [] => None
  | uid :: rest => match got !! uid with None => Some uid | Some _ => firstMissingUID rest got end
  end.

Open Scope prog_scope.

Definition Close (c : imapClient) : session_prog (option goerr) :=
  let* _ := (if lastSelectReadOnly c then call SClose else Ret None) in
  let* err := call SLogout in
  Ret (match err with Some e => Some (errorf "imap: logout: " e) | None => None end).

(** The loop over the fetched messages. *)
Fixpoint collect_metas (maxBytes : Z) (msgs : list (option imap_message)) : list MessageMeta :=
  match msgs with
  | [] => []
  | None :: msgs' => collect_metas maxBytes msgs'
  | Some msg :: msgs' =>
      if IsZero (g_InternalDate msg) then collect_metas maxBytes msgs'
      else match g_MessageId msg with
           | None => collect_metas maxBytes msgs'
           | Some mid =>
               let meta := {| mm_UID := g_Uid msg; mm_Size := g_Size msg; mm_Date := g_InternalDate msg;
                              mm_Seen := existsb (String.eqb SeenFlag) (g_Flags msg);
                              mm_MessageID := mid |} in
               if isTooLarge (mm_Size meta) maxBytes then collect_metas maxBytes msgs'
               else meta :: collect_metas maxBytes msgs'
           end
  end.

Definition FetchMeta (ctx_err : option goerr) (c : imapClient) (since : Time)
  : session_prog (imapClient * result FetchMetaResult) :=
  match ctx_err with
  | Some e => Ret (c, Err (errorf "imap: fetch meta: " e))
  | None =>
      let* st := call (SSelect (ic_Mailbox (cfg c)) true) in
      match st with
      | Err e => Ret (c, Err (errorf (Join "" ["imap: select mailbox "; ic_Mailbox (cfg c); ": "]) e))
      | Ok status =>
          let c := with_ro c true in
          let* found := call (SUidSearch {| Since := Some (truncateToDate since); Before_ := None |}) in
          match found with
          | Err e => Ret (c, Err (errorf "imap: fetch meta: " e))
          | Ok [] => Ret (c, Ok {| Messages := []; fm_UIDValidity := UidValidity status |})
          | Ok uids =>
              let* (msgs, err) := call (SUidFetch uids FetchMetaItems) in
              let metas := collect_metas (ic_MaxMessageBytes (cfg c)) msgs in
              match err with
              | Some e => Ret (c, Err (errorf "imap: fetch meta: " e))
              | None => Ret (c, Ok {| Messages := metas; fm_UIDValidity := UidValidity status |})
              end
          end
      end
  end.

(** The loop over the fetched bodies, each read up to one byte beyond the limit. *)
Fixpoint collect_bodies (maxBytes : Z) (msgs : list (option imap_message)) (out : gmap Z string)
  : result (gmap Z string) :=
  match msgs with
  | [] => Ok out
  | None :: msgs' => collect_bodies maxBytes msgs' out
  | Some msg :: msgs' =>
      match g_Body msg with
      | None => collect_bodies maxBytes msgs' out
      | Some (bytes, read_err) =>
          let '(raw, failed) :=
            if maxBytes >? 0
            then if Z.of_nat (String.length bytes) <? maxBytes + 1 then (bytes, read_err)
                 else (String.substring 0 (Z.to_nat (maxBytes + 1)) bytes, None)
            else (bytes, read_err) in
          match failed with
          | Some e => Err (errorf (Join "" ["imap: download: read uid "; fmt_d (g_Uid msg); ": "]) e)
          | None =>
              if (maxBytes >? 0) && (Z.of_nat (String.length raw) >? maxBytes)
              then Err (errorf (Join "" ["imap: download: uid "; fmt_d (g_Uid msg); ": "])
                          (Sentinel errBodyTooLarge))
              else collect_bodies maxBytes msgs' (<[g_Uid msg := raw]> out)
          end
      end
  end.

Definition Download (ctx_err : option goerr) (c : imapClient) (uids : list Z)
  : session_prog (imapClient * result (gmap Z string)) :=
  match ctx_err with
  | Some e => Ret (c, Err (errorf "imap: download: " e))
  | None =>
      match uids with
      | [] => Ret (c, Ok ∅)
      | _ =>
          let* st := call (SSelect (ic_Mailbox (cfg c)) true) in
          match st with
          | Err e => Ret (c, Err (errorf (Join "" ["imap: select mailbox "; ic_Mailbox (cfg c); ": "]) e))
          | Ok _ =>
              let c := with_ro c true in
              let* (msgs, err) := call (SUidFetch uids FetchBodyPeek) in
              match collect_bodies (ic_MaxMessageBytes (cfg c)) msgs ∅ with
              | Err e => Ret (c, Err e)
              | Ok out =>
                  match err with
                  | Some e => Ret (c, Err (errorf "imap: download: " e))
                  | None =>
                      match firstMissingUID uids out with
                      | Some missing =>
                          Ret (c, Err (Wrap "imap: download: " (Sentinel errUIDNotFound)
                                            (String.append ": " (fmt_d missing))))
                      | None => Ret (c, Ok out)
                      end
                  end
              end
          end
      end
  end.

Definition selectMailbox (c : imapClient) (readOnly : bool) : session_prog (imapClient * result MailboxStatus) :=
  let* st := call (SSelect (ic_Mailbox (cfg c)) readOnly) in
  match st with
  | Err e => Ret (c, Err (errorf (Join "" ["imap: select mailbox "; ic_Mailbox (cfg c); ": "]) e))
  | Ok status => Ret (with_ro c (ReadOnly status), Ok status)
  end.

Definition MarkSeen (ctx_err : option goerr) (c : imapClient) (uids : list Z)
  : session_prog (imapClient * option goerr) :=
  match ctx_err with
  | Some e => Ret (c, Some (errorf "imap: mark seen: " e))
  | None =>
      match uids with
      | [] => Ret (c, None)
      | _ =>
          let* (c, st) := selectMailbox c false in
          match st with
          | Err e => Ret (c, Some (errorf "imap: mark seen: " e))
          | Ok status =>
              if ReadOnly status then Ret (c, Some (Sentinel ErrMailboxReadOnly))
              else
                let* err := call (SUidStore uids SeenFlag) in
                Ret (c, match err with Some e => Some (errorf "imap: mark seen: " e) | None => None end)
          end
      end
  end.

Definition uidSearchBefore (cutoff : Time) : session_prog (result (list Z)) :=
  let before := truncateToDate cutoff in
  let* found := call (SUidSearch {| Since := None; Before_ := Some before |}) in
  Ret (match found with
       | Err e => Err (errorf (Join "" ["imap: uid search before "; format_date_only before; ": "]) e)
       | Ok uids => Ok uids
       end).

Definition uidplus_Capability : string := "UIDPLUS".

Definition DeleteOlderThan (ctx_err : option goerr) (c : imapClient) (cutoff : Time)
  : session_prog (imapClient * result Z) :=
  let fail pre e := Err (errorf (String.append "imap: delete older than: " pre) e) in
  match ctx_err with
  | Some e => Ret (c, fail "" e)
  | None =>
      if IsZero cutoff then Ret (c, Ok 0)
      else
        let* sup := call (SSupport uidplus_Capability) in
        match sup with
        | Err e => Ret (c, fail (Join "" ["check "; uidplus_Capability; " support: "]) e)
        | Ok false => Ret (c, Ok 0)
        | Ok true =>
            let* (c, st) := selectMailbox c false in
            match st with
            | Err e => Ret (c, fail "" e)
            | Ok status =>
                if ReadOnly status then Ret (c, Err (Sentinel ErrMailboxReadOnly))
                else
                  let* found := uidSearchBefore cutoff in
                  match found with
                  | Err e => Ret (c, fail "" e)
                  | Ok [] => Ret (c, Ok 0)
                  | Ok uids =>
                      let* err := call (SUidStore uids DeletedFlag) in
                      match err with
                      | Some e => Ret (c, fail "mark deleted: " e)
                      | None =>
                          let* err := call (SUidExpunge uids) in
                          match err with
                          | Some e => Ret (c, fail "uid expunge: " e)
                          | None => Ret (c, Ok (Z.of_nat (length uids)))
                          end
                      end
                  end
            end
        end
  end.

Definition SearchOlderThan (ctx_err : option goerr) (c : imapClient) (cutoff : Time)
  : session_prog (imapClient * result (list Z)) :=
  match ctx_err with
  | Some e => Ret (c, Err (errorf "imap: search older than: " e))
  | None =>
      if IsZero cutoff then Ret (c, Ok [])
      else
        let* (c, st) := selectMailbox c true in
        match st with
        | Err e => Ret (c, Err (errorf "imap: search older than: " e))
        | Ok _ =>
            let* found := uidSearchBefore cutoff in
            Ret (c, match found with
                    | Err e => Err (errorf "imap: search older than: " e)
                    | Ok uids => Ok uids
                    end)
        end
  end.
