(* ===== verification/ImapProps.v ===== *)
(** * Properties of the IMAP client (internal/imap/client.go)

    Messages of others are never expunged; deletion touches only what the server reported as old;
    reading operations change nothing on the server; downloads are complete and bounded. *)
From S2P Require Import Prelude GoStr GoTime GoErr Tlsrpt Prog Imap.

Abbreviation session_event := (event session_call).

(** ** What is selected on the server *)

(** The mailbox a session has selected, by RFC 3501: [Some true] when it is open read-only, [Some
    false] when read-write, [None] when none is selected. EXAMINE always opens read-only; a
    failed selection leaves none. *)
Definition sel_step (sel : option bool) (e : session_event) : option bool :=
  match e with
  | Ev c x =>
      match c in session_call X return X -> option bool with
      | SSelect _ readOnly => fun r =>
          match r with Ok st => Some (readOnly || ReadOnly st) | Err _ => None end
      | SClose => fun _ => None
      | SLogout => fun _ => None
      | _ => fun _ => sel
      end x
  end.

Definition selected (h : list session_event) : option bool := foldl sel_step None h.

Lemma selected_snoc h e : selected (h ++ [e]) = sel_step (selected h) e.
Proof. unfold selected. by rewrite foldl_snoc. Qed.

Definition is_close (X : Type) (c : session_call X) : bool :=
  match c with SClose => true | _ => false end.

Definition no_close (h : list session_event) : Prop :=
  Forall (fun e => ev_is is_close e = false) h.

(** ** Any use of a client *)

Inductive client_op : Type :=
  | OFetchMeta (ctx_err : option goerr) (since : Time)
  | ODownload (ctx_err : option goerr) (uids : list Z)
  | OMarkSeen (ctx_err : option goerr) (uids : list Z)
  | ODeleteOlderThan (ctx_err : option goerr) (cutoff : Time)
  | OSearchOlderThan (ctx_err : option goerr) (cutoff : Time).

Definition run_op (o : client_op) (c : imapClient) : session_prog imapClient :=
  match o with
  | OFetchMeta e t => bind (FetchMeta e c t) (fun r => Ret r.1)
  | ODownload e uids => bind (Download e c uids) (fun r => Ret r.1)
  | OMarkSeen e uids => bind (MarkSeen e c uids) (fun r => Ret r.1)
  | ODeleteOlderThan e t => bind (DeleteOlderThan e c t) (fun r => Ret r.1)
  | OSearchOlderThan e t => bind (SearchOlderThan e c t) (fun r => Ret r.1)
  end.

Fixpoint run_ops (os : list client_op) (c : imapClient) : session_prog imapClient :=
  match os with
  | [] => Ret c
  | o :: os' => bind (run_op o c) (run_ops os')
  end.

(** When the client takes the mailbox to be read-only, it is not open read-write. *)
Definition client_inv (c : imapClient) (h : list session_event) : Prop :=
  no_close h /\ (lastSelectReadOnly c = true -> selected h <> Some false).

(** A call that does not change the selection. *)
Lemma client_inv_call c h e :
  client_inv c h -> ev_is is_close e = false -> sel_step (selected h) e = selected h ->
  client_inv c (h ++ [e]).
Proof.
  intros [Hn Hs] Hc He. split; [apply Forall_app; split; [done|by constructor]|].
  by rewrite selected_snoc, He.
Qed.

Lemma client_inv_select c h mailbox ro st b :
  client_inv c h -> (b = true -> ro || ReadOnly st = true) ->
  client_inv (with_ro c b) (h ++ [Ev (SSelect mailbox ro) (Ok st)]).
Proof.
  intros [Hn Hs] Hb. split; [apply Forall_app; split; [done|by constructor]|].
  rewrite selected_snoc. simpl. intros E. by rewrite Hb.
Qed.

Lemma client_inv_select_err c h mailbox ro e :
  client_inv c h -> client_inv c (h ++ [Ev (SSelect mailbox ro) (Err e)]).
Proof.
  intros [Hn Hs]. split; [apply Forall_app; split; [done|by constructor]|]. by rewrite selected_snoc.
Qed.

(** Solves the cases of an operation that remain after its calls have been answered. *)
Ltac client_step :=
  repeat match goal with
  | |- wp _ _ _ => progress (simpl)
  | |- forall _, _ => intro
  | |- context [match ?x with Ok _ => _ | Err _ => _ end] => destruct x
  | |- context [match ?x with Some _ => _ | None => _ end] => destruct x
  | |- context [match ?x with [] => _ | _ :: _ => _ end] => destruct x
  | |- context [if ?b then _ else _] => destruct b eqn:?
  | |- context [let '(_, _) := ?x in _] => destruct x
  end.

Lemma run_op_inv o c h : client_inv c h -> wp (run_op o c) h client_inv.
Proof.
  intros H.
  destruct o; simpl; unfold FetchMeta, Download, MarkSeen, DeleteOlderThan, SearchOlderThan,
    selectMailbox, uidSearchBefore; client_step; simpl;
    repeat first [exact H | apply client_inv_select_err | apply client_inv_select | apply client_inv_call];
    try done; intros; simpl; congruence.
Qed.

Lemma run_ops_inv os c h : client_inv c h -> wp (run_ops os c) h client_inv.
Proof.
  revert c h. induction os as [|o os IH]; intros c h H; simpl; [done|].
  apply prog_wp_bind. eapply prog_wp_mono; [|by apply run_op_inv]. simpl. intros c' h' H'. by apply IH.
Qed.

Definition new_client (conf : ImapConfig) : imapClient := {| cfg := conf; lastSelectReadOnly := false |}.

(** Every CLOSE of a history is sent while no mailbox is open read-write. *)
Definition close_safe (h : list session_event) : Prop :=
  forall t1 x t2, h = t1 ++ Ev SClose x :: t2 -> selected t1 <> Some false.

Lemma close_safe_snoc h e :
  close_safe h -> (ev_is is_close e = true -> selected h <> Some false) -> close_safe (h ++ [e]).
Proof.
  intros Hs He t1 x t2 E. destruct t2 as [|e2 t2 _] using rev_ind.
  - apply app_inj_tail in E as [-> ->]. by apply He.
  - rewrite app_comm_cons, app_assoc in E. apply app_inj_tail in E as [-> _]. by eapply Hs.
Qed.

Lemma no_close_safe h : no_close h -> close_safe h.
Proof.
  intros Hn t1 x t2 ->. apply Forall_app in Hn as [_ Hn]. by inv Hn.
Qed.

(** The client never lets a CLOSE expunge messages it does not own. After any sequence of
    operations on a new client, with any answers of the server, [Close] sends CLOSE only while no
    mailbox is open read-write, so that CLOSE removes nothing; and no operation itself sends one. *)
Theorem Close_never_expunges conf os t r :
  runs (bind (run_ops os (new_client conf)) Close) t r ->
  forall t1 x t2, t = t1 ++ Ev SClose x :: t2 -> selected t1 <> Some false.
Proof.
  intros H. apply (wp_runs _ t r [] (fun _ h => close_safe h) H). clear H.
  apply prog_wp_bind. eapply prog_wp_mono; [|apply run_ops_inv; split; [constructor|done]].
  intros c h [Hn Hs]. apply no_close_safe in Hn. simpl. unfold Close.
  destruct (lastSelectReadOnly c); simpl.
  - intros x y. apply close_safe_snoc; [apply close_safe_snoc; [done|by intros _; apply Hs]|done].
  - intros y. by apply close_safe_snoc.
Qed.

(** A server with two old messages, which supports everything. *)
Definition sample_session (X : Type) (c : session_call X) : X :=
  match c with
  | SLogout => None
  | SClose => None
  | SSelect _ ro => Ok {| ReadOnly := ro; UidValidity := 42 |}
  | SUidSearch _ => Ok [7; 9]
  | SUidFetch _ _ => ([], None)
  | SUidStore _ _ => None
  | SSupport _ => Ok true
  | SUidExpunge _ => None
  end.

(** The run in which every call is answered by a given server. *)
Fixpoint run_with {C A} (answer : forall X, C X -> X) (p : prog C A) : list (event C) * A :=
  match p with
  | Ret a => ([], a)
  | Call c k => let '(t, a) := run_with answer (k (answer _ c)) in (Ev c (answer _ c) :: t, a)
  end.

Lemma run_with_runs {C A} (answer : forall X, C X -> X) (p : prog C A) :
  runs p (run_with answer p).1 (run_with answer p).2.
Proof.
  induction p as [a|X c k IH]; simpl; [constructor|].
  specialize (IH (answer X c)). destruct (run_with _ _) as [t a]. by constructor.
Qed.

Lemma Close_never_expunges_witness :
  let p := bind (run_ops [OFetchMeta None 0; OMarkSeen None [7]; OFetchMeta None 0]
                   (new_client {| ic_Mailbox := "INBOX"; ic_MaxMessageBytes := 0 |})) Close in
  exists t1 x t2, (run_with sample_session p).1 = t1 ++ Ev SClose x :: t2 /\ selected t1 <> Some false.
Proof.
  cbv zeta. set (p := bind _ _).
  assert (E : exists t1 x t2, (run_with sample_session p).1 = t1 ++ Ev SClose x :: t2)
    by (eexists [_; _; _; _; _; _; _; _], _, _; vm_compute; reflexivity).
  destruct E as (t1 & x & t2 & E). exists t1, x, t2. split; [exact E|].
  exact (Close_never_expunges _ _ _ _ (run_with_runs sample_session p) t1 x t2 E).
Defined.

(** ** Deletion *)

Definition modifies (X : Type) (c : session_call X) : bool :=
  match c with SUidStore _ _ | SUidExpunge _ | SClose => true | _ => false end.

(** A run of a deletion that ends with [r]: nothing was changed, since there was nothing to do or
    something failed, or exactly the messages found were marked, and when that worked expunged. The
    search is for messages before the date of the cutoff: [before] is the midnight at the start of
    the day, 86400 seconds long, that the cutoff is in. *)
Definition deletion_done (c : imapClient) (cutoff before : Time) (t : list session_event) (r : result Z) : Prop :=
  let search := SUidSearch {| Since := None; Before_ := Some before |} in
  Forall (fun e => ev_is modifies e = false) t /\
    (r = Ok 0 /\ (cutoff = zeroTime \/ In (Ev (SSupport uidplus_Capability) (Ok false)) t \/ In (Ev search (Ok [])) t) \/
     is_ok r = false) \/
  exists st uids stored,
    cutoff <> zeroTime /\ ReadOnly st = false /\ uids <> [] /\
    let t0 := [Ev (SSupport uidplus_Capability) (Ok true);
               Ev (SSelect (ic_Mailbox (cfg c)) false) (Ok st);
               Ev search (Ok uids);
               Ev (SUidStore uids DeletedFlag) stored] in
    match stored with
    | Some _ => t = t0 /\ is_ok r = false
    | None => exists expunged, t = t0 ++ [Ev (SUidExpunge uids) expunged] /\
                match expunged with
                | None => r = Ok (Z.of_nat (length uids))
                | Some _ => is_ok r = false
                end
    end.

Definition deletion_outcome (c : imapClient) (cutoff : Time) (t : list session_event) (r : result Z) : Prop :=
  exists before, before mod (86400 * 10 ^ 9) = 0 /\ before <= cutoff < before + 86400 * 10 ^ 9 /\
    deletion_done c cutoff before t r.

Lemma truncateToDate_midnight t : day_in_range (day_of t) ->
  truncateToDate t mod (86400 * 10 ^ 9) = 0 /\ truncateToDate t <= t < truncateToDate t + 86400 * 10 ^ 9.
Proof.
  intros H. unfold truncateToDate. rewrite midnight_of_day_exact by done. change (86400 * 10 ^ 9) with ns_per_day.
  pose proof (day_of_bounds t). split; [by apply Z.mod_mul|lia].
Qed.

(** C38: deletion touches only what the server itself reported as older than the cutoff. Either
    [DeleteOlderThan] changes nothing on the server (and reports success only when no cutoff is set,
    the server cannot expunge by UID, or it found nothing), or it has made sure that the server can
    expunge by UID, opened the mailbox read-write, searched for the messages before the day of a
    cutoff that is set, that is before the last midnight at or before the cutoff, marked exactly
    those as deleted and, when that worked, expunged exactly those; it reports their number exactly
    when the expunge worked. *)
Theorem DeleteOlderThan_only_old ctx_err c cutoff t c' r :
  runs (DeleteOlderThan ctx_err c cutoff) t (c', r) -> day_in_range (cutoff / (86400 * 10 ^ 9)) ->
  deletion_outcome c cutoff t r.
Proof.
  intros H Hr. exists (truncateToDate cutoff).
  destruct (truncateToDate_midnight cutoff Hr) as [Hmod Hbounds]. split; [done|]. split; [done|].
  apply (wp_runs _ t (c', r) [] (fun cr t => deletion_done c cutoff (truncateToDate cutoff) t cr.2) H).
  unfold deletion_done.
  clear H t c' r.
  unfold DeleteOlderThan, selectMailbox, uidSearchBefore. unfold IsZero.
  destruct ctx_err; simpl; [left; by auto|].
  destruct (Z.eqb_spec cutoff 0); simpl; [left; by auto|].
  intros [[]|]; simpl; [|left; split; [by repeat constructor|by auto 6]..].
  intros [st|]; simpl; [|left; split; [by repeat constructor|by auto]].
  destruct (ReadOnly st) eqn:Hro; simpl; [left; split; [by repeat constructor|by auto]|].
  intros [[|u us]|]; simpl; [left; split; [by repeat constructor|by auto 9]| |left; split; [by repeat constructor|by auto]].
  intros [e|]; simpl.
  - right. exists st, (u :: us), (Some e). done.
  - intros [e|]; simpl; right; exists st, (u :: us), None; (split; [done|]); (split; [done|]);
      (split; [done|]); eexists; done.
Qed.

Lemma DeleteOlderThan_only_old_witness :
  let c := new_client {| ic_Mailbox := "INBOX"; ic_MaxMessageBytes := 0 |} in
  let p := DeleteOlderThan None c 1 in
  (run_with sample_session p).2.2 = Ok 2 /\
  exists uids x, In (Ev (SUidExpunge uids) x) (run_with sample_session p).1 /\ uids = [7; 9].
Proof.
  cbv zeta. set (c := new_client _). set (p := DeleteOlderThan None c 1).
  pose proof (DeleteOlderThan_only_old None c 1 _ _ _ (run_with_runs sample_session p
    : runs p _ ((run_with sample_session p).2.1, (run_with sample_session p).2.2)) ltac:(split; vm_compute; congruence)) as H.
  destruct H as (before & _ & _ & H). vm_compute in H |- *. split; [reflexivity|].
  destruct H as [[H _]|(st & uids & stored & _ & _ & _ & H)].
  - exfalso. apply Forall_inv_tail, Forall_inv_tail, Forall_inv_tail, Forall_inv in H. discriminate H.
  - exists [7; 9], None. split; [|reflexivity]. do 4 right. left. reflexivity.
Defined.

(** ** Reading *)

(** Calls that leave every message as it is: no flag is set, nothing is expunged, and a mailbox
    is only opened read-only. *)
Definition reads_only (X : Type) (c : session_call X) : bool :=
  match c with
  | SUidStore _ _ | SUidExpunge _ | SClose => false
  | SSelect _ readOnly => readOnly
  | _ => true
  end.

Ltac only_step :=
  repeat match goal with
  | |- only _ (bind _ _) => apply only_bind
  | |- only _ (Call _ _) => split
  | |- only _ (call _) => apply only_call
  | |- only _ (Ret _) => exact I
  | |- forall _, _ => intro
  | |- _ = true => reflexivity
  | |- context [match ?x with Ok _ => _ | Err _ => _ end] => destruct x
  | |- context [match ?x with Some _ => _ | None => _ end] => destruct x
  | |- context [match ?x with [] => _ | _ :: _ => _ end] => destruct x
  | |- context [if ?b then _ else _] => destruct b
  | |- context [let '(_, _) := ?x in _] => destruct x
  end.

(** Fetching metadata, downloading and previewing a deletion never change a message on the
    server, and marking as seen only ever sets the seen flag, on exactly the messages asked for:
    in every run, whatever the server answers. *)
Theorem reading_changes_nothing ctx_err c since uids cutoff :
  only reads_only (FetchMeta ctx_err c since) /\
  only reads_only (Download ctx_err c uids) /\
  only reads_only (SearchOlderThan ctx_err c cutoff) /\
  only (fun X (s : session_call X) =>
          match s with
          | SUidStore us flag => bool_decide (us = uids) && String.eqb flag SeenFlag
          | SUidExpunge _ | SClose => false
          | _ => true
          end) (MarkSeen ctx_err c uids).
Proof.
  split_and!; unfold FetchMeta, Download, SearchOlderThan, MarkSeen, selectMailbox, uidSearchBefore;
    only_step.
  all: cbn; rewrite ?bool_decide_eq_true_2 by done; only_step.
Qed.

(** ** Downloads *)

Lemma firstMissingUID_none uids out :
  firstMissingUID uids out = None <-> Forall (fun uid => is_Some (out !! uid)) uids.
Proof.
  induction uids as [|u us IH]; simpl; [by split; constructor|].
  destruct (out !! u) eqn:E.
  - rewrite IH, Forall_cons_iff. split; [intros; split; [by eexists|done]|by intros []].
  - split; [done|]. intros [[? ?] _]%Forall_cons_iff. congruence.
Qed.

(** The limit on the size of a body, when there is one. *)
Definition body_within (maxBytes : Z) (body : string) : Prop :=
  0 < maxBytes -> Z.of_nat (String.length body) <= maxBytes.

Lemma collect_bodies_within maxBytes msgs out out' :
  collect_bodies maxBytes msgs out = Ok out' ->
  map_Forall (fun _ body => body_within maxBytes body) out ->
  map_Forall (fun _ body => body_within maxBytes body) out'.
Proof.
  revert out. induction msgs as [|[msg|] msgs IH]; intros out; simpl; [by intros [= <-]| |apply IH].
  destruct (g_Body msg) as [[bytes rerr]|]; [|apply IH].
  destruct (if maxBytes >? 0 then _ else _) as [raw failed]. destruct failed; [done|].
  destruct ((maxBytes >? 0) && _) eqn:Hb; [done|]. intros H Ho. apply (IH _ H).
  apply map_Forall_insert_2; [|done]. intros Hp. rewrite !Z.gtb_ltb in Hb.
  rewrite (proj2 (Z.ltb_lt _ _) Hp) in Hb. simpl in Hb. zbool. done.
Qed.

(** A download that succeeds is complete and within the limit: it has a body for every
    message asked for, and no body is longer than the configured maximum when there is one. *)
Theorem Download_complete ctx_err c uids t c' out :
  runs (Download ctx_err c uids) t (c', Ok out) ->
  Forall (fun uid => exists body, out !! uid = Some body /\
                       body_within (ic_MaxMessageBytes (cfg c)) body) uids.
Proof.
  intros H.
  apply (wp_runs _ t (c', Ok out) [] (fun cr _ => forall out, cr.2 = Ok out ->
    Forall (fun uid => exists body, out !! uid = Some body /\
                         body_within (ic_MaxMessageBytes (cfg c)) body) uids) H); [clear|done].
  unfold Download. destruct ctx_err; [done|]. destruct uids as [|u us]; simpl; [by constructor|].
  intros [st|]; simpl; [|done]. intros [msgs err].
  destruct (collect_bodies _ msgs ∅) as [out|] eqn:Hc; [|done]. destruct err; [done|].
  destruct (firstMissingUID (u :: us) out) eqn:Hm; simpl in Hm |- *; rewrite ?Hm; [done|].
  intros out' [= <-]. apply (firstMissingUID_none (u :: us)) in Hm.
  pose proof (collect_bodies_within _ _ _ _ Hc (map_Forall_empty _)) as Hw.
  eapply Forall_impl; [|exact Hm]. intros uid [body Hb]. exists body. split; [done|]. by apply (Hw uid).
Qed.

(** A server that delivers a body of two bytes for every message asked for. *)
Definition sample_bodies (X : Type) (c : session_call X) : X :=
  match c in session_call X return X with
  | SUidFetch uids _ =>
      (map (fun u => Some {| g_Uid := u; g_Size := 2; g_Flags := []; g_MessageId := None;
                             g_InternalDate := 1; g_Body := Some ("ab", None) |}) uids, None)
  | SLogout => None
  | SClose => None
  | SSelect _ ro => Ok {| ReadOnly := ro; UidValidity := 42 |}
  | SUidSearch _ => Ok []
  | SUidStore _ _ => None
  | SSupport _ => Ok true
  | SUidExpunge _ => None
  end.

Lemma Download_complete_witness :
  let c := new_client {| ic_Mailbox := "INBOX"; ic_MaxMessageBytes := 2 |} in
  exists out, (run_with sample_bodies (Download None c [7; 9])).2.2 = Ok out /\
    Forall (fun uid => exists body, out !! uid = Some body /\ body_within 2 body) [7; 9].
Proof.
  cbv zeta. set (c := new_client _).
  assert (E : exists out, (run_with sample_bodies (Download None c [7; 9])).2.2 = Ok out)
    by (eexists; vm_compute; reflexivity).
  destruct E as [out E]. exists out. split; [exact E|].
  apply (Download_complete None c [7; 9] (run_with sample_bodies (Download None c [7; 9])).1
           (run_with sample_bodies (Download None c [7; 9])).2.1 out).
  rewrite <- E, <- surjective_pairing. apply run_with_runs.
Defined.
