(* ===== verification/Mailparse.v ===== *)
(** * Attachments of a message (internal/mailparse/mailparse.go)

    The walk over the MIME structure, with its limits on nesting and on the total size. The MIME
    library is a record of operations: what it parses out of a header, and the parts and the bytes
    it delivers from a body. A body is read in chunks, up to its end or the first error. *)
From S2P Require Import Prelude GoStr GoTime GoErr Utf8.

Record Attachment := {
  Filename : string;
  ContentType : string;
  Content : string
}.

Definition maxMultipartDepth : Z := 10.

(** The chunks that successive reads deliver, and the error they end with, [None] for [io.EOF]. *)
Abbreviation stream := (list string * option goerr)%type.

(** A header with its [Get], and what follows it. *)
Record entity (body : Type) := { Header : string -> string; Body : body }.
Arguments Header {body} _ _.
Arguments Body {body} _.

(** The library operations the package uses. *)
Record Mime (body : Type) := {
  (* media type, parameters, error; the first two are meaningful even with an error *)
  ParseMediaType : string -> string * gmap string string * option goerr;
  DecodeHeader : string -> result string;
  ToLower : string -> string;
  (* [multipart.NewReader(r, boundary)]: the parts of [NextRawPart], and the error that is not EOF *)
  RawParts : body -> string -> list (entity body) * option goerr;
  ReadRaw : body -> stream;
  ReadBase64 : body -> stream
}.
Arguments ParseMediaType {body} _ _.
Arguments DecodeHeader {body} _ _.
Arguments ToLower {body} _ _.
Arguments RawParts {body} _ _ _.
Arguments ReadRaw {body} _ _.
Arguments ReadBase64 {body} _ _.

(** [m[key]] of a string map. *)
Definition param (m : gmap string string) (key : string) : string := default "" (m !! key).

Definition isAttachment (disp : string) (contentTypeParams : gmap string string) : bool :=
  if String.eqb disp "attachment" then true
  else if String.eqb disp "inline" then false
  else bool_decide (is_Some (contentTypeParams !! "name")).

Section extract.
Context {body : Type} (mime : Mime body).

Definition resolveFilename (dispParams contentTypeParams : gmap string string) : string :=
  let raw := match dispParams !! "filename" with
             | Some fn => fn
             | None => match contentTypeParams !! "name" with Some name => name | None => "" end
             end in
  if String.eqb raw "" then ""
  else match DecodeHeader mime raw with
       | Err _ => raw
       | Ok decoded => decoded
       end.

(** The reading loop: the accumulated size, and the content or an error. *)
Fixpoint read_loop (chunks : list string) (end_ : option goerr) (maxBytes accumulated : Z)
    (content : string) : Z * result string :=
  match chunks with
  | [] => (accumulated, match end_ with None => Ok content | Some e => Err e end)
  | buf :: chunks' =>
      if Z.of_nat (String.length buf) >? 0 then
        let accumulated := accumulated + Z.of_nat (String.length buf) in
        if (maxBytes >? 0) && (accumulated >? maxBytes)
        then (accumulated, Err (ErrSizeLimitExceeded maxBytes accumulated))
        else read_loop chunks' end_ maxBytes accumulated (String.append content buf)
      else read_loop chunks' end_ maxBytes accumulated content
  end.

Definition decodeContent (r : body) (enc : string) (maxBytes accumulated : Z) : Z * result string :=
  let encLower := ToLower mime (TrimSpace enc) in
  if negb (String.eqb encLower "base64") && negb (String.eqb encLower "")
  then (accumulated, Err (Sentinel errSkip))
  else
    let '(chunks, end_) := if String.eqb encLower "base64" then ReadBase64 mime r else ReadRaw mime r in
    read_loop chunks end_ maxBytes accumulated "".

Definition is_size_limit (e : goerr) : bool :=
  match errors_as (fun x => match x with ErrSizeLimitExceeded l a => Some (l, a) | _ => None end) e with
  | Some _ => true
  | None => false
  end.

(** The common part of a part and of a message that is not multipart: decode it when it is an
    attachment, skip it when its content cannot be decoded. *)
Definition extract_leaf (e : entity body) (mediaType : string) (params : gmap string string)
    (maxBytes accumulated : Z) : Z * result (list Attachment) :=
  let '(disp, dispParams, _) := ParseMediaType mime (Header e "Content-Disposition") in
  if negb (isAttachment disp params) then (accumulated, Ok [])
  else
    let enc := Header e "Content-Transfer-Encoding" in
    match decodeContent (Body e) enc maxBytes accumulated with
    | (accumulated, Err err) =>
        if is_size_limit err then (accumulated, Err err) else (accumulated, Ok [])
    | (accumulated, Ok content) =>
        (accumulated, Ok [{| Filename := resolveFilename dispParams params; ContentType := mediaType;
                             Content := content |}])
    end.

(** [processPart], given the walk of nested parts. *)
Definition processPart (nested : body -> string -> Z -> Z * result (list Attachment))
    (part : entity body) (maxBytes accumulated : Z) : Z * result (list Attachment) :=
  let contentType := Header part "Content-Type" in
  if String.eqb contentType "" then (accumulated, Ok [])
  else
    let '(mediaType, params, err) := ParseMediaType mime contentType in
    match err with
    | Some _ => (accumulated, Ok [])
    | None =>
        if HasPrefix mediaType "multipart/"
        then nested (Body part) (param params "boundary") accumulated
        else extract_leaf part mediaType params maxBytes accumulated
    end.

(** The loop over the parts of a multipart body. *)
Fixpoint parts_loop (process : entity body -> Z -> Z * result (list Attachment))
    (parts : list (entity body)) (end_ : option goerr) (accumulated : Z) (results : list Attachment)
  : Z * result (list Attachment) :=
  match parts with
  | [] => (accumulated, match end_ with
                        | None => Ok results
                        | Some e => Err (errorf "mailparse: parse multipart: " e)
                        end)
  | part :: parts' =>
      match process part accumulated with
      | (accumulated, Err e) => (accumulated, Err e)
      | (accumulated, Ok attachments) =>
          parts_loop process parts' end_ accumulated (results ++ attachments)
      end
  end.

Definition too_deep (depth : Z) : goerr :=
  Wrap "" (Sentinel ErrMIMETooDeep)
    (Join "" [": depth="; fmt_d depth; " limit="; fmt_d maxMultipartDepth]).

(** [fuel] is the number of levels that may still be entered: the check of the depth comes first. *)
Fixpoint extractParts (fuel : nat) (r : body) (boundary : string) (depth maxBytes accumulated : Z)
  : Z * result (list Attachment) :=
  if depth >? maxMultipartDepth then (accumulated, Err (too_deep depth))
  else match fuel with
       | O => (accumulated, Err (too_deep depth))
       | S f =>
           let '(parts, end_) := RawParts mime r boundary in
           parts_loop (fun part acc =>
               processPart (fun r boundary acc => extractParts f r boundary (depth + 1) maxBytes acc)
                 part maxBytes acc)
             parts end_ accumulated []
       end.

Definition depth_fuel : nat := Z.to_nat (maxMultipartDepth + 1).

Definition ExtractAttachments (msg : entity body) (maxBytes : Z) : result (list Attachment) :=
  let contentType := Header msg "Content-Type" in
  if String.eqb contentType "" then Ok []
  else
    let '(mediaType, params, err) := ParseMediaType mime contentType in
    match err with
    | Some e => Err (errorf "mailparse: parse content-type: " e)
    | None =>
        if HasPrefix mediaType "multipart/"
        then (extractParts depth_fuel (Body msg) (param params "boundary") 0 maxBytes 0).2
        else (extract_leaf msg mediaType params maxBytes 0).2
    end.
End extract.

(** ** The limit on the size *)

Definition content_size (a : Attachment) : Z := Z.of_nat (String.length (Content a)).

Fixpoint total_size (atts : list Attachment) : Z :=
  match atts with [] => 0 | a :: atts' => content_size a + total_size atts' end.

Lemma total_size_app a b : total_size (a ++ b) = total_size a + total_size b.
Proof. induction a as [|x a IH]; simpl; lia. Qed.

Lemma total_size_nonneg atts : 0 <= total_size atts.
Proof. induction atts as [|a atts IH]; simpl; [done|]. unfold content_size. lia. Qed.

Section limit.
Context {body : Type} (mime : Mime body) (maxBytes : Z).

(** A step of the walk: what it returns is paid for by the accumulated size, which stays within
    the limit unless the step fails with an error that ends the walk. *)
Definition step_ok {A} (size : A -> Z) (acc : Z) (r : Z * result A) : Prop :=
  match r with
  | (acc', Ok a) => acc + size a <= acc' /\ (0 < maxBytes -> acc <= maxBytes -> acc' <= maxBytes)
  | (acc', Err e) => acc <= acc' /\
      (is_size_limit e = false -> 0 < maxBytes -> acc <= maxBytes -> acc' <= maxBytes)
  end.

Lemma read_loop_ok chunks end_ acc content :
  match read_loop chunks end_ maxBytes acc content with
  | (acc', Ok s) => acc + Z.of_nat (String.length s) <= acc' + Z.of_nat (String.length content) /\
                    (0 < maxBytes -> acc <= maxBytes -> acc' <= maxBytes)
  | (acc', Err e) => acc <= acc' /\ (is_size_limit e = false -> 0 < maxBytes -> acc <= maxBytes -> acc' <= maxBytes)
  end.
Proof.
  revert acc content. induction chunks as [|buf chunks IH]; intros acc content; simpl.
  - destruct end_; lia.
  - rewrite Z.gtb_ltb. destruct (Z.ltb_spec 0 (Z.of_nat (String.length buf))); [|apply IH].
    destruct ((maxBytes >? 0) && _) eqn:E; [split; [lia|done]|].
    specialize (IH (acc + Z.of_nat (String.length buf)) (String.append content buf)).
    rewrite append_length in IH. rewrite !Z.gtb_ltb in E.
    assert (0 < maxBytes -> acc + Z.of_nat (String.length buf) <= maxBytes).
    { intros Hm. rewrite (proj2 (Z.ltb_lt _ _) Hm) in E. simpl in E. zbool. done. }
    destruct (read_loop _ _ _ _ _) as [acc' [s|e]]; [lia|].
    destruct IH as [? IH]. split; [lia|]. intros. by apply IH; auto.
Qed.

Lemma decodeContent_ok r enc acc :
  step_ok (fun s => Z.of_nat (String.length s)) acc (decodeContent mime r enc maxBytes acc).
Proof.
  unfold decodeContent. case_match; [split; [lia|done]|].
  destruct (if String.eqb _ "base64" then _ else _) as [chunks end_].
  pose proof (read_loop_ok chunks end_ acc "") as Hl. unfold step_ok.
  destruct (read_loop _ _ _ _ _) as [acc' [s|e]]; simpl in Hl; [lia|done].
Qed.

Lemma extract_leaf_ok e mediaType params acc :
  step_ok total_size acc (extract_leaf mime e mediaType params maxBytes acc).
Proof.
  unfold extract_leaf. destruct (ParseMediaType _ _) as [[disp dispParams] _].
  destruct (negb _); [split; simpl; lia|].
  pose proof (decodeContent_ok (Body e) (Header e "Content-Transfer-Encoding") acc) as H.
  destruct (decodeContent _ _ _ _ _) as [acc' [s|err]]; simpl in H |- *.
  - unfold content_size. simpl. lia.
  - destruct (is_size_limit err) eqn:E; simpl; [split; [lia|by rewrite E]|].
    destruct H as [? H]. split; [lia|by apply H].
Qed.

Lemma parts_loop_ok (process : entity body -> Z -> Z * result (list Attachment)) parts end_ acc results :
  (forall part acc, step_ok total_size acc (process part acc)) ->
  match parts_loop process parts end_ acc results with
  | (acc', Ok atts) => acc + total_size atts <= acc' + total_size results /\
                       (0 < maxBytes -> acc <= maxBytes -> acc' <= maxBytes)
  | (acc', Err e) => acc <= acc' /\ (is_size_limit e = false -> 0 < maxBytes -> acc <= maxBytes -> acc' <= maxBytes)
  end.
Proof.
  intros Hp. revert acc results.
  induction parts as [|part parts IH]; intros acc results; simpl; [destruct end_; lia|].
  specialize (Hp part acc). destruct (process part acc) as [acc1 [atts|e]]; simpl in Hp; [|done].
  specialize (IH acc1 (results ++ atts)). rewrite total_size_app in IH.
  pose proof (total_size_nonneg atts).
  destruct (parts_loop _ _ _ _ _) as [acc' [atts'|e]]; [lia|].
  destruct IH as [? IH]. split; [lia|]. intros. by apply IH; auto; apply Hp.
Qed.

Lemma extractParts_ok fuel r boundary depth acc :
  step_ok total_size acc (extractParts mime fuel r boundary depth maxBytes acc).
Proof.
  revert r boundary depth acc. induction fuel as [|fuel IH]; intros r boundary depth acc; simpl.
  - case_match; split; simpl; lia.
  - case_match; [split; simpl; lia|]. destruct (RawParts mime r boundary) as [parts end_].
    match goal with |- step_ok _ _ (parts_loop ?p _ _ _ _) => pose proof (parts_loop_ok p parts end_ acc []) as Hl end.
    unfold step_ok. destruct (parts_loop _ _ _ _ _) as [acc' [atts|e]]; simpl in Hl; [|apply Hl].
    all: try (rewrite Z.add_0_r in Hl; apply Hl).
    all: intros part acc1; unfold processPart; case_match; [split; simpl; lia|].
    all: destruct (ParseMediaType _ _) as [[mediaType params] [e'|]]; [split; simpl; lia|].
    all: case_match; [apply IH|apply extract_leaf_ok].
Qed.
End limit.

(** ** With and without the limit *)

Section unlimited.
Context {body : Type} (mime : Mime body) (maxBytes : Z) (Hmax : 0 < maxBytes).

(** A step of the walk with the limit, beside the same step without: they agree as long as the
    size that was read stays within the limit; beyond it the first ends with the size-limit error. *)
Definition limits {A} (acc : Z) (r u : Z * result A) : Prop :=
  acc <= u.1 /\ (u.1 <= maxBytes -> r = u) /\
  (acc <= maxBytes < u.1 -> exists actual, maxBytes < actual <= u.1 /\
     r = (actual, Err (ErrSizeLimitExceeded maxBytes actual))).

Lemma limits_refl {A} acc (r : result A) : limits acc (acc, r) (acc, r).
Proof. split_and!; simpl; [lia|done|lia]. Qed.

Lemma read_loop_limits chunks end_ acc content :
  limits acc (read_loop chunks end_ maxBytes acc content) (read_loop chunks end_ 0 acc content).
Proof.
  revert acc content. induction chunks as [|buf chunks IH]; intros acc content; simpl; [apply limits_refl|].
  destruct (_ >? 0) eqn:E; [|apply IH]. rewrite Z.gtb_ltb in E. apply Z.ltb_lt in E.
  set (acc1 := acc + _) in *. rewrite (proj2 (Z.gtb_lt maxBytes 0)) by lia. simpl.
  destruct (IH acc1 (String.append content buf)) as (H1 & H2 & H3).
  rewrite Z.gtb_ltb. destruct (Z.ltb_spec maxBytes acc1).
  - split_and!; [lia|lia|]. intros [? ?]. exists acc1. split; [lia|done].
  - split_and!; [lia|done|]. intros [? ?]. by apply H3.
Qed.

Lemma decodeContent_limits r enc acc :
  limits acc (decodeContent mime r enc maxBytes acc) (decodeContent mime r enc 0 acc).
Proof.
  unfold decodeContent. case_match; [apply limits_refl|].
  destruct (if String.eqb _ "base64" then _ else _) as [chunks end_]. apply read_loop_limits.
Qed.

Lemma limits_map {A B} (f : result A -> result B) acc r u :
  (forall actual, f (Err (ErrSizeLimitExceeded maxBytes actual)) = Err (ErrSizeLimitExceeded maxBytes actual)) ->
  limits acc r u -> limits acc (r.1, f r.2) (u.1, f u.2).
Proof.
  intros Hf (H1 & H2 & H3). split_and!; simpl; [done|by intros ->%H2|].
  intros (actual & Ha & ->)%H3. exists actual. split; [done|]. simpl. by rewrite Hf.
Qed.

Lemma extract_leaf_limits e mediaType params acc :
  limits acc (extract_leaf mime e mediaType params maxBytes acc) (extract_leaf mime e mediaType params 0 acc).
Proof.
  unfold extract_leaf. destruct (ParseMediaType _ _) as [[disp dispParams] _].
  destruct (negb _); [apply limits_refl|].
  pose proof (decodeContent_limits (Body e) (Header e "Content-Transfer-Encoding") acc) as H.
  eapply (limits_map (fun r => match r with
    | Err err => if is_size_limit err then Err err else Ok []
    | Ok content => Ok [{| Filename := resolveFilename mime dispParams params; ContentType := mediaType; Content := content |}]
    end)) in H; [|done].
  destruct (decodeContent _ _ _ maxBytes _) as [a [c|err]], (decodeContent _ _ _ 0 _) as [a' [c'|err']]; simpl in H |- *;
    repeat case_match; done.
Qed.

Lemma parts_loop_limits (p q : entity body -> Z -> Z * result (list Attachment)) parts end_ acc results :
  (forall part acc, limits acc (p part acc) (q part acc)) ->
  limits acc (parts_loop p parts end_ acc results) (parts_loop q parts end_ acc results).
Proof.
  intros Hpq. revert acc results. induction parts as [|part parts IH]; intros acc results; simpl; [apply limits_refl|].
  destruct (Hpq part acc) as (H1 & H2 & H3). destruct (q part acc) as [u [atts|e]]; simpl in *.
  - destruct (IH u (results ++ atts)) as (L1 & L2 & L3). split_and!; [lia|..].
    + intros Hu. rewrite H2 by lia. by apply L2.
    + intros [Ha Hu]. destruct (Z.le_gt_cases u maxBytes) as [Hle|Hgt].
      * rewrite H2 by done. by apply L3.
      * destruct H3 as (actual & Hact & ->); [lia|]. exists actual. split; [lia|done].
  - split_and!; simpl; [done| |].
    + intros Hu. by rewrite H2.
    + intros Hu. destruct (H3 Hu) as (actual & Ha & ->). by exists actual.
Qed.

Lemma extractParts_limits fuel r boundary depth acc :
  limits acc (extractParts mime fuel r boundary depth maxBytes acc) (extractParts mime fuel r boundary depth 0 acc).
Proof.
  revert r boundary depth acc. induction fuel as [|fuel IH]; intros r boundary depth acc; simpl.
  - case_match; apply limits_refl.
  - case_match; [apply limits_refl|]. destruct (RawParts mime r boundary) as [parts end_].
    apply parts_loop_limits. intros part acc1. unfold processPart. case_match; [apply limits_refl|].
    destruct (ParseMediaType _ _) as [[mediaType params] [e'|]]; [apply limits_refl|].
    case_match; [apply IH|apply extract_leaf_limits].
Qed.
End unlimited.

(** The number of bytes that the walk over a message reads when there is no limit. *)
Definition bytes_read {body} (mime : Mime body) (msg : entity body) : Z :=
  let contentType := Header msg "Content-Type" in
  if String.eqb contentType "" then 0
  else
    let '(mediaType, params, err) := ParseMediaType mime contentType in
    match err with
    | Some _ => 0
    | None =>
        if HasPrefix mediaType "multipart/"
        then (extractParts mime depth_fuel (Body msg) (param params "boundary") 0 0 0).1
        else (extract_leaf mime msg mediaType params 0 0).1
    end.

(** C35: whatever a message contains, the attachments extracted from it are together no larger
    than the limit, when there is one: the sizes of all decoded contents, over all parts and
    levels, are accumulated against it. A message of which more would be read is refused as a whole
    with the size-limit error, and for every other message the result is the one without a limit. *)
Theorem ExtractAttachments_bounded {body} (mime : Mime body) msg maxBytes :
  0 < maxBytes ->
  (forall atts, ExtractAttachments mime msg maxBytes = Ok atts -> total_size atts <= maxBytes) /\
  (maxBytes < bytes_read mime msg ->
     exists actual, maxBytes < actual <= bytes_read mime msg /\
       ExtractAttachments mime msg maxBytes = Err (ErrSizeLimitExceeded maxBytes actual)) /\
  (bytes_read mime msg <= maxBytes -> ExtractAttachments mime msg maxBytes = ExtractAttachments mime msg 0).
Proof.
  intros Hm. unfold ExtractAttachments, bytes_read.
  case_match; [split_and!; [intros atts [= <-]; simpl; lia|lia|done]|].
  destruct (ParseMediaType _ _) as [[mediaType params] [e|]]; [split_and!; [done|lia|done]|]. case_match.
  - pose proof (extractParts_ok mime maxBytes depth_fuel (Body msg) (param params "boundary") 0 0) as H1.
    destruct (extractParts_limits mime maxBytes Hm depth_fuel (Body msg) (param params "boundary") 0 0) as (_ & L2 & L3).
    split_and!.
    + intros atts. destruct (extractParts _ _ _ _ _ _ _) as [acc r]. simpl. intros ->. simpl in H1. lia.
    + intros Hu. destruct L3 as (actual & Ha & ->); [lia|]. by exists actual.
    + intros Hu. by rewrite L2.
  - pose proof (extract_leaf_ok mime maxBytes msg mediaType params 0) as H1.
    destruct (extract_leaf_limits mime maxBytes Hm msg mediaType params 0) as (_ & L2 & L3). split_and!.
    + intros atts. destruct (extract_leaf _ _ _ _ _ _) as [acc r]. simpl. intros ->. simpl in H1. lia.
    + intros Hu. destruct L3 as (actual & Ha & ->); [lia|]. by exists actual.
    + intros Hu. by rewrite L2.
Qed.

(** ** The limit on nesting *)

Lemma parts_loop_ext {body} (p q : entity body -> Z -> Z * result (list Attachment)) parts end_ acc results :
  (forall part acc, p part acc = q part acc) ->
  parts_loop p parts end_ acc results = parts_loop q parts end_ acc results.
Proof.
  intros H. revert acc results. induction parts as [|part parts IH]; intros acc results; simpl; [done|].
  rewrite H. destruct (q part acc) as [acc' [atts|e]]; [apply IH|done].
Qed.

Lemma extractParts_S {body} (mime : Mime body) f r boundary depth maxBytes acc :
  extractParts mime (S f) r boundary depth maxBytes acc =
  if depth >? maxMultipartDepth then (acc, Err (too_deep depth))
  else let '(parts, end_) := RawParts mime r boundary in
       parts_loop (fun part acc =>
           processPart mime (fun r boundary acc => extractParts mime f r boundary (depth + 1) maxBytes acc)
             part maxBytes acc)
         parts end_ acc [].
Proof. done. Qed.

(** More fuel than [depth_fuel] changes nothing: the walk is stopped by the limit on the depth
    and never by the fuel. *)
Lemma extractParts_fuel {body} (mime : Mime body) fuel r boundary depth maxBytes acc :
  maxMultipartDepth + 1 - depth <= Z.of_nat fuel ->
  extractParts mime (S fuel) r boundary depth maxBytes acc
  = extractParts mime fuel r boundary depth maxBytes acc.
Proof.
  revert r boundary depth acc. induction fuel as [|fuel IH]; intros r boundary depth acc Hf.
  - cbn [extractParts]. by rewrite (proj2 (Z.gtb_lt _ _)) by lia.
  - rewrite (extractParts_S mime (S fuel)), (extractParts_S mime fuel).
    destruct (depth >? maxMultipartDepth); [done|]. destruct (RawParts mime r boundary) as [parts end_].
    apply parts_loop_ext. intros part acc1. unfold processPart. case_match; [done|].
    destruct (ParseMediaType _ _) as [[mediaType params] [e|]]; [done|]. case_match; [|done].
    apply IH. lia.
Qed.

Lemma extractParts_enough {body} (mime : Mime body) k r boundary maxBytes acc :
  extractParts mime (k + depth_fuel) r boundary 0 maxBytes acc
  = extractParts mime depth_fuel r boundary 0 maxBytes acc.
Proof.
  induction k as [|k IH]; [done|]. cbn [Nat.add]. rewrite extractParts_fuel, IH; [done|].
  unfold depth_fuel, maxMultipartDepth. lia.
Qed.

Section nested.
Context {body : Type} (mime : Mime body) (b : body) (boundary : string) (part : entity body)
  (rest : list (entity body)) (end_ : option goerr) (mediaType : string) (params : gmap string string).

(** A multipart body whose first part is multipart with the same body. *)
Definition nests_itself : Prop :=
  RawParts mime b boundary = (part :: rest, end_) /\ Body part = b /\
  Header part "Content-Type" <> "" /\
  ParseMediaType mime (Header part "Content-Type") = (mediaType, params, None) /\
  HasPrefix mediaType "multipart/" = true /\ param params "boundary" = boundary.

Lemma extractParts_nested fuel depth maxBytes acc :
  nests_itself -> depth <= 11 -> 11 - depth <= Z.of_nat fuel ->
  extractParts mime fuel b boundary depth maxBytes acc = (acc, Err (too_deep 11)).
Proof.
  intros (Hp & Hb & Hh & Ht & Hm & Hbd). revert depth.
  induction fuel as [|fuel IH]; intros depth Hd Hf.
  - assert (depth = 11) as -> by lia. done.
  - cbn [extractParts]. rewrite Z.gtb_ltb. unfold maxMultipartDepth.
    destruct (Z.ltb_spec 10 depth); [by assert (depth = 11) as -> by lia|].
    rewrite Hp. cbn [parts_loop]. unfold processPart.
    rewrite (proj2 (String.eqb_neq _ _) Hh), Ht, Hm, Hb, Hbd, IH by lia. done.
Qed.
End nested.

(** A message whose parts nest without end, each multipart part containing another, is
    refused at the eleventh level, for every size limit: the walk ends. *)
Theorem unbounded_nesting_refused {body} (mime : Mime body) b boundary part rest end_ mediaType params
    maxBytes :
  nests_itself mime b boundary part rest end_ mediaType params ->
  ExtractAttachments mime part maxBytes = Err (too_deep 11).
Proof.
  intros H. pose proof H as (_ & Hb & Hh & Ht & Hm & Hbd). unfold ExtractAttachments.
  rewrite (proj2 (String.eqb_neq _ _) Hh), Ht, Hm, Hb, Hbd.
  rewrite (extractParts_nested mime b boundary part rest end_ mediaType params) by (done || vm_compute; discriminate).
  done.
Qed.

(** A library for the witnesses: bodies are numbers; body [0] nests itself, body
    [n] has [n] attachments of [n] chunks of three bytes. *)
Definition sample_mime : Mime nat :=
  let nested := {| Header := fun _ => "multipart/mixed"; Body := 0%nat |} in
  {| ParseMediaType := fun s => (s, if String.eqb s "attachment" then ∅ else {["boundary" := "b"]}, None);
     DecodeHeader := Ok;
     ToLower := id;
     RawParts := fun b _ => match b with
       | O => ([nested], None)
       | n => (repeat {| Header := fun k => if String.eqb k "Content-Type" then "application/tlsrpt+json"
                                            else if String.eqb k "Content-Disposition" then "attachment" else "";
                         Body := n |} n, None) end;
     ReadRaw := fun b => (repeat "abc" b, None);
     ReadBase64 := fun b => ([], None) |}.

Lemma unbounded_nesting_refused_witness :
  let part := {| Header := fun _ : string => "multipart/mixed"; Body := 0%nat |} in
  nests_itself sample_mime 0%nat "b" part [] None "multipart/mixed" {["boundary" := "b"]} /\
  ExtractAttachments sample_mime part 0 = Err (too_deep 11).
Proof.
  cbv zeta.
  assert (H : nests_itself sample_mime 0%nat "b" {| Header := fun _ : string => "multipart/mixed"; Body := 0%nat |}
                [] None "multipart/mixed" {["boundary" := "b"]})
    by (split; [reflexivity|]; split; [reflexivity|]; split; [discriminate|]; repeat split).
  split; [exact H|]. exact (unbounded_nesting_refused _ _ _ _ _ _ _ _ 0 H).
Defined.

Lemma ExtractAttachments_bounded_witness :
  let msg := {| Header := fun _ : string => "multipart/mixed"; Body := 2%nat |} in
  bytes_read sample_mime msg = 12 /\
  (exists atts, ExtractAttachments sample_mime msg 12 = Ok atts /\ length atts = 2%nat /\ total_size atts <= 12) /\
  exists actual, 11 < actual <= 12 /\
    ExtractAttachments sample_mime msg 11 = Err (ErrSizeLimitExceeded 11 actual).
Proof.
  cbv zeta. set (msg := {| Header := _; Body := _ |}).
  assert (Hb : bytes_read sample_mime msg = 12) by (vm_compute; reflexivity). split; [exact Hb|]. split.
  - assert (E : exists atts, ExtractAttachments sample_mime msg 12 = Ok atts /\ length atts = 2%nat)
      by (eexists; split; vm_compute; reflexivity).
    destruct E as (atts & E & L). exists atts. split; [exact E|]. split; [exact L|].
    exact (proj1 (ExtractAttachments_bounded sample_mime msg 12 eq_refl) atts E).
  - destruct (ExtractAttachments_bounded sample_mime msg 11 eq_refl) as (_ & H & _).
    rewrite Hb in H. apply H. reflexivity.
Defined.
