(* ===== verification/Lock.v ===== *)
(** * The store writer lock (internal/storelock/storelock.go, cmd/tlsrpt-digest/lock.go)

    [flock] on a lock file, with the kernel's table of locks as the state that all processes
    share: an entry says which open file holds the exclusive lock of a path. The check of the root
    directory is a program over [lstat] and [mkdir -p]. *)
From S2P Require Import Prelude GoStr GoTime GoErr Prog.

(** ** The kernel's side *)

(** Open files are numbered; a closed number is not used again. *)
Record kernel := {
  locks : gmap (list string) Z;
  next_file : Z
}.

(** [flock(fd, LOCK_EX|LOCK_NB)]: fails with [EWOULDBLOCK] when another open file has the lock. *)
Definition Flock_ex (k : kernel) (p : path) (f : Z) : kernel * option errno :=
  match locks k !! p with
  | Some g => if g =? f then (k, None) else (k, Some EWOULDBLOCK)
  | None => ({| locks := <[p := f]> (locks k); next_file := next_file k |}, None)
  end.

(** Unlocking, or closing, an open file gives up its lock. *)
Definition release (k : kernel) (p : path) (f : Z) : kernel :=
  {| locks := if bool_decide (locks k !! p = Some f) then delete p (locks k) else locks k;
     next_file := next_file k |}.

(** ** storelock.go *)

Definition LockPath (rootDir : path) : path := rootDir ++ [".tlsrpt-digest-store.lock"].

(** [flockHandle]: its file is nil once it is closed. *)
Record flockHandle := { file : option (path * Z) }.

(** [open_err]: what opening the lock file fails with; [flock_err]: any other error of the call. *)
Definition Acquire (open_err flock_err : option errno) (k : kernel) (lockPath : path)
  : kernel * result flockHandle :=
  match open_err with
  | Some e => (k, Err (errorf "storelock.Acquire: open lock file: " (Errno e)))
  | None =>
      let f := next_file k in
      let k := {| locks := locks k; next_file := f + 1 |} in
      let '(k, err) := match flock_err with Some e => (k, Some e) | None => Flock_ex k lockPath f end in
      match err with
      | Some e =>
          let k := release k lockPath f in
          (k, if bool_decide (e = EWOULDBLOCK) then Err (Sentinel ErrLockHeld)
              else Err (errorf "storelock.Acquire: acquire lock: " (Errno e)))
      | None => (k, Ok {| file := Some (lockPath, f) |})
      end
  end.

(** [Close]: the handle forgets its file first; the file is closed, and with it the lock released,
    also when unlocking fails. *)
Definition CloseLock (unlock_err close_err : option errno) (k : kernel) (h : flockHandle)
  : kernel * flockHandle * option goerr :=
  match file h with
  | None => (k, h, None)
  | Some (p, f) =>
      let h' := {| file := None |} in
      let k' := release k p f in
      match unlock_err with
      | Some e => (k', h', Some (errorf "storelock.LockHandle.Close: release lock: " (Errno e)))
      | None =>
          match close_err with
          | Some e => (k', h', Some (errorf "storelock.LockHandle.Close: close lock file: " (Errno e)))
          | None => (k', h', None)
          end
      end
  end.

(** ** lock.go *)

Definition rootDirPerm : Z := 448.       (* 0o700 *)
Definition rootDirGroupPerm : Z := 488.  (* 0o750 *)

Record FileInfo := { is_symlink : bool; is_directory : bool; perm : Z }.

Inductive dir_call : Type -> Type :=
  | Lstat (p : path) : dir_call (result FileInfo)
  | MkdirAll (p : path) (mode : Z) : dir_call (option goerr).

Open Scope prog_scope.

Definition root_error (rootDir : path) (e : sentinel_error) : goerr :=
  errorf (Join "" ["validateAndEnsureRootDir: "; path_text rootDir; ": "]) (Sentinel e).

(** [%04o] of a permission, which is below [8^4]. *)
Definition fmt_04o (n : Z) : string :=
  String (digit (n / 512 mod 8)) (String (digit (n / 64 mod 8))
    (String (digit (n / 8 mod 8)) (String (digit (n mod 8)) ""))).

(** The checks on the information about the root directory. *)
Definition check_root (rootDir : path) (fi : FileInfo) : option goerr :=
  if is_symlink fi then Some (root_error rootDir errRootDirSymlink)
  else if negb (is_directory fi) then Some (root_error rootDir errRootDirNotDirectory)
  else if negb (perm fi =? rootDirPerm) && negb (perm fi =? rootDirGroupPerm)
  then Some (errorf (Join "" ["validateAndEnsureRootDir: "; path_text rootDir;
                              " has permissions "; fmt_04o (perm fi); ", want 0700 or 0750: "]) (Sentinel errRootDirPermission))
  else None.

Definition validateAndEnsureRootDir (rootDir : path) : prog dir_call (option goerr) :=
  let* st := call (Lstat rootDir) in
  match st with
  | Ok fi => Ret (check_root rootDir fi)
  | Err err =>
      if negb (is_not_exist err)
      then Ret (Some (errorf (Join "" ["validateAndEnsureRootDir: stat "; path_text rootDir; ": "]) err))
      else
        let* err := call (MkdirAll rootDir rootDirPerm) in
        match err with
        | Some e => Ret (Some (errorf (Join "" ["validateAndEnsureRootDir: mkdir "; path_text rootDir; ": "]) e))
        | None =>
            let* st := call (Lstat rootDir) in
            match st with
            | Err e => Ret (Some (errorf (Join "" ["validateAndEnsureRootDir: stat "; path_text rootDir;
                                                   " after mkdir: "]) e))
            | Ok fi =>
                if is_symlink fi then Ret (Some (root_error rootDir errRootDirSymlink))
                else Ret (check_root rootDir fi)
            end
        end
  end.

(** ** Mutual exclusion *)

(** All processes together: the kernel and the handles that were handed out. *)
Definition system : Type := kernel * list flockHandle.

Inductive sys_step : system -> system -> Prop :=
  | step_acquire k hs p oe fe k' h :
      Acquire oe fe k p = (k', Ok h) -> sys_step (k, hs) (k', hs ++ [h])
  | step_fail k hs p oe fe k' e :
      Acquire oe fe k p = (k', Err e) -> sys_step (k, hs) (k', hs)
  | step_close k hs i h ue ce k' h' e :
      hs !! i = Some h -> CloseLock ue ce k h = (k', h', e) -> sys_step (k, hs) (k', <[i := h']> hs).

Definition initial : system := ({| locks := ∅; next_file := 0 |}, []).

Inductive reachable : system -> Prop :=
  | reach_initial : reachable initial
  | reach_step s s' : reachable s -> sys_step s s' -> reachable s'.

(** The kernel's table and the open handles agree, and files are numbered from below. *)
Record sys_inv (s : system) : Prop := {
  inv_held i p f : s.2 !! i = Some {| file := Some (p, f) |} -> locks s.1 !! p = Some f;
  inv_owner p f : locks s.1 !! p = Some f -> exists i, s.2 !! i = Some {| file := Some (p, f) |};
  inv_fresh p f : locks s.1 !! p = Some f -> f < next_file s.1;
  inv_unique i j p q f : s.2 !! i = Some {| file := Some (p, f) |} ->
    s.2 !! j = Some {| file := Some (q, f) |} -> i = j
}.

(** What [Acquire] does when the files in the table are older than the next one: it either takes a
    free lock or leaves the table as it was. *)
Lemma Acquire_cases oe fe k p :
  (forall q g, locks k !! q = Some g -> g < next_file k) ->
  let '(k', r) := Acquire oe fe k p in
  next_file k <= next_file k' /\
  match r with
  | Ok h => oe = None /\ fe = None /\ locks k !! p = None /\ h = {| file := Some (p, next_file k) |} /\
            next_file k' = next_file k + 1 /\ locks k' = <[p := next_file k]> (locks k)
  | Err e => locks k' = locks k /\
             (oe = None -> fe = None -> e = Sentinel ErrLockHeld /\ is_Some (locks k !! p))
  end.
Proof.
  intros Hf. unfold Acquire. destruct oe as [e|]; simpl; [split; [lia|done]|].
  assert (Hrel : forall q g, locks k !! q = Some g -> g <> next_file k)
    by (intros q g Hq ->; specialize (Hf q _ Hq); lia).
  destruct fe as [e|]; simpl.
  { rewrite (bool_decide_eq_false_2 (_ !! _ = _)) by (intros Hq; by apply Hrel in Hq).
    case_bool_decide; simpl; (split; [lia|done]). }
  unfold Flock_ex. simpl. destruct (locks k !! p) as [g|] eqn:Hp; simpl.
  - destruct (Z.eqb_spec g (next_file k)) as [->|]; [by apply Hrel in Hp|]. simpl.
    rewrite Hp, (bool_decide_eq_false_2 (_ = Some (next_file k))) by congruence. split; [lia|]. done.
  - split; [lia|]. done.
Qed.

Lemma sys_inv_step s s' : sys_inv s -> sys_step s s' -> sys_inv s'.
Proof.
  intros Hinv Hs. destruct Hs as [k hs p oe fe k' h Ha|k hs p oe fe k' e Ha|k hs i h ue ce k' h' e Hi Hc];
    destruct Hinv as [Hh Ho Hf Hu]; simpl in *.
  - pose proof (Acquire_cases oe fe k p Hf) as Hcase. rewrite Ha in Hcase.
    destruct Hcase as (_ & _ & _ & Hp & -> & Hn & Hl).
    assert (Hnew : forall i q g, (hs ++ [{| file := Some (p, next_file k) |}]) !! i
                     = Some {| file := Some (q, g) |} ->
              hs !! i = Some {| file := Some (q, g) |} /\ g <> next_file k \/
              i = length hs /\ q = p /\ g = next_file k).
    { intros i q g Hi. apply lookup_app_Some in Hi as [Hi|[Hle Hi]].
      - left. split; [done|]. intros ->. apply Hh, Hf in Hi. lia.
      - right. apply list_lookup_singleton_Some in Hi as [? [= <- <-]]. split; [lia|done]. }
    split; simpl.
    + intros i q g [[Hi Hg]|(-> & -> & ->)]%Hnew; rewrite Hl; [|apply lookup_insert_eq].
      rewrite lookup_insert_ne; [by eapply Hh|]. intros <-. apply Hh in Hi. congruence.
    + intros q g. rewrite Hl. destruct (decide (q = p)) as [->|Hne].
      * rewrite lookup_insert_eq. intros [= <-]. exists (length hs).
        by rewrite lookup_app_r, Nat.sub_diag by lia.
      * rewrite lookup_insert_ne by done. intros [i Hi]%Ho. exists i. by apply lookup_app_l_Some.
    + intros q g. rewrite Hl, Hn. destruct (decide (q = p)) as [->|Hne].
      * rewrite lookup_insert_eq. intros [= <-]. lia.
      * rewrite lookup_insert_ne by done. intros Hq%Hf. lia.
    + intros i j q1 q2 g Hi%Hnew Hj%Hnew.
      destruct Hi as [[Hi ?]|(-> & -> & ->)], Hj as [[Hj ?]|(-> & -> & ?)]; try done. by eapply Hu.
  - pose proof (Acquire_cases oe fe k p Hf) as Hcase. rewrite Ha in Hcase.
    destruct Hcase as (Hn & Hl & _). split; simpl.
    + intros i q g Hi. rewrite Hl. by eapply Hh.
    + intros q g. rewrite Hl. apply Ho.
    + intros q g. rewrite Hl. intros Hq%Hf. lia.
    + done.
  - unfold CloseLock in Hc. destruct h as [[[p f]|]]; simpl in Hc.
    + assert (k' = release k p f /\ h' = {| file := None |}) as [-> ->] by (destruct ue, ce; by simplify_eq).
      pose proof (Hh _ _ _ Hi) as Hp.
      assert (Hold : forall j q g, <[i := {| file := None |}]> hs !! j = Some {| file := Some (q, g) |} ->
                j <> i /\ hs !! j = Some {| file := Some (q, g) |}).
      { intros j q g Hj. destruct (decide (j = i)) as [->|Hne].
        - rewrite list_lookup_insert_eq in Hj by (by eapply lookup_lt_Some). done.
        - by rewrite list_lookup_insert_ne in Hj. }
      unfold release. rewrite bool_decide_eq_true_2 by done. split; simpl.
      * intros j q g [Hne Hj]%Hold. rewrite lookup_delete_ne; [by eapply Hh|]. intros <-.
        pose proof (Hh _ _ _ Hj) as Hq. rewrite Hp in Hq. injection Hq as <-. by apply Hne, (Hu _ _ _ _ _ Hj Hi).
      * intros q g Hq. apply lookup_delete_Some in Hq as [Hne [j Hj]%Ho]. exists j.
        rewrite list_lookup_insert_ne; [done|]. intros <-. congruence.
      * intros q g Hq. apply lookup_delete_Some in Hq as [_ Hq]. by eapply Hf.
      * intros j1 j2 q1 q2 g [_ Hj1]%Hold [_ Hj2]%Hold. by eapply Hu.
    + injection Hc as <- <- _. rewrite list_insert_id by done. by split.
Qed.

Lemma reachable_inv s : reachable s -> sys_inv s.
Proof.
  induction 1 as [|s s' _ IH Hs]; [|by eapply sys_inv_step].
  split; simpl; intros *; rewrite ?lookup_empty; done.
Qed.

(** C27: at most one writer. In every state that processes can reach by acquiring and closing locks
    in any order, with any failures of the system calls, a path has at most one open handle; and
    an attempt that meets no failure gets the lock exactly when no handle on it is open, and
    [ErrLockHeld] otherwise. *)
Theorem lock_mutual_exclusion s p :
  reachable s ->
  (forall i j f g, s.2 !! i = Some {| file := Some (p, f) |} ->
                   s.2 !! j = Some {| file := Some (p, g) |} -> i = j) /\
  match (Acquire None None s.1 p).2 with
  | Ok _ => forall i f, s.2 !! i <> Some {| file := Some (p, f) |}
  | Err e => e = Sentinel ErrLockHeld /\ exists i f, s.2 !! i = Some {| file := Some (p, f) |}
  end.
Proof.
  intros Hr. apply reachable_inv in Hr as [Hh Ho Hf Hu]. split.
  - intros i j f g Hi Hj. pose proof (Hh _ _ _ Hi) as H1. pose proof (Hh _ _ _ Hj) as H2.
    rewrite H1 in H2. injection H2 as <-. by eapply Hu.
  - pose proof (Acquire_cases None None s.1 p Hf) as Hc. destruct (Acquire None None s.1 p) as [k' [h|e]]; simpl.
    + destruct Hc as (_ & _ & _ & Hp & _). intros i f Hi. apply Hh in Hi. congruence.
    + destruct Hc as (_ & _ & He). destruct (He eq_refl eq_refl) as [-> [f Hp]].
      split; [done|]. apply Ho in Hp as [i Hi]. by exists i, f.
Qed.

Lemma lock_mutual_exclusion_witness :
  exists s, reachable s /\ (exists f, s.2 !! 0%nat = Some {| file := Some (["d"], f) |}) /\
            is_ok (Acquire None None s.1 ["d"]).2 = false.
Proof.
  set (s := ((Acquire None None (initial.1) ["d"]).1, [{| file := Some (["d"], 0) |}]) : system).
  assert (Hr : reachable s)
    by (apply (reach_step initial); [constructor|apply (step_acquire _ [] ["d"] None None); reflexivity]).
  exists s. split; [exact Hr|]. split; [exists 0; reflexivity|].
  destruct (lock_mutual_exclusion s ["d"] Hr) as [_ H].
  destruct (Acquire None None s.1 ["d"]).2 as [h|e]; [|reflexivity].
  exfalso. exact (H 0%nat 0 eq_refl).
Defined.

(** The root directory is accepted only if it is a real directory with mode 0700 or 0750; it
    is created only when there was nothing, with mode 0700, and what was created is checked as
    well. *)
Theorem validateAndEnsureRootDir_safe rootDir t :
  runs (validateAndEnsureRootDir rootDir) t None ->
  exists fi,
    is_symlink fi = false /\ is_directory fi = true /\ (perm fi = rootDirPerm \/ perm fi = rootDirGroupPerm) /\
    (t = [Ev (Lstat rootDir) (Ok fi)] \/
     exists e, is_not_exist e = true /\
       t = [Ev (Lstat rootDir) (Err e); Ev (MkdirAll rootDir rootDirPerm) None; Ev (Lstat rootDir) (Ok fi)]).
Proof.
  assert (Hc : forall fi, check_root rootDir fi = None ->
    is_symlink fi = false /\ is_directory fi = true /\ (perm fi = rootDirPerm \/ perm fi = rootDirGroupPerm)).
  { intros fi. unfold check_root. destruct (is_symlink fi), (is_directory fi); simpl; try done.
    destruct (Z.eqb_spec (perm fi) rootDirPerm); [by auto|].
    destruct (Z.eqb_spec (perm fi) rootDirGroupPerm); [by auto|done]. }
  intros H.
  apply (wp_runs _ t None [] (fun r t => r = None -> exists fi,
    is_symlink fi = false /\ is_directory fi = true /\ (perm fi = rootDirPerm \/ perm fi = rootDirGroupPerm) /\
    (t = [Ev (Lstat rootDir) (Ok fi)] \/
     exists e, is_not_exist e = true /\
       t = [Ev (Lstat rootDir) (Err e); Ev (MkdirAll rootDir rootDirPerm) None; Ev (Lstat rootDir) (Ok fi)])) H);
    [clear H t|done].
  unfold validateAndEnsureRootDir. simpl. intros [fi|e].
  - intros Hr. exists fi. destruct (Hc _ Hr) as (? & ? & ?). by auto 10.
  - destruct (is_not_exist e) eqn:He; [|done]. intros [?|]; [done|]. intros [fi|?]; [|done].
    simpl. destruct (is_symlink fi) eqn:Hs; [done|]. intros Hr. exists fi.
    destruct (Hc _ Hr) as (? & ? & ?). split_and!; try done. right. by exists e.
Qed.

Lemma validateAndEnsureRootDir_safe_witness :
  let fi := {| is_symlink := false; is_directory := true; perm := rootDirPerm |} in
  runs (validateAndEnsureRootDir ["s"]) [Ev (Lstat ["s"]) (Ok fi)] None /\
  exists fi', perm fi' = rootDirPerm \/ perm fi' = rootDirGroupPerm.
Proof.
  cbv zeta.
  assert (H : runs (validateAndEnsureRootDir ["s"])
    [Ev (Lstat ["s"]) (Ok {| is_symlink := false; is_directory := true; perm := rootDirPerm |})] None)
    by (apply runs_call; constructor).
  split; [exact H|].
  destruct (validateAndEnsureRootDir_safe ["s"] _ H) as (fi & _ & _ & Hp & _). exists fi. exact Hp.
Defined.
