(* ===== verification/Cmd.v ===== *)
(** * What the subcommands share (cmd/tlsrpt-digest: boot.go, main.go, notify_helpers.go, duration.go)

    The subcommands work through interfaces: the notification sink, the store, the mail fetcher,
    the environment and the local files. [cmd_call] has one call for each operation they use;
    a subcommand is a program over these calls. Log output is left out; of the
    texts printed only those of recover are kept. *)
From S2P Require Import Prelude GoStr GoTime GoErr.
From S2P Require Tlsrpt.
From S2P Require Import NotifyTypes Duration Config Prog.
From S2P Require StoreTypes Imap Emails.

Abbreviation EmailMeta := StoreTypes.EmailMeta.
Abbreviation ReportInput := StoreTypes.ReportInput.
Abbreviation LoadedEmail M := (@Emails.LoadedEmail M).
Abbreviation MessageMeta := Imap.MessageMeta.
Abbreviation FetchMetaResult := Imap.FetchMetaResult.

(** [imap.Config] as the subcommands build it. *)
Record imap_config := {
  ix_Host : string; ix_Port : Z; ix_Mailbox : string; ix_TLSCACert : string;
  ix_MaxMessageBytes : Z; ix_Username : string; ix_Password : string
}.

(** What [os.Stat] tells about a local file. *)
Record stat_info := { regular : bool; file_size : Z }.

Inductive cmd_call (Message : Type) : Type -> Type :=
  (* NotificationSink *)
  | NLogAlert (a : Alert) : cmd_call Message (option goerr)
  | NLogWarning (w : Warning) : cmd_call Message (option goerr)
  | NLogSystemError (e : SystemError) : cmd_call Message (option goerr)
  | NLogSummary (s : Summary) : cmd_call Message (option goerr)
  | NFlush : cmd_call Message (option goerr)
  (* [summaryRunner.buildNotifier]: the summary builds its sink only when it needs one *)
  | BuildNotifier : cmd_call Message (option goerr)
  (* store.Store *)
  | LoadRecoveryRequired : cmd_call Message (result (Z * Z * Time * bool))
  | SaveRecoveryRequired (prev curr : Z) (at_ : Time) : cmd_call Message (option goerr)
  | LoadUIDValidity : cmd_call Message (result (Z * bool))
  | SaveUIDValidity (uid : Z) : cmd_call Message (option goerr)
  | SaveEmail (uid uidValidity : Z) (date : Time) (raw : string) : cmd_call Message (option goerr)
  | SaveEmailMetas (metas : list EmailMeta) : cmd_call Message (option goerr)
  | LoadEmails : cmd_call Message (list (LoadedEmail Message) * option goerr)
  | SaveReports (reports : list ReportInput) : cmd_call Message (option goerr)
  | GetAllReports : cmd_call Message (result (list Tlsrpt.Report))
  | DeleteReportsBefore (cutoff : Time) : cmd_call Message (result Z)
  | DeleteEmailsBefore (cutoff : Time) : cmd_call Message (result Z)
  | CountReportsBefore (cutoff : Time) : cmd_call Message (result Z)
  | CountEmailsBefore (cutoff : Time) : cmd_call Message (result Z)
  | HasPendingReset : cmd_call Message (result bool)
  | ApplyRecovery (curr : Z) : cmd_call Message (option goerr)
  | ResetForRecovery (curr : Z) : cmd_call Message (option goerr)
  | CheckRecoveryRequired : cmd_call Message (result bool)
  (* imap.MailFetcher; there is one fetcher at a time *)
  | NewMailFetcher (conf : imap_config) : cmd_call Message (option goerr)
  | FetchMeta (since : Time) : cmd_call Message (result FetchMetaResult)
  | Download (uids : list Z) : cmd_call Message (result (gmap Z string))
  | MarkSeen (uids : list Z) : cmd_call Message (option goerr)
  | DeleteOlderThan (cutoff : Time) : cmd_call Message (result Z)
  | SearchOlderThan (cutoff : Time) : cmd_call Message (result (list Z))
  | CloseFetcher : cmd_call Message (option goerr)
  (* the environment and local files *)
  | Credentials : cmd_call Message (string * string)
  | Stat (p : path) : cmd_call Message (result stat_info)
  | ReadFile (p : path) : cmd_call Message (result string).
Arguments NLogAlert {Message} _.
Arguments NLogWarning {Message} _.
Arguments NLogSystemError {Message} _.
Arguments NLogSummary {Message} _.
Arguments NFlush {Message}.
Arguments BuildNotifier {Message}.
Arguments LoadRecoveryRequired {Message}.
Arguments SaveRecoveryRequired {Message} _ _ _.
Arguments LoadUIDValidity {Message}.
Arguments SaveUIDValidity {Message} _.
Arguments SaveEmail {Message} _ _ _ _.
Arguments SaveEmailMetas {Message} _.
Arguments LoadEmails {Message}.
Arguments SaveReports {Message} _.
Arguments GetAllReports {Message}.
Arguments DeleteReportsBefore {Message} _.
Arguments DeleteEmailsBefore {Message} _.
Arguments CountReportsBefore {Message} _.
Arguments CountEmailsBefore {Message} _.
Arguments HasPendingReset {Message}.
Arguments ApplyRecovery {Message} _.
Arguments ResetForRecovery {Message} _.
Arguments CheckRecoveryRequired {Message}.
Arguments NewMailFetcher {Message} _.
Arguments FetchMeta {Message} _.
Arguments Download {Message} _.
Arguments MarkSeen {Message} _.
Arguments DeleteOlderThan {Message} _.
Arguments SearchOlderThan {Message} _.
Arguments CloseFetcher {Message}.
Arguments Credentials {Message}.
Arguments Stat {Message} _.
Arguments ReadFile {Message} _.

Definition exitOK : Z := 0.
Definition exitError : Z := 1.
Definition exitUsage : Z := 2.

(** [cliOptions] *)
Record cliOptions := {
  ConfigPath : string;
  DryRun : bool;
  Since : option Duration;
  Window : option Duration;
  Before : option Duration;
  MaxEmailAge : option Duration;
  RecoverMode : string;
  RecoverYes : bool;
  ReprocessNotify : bool
}.

(** [window != nil ? window.Cutoff(now) : Duration{Days: days}.Cutoff(now)], the form of all cutoffs. *)
Definition cutoff_or (d : option Duration) (days : Z) (now : Time) : Time :=
  match d with Some d => Cutoff d now | None => Cutoff {| Days := days |} now end.

Definition mailboxID (c : Config) : string :=
  Join "" [im_Host (cf_IMAP c); ":"; fmt_d (im_Port (cf_IMAP c)); "/"; im_Mailbox (cf_IMAP c)].

Definition buildIMAPConfig (c : Config) (username password : string) : imap_config :=
  {| ix_Host := im_Host (cf_IMAP c); ix_Port := im_Port (cf_IMAP c);
     ix_Mailbox := im_Mailbox (cf_IMAP c); ix_TLSCACert := im_TLSCACert (cf_IMAP c);
     ix_MaxMessageBytes := im_MaxMessageBytes (cf_IMAP c);
     ix_Username := username; ix_Password := password |}.

(** ** Notification helpers (notify_helpers.go) *)

Definition public_detail (fd : Tlsrpt.FailureDetail) : FailureDetail :=
  MkFailureDetail (Tlsrpt.ResultType fd) (Tlsrpt.FailedSessionCount fd)
    (Tlsrpt.ReceivingMXHostname fd) (Tlsrpt.FailureReasonCode fd).

Definition policy_alert (report : Tlsrpt.Report) (p : Tlsrpt.PolicyRecord) : Alert :=
  MkAlert (Tlsrpt.OrganizationName report) (Tlsrpt.PolicyType (Tlsrpt.PolicyOf p))
    (Tlsrpt.TotalFailureSessionCount (Tlsrpt.SummaryOf p))
    (MkDateRange (Tlsrpt.StartDatetime (Tlsrpt.DateRangeOf report))
                 (Tlsrpt.EndDatetime (Tlsrpt.DateRangeOf report)))
    (Tlsrpt.ReportID report) (map public_detail (Tlsrpt.FailureDetails p)) 0 0.

Open Scope prog_scope.

Section helpers.
Context {Message : Type}.
Abbreviation cmd := (prog (cmd_call Message)).

Fixpoint log_policies (report : Tlsrpt.Report) (ps : list Tlsrpt.PolicyRecord) : cmd unit :=
  match ps with
  | [] => Ret tt
  | p :: ps' =>
      if Tlsrpt.TotalFailureSessionCount (Tlsrpt.SummaryOf p) <=? 0 then log_policies report ps'
      else
        let* _ := call (NLogAlert (policy_alert report p)) in
        log_policies report ps'
  end.

Definition logAlerts (report : Tlsrpt.Report) : cmd unit := log_policies report (Tlsrpt.policies report).

Definition logWarn (kind : string) (uid uidValidity : Z) (messageID : string) : cmd unit :=
  let* _ := call (NLogWarning (MkWarning kind uid uidValidity messageID)) in
  Ret tt.

(** [notifyFetchSystemError] and its counterparts of the other subcommands: the error is logged
    and flushed at once; a failure to notify does not change what the subcommand does. *)
Definition notifySystemError (component kind mailbox : string) : cmd (option goerr) :=
  let* e1 := call (NLogSystemError (MkSystemError kind component mailbox)) in
  let* e2 := call NFlush in
  Ret (join_errs [e1; e2]).
End helpers.

(** ** What calls do *)

(** Calls that change the local store, or messages on the server. *)
Definition mutating {Message} (X : Type) (c : cmd_call Message X) : bool :=
  match c with
  | SaveRecoveryRequired _ _ _ | SaveUIDValidity _ | SaveEmail _ _ _ _ | SaveEmailMetas _
  | SaveReports _ | DeleteReportsBefore _ | DeleteEmailsBefore _ | ApplyRecovery _
  | ResetForRecovery _ | MarkSeen _ | DeleteOlderThan _ => true
  | _ => false
  end.

Definition harmless {Message} (X : Type) (c : cmd_call Message X) : bool := negb (mutating X c).
