(* ===== verification/Fetch.v ===== *)
(** * The fetch subcommand (cmd/tlsrpt-digest/fetch.go)

    The steps of a fetch run in the order of the code, each helper with all its early returns.
    Every call of the store, the mail fetcher and the notifier is a call of the program. *)
From S2P Require Import Prelude GoStr GoTime GoErr.
From S2P Require Tlsrpt.
From S2P Require Import NotifyTypes Duration Config Mailparse Prog.
From S2P Require Import Cmd.

Open Scope prog_scope.

Record fetchMsgState := {
  meta : MessageMeta;
  emlExistedBefore : bool;
  rawEML : option string
}.

Definition with_raw (s : fetchMsgState) (raw : string) : fetchMsgState :=
  {| meta := meta s; emlExistedBefore := emlExistedBefore s; rawEML := Some raw |}.

Abbreviation uid_of s := (Imap.mm_UID (meta s)).

(** [fetchEmailPath]: the layout of the store package. *)
Definition fetchEmailPath (rootDir : path) (uid uidValidity : Z) (internalDate : Time) : path :=
  rootDir ++ ["emails"; fmt_d uidValidity; format_yyyymm internalDate;
              String.append (pad_zeros 10 (fmt_d uid)) ".eml"].

(** [classifyIMAPClientError] *)
Definition classifyIMAPClientError (err : goerr) : string :=
  if Contains (Error err) "login" then SystemErrorKindIMAPAuthFailed
  else SystemErrorKindIMAPConnectFailed.

Definition collectUnseenUIDs (states : list fetchMsgState) : list Z :=
  omap (fun s => if negb (Imap.mm_Seen (meta s)) then Some (uid_of s) else None) states.

(** [buildEmailMetas] *)
Definition buildEmailMetas (states : list fetchMsgState) (currentUID : Z) : list EmailMeta :=
  omap (fun s =>
    if emlExistedBefore s || match rawEML s with Some _ => true | None => false end
    then Some {| StoreTypes.UID := uid_of s; StoreTypes.UIDValidity := currentUID;
                 StoreTypes.InternalDate := Imap.mm_Date (meta s) |}
    else None) states.

Section fetch.
Context {body : Type} (mime : Mime body).
(** [mail.ReadMessage], [json.Unmarshal] and [gzip.NewReader] of the standard library. *)
Variable ReadMessage : string -> result (entity body).
Variable json_unmarshal : string -> Tlsrpt.Report + string.
Variable gunzip : string -> Tlsrpt.gzip_stream.

Abbreviation cmd := (prog (cmd_call (entity body))).

(** [None] is [(nil, nil)]: not a TLSRPT attachment. *)
Definition parseTLSRPTAttachment (att : Attachment) : option (Tlsrpt.Report + Tlsrpt.parse_error) :=
  let ct := ToLower mime (ContentType att) in
  if String.eqb ct "application/tlsrpt+gzip" then Some (Tlsrpt.ParseGzip json_unmarshal gunzip (Content att))
  else if String.eqb ct "application/tlsrpt+json" then Some (Tlsrpt.ParseJSON json_unmarshal (Content att))
  else
    let fn := ToLower mime (Filename att) in
    if HasSuffix fn ".json.gz" then Some (Tlsrpt.ParseGzip json_unmarshal gunzip (Content att))
    else if HasSuffix fn ".json" then Some (Tlsrpt.ParseJSON json_unmarshal (Content att))
    else None.

Definition notifyFetchSystemError (kind mailbox : string) : cmd (option goerr) :=
  notifySystemError "fetch" kind mailbox.

(** [r.localEmailSize]: the size of a local file when there is a regular one. *)
Definition localEmailSize (rootDir : path) (uid uidValidity : Z) (date : Time) : cmd (result (option Z)) :=
  let* st := call (Stat (fetchEmailPath rootDir uid uidValidity date)) in
  Ret (match st with
       | Err err => if is_not_exist err then Ok None else Err err
       | Ok info => if negb (regular info) then Ok None else Ok (Some (file_size info))
       end).

(** [r.loadLocalEML] *)
Definition loadLocalEML (rootDir : path) (uid uidValidity : Z) (date : Time) : cmd (result string) :=
  call (ReadFile (fetchEmailPath rootDir uid uidValidity date)).

(** The result of a helper that may end the run: [None] is [fetchContinue]. *)
Abbreviation outcome := (option (Z * option goerr)).

Definition fetchValidateUID (opts : cliOptions) (now : Time) (currentUID : Z) (mailbox : string)
  : cmd outcome :=
  let* loaded := call LoadUIDValidity in
  match loaded with
  | Err err =>
      let* _ := notifyFetchSystemError SystemErrorKindStoreCorruption mailbox in
      Ret (Some (exitError, Some (errorf "fetch: load uidvalidity: " err)))
  | Ok (storedUID, uidFound) =>
      if negb uidFound then
        if negb (DryRun opts) then
          let* err := call (SaveUIDValidity currentUID) in
          match err with
          | Some err =>
              let* _ := notifyFetchSystemError SystemErrorKindStoreCorruption mailbox in
              Ret (Some (exitError, Some (errorf "fetch: save uidvalidity: " err)))
          | None => Ret None
          end
        else Ret None
      else if negb (storedUID =? currentUID) then
        let* saved :=
          (if negb (DryRun opts) then call (SaveRecoveryRequired storedUID currentUID now) else Ret None) in
        match saved with
        | Some saveErr =>
            let* _ := notifyFetchSystemError SystemErrorKindStoreCorruption mailbox in
            Ret (Some (exitError, Some (errorf "fetch: save recovery-required: " saveErr)))
        | None =>
            let* _ := notifyFetchSystemError SystemErrorKindUIDValidityChanged mailbox in
            Ret (Some (exitError, None))
        end
      else Ret None
  end.

Fixpoint buildFetchStates (msgs : list MessageMeta) (currentUID : Z) (rootDir : path)
  : cmd (result (list fetchMsgState)) :=
  match msgs with
  | [] => Ret (Ok [])
  | m :: msgs' =>
      let* local := localEmailSize rootDir (Imap.mm_UID m) currentUID (Imap.mm_Date m) in
      match local with
      | Err err =>
          Ret (Err (errorf (Join "" ["fetch: check local email size for UID "; fmt_d (Imap.mm_UID m); ": "]) err))
      | Ok size =>
          let* _ := (match size with
                     | Some localSize =>
                         if negb (localSize =? Imap.mm_Size m)
                         then logWarn WarningKindSizeMismatch (Imap.mm_UID m) currentUID (Imap.mm_MessageID m)
                         else Ret tt
                     | None => Ret tt
                     end) in
          let* rest := buildFetchStates msgs' currentUID rootDir in
          Ret (match rest with
               | Err e => Err e
               | Ok states =>
                   Ok ({| meta := m;
                          emlExistedBefore := match size with Some _ => true | None => false end;
                          rawEML := None |} :: states)
               end)
      end
  end.

(** The loop over the states after the download. *)
Fixpoint save_downloaded (states : list fetchMsgState) (downloaded : gmap Z string) (currentUID : Z)
    (mailbox : string) : cmd (result (list fetchMsgState)) :=
  match states with
  | [] => Ret (Ok [])
  | s :: states' =>
      let continue (s : fetchMsgState) :=
        let* rest := save_downloaded states' downloaded currentUID mailbox in
        Ret (match rest with Err e => Err e | Ok ss => Ok (s :: ss) end) in
      if emlExistedBefore s then continue s
      else match downloaded !! uid_of s with
           | None =>
               let* _ := notifyFetchSystemError SystemErrorKindIMAPOperationFailed mailbox in
               Ret (Err (Wrap "fetch: " (Sentinel errFetchDownloadMissingUID)
                              (String.append ": " (fmt_d (uid_of s)))))
           | Some raw =>
               let* _ := (if negb (Z.of_nat (String.length raw) =? Imap.mm_Size (meta s))
                          then logWarn WarningKindSizeMismatch (uid_of s) currentUID (Imap.mm_MessageID (meta s))
                          else Ret tt) in
               let* err := call (SaveEmail (uid_of s) currentUID (Imap.mm_Date (meta s)) raw) in
               match err with
               | Some err => Ret (Err (errorf (Join "" ["fetch: save email "; fmt_d (uid_of s); ": "]) err))
               | None => continue (with_raw s raw)
               end
           end
  end.

Definition fetchDownloadAndSave (states : list fetchMsgState) (currentUID : Z) (mailbox : string)
  : cmd (result (list fetchMsgState)) :=
  let downloadUIDs := omap (fun s => if negb (emlExistedBefore s) then Some (uid_of s) else None) states in
  match downloadUIDs with
  | [] => Ret (Ok states)
  | _ =>
      let* downloaded := call (Download downloadUIDs) in
      match downloaded with
      | Err err =>
          let* _ := notifyFetchSystemError SystemErrorKindIMAPOperationFailed mailbox in
          Ret (Err (errorf "fetch: download: " err))
      | Ok downloaded => save_downloaded states downloaded currentUID mailbox
      end
  end.

Fixpoint processAttachments (attachments : list Attachment) (s : fetchMsgState) (currentUID : Z)
  : cmd (list ReportInput) :=
  match attachments with
  | [] => Ret []
  | att :: attachments' =>
      match parseTLSRPTAttachment att with
      | None => processAttachments attachments' s currentUID
      | Some (inr _) =>
          let* _ := logWarn WarningKindParseFailure (uid_of s) currentUID (Imap.mm_MessageID (meta s)) in
          processAttachments attachments' s currentUID
      | Some (inl report) =>
          let* _ := (if negb (Imap.mm_Seen (meta s)) && Tlsrpt.HasFailure report
                     then logAlerts report else Ret tt) in
          let* rest := processAttachments attachments' s currentUID in
          Ret ({| StoreTypes.ri_Report := report; StoreTypes.ri_UID := uid_of s;
                  StoreTypes.ri_UIDValidity := currentUID |} :: rest)
      end
  end.

(** The body of the loop for a message whose text is there. *)
Definition collect_message (cfg : Config) (s : fetchMsgState) (currentUID : Z) (raw : string)
  : cmd (list ReportInput) :=
  let warn := logWarn WarningKindParseFailure (uid_of s) currentUID (Imap.mm_MessageID (meta s)) in
  match ReadMessage raw with
  | Err _ => let* _ := warn in Ret []
  | Ok parsedMsg =>
      match ExtractAttachments mime parsedMsg (im_MaxMessageBytes (cf_IMAP cfg)) with
      | Err _ => let* _ := warn in Ret []
      | Ok attachments => processAttachments attachments s currentUID
      end
  end.

Fixpoint fetchCollectReports (cfg : Config) (states : list fetchMsgState) (currentUID : Z) (rootDir : path)
  : cmd (result (list ReportInput)) :=
  match states with
  | [] => Ret (Ok [])
  | s :: states' =>
      let continue (reports : list ReportInput) :=
        let* rest := fetchCollectReports cfg states' currentUID rootDir in
        Ret (match rest with Err e => Err e | Ok rs => Ok (reports ++ rs) end) in
      if Imap.mm_Seen (meta s) && emlExistedBefore s then continue []
      else match rawEML s with
           | Some raw =>
               let* reports := collect_message cfg s currentUID raw in
               continue reports
           | None =>
               if negb (emlExistedBefore s) || Imap.mm_Seen (meta s) then continue []
               else
                 let* loaded := loadLocalEML rootDir (uid_of s) currentUID (Imap.mm_Date (meta s)) in
                 match loaded with
                 | Err err => Ret (Err (errorf (Join "" ["fetch: load local eml "; fmt_d (uid_of s); ": "]) err))
                 | Ok raw =>
                     let* reports := collect_message cfg (with_raw s raw) currentUID raw in
                     continue reports
                 end
           end
  end.

Definition fetchMarkSeen (states : list fetchMsgState) : cmd (option goerr) :=
  match collectUnseenUIDs states with
  | [] => Ret None
  | unseenUIDs =>
      let* err := call (MarkSeen unseenUIDs) in
      match err with
      | None => Ret None
      | Some err =>
          if is_sentinel ErrMailboxReadOnly err then
            let* _ := logWarn WarningKindMailboxReadOnly 0 0 "" in
            let* _ := call NFlush in
            Ret None
          else Ret (Some (errorf "fetch: mark seen: " err))
      end
  end.

(** Steps 8 to 14. *)
Definition fetch_process (cfg : Config) (rootDir : path) (states : list fetchMsgState) (currentUID : Z)
  : cmd (Z * option goerr) :=
  let* err := call (SaveEmailMetas (buildEmailMetas states currentUID)) in
  match err with
  | Some err => Ret (exitError, Some (errorf "fetch: save email metas: " err))
  | None =>
  let* collected := fetchCollectReports cfg states currentUID rootDir in
  match collected with
  | Err err => Ret (exitError, Some err)
  | Ok reports =>
  let* err := call (SaveReports reports) in
  match err with
  | Some err => Ret (exitError, Some (errorf "fetch: save reports: " err))
  | None =>
  let* err := call NFlush in
  match err with
  | Some err => Ret (exitError, Some (errorf "fetch: flush: " err))
  | None =>
  let* err := fetchMarkSeen states in
  match err with
  | Some err => Ret (exitError, Some err)
  | None =>
  let* err := call (SaveUIDValidity currentUID) in
  Ret (match err with
       | Some err => (exitError, Some (errorf "fetch: save uidvalidity: " err))
       | None => (exitOK, None)
       end)
  end end end end end.

(** Steps 4 to 14, between connecting and closing. *)
Definition fetch_connected (opts : cliOptions) (cfg : Config) (rootDir : path) (now : Time) (mailbox : string)
  : cmd (Z * option goerr) :=
  let* fetched := call (FetchMeta (cutoff_or (Since opts) (im_FetchDays (cf_IMAP cfg)) now)) in
  match fetched with
  | Err err =>
      let* _ := notifyFetchSystemError SystemErrorKindIMAPOperationFailed mailbox in
      Ret (exitError, Some (errorf "fetch: fetch meta: " err))
  | Ok fetchResult =>
  let currentUID := Imap.fm_UIDValidity fetchResult in
  let* validated := fetchValidateUID opts now currentUID mailbox in
  match validated with
  | Some out => Ret out
  | None =>
  let* built := buildFetchStates (Imap.Messages fetchResult) currentUID rootDir in
  match built with
  | Err err => Ret (exitError, Some err)
  | Ok states =>
  if DryRun opts then
    (* [fetchDryRunExit] *)
    let* _ := call NFlush in
    Ret (exitOK, None)
  else
  let* saved := fetchDownloadAndSave states currentUID mailbox in
  match saved with
  | Err err => Ret (exitError, Some err)
  | Ok states => fetch_process cfg rootDir states currentUID
  end end end end.

(** [fetchRunner.Run] *)
Definition fetch_Run (opts : cliOptions) (cfg : Config) (rootDir : path) (now : Time) : cmd (Z * option goerr) :=
  let mailbox := mailboxID cfg in
  let* loaded := call LoadRecoveryRequired in
  match loaded with
  | Err err =>
      let* _ := notifyFetchSystemError SystemErrorKindStoreCorruption mailbox in
      Ret (exitError, Some (errorf "fetch: load recovery-required: " err))
  | Ok (_, _, _, recoveryFound) =>
  if recoveryFound : bool then
    let* _ := notifyFetchSystemError SystemErrorKindRecoveryRequired mailbox in
    Ret (exitError, None)
  else
  let* (username, password) := call Credentials in
  if String.eqb username "" || String.eqb password "" then
    let* _ := notifyFetchSystemError SystemErrorKindIMAPCredentialsMissing mailbox in
    Ret (exitError, None)
  else
  let* err := call (NewMailFetcher (buildIMAPConfig cfg username password)) in
  match err with
  | Some err =>
      let* _ := notifyFetchSystemError (classifyIMAPClientError err) mailbox in
      Ret (exitError, Some (errorf "fetch: create imap client: " err))
  | None =>
  let* out := fetch_connected opts cfg rootDir now mailbox in
  let* _ := call CloseFetcher in
  Ret out
  end end.
End fetch.
