(* ===== verification/Connect.v ===== *)
(** * Connecting to the IMAP server (internal/imap/client.go: NewIMAPClient, buildTLSConfig)

    How a client comes to be: the TLS configuration, the connection, the login. The calls are those
    of the [tls], [imapclient] and [os] packages. *)
From S2P Require Import Prelude GoStr GoTime GoErr.
From S2P Require Import NotifyTypes Prog Imap.
From S2P Require Import Cmd Fetch.

Open Scope prog_scope.

(** [tls.VersionTLS12] *)
Definition VersionTLS12 : Z := 771.

(** [tls.Config] as it is built; [RootCAs] is the PEM text the pool was filled from. *)
Record TLSConfig := {
  MinVersion : Z;
  TLS_InsecureSkipVerify : bool;
  RootCAs : option string
}.

Inductive connect_call : Type -> Type :=
  | ReadCACert (p : string) : connect_call (result string)
  | DialTLS (addr : string) (conf : TLSConfig) : connect_call (result unit)
  | Login (username password : string) : connect_call (option goerr)
  | LogoutSession : connect_call (option goerr).

Section connect.
(** Whether a certificate pool accepts a PEM text. *)
Variable AppendCertsFromPEM : string -> bool.
(** [Config.InsecureSkipVerify], which the program never sets. *)
Variable InsecureSkipVerify : bool.

(** [buildTLSConfig] *)
Definition buildTLSConfig (conf : imap_config) : prog connect_call (result TLSConfig) :=
  let with_roots roots :=
    {| MinVersion := VersionTLS12; TLS_InsecureSkipVerify := InsecureSkipVerify; RootCAs := roots |} in
  if String.eqb (ix_TLSCACert conf) "" then Ret (Ok (with_roots None))
  else
    let* pem := call (ReadCACert (ix_TLSCACert conf)) in
    match pem with
    | Err err =>
        Ret (Err (errorf (Join "" ["imap: read tls ca cert "; fmt_q (ix_TLSCACert conf); ": "]) err))
    | Ok pemBytes =>
        if negb (AppendCertsFromPEM pemBytes)
        then Ret (Err (Wrap "" (Sentinel errInvalidTLSCAPEM) (String.append ": " (fmt_q (ix_TLSCACert conf)))))
        else Ret (Ok (with_roots (Some pemBytes)))
    end.

(** [net.JoinHostPort(host, strconv.Itoa(port))] *)
Definition JoinHostPort (host : string) (port : Z) : string :=
  if Contains host ":" then Join "" ["["; host; "]:"; fmt_d port]
  else Join "" [host; ":"; fmt_d port].

(** [NewIMAPClient] once there is a TLS configuration. *)
Definition dial_and_login (conf : imap_config) (tlsConfig : TLSConfig) : prog connect_call (result imapClient) :=
  let mailbox := if String.eqb (ix_Mailbox conf) "" then "INBOX" else ix_Mailbox conf in
  let address := JoinHostPort (ix_Host conf) (ix_Port conf) in
  let* session := call (DialTLS address tlsConfig) in
  match session with
  | Err err => Ret (Err (errorf (Join "" ["imap: connect to "; address; ": "]) err))
  | Ok _ =>
      let* err := call (Login (ix_Username conf) (ix_Password conf)) in
      match err with
      | Some err =>
          let* _ := call LogoutSession in
          Ret (Err (errorf "imap: login: " err))
      | None =>
          Ret (Ok {| cfg := {| ic_Mailbox := mailbox; ic_MaxMessageBytes := ix_MaxMessageBytes conf |};
                     lastSelectReadOnly := false |})
      end
  end.

(** [NewIMAPClient] *)
Definition NewIMAPClient (conf : imap_config) : prog connect_call (result imapClient) :=
  let* tlsConfig := buildTLSConfig conf in
  match tlsConfig with
  | Err err => Ret (Err err)
  | Ok tlsConfig => dial_and_login conf tlsConfig
  end.

(** ** What a connection is *)

(** A list splits in one way only at its only element with a property. *)
Lemma only_split {A} (P : A -> Prop) l1 e l2 t1 e' t2 :
  Forall (fun x => ~ P x) l1 -> P e -> Forall (fun x => ~ P x) l2 -> P e' ->
  l1 ++ e :: l2 = t1 ++ e' :: t2 -> l1 = t1 /\ e = e' /\ l2 = t2.
Proof.
  intros H1 He H2 He'. revert t1. induction H1 as [|x l1 Hx H1 IH]; intros [|y t1] E; simpl in E; injection E as -> E.
  - done.
  - exfalso. rewrite E, Forall_app in H2. by destruct H2 as [_ [? _]%Forall_cons_iff].
  - done.
  - apply IH in E as (-> & -> & ->). done.
Qed.

(** The TLS configuration a run may dial with: at least TLS 1.2, certificates verified unless the
    configuration says otherwise, against the configured certificates if there are any. *)
Definition tls_ok (conf : imap_config) (t : list (event connect_call)) (c : TLSConfig) : Prop :=
  MinVersion c = VersionTLS12 /\ TLS_InsecureSkipVerify c = InsecureSkipVerify /\
  match RootCAs c with
  | None => ix_TLSCACert conf = ""
  | Some pem => In (Ev (ReadCACert (ix_TLSCACert conf)) (Ok pem)) t /\ AppendCertsFromPEM pem = true
  end.

(** The credentials are the configured ones and are sent only after a connection was dialled like
    this; a client exists exactly when they were accepted, and is open to its caller; and a session
    that is not handed to the caller is logged out. *)
Definition connection_ok (conf : imap_config) (r : result imapClient) (t : list (event connect_call)) : Prop :=
  (forall addr c x, In (Ev (DialTLS addr c) x) t -> tls_ok conf t c) /\
  (forall t1 u p x t2, t = t1 ++ Ev (Login u p) x :: t2 ->
     u = ix_Username conf /\ p = ix_Password conf /\
     exists c, In (Ev (DialTLS (JoinHostPort (ix_Host conf) (ix_Port conf)) c) (Ok tt)) t1) /\
  (is_ok r = true <-> exists u p, In (Ev (Login u p) None) t) /\
  match r with
  | Ok client =>
      (forall x, ~ In (Ev LogoutSession x) t) /\
      ic_Mailbox (cfg client) = (if decide (ix_Mailbox conf = "") then "INBOX" else ix_Mailbox conf) /\
      ic_MaxMessageBytes (cfg client) = ix_MaxMessageBytes conf
  | Err _ =>
      (exists addr c, In (Ev (DialTLS addr c) (Ok tt)) t) -> exists t' x, t = t' ++ [Ev LogoutSession x]
  end.

(** The contents of a call, to tell calls apart. *)
Definition dial_of (e : event connect_call) : option (string * TLSConfig * bool) :=
  match e with
  | Ev c x => match c in connect_call X return X -> option (string * TLSConfig * bool) with
              | DialTLS a t => fun x => Some (a, t, is_ok x)
              | _ => fun _ => None
              end x
  end.

Definition login_of (e : event connect_call) : option (string * string * option goerr) :=
  match e with
  | Ev c x => match c in connect_call X return X -> option (string * string * option goerr) with
              | Login u p => fun x => Some (u, p, x)
              | _ => fun _ => None
              end x
  end.

Definition is_logout (e : event connect_call) : bool :=
  match e with Ev c _ => match c with LogoutSession => true | _ => false end end.

Ltac tell_apart H :=
  let H1 := fresh in let H2 := fresh in let H3 := fresh in
  pose proof (f_equal dial_of H) as H1; pose proof (f_equal login_of H) as H2;
  pose proof (f_equal is_logout H) as H3; simpl in H1, H2, H3; try discriminate; clear H.

(** A history before the connection: only the certificates were read. *)
Definition before_dial (h : list (event connect_call)) : Prop :=
  Forall (fun e => dial_of e = None /\ login_of e = None /\ is_logout e = false) h.

(** The one login of a history. *)
Lemma login_split h d u p x rest t1 u' p' x' t2 :
  before_dial h -> login_of d = None -> Forall (fun e => login_of e = None) rest ->
  h ++ d :: Ev (Login u p) x :: rest = t1 ++ Ev (Login u' p') x' :: t2 ->
  t1 = h ++ [d] /\ u' = u /\ p' = p.
Proof.
  intros Hh Hd Hrest E.
  change (d :: Ev (Login u p) x :: rest) with ([d] ++ Ev (Login u p) x :: rest) in E. rewrite app_assoc in E.
  apply (only_split (fun e => login_of e <> None)) in E as (<- & E & _); [| |done| |done].
  - apply (f_equal login_of) in E. simpl in E. by injection E as -> -> _.
  - apply Forall_app_2; [eapply Forall_impl; [|exact Hh]; simpl; intros e (_ & -> & _); tauto|].
    constructor; [rewrite Hd; tauto|constructor].
  - eapply Forall_impl; [|exact Hrest]. simpl. intros e ->. tauto.
Qed.

Lemma wp_dial_and_login conf tls h :
  before_dial h -> tls_ok conf h tls ->
  wp (dial_and_login conf tls) h (fun r t => connection_ok conf r t).
Proof.
  intros Hh (Hv & Hs & Hr). unfold dial_and_login. cbn [bind call wp].
  assert (Hok : forall t, tls_ok conf (h ++ t) tls).
  { intros t. split; [done|]. split; [done|]. destruct (RootCAs tls); [|done].
    destruct Hr as [Hi Ha]. split; [apply in_app_iff; by left|done]. }
  assert (Hin : forall e, In e h -> dial_of e = None /\ login_of e = None /\ is_logout e = false)
    by by apply Forall_forall.
  assert (Hd : forall t addr c x, In (Ev (DialTLS addr c) x) (h ++ t) ->
    Forall (fun e => match dial_of e with Some (_, c, _) => c = tls | None => True end) t -> tls_ok conf (h ++ t) c).
  { intros t addr c x [Hi|Hi]%in_app_iff Ht.
    - by destruct (Hin _ Hi).
    - rewrite Forall_forall in Ht. specialize (Ht _ Hi). simpl in Ht. by subst c. }
  assert (Hl : forall t u p x, In (Ev (Login u p) x) (h ++ t) -> In (Ev (Login u p) x) t).
  { intros t u p x [Hi|Hi]%in_app_iff; [|done]. by destruct (Hin _ Hi) as (_ & ? & _). }
  assert (Hs' : forall t addr c, In (Ev (DialTLS addr c) (Ok tt)) (h ++ t) -> In (Ev (DialTLS addr c) (Ok tt)) t).
  { intros t addr c [Hi|Hi]%in_app_iff; [|done]. by destruct (Hin _ Hi). }
  intros [[]|e]; cbn [bind call wp].
  - intros [e|]; [cbn [bind call wp]; intros x|]; rewrite <- ?app_assoc; cbn [app]; split_and!.
    + intros addr c y Hi. eapply Hd; [exact Hi|]. by repeat constructor.
    + intros t1 u p y t2 E. apply login_split in E as (-> & -> & ->); [|done|done|by repeat constructor].
      split_and!; [done..|]. exists tls. apply in_app_iff. right. by left.
    + split; [done|]. intros (u & p & [E|[E|[E|[]]]]%Hl); tell_apart E.
    + intros _. eexists (h ++ [_; _]), x. by rewrite <- app_assoc.
    + intros addr c y Hi. eapply Hd; [exact Hi|]. by repeat constructor.
    + intros t1 u p y t2 E. apply login_split in E as (-> & -> & ->); [|done|done|by repeat constructor].
      split_and!; [done..|]. exists tls. apply in_app_iff. right. by left.
    + split; [|done]. intros _. eexists _, _. apply in_app_iff. right. right. by left.
    + intros x [Hi|[E|[E|[]]]]%in_app_iff; [by destruct (Hin _ Hi) as (_ & _ & ?)|tell_apart E..].
    + simpl. by destruct (String.eqb_spec (ix_Mailbox conf) ""), (decide _).
    + done.
  - split_and!.
    + intros addr c y Hi. eapply Hd; [exact Hi|]. by repeat constructor.
    + intros t1 u p x t2 E. assert (Hi : In (Ev (Login u p) x) [Ev (DialTLS (JoinHostPort (ix_Host conf) (ix_Port conf)) tls) (Err e)]).
      { apply Hl. rewrite E. apply in_app_iff. right. by left. }
      destruct Hi as [Hi|[]]. tell_apart Hi.
    + split; [done|]. intros (u & p & [E|[]]%Hl). tell_apart E.
    + intros (addr & c & [E|[]]%Hs'). tell_apart E.
Qed.

(** A run that ends before the connection. *)
Lemma connection_ok_none conf e t : before_dial t -> connection_ok conf (Err e) t.
Proof.
  unfold before_dial. rewrite Forall_forall. intros Ht. split_and!.
  - intros addr c x Hi. by destruct (Ht _ Hi).
  - intros t1 u p x t2 ->. destruct (Ht (Ev (Login u p) x)) as (_ & ? & _); [apply in_app_iff; right; by left|done].
  - split; [done|]. intros (u & p & Hi). by destruct (Ht _ Hi) as (_ & ? & _).
  - intros (addr & c & Hi). by destruct (Ht _ Hi).
Qed.

(** C40: whatever the server answers, the configured credentials are sent, and only after a TLS
    connection of version 1.2 or later with the configured certificates was made; a client, for the
    configured mailbox, is returned exactly when the login succeeded, with its session open; and a
    session whose login failed is logged out. *)
Theorem NewIMAPClient_secure conf t r : runs (NewIMAPClient conf) t r -> connection_ok conf r t.
Proof.
  intros H. apply (wp_runs _ t r [] (connection_ok conf) H). clear H.
  unfold NewIMAPClient, buildTLSConfig. destruct (String.eqb_spec (ix_TLSCACert conf) "") as [E|E].
  - apply wp_dial_and_login; [constructor|by split_and!].
  - cbn [bind call wp]. intros [pem|e]; [|apply connection_ok_none; by repeat constructor].
    destruct (AppendCertsFromPEM pem) eqn:Ea; cbn [negb bind].
    + apply wp_dial_and_login; [by repeat constructor|]. split; [done|]. split; [done|]. by split; [left|].
    + apply connection_ok_none; by repeat constructor.
Qed.
End connect.

(** ** Examples *)

Definition sample_conf (host ca : string) : imap_config :=
  {| ix_Host := host; ix_Port := 993; ix_Mailbox := ""; ix_TLSCACert := ca; ix_MaxMessageBytes := 1048576;
     ix_Username := "user"; ix_Password := "pass" |}.

Definition sample_server (dialled : result unit) (login : option goerr) : forall X, connect_call X -> X :=
  fun X c =>
  match c in connect_call X return X with
  | ReadCACert _ => Ok "pem"
  | DialTLS _ _ => dialled
  | Login _ _ => login
  | LogoutSession => None
  end.

Definition sample_connect :=
  run (sample_server (Ok tt) (Some (Text "no"))) (NewIMAPClient (fun _ => true) false (sample_conf "imap.example" "ca.pem")).

Lemma NewIMAPClient_secure_witness :
  length sample_connect.1 = 4%nat /\
  connection_ok (fun _ => true) false (sample_conf "imap.example" "ca.pem") sample_connect.2 sample_connect.1.
Proof.
  split; [reflexivity|].
  apply (NewIMAPClient_secure (fun _ => true) false (sample_conf "imap.example" "ca.pem")).
  exact (run_runs (sample_server (Ok tt) (Some (Text "no")))
           (NewIMAPClient (fun _ => true) false (sample_conf "imap.example" "ca.pem"))).
Defined.

(** The kind of a failure is found in the text of the error, which names the host: a host called
    [login.example] that cannot be reached is reported as a failed login. *)
Example connect_failure_as_login :
  exists e,
    (run (sample_server (Err (Text "connection refused")) None)
       (NewIMAPClient (fun _ => true) false (sample_conf "login.example" ""))).2 = Err e /\
    Error e = "imap: connect to login.example:993: connection refused" /\
    classifyIMAPClientError e = SystemErrorKindIMAPAuthFailed.
Proof. eexists. split; [reflexivity|]. split; reflexivity. Qed.
