(* ===== verification/Gc.v ===== *)
(** * The gc subcommand (cmd/tlsrpt-digest/gc.go)

    Deletion of old reports, old .eml files and, when configured, old messages on the server; in
    a dry run the counting of what would be deleted. *)
From S2P Require Import Prelude GoStr GoTime GoErr.
From S2P Require Import NotifyTypes Duration Config Prog Cmd Fetch.

Open Scope prog_scope.

(** [gcNotifyKind] *)
Definition gcNotifyKind (err : goerr) : string :=
  if is_sentinel ErrDataCorrupted err then SystemErrorKindStoreCorruption
  else SystemErrorKindStorePermission.

Definition gcReportCutoff (opts : cliOptions) (cfg : Config) (now : Time) : Time :=
  match Before opts with
  | Some d => Cutoff d now
  | None => Cutoff {| Days := st_RetentionDays (cf_Store cfg) |} now
  end.

Definition gcEmailCutoff (opts : cliOptions) (cfg : Config) (now : Time) : Time :=
  match MaxEmailAge opts with
  | Some d => Cutoff d now
  | None => Cutoff {| Days := st_MaxEmailAgeDays (cf_Store cfg) |} now
  end.

Definition imapEnabled (cfg : Config) : bool := im_RetentionDays (cf_IMAP cfg) >? 0.

(** [imapCutoff], the zero time when the server is left alone. *)
Definition gc_imapCutoff (cfg : Config) (now : Time) : Time :=
  if imapEnabled cfg then Cutoff {| Days := im_RetentionDays (cf_IMAP cfg) |} now else zeroTime.

Section gc.
Context {Message : Type}.
Abbreviation cmd := (prog (cmd_call Message)).

Definition notifyGCSystemError (kind mailbox : string) : cmd (option goerr) :=
  notifySystemError "gc" kind mailbox.

(** [deleteIMAPOlderThan]; the client is closed on every path after it was made. *)
Definition deleteIMAPOlderThan (cfg : Config) (mailbox username password : string) (cutoff : Time)
  : cmd (result Z) :=
  let* err := call (NewMailFetcher (buildIMAPConfig cfg username password)) in
  match err with
  | Some err =>
      let* _ := notifyGCSystemError (classifyIMAPClientError err) mailbox in
      Ret (Err (errorf "gc: create imap client: " err))
  | None =>
      let* deleted := call (DeleteOlderThan cutoff) in
      match deleted with
      | Err err =>
          let* _ := notifyGCSystemError SystemErrorKindIMAPOperationFailed mailbox in
          let* _ := call CloseFetcher in
          Ret (Err (errorf "gc: delete imap messages: " err))
      | Ok n =>
          let* _ := call CloseFetcher in
          Ret (Ok n)
      end
  end.

Definition searchIMAPOlderThan (cfg : Config) (mailbox username password : string) (cutoff : Time)
  : cmd (result (list Z)) :=
  let* err := call (NewMailFetcher (buildIMAPConfig cfg username password)) in
  match err with
  | Some err =>
      let* _ := notifyGCSystemError (classifyIMAPClientError err) mailbox in
      Ret (Err (errorf "gc: create imap client: " err))
  | None =>
      let* uids := call (SearchOlderThan cutoff) in
      match uids with
      | Err err =>
          let* _ := notifyGCSystemError SystemErrorKindIMAPOperationFailed mailbox in
          let* _ := call CloseFetcher in
          Ret (Err (errorf "gc: search imap messages: " err))
      | Ok uids =>
          let* _ := call CloseFetcher in
          Ret (Ok uids)
      end
  end.

Definition runDelete (cfg : Config) (mailbox : string) (reportCutoff emailCutoff imapCutoff : Time)
    (username password : string) : cmd (Z * option goerr) :=
  let* reportDeleted := call (DeleteReportsBefore reportCutoff) in
  match reportDeleted with
  | Err err =>
      let* _ := notifyGCSystemError (gcNotifyKind err) mailbox in
      Ret (exitError, Some (errorf "gc: delete reports: " err))
  | Ok _ =>
  let* emailDeleted := call (DeleteEmailsBefore emailCutoff) in
  match emailDeleted with
  | Err err =>
      let* _ := notifyGCSystemError (gcNotifyKind err) mailbox in
      Ret (exitError, Some (errorf "gc: delete emails: " err))
  | Ok _ =>
  if imapEnabled cfg then
    let* imapDeleted := deleteIMAPOlderThan cfg mailbox username password imapCutoff in
    match imapDeleted with
    | Err err => Ret (exitError, Some err)
    | Ok _ => Ret (exitOK, None)
    end
  else Ret (exitOK, None)
  end end.

Definition runDryRun (cfg : Config) (mailbox : string) (reportCutoff emailCutoff imapCutoff : Time)
  : cmd (Z * option goerr) :=
  let* reportCount := call (CountReportsBefore reportCutoff) in
  match reportCount with
  | Err err =>
      let* _ := notifyGCSystemError (gcNotifyKind err) mailbox in
      Ret (exitError, Some (errorf "gc: count reports: " err))
  | Ok _ =>
  let* emailCount := call (CountEmailsBefore emailCutoff) in
  match emailCount with
  | Err err =>
      let* _ := notifyGCSystemError (gcNotifyKind err) mailbox in
      Ret (exitError, Some (errorf "gc: count emails: " err))
  | Ok _ =>
  let* searched :=
    (if negb (imapEnabled cfg) then Ret (Ok [])
     else
       let* (username, password) := call Credentials in
       if String.eqb username "" || String.eqb password "" then Ret (Ok [])
       else searchIMAPOlderThan cfg mailbox username password imapCutoff) in
  match searched with
  | Err err => Ret (exitError, Some err)
  | Ok _ =>
      let* _ := call NFlush in
      Ret (exitOK, None)
  end end end.

(** [gcRunner.Run] *)
Definition gc_Run (opts : cliOptions) (cfg : Config) (now : Time) : cmd (Z * option goerr) :=
  let mailbox := mailboxID cfg in
  let* loaded := call LoadRecoveryRequired in
  match loaded with
  | Err err =>
      let* _ := notifyGCSystemError SystemErrorKindStoreCorruption mailbox in
      Ret (exitError, Some (errorf "gc: load recovery-required: " err))
  | Ok (_, _, _, recoveryFound) =>
  if recoveryFound : bool then Ret (exitError, None)
  else
  let reportCutoff := gcReportCutoff opts cfg now in
  let emailCutoff := gcEmailCutoff opts cfg now in
  let imapCutoff := gc_imapCutoff cfg now in
  let* creds :=
    (if imapEnabled cfg && negb (DryRun opts) then
       let* (username, password) := call Credentials in
       if String.eqb username "" || String.eqb password "" then
         let* _ := notifyGCSystemError SystemErrorKindIMAPCredentialsMissing mailbox in
         Ret None
       else Ret (Some (username, password))
     else Ret (Some ("", ""))) in
  match creds with
  | None => Ret (exitError, None)
  | Some (username, password) =>
      if DryRun opts then runDryRun cfg mailbox reportCutoff emailCutoff imapCutoff
      else runDelete cfg mailbox reportCutoff emailCutoff imapCutoff username password
  end
  end.
End gc.
