(* ===== verification/RecoverCmd.v ===== *)
(** * The recover subcommand (cmd/tlsrpt-digest/recover.go)

    What it prints is the text written to standard output, a list of lines; what it does to the
    store are calls. *)
From S2P Require Import Prelude GoStr GoTime GoErr.
From S2P Require Import NotifyTypes Duration Config Prog Cmd.

Open Scope prog_scope.

Definition recoverModeKeepOld : string := "keep-old".
Definition recoverModeDiscardOld : string := "discard-old".

(** The lines printed so far are passed along. *)
Abbreviation lines := (list string).

(** [printInfo] *)
Definition printInfo (cfg : Config) (prev curr : Z) (opts : cliOptions) (pendingReset : bool) : lines :=
  let mailbox := mailboxID cfg in
  let selectedMode := if String.eqb (RecoverMode opts) "" then "(status display)" else RecoverMode opts in
  [String.append "Recovery required for mailbox: " mailbox;
   String.append "  Previous UIDVALIDITY: " (fmt_d prev);
   String.append "  Current UIDVALIDITY:  " (fmt_d curr);
   String.append "  Local data path: " (st_RootDir (cf_Store cfg));
   String.append "  Selected mode: " selectedMode;
   String.append "  Pending reset: " (if pendingReset then "detected" else "none")]
  ++ (if pendingReset
      then [""; "A pending reset was detected. Available options:";
            "  Continue reset:  tlsrpt-digest --config <path> recover --mode discard-old --yes"]
      else []).

Section recover.
Context {Message : Type}.
Abbreviation cmd := (prog (cmd_call Message)).
(** Exit status, error, and the lines printed. *)
Abbreviation outcome := (Z * option goerr * lines)%type.

Definition runKeepOld (curr : Z) (out : lines) : cmd outcome :=
  let out := out ++
    [""; "Warning: existing reports and .eml files from the previous UIDVALIDITY epoch will be retained.";
     "These may appear in future summary results if they fall within the configured time window."] in
  let* err := call (ApplyRecovery curr) in
  match err with
  | Some err => Ret (exitError, Some (errorf "recover: apply recovery: " err), out)
  | None => Ret (exitOK, None, out ++ ["Recovery applied. Store is now consistent with current UIDVALIDITY."])
  end.

Definition runDiscardOld (curr : Z) (confirmed pendingReset : bool) (out : lines) : cmd outcome :=
  let out := out ++
    [""; "The following changes will be made:";
     "  - Report store will be replaced with an empty set.";
     "  - .eml store will be replaced with an empty state.";
     String.append "  - Sentinel uid_validity will be updated to current value: " (fmt_d curr);
     "  - Sentinel initialized_at and mailbox identity (host/port/mailbox) are preserved."] in
  if negb confirmed then
    Ret (exitError, None,
         out ++ (if pendingReset
                 then ["  (A previous incomplete reset will be resumed when re-run with --yes.)"] else [])
             ++ ["No changes made. Re-run with --yes to apply."])
  else
    let out := out ++ (if pendingReset then ["  (Continuing incomplete reset from a previous run.)"] else []) in
    let* err := call (ResetForRecovery curr) in
    match err with
    | Some err => Ret (exitError, Some (errorf "recover: reset for recovery: " err), out)
    | None => Ret (exitOK, None, out ++ ["Recovery completed. Store reset to empty state with current UIDVALIDITY."])
    end.

Definition executeMode (opts : cliOptions) (curr : Z) (pendingReset : bool) (out : lines) : cmd outcome :=
  if pendingReset && String.eqb (RecoverMode opts) recoverModeKeepOld then
    Ret (exitError, None,
         out ++ [""; "No changes made. Resolve the pending reset before applying keep-old recovery."])
  else if String.eqb (RecoverMode opts) recoverModeKeepOld then runKeepOld curr out
  else if String.eqb (RecoverMode opts) recoverModeDiscardOld
  then runDiscardOld curr (RecoverYes opts) pendingReset out
  else Ret (exitError, None, out).

Definition handleNoRecoveryRequired (opts : cliOptions) : cmd outcome :=
  let* pending := call HasPendingReset in
  match pending with
  | Err err => Ret (exitError, Some (errorf "recover: check pending reset: " err), [])
  | Ok pendingReset =>
      if negb pendingReset then
        Ret (exitError, None, ["No recovery required: store is in a consistent state."])
      else if String.eqb (RecoverMode opts) recoverModeDiscardOld && RecoverYes opts then
        let* err := call (ResetForRecovery 0) in
        match err with
        | Some err => Ret (exitError, Some (errorf "recover: finalize pending cleanup: " err), [])
        | None => Ret (exitOK, None, ["Recovery completed: previous reset cleanup finalized."])
        end
      else
        Ret (exitError, None,
          ["Previous reset committed: pending cleanup detected.";
           "The store is already in a consistent state; leftover files will be";
           "removed automatically on the next fetch or gc.";
           "Or finalize now: tlsrpt-digest --config <path> recover --mode discard-old --yes"])
  end.

(** [recoverRunner.Run] *)
Definition recover_Run (opts : cliOptions) (cfg : Config) : cmd outcome :=
  let* loaded := call LoadRecoveryRequired in
  match loaded with
  | Err err => Ret (exitError, Some (errorf "recover: load recovery-required: " err), [])
  | Ok (prev, curr, _, found) =>
      if negb found then handleNoRecoveryRequired opts
      else
        let* pending := call HasPendingReset in
        match pending with
        | Err err => Ret (exitError, Some (errorf "recover: check pending reset: " err), [])
        | Ok pendingReset =>
            executeMode opts curr pendingReset (printInfo cfg prev curr opts pendingReset)
        end
  end.
End recover.
