(* ===== verification/Reprocess.v ===== *)
(** * The reprocess subcommand (cmd/tlsrpt-digest/reprocess.go)

    All stored messages are parsed again and their reports saved. Failures to load single
    messages are told from failures of the whole enumeration by the shape of the error. *)
From S2P Require Import Prelude GoStr GoTime GoErr.
From S2P Require Tlsrpt.
From S2P Require Import NotifyTypes Duration Config Mailparse Prog.
From S2P Require Import Cmd Fetch.
From S2P Require StoreTypes Emails.

Open Scope prog_scope.

(** UID and UIDVALIDITY of an [*ErrLoadEmailFailed]. *)
Abbreviation load_failure := (Z * Z)%type.

Definition as_load_failure (e : goerr) : option load_failure :=
  errors_as (fun x => match x with ErrLoadEmailFailed _ uid uv _ => Some (uid, uv) | _ => None end) e.

(** [collectLoadEmailFailuresInto]: the children of an error with [Unwrap() []error], which
    [errors.Join] and an [fmt.Errorf] with two [%w] make; any other error is asked for an
    [*ErrLoadEmailFailed] itself. *)
Fixpoint collectLoadEmailFailuresInto (err : goerr) (failures : list load_failure)
  : list load_failure * bool :=
  let single :=
    match as_load_failure err with
    | Some f => (failures ++ [f], true)
    | None => (failures, false)
    end in
  match err with
  | JoinE [] => (failures, false)
  | JoinE children =>
      (fix go (children : list goerr) (failures : list load_failure) (allPerFile : bool) :=
         match children with
         | [] => (failures, allPerFile)
         | child :: children' =>
             let '(failures, per_file) := collectLoadEmailFailuresInto child failures in
             go children' failures (per_file && allPerFile)
         end) children failures true
  | Wrap2 _ e1 _ e2 =>
      let '(failures, per_file) := collectLoadEmailFailuresInto e1 failures in
      let allPerFile := per_file && true in
      let '(failures, per_file) := collectLoadEmailFailuresInto e2 failures in
      (failures, per_file && allPerFile)
  | _ => single
  end.

Definition collectLoadEmailFailures (err : option goerr) : list load_failure * bool :=
  match err with
  | None => ([], true)
  | Some err =>
      let '(failures, allPerFile) := collectLoadEmailFailuresInto err [] in
      (failures, allPerFile && (Z.of_nat (length failures) >? 0))
  end.

Section reprocess.
Context {body : Type} (mime : Mime body).
Variable json_unmarshal : string -> Tlsrpt.Report + string.
Variable gunzip : string -> Tlsrpt.gzip_stream.

Abbreviation cmd := (prog (cmd_call (entity body))).
Abbreviation email := (LoadedEmail (entity body)).
Abbreviation parse := (parseTLSRPTAttachment mime json_unmarshal gunzip).

Definition notifyReprocessSystemError (kind mailbox : string) : cmd (option goerr) :=
  notifySystemError "reprocess" kind mailbox.

Definition buildReprocessMetas (emails : list email) : list EmailMeta :=
  omap (fun e =>
    if IsZero (Emails.le_InternalDate e) then None
    else Some {| StoreTypes.UID := Emails.le_UID e; StoreTypes.UIDValidity := Emails.le_UIDValidity e;
                 StoreTypes.InternalDate := Emails.le_InternalDate e |}) emails.

(** The warning about a message, sent with [--notify] only. *)
Definition warn_parse (sendNotifications : bool) (uid uidValidity : Z) : cmd unit :=
  if sendNotifications then logWarn WarningKindParseFailure uid uidValidity "" else Ret tt.

(** The loop over the attachments of a message: the reports and the number of errors. *)
Fixpoint reprocess_attachments (atts : list Attachment) (e : email) (sendNotifications : bool)
  : cmd (list ReportInput * nat) :=
  match atts with
  | [] => Ret ([], 0%nat)
  | att :: atts' =>
      match parse att with
      | None => reprocess_attachments atts' e sendNotifications
      | Some (inr _) =>
          let* _ := warn_parse sendNotifications (Emails.le_UID e) (Emails.le_UIDValidity e) in
          let* (reports, errs) := reprocess_attachments atts' e sendNotifications in
          Ret (reports, S errs)
      | Some (inl report) =>
          let* _ := (if sendNotifications && Tlsrpt.HasFailure report then logAlerts report else Ret tt) in
          let* (reports, errs) := reprocess_attachments atts' e sendNotifications in
          Ret ({| StoreTypes.ri_Report := report; StoreTypes.ri_UID := Emails.le_UID e;
                  StoreTypes.ri_UIDValidity := Emails.le_UIDValidity e |} :: reports, errs)
      end
  end.

Fixpoint reprocessCollectReports (maxBytes : Z) (emails : list email) (sendNotifications : bool)
  : cmd (list ReportInput * nat) :=
  match emails with
  | [] => Ret ([], 0%nat)
  | e :: emails' =>
      match ExtractAttachments mime (Emails.le_Message e) maxBytes with
      | Err _ =>
          let* _ := warn_parse sendNotifications (Emails.le_UID e) (Emails.le_UIDValidity e) in
          let* (reports, errs) := reprocessCollectReports maxBytes emails' sendNotifications in
          Ret (reports, S errs)
      | Ok attachments =>
          let* (reports, errs) := reprocess_attachments attachments e sendNotifications in
          let* (reports', errs') := reprocessCollectReports maxBytes emails' sendNotifications in
          Ret (reports ++ reports', (errs + errs')%nat)
      end
  end.

(** The warnings about messages that could not be loaded. *)
Fixpoint warn_failures (failures : list load_failure) : cmd unit :=
  match failures with
  | [] => Ret tt
  | (uid, uidValidity) :: failures' =>
      let* _ := logWarn WarningKindParseFailure uid uidValidity "" in
      warn_failures failures'
  end.

(** Steps 3 to 6. *)
Definition reprocess_loaded (opts : cliOptions) (cfg : Config) (emails : list email)
  : cmd (Z * option goerr) :=
  let notifyEnabled := ReprocessNotify opts in
  let* err := call (SaveEmailMetas (buildReprocessMetas emails)) in
  match err with
  | Some err => Ret (exitError, Some (errorf "reprocess: save email metas: " err))
  | None =>
  let* (reports, _) := reprocessCollectReports (im_MaxMessageBytes (cf_IMAP cfg)) emails notifyEnabled in
  let* err := call (SaveReports reports) in
  match err with
  | Some err => Ret (exitError, Some (errorf "reprocess: save reports: " err))
  | None =>
  if notifyEnabled then
    let* err := call NFlush in
    match err with
    | Some err => Ret (exitError, Some (errorf "reprocess: flush: " err))
    | None => Ret (exitOK, None)
    end
  else Ret (exitOK, None)
  end end.

(** [reprocessRunner.Run] *)
Definition reprocess_Run (opts : cliOptions) (cfg : Config) : cmd (Z * option goerr) :=
  let mailbox := mailboxID cfg in
  let* loaded := call LoadRecoveryRequired in
  match loaded with
  | Err err =>
      let* _ := notifyReprocessSystemError SystemErrorKindStoreCorruption mailbox in
      Ret (exitError, Some (errorf "reprocess: load recovery-required: " err))
  | Ok (_, _, _, recoveryFound) =>
  if recoveryFound : bool then Ret (exitError, None)
  else
  let* (emails, loadErr) := call LoadEmails in
  match loadErr with
  | None => reprocess_loaded opts cfg emails
  | Some err =>
      let '(loadFailures, allPerFile) := collectLoadEmailFailures loadErr in
      if negb allPerFile then
        let* _ := notifyReprocessSystemError SystemErrorKindStoreCorruption mailbox in
        Ret (exitError, Some (errorf "reprocess: load emails: " err))
      else
        let* _ := (if ReprocessNotify opts then warn_failures loadFailures else Ret tt) in
        reprocess_loaded opts cfg emails
  end
  end.
End reprocess.
