(* ===== verification/SummaryCmd.v ===== *)
(** * The summary subcommand (cmd/tlsrpt-digest/summary.go)

    The aggregation of [Aggregate] over the reports of the store, and its delivery. The guard of
    the store is asked about a pending recovery first. *)
From S2P Require Import Prelude GoStr GoTime GoErr.
From S2P Require Tlsrpt.
From S2P Require Import NotifyTypes Duration Config Aggregate Prog Cmd.

Open Scope prog_scope.

(** [summarySince] *)
Definition summarySince (window : option Duration) (windowDays : Z) (now : Time) : Time :=
  match window with
  | Some d => Cutoff d now
  | None => Cutoff {| Days := windowDays |} now
  end.

Section summary.
Context {Message : Type}.
Abbreviation cmd := (prog (cmd_call Message)).
(** [ctx.Err()] at its checks. *)
Variable ctx_err : nat -> option goerr.

Definition logSummarySystemError (kind mailbox : string) : cmd (option goerr) :=
  notifySystemError "summary" kind mailbox.

(** [GenerateSummary] asks the store for the reports unless the context is done already. *)
Definition generate (start end_ : Time) : cmd (Summary * option goerr) :=
  match ctx_err 0%nat with
  | Some _ =>
      let '(summary, _, err) := GenerateSummary ctx_err (Ok []) start end_ in
      Ret (summary, err)
  | None =>
      let* reports := call GetAllReports in
      let '(summary, _, err) := GenerateSummary ctx_err reports start end_ in
      Ret (summary, err)
  end.

(** [summaryRunner.Run] *)
Definition summary_Run (opts : cliOptions) (cfg : Config) (now : Time) : cmd (Z * option goerr) :=
  let mailbox := mailboxID cfg in
  let* checked := call CheckRecoveryRequired in
  match checked with
  | Err err => Ret (exitError, Some (errorf "summary: check recovery required (pre-aggregation): " err))
  | Ok found =>
  if found : bool then
    let* buildErr := call BuildNotifier in
    match buildErr with
    | Some buildErr => Ret (exitError, Some (errorf "summary: build notifier: " buildErr))
    | None =>
        let* _ := logSummarySystemError SystemErrorKindRecoveryRequired mailbox in
        Ret (exitError, None)
    end
  else
  let start := summarySince (Window opts) (cf_WindowDays cfg) now in
  let end_ := UTCDayStart now in
  let* (summary, err) := generate start end_ in
  match err with
  | Some err => Ret (exitError, Some (errorf "summary: generate: " err))
  | None =>
  if su_ReportCount summary =? 0 then Ret (exitOK, None)
  else
  let* err := call BuildNotifier in
  match err with
  | Some err => Ret (exitError, Some (errorf "summary: build notifier: " err))
  | None =>
      let* _ := call (NLogSummary summary) in
      let* _ := call NFlush in
      Ret (exitOK, None)
  end end end.
End summary.
