(* ===== verification/Cli.v ===== *)
(** * The command line (cmd/tlsrpt-digest/main.go) and the [flag] package it uses

    Parsing and validation of the arguments. The texts printed on standard error are left out;
    errors of the [flag] package keep their message. *)
From S2P Require Import Prelude GoStr GoTime GoErr.
From S2P Require Import NotifyTypes Duration Config Prog Cmd RecoverCmd.
From S2P Require Import StoreTypes.

(** ** [flag.FlagSet] *)

(** A defined flag: whether it is boolean, and [Value.Set] on the state that holds the targets. *)
Record flag_def (S : Type) := {
  fl_name : string;
  fl_bool : bool;
  fl_set : S -> string -> S * option goerr
}.
Arguments fl_name {S} _.
Arguments fl_bool {S} _.
Arguments fl_set {S} _ _ _.

(** The part of a flag name before the first [=], and the value after it. *)
Fixpoint cut_eq (s : string) : string * option string :=
  match s with
  | EmptyString => ("", None)
  | String c s' =>
      if Ascii.eqb c "=" then ("", Some s')
      else let '(n, v) := cut_eq s' in (String c n, v)
  end.

(** What an argument is to [parseOne]. *)
Inductive arg_kind : Type :=
  | NotFlag                                   (* parsing stops before it *)
  | Terminator                                (* [--]: parsing stops after it *)
  | BadFlag                                   (* bad flag syntax *)
  | FlagArg (name : string) (val : option string).

Definition classify_arg (s : string) : arg_kind :=
  match s with
  | String "-" EmptyString => NotFlag
  | String "-" (String "-" EmptyString) => Terminator
  | String "-" rest =>
      let name := match rest with String "-" rest' => rest' | _ => rest end in
      match name with
      | EmptyString => BadFlag
      | String c _ =>
          if Ascii.eqb c "-" || Ascii.eqb c "=" then BadFlag
          else let '(n, v) := cut_eq name in FlagArg n v
      end
  | _ => NotFlag
  end.

Definition find_flag {S} (flags : list (flag_def S)) (name : string) : option (flag_def S) :=
  List.find (fun f => String.eqb (fl_name f) name) flags.

(** [strconv.ParseBool] *)
Definition ParseBool (s : string) : option bool :=
  if existsb (String.eqb s) ["1"; "t"; "T"; "TRUE"; "true"; "True"] then Some true
  else if existsb (String.eqb s) ["0"; "f"; "F"; "FALSE"; "false"; "False"] then Some false
  else None.

Definition invalid_value {S} (f : flag_def S) (v : string) (e : goerr) : goerr :=
  if fl_bool f
  then Text (Join "" ["invalid boolean value "; fmt_q v; " for -"; fl_name f; ": "; Error e])
  else Text (Join "" ["invalid value "; fmt_q v; " for flag -"; fl_name f; ": "; Error e]).

(** [FlagSet.Parse]: the targets and [FlagSet.Args()], or the first error. *)
Fixpoint Parse {S} (flags : list (flag_def S)) (st : S) (args : list string) : result (S * list string) :=
  match args with
  | [] => Ok (st, [])
  | s :: args' =>
      match classify_arg s with
      | NotFlag => Ok (st, args)
      | Terminator => Ok (st, args')
      | BadFlag => Err (Text (String.append "bad flag syntax: " s))
      | FlagArg name v =>
          match find_flag flags name with
          | None =>
              if String.eqb name "help" || String.eqb name "h" then Err (Sentinel ErrHelp)
              else Err (Text (String.append "flag provided but not defined: -" name))
          | Some f =>
              let set (v : string) (rest : list string) (k : S -> result (S * list string)) :=
                match fl_set f st v with
                | (_, Some e) => Err (invalid_value f v e)
                | (st', None) => k st'
                end in
              match v, fl_bool f, args' with
              | Some v, _, _ => set v args' (fun st' => Parse flags st' args')
              | None, true, _ => set "true" args' (fun st' => Parse flags st' args')
              | None, false, v :: rest => set v rest (fun st' => Parse flags st' rest)
              | None, false, [] => Err (Text (String.append "flag needs an argument: -" name))
              end
          end
      end
  end.

Definition string_flag {S} (name : string) (put : S -> string -> S) : flag_def S :=
  {| fl_name := name; fl_bool := false; fl_set := fun st v => (put st v, None) |}.

Definition bool_flag {S} (name : string) (put : S -> bool -> S) : flag_def S :=
  {| fl_name := name; fl_bool := true;
     fl_set := fun st v => match ParseBool v with
                           | Some b => (put st b, None)
                           | None => (st, Some (Text "parse error"))
                           end |}.

Definition duration_flag {S} (name : string) (get : S -> option Duration) (put : S -> option Duration -> S)
  : flag_def S :=
  {| fl_name := name; fl_bool := false;
     fl_set := fun st v => let '(d, err) := durationFlag_Set (get st) v in (put st d, err) |}.

(** ** Subcommands and their options *)

Definition subcommandFetch : string := "fetch".
Definition subcommandSummary : string := "summary".
Definition subcommandReprocess : string := "reprocess".
Definition subcommandGC : string := "gc".
Definition subcommandRecover : string := "recover".
Definition subcommandHelp : string := "help".

(** The keys of [commandRunners]. *)
Definition runner_names : list string :=
  [subcommandFetch; subcommandSummary; subcommandReprocess; subcommandGC; subcommandRecover].

Definition empty_options (configPath : string) : cliOptions :=
  {| ConfigPath := configPath; DryRun := false; Since := None; Window := None; Before := None;
     MaxEmailAge := None; RecoverMode := ""; RecoverYes := false; ReprocessNotify := false |}.

Section put.
Variable o : cliOptions.
Definition put_DryRun (b : bool) : cliOptions :=
  {| ConfigPath := ConfigPath o; DryRun := b; Since := Since o; Window := Window o; Before := Before o;
     MaxEmailAge := MaxEmailAge o; RecoverMode := RecoverMode o; RecoverYes := RecoverYes o;
     ReprocessNotify := ReprocessNotify o |}.
Definition put_Since (d : option Duration) : cliOptions :=
  {| ConfigPath := ConfigPath o; DryRun := DryRun o; Since := d; Window := Window o; Before := Before o;
     MaxEmailAge := MaxEmailAge o; RecoverMode := RecoverMode o; RecoverYes := RecoverYes o;
     ReprocessNotify := ReprocessNotify o |}.
Definition put_Window (d : option Duration) : cliOptions :=
  {| ConfigPath := ConfigPath o; DryRun := DryRun o; Since := Since o; Window := d; Before := Before o;
     MaxEmailAge := MaxEmailAge o; RecoverMode := RecoverMode o; RecoverYes := RecoverYes o;
     ReprocessNotify := ReprocessNotify o |}.
Definition put_Before (d : option Duration) : cliOptions :=
  {| ConfigPath := ConfigPath o; DryRun := DryRun o; Since := Since o; Window := Window o; Before := d;
     MaxEmailAge := MaxEmailAge o; RecoverMode := RecoverMode o; RecoverYes := RecoverYes o;
     ReprocessNotify := ReprocessNotify o |}.
Definition put_MaxEmailAge (d : option Duration) : cliOptions :=
  {| ConfigPath := ConfigPath o; DryRun := DryRun o; Since := Since o; Window := Window o; Before := Before o;
     MaxEmailAge := d; RecoverMode := RecoverMode o; RecoverYes := RecoverYes o;
     ReprocessNotify := ReprocessNotify o |}.
Definition put_RecoverMode (m : string) : cliOptions :=
  {| ConfigPath := ConfigPath o; DryRun := DryRun o; Since := Since o; Window := Window o; Before := Before o;
     MaxEmailAge := MaxEmailAge o; RecoverMode := m; RecoverYes := RecoverYes o;
     ReprocessNotify := ReprocessNotify o |}.
Definition put_RecoverYes (b : bool) : cliOptions :=
  {| ConfigPath := ConfigPath o; DryRun := DryRun o; Since := Since o; Window := Window o; Before := Before o;
     MaxEmailAge := MaxEmailAge o; RecoverMode := RecoverMode o; RecoverYes := b;
     ReprocessNotify := ReprocessNotify o |}.
Definition put_ReprocessNotify (b : bool) : cliOptions :=
  {| ConfigPath := ConfigPath o; DryRun := DryRun o; Since := Since o; Window := Window o; Before := Before o;
     MaxEmailAge := MaxEmailAge o; RecoverMode := RecoverMode o; RecoverYes := RecoverYes o;
     ReprocessNotify := b |}.
End put.

(** [registerFlags] *)
Definition registerFlags (subcmd : string) : list (flag_def cliOptions) :=
  if String.eqb subcmd subcommandFetch then [duration_flag "since" Since put_Since]
  else if String.eqb subcmd subcommandSummary then [duration_flag "window" Window put_Window]
  else if String.eqb subcmd subcommandGC then
    [duration_flag "before" Before put_Before; duration_flag "max-email-age" MaxEmailAge put_MaxEmailAge]
  else if String.eqb subcmd subcommandRecover then
    [string_flag "mode" put_RecoverMode; bool_flag "yes" put_RecoverYes]
  else if String.eqb subcmd subcommandReprocess then [bool_flag "notify" put_ReprocessNotify]
  else [].

(** The flags of a subcommand: the common ones first. *)
Definition subcommand_flags (subcmd : string) : list (flag_def cliOptions) :=
  [bool_flag "dry-run" put_DryRun; bool_flag "n" put_DryRun] ++ registerFlags subcmd.

Definition validateFlags (subcmd : string) (opts : cliOptions) : option goerr :=
  if String.eqb (ConfigPath opts) "" then Some (Sentinel errConfigRequired)
  else if DryRun opts && negb (String.eqb subcmd subcommandFetch) && negb (String.eqb subcmd subcommandSummary)
          && negb (String.eqb subcmd subcommandGC)
  then Some (Sentinel errDryRunNotSupported)
  else if negb (String.eqb subcmd subcommandRecover) then None
  else if negb (String.eqb (RecoverMode opts) "") && negb (String.eqb (RecoverMode opts) recoverModeKeepOld)
          && negb (String.eqb (RecoverMode opts) recoverModeDiscardOld)
  then Some (Wrap "" (Sentinel errInvalidRecoverMode) (String.append ": " (RecoverMode opts)))
  else if RecoverYes opts && String.eqb (RecoverMode opts) "" then Some (Sentinel errYesRequiresMode)
  else None.

Record cliInvocation := { Subcommand : string; Options : cliOptions }.

(** The global flags: both set the path of the configuration. *)
Definition global_flags : list (flag_def string) :=
  [string_flag "config" (fun _ v => v); string_flag "c" (fun _ v => v)].

Definition parseCLI (args : list string) : result cliInvocation :=
  match Parse global_flags "" args with
  | Err err => Err err
  | Ok (_, []) => Err (Sentinel ErrHelp)
  | Ok (configPath, subcmd :: rest) =>
      if String.eqb subcmd subcommandHelp then Err (Sentinel ErrHelp)
      else if negb (existsb (String.eqb subcmd) runner_names) then Err (Sentinel ErrHelp)
      else
        match Parse (subcommand_flags subcmd) (empty_options configPath) rest with
        | Err err => Err err
        | Ok (_, _ :: _) => Err (Sentinel errUnexpectedArguments)
        | Ok (opts, []) =>
            match validateFlags subcmd opts with
            | Some err => Err err
            | None => Ok {| Subcommand := subcmd; Options := opts |}
            end
        end
  end.

(** [recoverStoreOpenMode] *)
Definition recoverStoreOpenMode (opts : cliOptions) : OpenMode :=
  if String.eqb (RecoverMode opts) recoverModeDiscardOld && RecoverYes opts then OpenRecoverReset
  else OpenReadWrite.
