(* ===== verification/Boot.v ===== *)
(** * Starting a subcommand (cmd/tlsrpt-digest/boot.go)

    [Bootstrap] with its production dependencies: configuration, checks of the root directory,
    notifier, writer lock, store. The state it builds is the [BootContext]; what it obtains is
    given back by [Close], which [Bootstrap] calls itself when it fails. *)
From S2P Require Import Prelude GoStr GoTime GoErr.
From S2P Require Import NotifyTypes Config Prog Lock StoreTypes.
From S2P Require Handler.
From S2P Require Import Cmd Cli.

Open Scope prog_scope.

(** What [Bootstrap] calls. The opened store and the locks are known by the answers. *)
Inductive boot_call : Type -> Type :=
  | Getenv (name : string) : boot_call string
  | RootDir {X} (c : dir_call X) : boot_call X
  | OpenStore (rootDir : path) (identity : IMAPIdentity) (mode : OpenMode) : boot_call (result unit)
  | AcquireGuard : boot_call (result unit)
  | CloseGuard : boot_call (option goerr)
  | AcquireLock (lockPath : path) : boot_call (result unit)
  | ReleaseLock : boot_call (option goerr)
  | BootLogSystemError (e : SystemError) : boot_call (option goerr)
  | BootFlush : boot_call (option goerr).

(** [boot.Notifier]: absent in a summary, [nopNotifier] in a recovery. *)
Inductive boot_notifier : Type :=
  | NoNotifier
  | NopNotifier
  | SlackNotifier (sink : Handler.notificationSink).

Record BootContext := {
  b_Config : Config;
  b_Store : bool;          (** a store was opened *)
  b_Notifier : boot_notifier;
  b_LockHandle : bool;
  b_SummaryGuard : bool;
  b_Subcommand : string;
  b_RunID : string;
  b_SuccessURL : string;
  b_ErrorURL : string
}.

(** [BootContext.Close] *)
Definition CloseBoot (b : BootContext) : prog boot_call (BootContext * option goerr) :=
  let* e1 := (if b_SummaryGuard b then call CloseGuard else Ret None) in
  let* e2 := (if b_LockHandle b then call ReleaseLock else Ret None) in
  Ret ({| b_Config := b_Config b; b_Store := b_Store b; b_Notifier := b_Notifier b;
          b_LockHandle := false; b_SummaryGuard := false; b_Subcommand := b_Subcommand b;
          b_RunID := b_RunID b; b_SuccessURL := b_SuccessURL b; b_ErrorURL := b_ErrorURL b |},
       join_errs [e1; e2]).

(** [notifySystemError] of boot.go *)
Definition boot_notifySystemError (n : boot_notifier) (kind : string) (cfg : Config)
  : prog boot_call (option goerr) :=
  match n with
  | NoNotifier | NopNotifier => Ret None
  | SlackNotifier _ =>
      let* e1 := call (BootLogSystemError (MkSystemError kind "boot" (mailboxID cfg))) in
      let* e2 := call BootFlush in
      Ret (join_errs [e1; e2])
  end.

Definition storeOpenMode (dryRun : bool) : OpenMode := if dryRun then OpenReadOnly else OpenReadWrite.

Definition is_identity_mismatch (e : goerr) : bool :=
  match errors_as (fun x => match x with ErrStoreIdentityMismatch r ex ac => Some (r, ex, ac) | _ => None end) e with
  | Some _ => true
  | None => false
  end.

Definition classifyOpenError (err : goerr) : string :=
  if is_sentinel ErrPendingReset err then SystemErrorKindResetIncomplete
  else if is_identity_mismatch err then SystemErrorKindStoreIdentityMismatch
  else if is_permission err then SystemErrorKindStorePermission
  else SystemErrorKindStoreCorruption.

Definition storeIdentity (cfg : Config) : IMAPIdentity :=
  {| Host := im_Host (cf_IMAP cfg); Port := im_Port (cf_IMAP cfg); Mailbox := im_Mailbox (cf_IMAP cfg) |}.

(** The components of a cleaned path. *)
Fixpoint path_parts (s cur : string) : path :=
  match s with
  | EmptyString => if String.eqb cur "" then [] else [cur]
  | String c s' =>
      if Ascii.eqb c "/" then (if String.eqb cur "" then [] else [cur]) ++ path_parts s' ""
      else path_parts s' (String.append cur (String c ""))
  end.

Definition path_of (s : string) : path := path_parts s "".

Definition root_of (cfg : Config) : path := path_of (st_RootDir (cf_Store cfg)).

Definition with_lock (b : BootContext) : BootContext :=
  {| b_Config := b_Config b; b_Store := b_Store b; b_Notifier := b_Notifier b; b_LockHandle := true;
     b_SummaryGuard := b_SummaryGuard b; b_Subcommand := b_Subcommand b; b_RunID := b_RunID b;
     b_SuccessURL := b_SuccessURL b; b_ErrorURL := b_ErrorURL b |}.

(** [bootstrapAcquireWriterLock] *)
Definition bootstrapAcquireWriterLock (b : BootContext) : prog boot_call (result BootContext) :=
  let* lh := call (AcquireLock (LockPath (root_of (b_Config b)))) in
  match lh with
  | Err err =>
      let kind := if is_sentinel ErrLockHeld err then SystemErrorKindLockHeld
                  else SystemErrorKindStorePermission in
      let* _ := boot_notifySystemError (b_Notifier b) kind (b_Config b) in
      Ret (Err (errorf "acquire store writer lock: " err))
  | Ok _ => Ret (Ok (with_lock b))
  end.

(** Failing after the context was made: [Close], and the error. *)
Definition boot_fail (b : BootContext) (err : goerr) : prog boot_call (result BootContext) :=
  let* _ := CloseBoot b in
  Ret (Err err).

Section bootstrap.
(** What [config.LoadFile] and the validation of webhooks use of the libraries. *)
Variable ReadConfig : string -> result string.
Variable AppendCertsFromPEM : string -> bool.
Variable Abs : string -> result string.
Variable Decode : string -> result rawConfig.
Variable url_Parse : string -> option Handler.url.
Variable ToLower : string -> string.

Definition new_boot (cfg : Config) (subcmd runID su er : string) : BootContext :=
  {| b_Config := cfg; b_Store := false; b_Notifier := NoNotifier; b_LockHandle := false;
     b_SummaryGuard := false; b_Subcommand := subcmd; b_RunID := runID; b_SuccessURL := su;
     b_ErrorURL := er |}.

Definition with_store (b : BootContext) (guard : bool) : BootContext :=
  {| b_Config := b_Config b; b_Store := true; b_Notifier := b_Notifier b; b_LockHandle := b_LockHandle b;
     b_SummaryGuard := guard; b_Subcommand := b_Subcommand b; b_RunID := b_RunID b;
     b_SuccessURL := b_SuccessURL b; b_ErrorURL := b_ErrorURL b |}.

Definition with_notifier (b : BootContext) (n : boot_notifier) : BootContext :=
  {| b_Config := b_Config b; b_Store := b_Store b; b_Notifier := n; b_LockHandle := b_LockHandle b;
     b_SummaryGuard := b_SummaryGuard b; b_Subcommand := b_Subcommand b; b_RunID := b_RunID b;
     b_SuccessURL := b_SuccessURL b; b_ErrorURL := b_ErrorURL b |}.

(** The branch of the summary: a read-only store and its guard, no lock and no notifier. *)
Definition bootstrap_summary (b : BootContext) : prog boot_call (result BootContext) :=
  let cfg := b_Config b in
  let* opened := call (OpenStore (root_of cfg) (storeIdentity cfg) OpenReadOnly) in
  match opened with
  | Err err => boot_fail b (errorf "open summary store: " err)
  | Ok _ =>
      let* guard := call AcquireGuard in
      match guard with
      | Err err => boot_fail (with_store b false) (errorf "acquire summary consistency guard: " err)
      | Ok _ => Ret (Ok (with_store b true))
      end
  end.

(** [opts.BuildNotifier], or the [nopNotifier] of a recovery. *)
Definition bootstrap_notifier (b : BootContext) (dryRun : bool) : result boot_notifier :=
  if String.eqb (b_Subcommand b) subcommandRecover then Ok NopNotifier
  else match Handler.setupNotifyHandlers url_Parse ToLower (b_SuccessURL b) (b_ErrorURL b)
                 (cf_AllowedHost (b_Config b)) (b_RunID b) dryRun with
       | Err err => Err (errorf "build notifier: " err)
       | Ok sink => Ok (SlackNotifier sink)
       end.

(** The opening of the store at the end. *)
Definition bootstrap_open (b : BootContext) (dryRun : bool) (override : option OpenMode)
  : prog boot_call (result BootContext) :=
  let cfg := b_Config b in
  let mode := match override with Some m => m | None => storeOpenMode dryRun end in
  let* opened := call (OpenStore (root_of cfg) (storeIdentity cfg) mode) in
  match opened with
  | Err err =>
      let* _ := boot_notifySystemError (b_Notifier b) (classifyOpenError err) cfg in
      boot_fail b
        (if is_sentinel ErrPendingReset err
         then errorf "store reset is incomplete; run tlsrpt-digest --config <path> recover --mode discard-old --yes to continue: " err
         else errorf "open store: " err)
  | Ok _ => Ret (Ok (with_store b (b_SummaryGuard b)))
  end.

Definition Bootstrap (subcmd configPath runID : string) (dryRun : bool) (override : option OpenMode)
  : prog boot_call (result BootContext) :=
  (* [withDefaults] *)
  let* su := call (Getenv Handler.EnvSlackWebhookURLSuccess) in
  let* er := call (Getenv Handler.EnvSlackWebhookURLError) in
  match (LoadFile ReadConfig AppendCertsFromPEM Abs Decode configPath).1 with
  | Err err => Ret (Err (errorf "load configuration: " err))
  | Ok cfg =>
  let boot := new_boot cfg subcmd runID su er in
  if String.eqb subcmd subcommandSummary then bootstrap_summary boot
  else
  let* prepared :=
    (if negb dryRun then lift (@RootDir) (validateAndEnsureRootDir (root_of cfg)) else Ret None) in
  match prepared with
  | Some err => boot_fail boot (errorf "prepare store root: " err)
  | None =>
  match bootstrap_notifier boot dryRun with
  | Err err => boot_fail boot err
  | Ok notifier =>
  let boot := with_notifier boot notifier in
  let* locked := (if negb dryRun then bootstrapAcquireWriterLock boot else Ret (Ok boot)) in
  match locked with
  | Err err => boot_fail boot err
  | Ok boot => bootstrap_open boot dryRun override
  end end end end.
End bootstrap.
