(* ===== verification/Main.v ===== *)
(** * The program (cmd/tlsrpt-digest/main.go)

    [runCLI]: parsing, bootstrap, the subcommand, and the exit status. Its calls are those of the
    bootstrap and those of the subcommand. *)
From S2P Require Import Prelude GoStr GoTime GoErr.
From S2P Require Tlsrpt.
From S2P Require Import NotifyTypes Duration Config Mailparse Prog StoreTypes.
From S2P Require Handler.
From S2P Require Import Cmd Fetch Gc RecoverCmd Reprocess SummaryCmd Cli Boot.

Open Scope prog_scope.

(** The calls of the program. *)
Inductive cli_call (Message : Type) : Type -> Type :=
  | BootCall {X} (c : boot_call X) : cli_call Message X
  | CmdCall {X} (c : cmd_call Message X) : cli_call Message X.
Arguments BootCall {Message X} _.
Arguments CmdCall {Message X} _.

Section main.
Context {body : Type} (mime : Mime body).
Variable ReadMessage : string -> result (entity body).
Variable json_unmarshal : string -> Tlsrpt.Report + string.
Variable gunzip : string -> Tlsrpt.gzip_stream.
Variable ReadConfig : string -> result string.
Variable AppendCertsFromPEM : string -> bool.
Variable Abs : string -> result string.
Variable Decode : string -> result rawConfig.
Variable url_Parse : string -> option Handler.url.
(** [ctx.Err()] in the aggregation of a summary. *)
Variable ctx_err : nat -> option goerr.
(** [ulid.Make()] and [time.Now()]. *)
Variable runID : string.
Variable now : Time.

Abbreviation cli := (prog (cli_call (entity body))).

(** The runner of a subcommand, by the keys of [commandRunners]. *)
Definition run_subcommand (subcmd : string) (opts : cliOptions) (b : BootContext)
  : prog (cmd_call (entity body)) (Z * option goerr) :=
  let cfg := b_Config b in
  if String.eqb subcmd subcommandFetch then
    fetch_Run mime ReadMessage json_unmarshal gunzip opts cfg (root_of cfg) now
  else if String.eqb subcmd subcommandSummary then summary_Run ctx_err opts cfg now
  else if String.eqb subcmd subcommandReprocess then reprocess_Run mime json_unmarshal gunzip opts cfg
  else if String.eqb subcmd subcommandGC then gc_Run opts cfg now
  else
    let* (code, err, _) := recover_Run opts cfg in
    Ret (code, err).

(** The status for what [Run] returned. *)
Definition exit_code (r : Z * option goerr) : Z :=
  let '(exitCode, err) := r in
  match err with
  | Some _ => if exitCode =? exitOK then exitError else exitCode
  | None => exitCode
  end.

(** [runCLI] after the arguments were parsed. *)
Definition run_invocation (inv : cliInvocation) : cli Z :=
  let opts := Options inv in
  let override := if String.eqb (Subcommand inv) subcommandRecover
                  then Some (recoverStoreOpenMode opts) else None in
  let* booted := lift (@BootCall (entity body))
    (Bootstrap ReadConfig AppendCertsFromPEM Abs Decode url_Parse (ToLower mime)
       (Subcommand inv) (ConfigPath opts) runID (DryRun opts) override) in
  match booted with
  | Err _ => Ret exitError
  | Ok boot =>
      let* out := lift (@CmdCall (entity body)) (run_subcommand (Subcommand inv) opts boot) in
      let* _ := lift (@BootCall (entity body)) (CloseBoot boot) in
      Ret (exit_code out)
  end.

(** [runCLI] *)
Definition runCLI (args : list string) : cli Z :=
  match parseCLI args with
  | Err err => Ret (if is_sentinel errYesRequiresMode err then exitError else exitUsage)
  | Ok inv => run_invocation inv
  end.
End main.
