(* ===== verification/CmdSpec.v ===== *)
(** * Reasoning about subcommands

    What a history of calls contains (alerts, stored messages, changes), and rules for the helpers
    the subcommands share. *)
From S2P Require Import Prelude GoStr GoTime GoErr.
From S2P Require Tlsrpt.
From S2P Require Import NotifyTypes Config Prog Cmd.

(** ** Histories *)

(** A program that makes only some calls adds only these to a history. *)
Lemma wp_only {C A} (P : forall X, C X -> bool) (p : prog C A) h (Q : A -> list (event C) -> Prop) :
  only P p ->
  (forall a t, Forall (fun e => ev_is P e = true) t -> Q a (h ++ t)) -> wp p h Q.
Proof. intros Ho HQ. apply wp_of_runs. intros t a Hr. apply HQ. by eapply only_runs. Qed.

Lemma wp_and {C A} (p : prog C A) h (Q R : A -> list (event C) -> Prop) :
  wp p h Q -> wp p h R -> wp p h (fun a t => Q a t /\ R a t).
Proof. revert h. induction p as [a|X c k IH]; intros h; simpl; [done|]. intros HQ HR x. by apply IH. Qed.

(** A history that starts with [h]. *)
Definition extends {C} (h h' : list (event C)) : Prop := exists t, h' = h ++ t.

#[export] Instance extends_refl {C} : Reflexive (@extends C).
Proof. intros h. exists []. by rewrite app_nil_r. Qed.
#[export] Instance extends_trans {C} : Transitive (@extends C).
Proof. intros h1 h2 h3 [t1 ->] [t2 ->]. exists (t1 ++ t2). by rewrite app_assoc. Qed.

Lemma extends_app {C} (h t : list (event C)) : extends h (h ++ t).
Proof. by exists t. Qed.

Lemma extends_snoc {C} (h h' : list (event C)) e : extends h h' -> extends h (h' ++ [e]).
Proof. intros H. etransitivity; [exact H|apply extends_app]. Qed.

Lemma extends_In {C} (h h' : list (event C)) e : extends h h' -> In e h -> In e h'.
Proof. intros [t ->] Hi. apply in_app_iff. by left. Qed.

Lemma wp_extends_all {C A} (p : prog C A) h : wp p h (fun _ h' => extends h h').
Proof. apply wp_of_runs. intros. apply extends_app. Qed.

(** Every call that is not among the mutating ones. *)
Lemma only_weaken {C A} (P Q : forall X, C X -> bool) (p : prog C A) :
  (forall X (c : C X), P X c = true -> Q X c = true) -> only P p -> only Q p.
Proof.
  intros H. induction p as [a|X c k IH]; simpl; [done|]. intros [Hc Hk]. split; [by apply H|].
  intros x. by apply IH.
Qed.

Section spec.
Context {Message : Type}.
Abbreviation cmd := (prog (cmd_call Message)).
Abbreviation history := (list (event (cmd_call Message))).

(** The alerts given to the notifier. *)
Definition alert_of (e : event (cmd_call Message)) : option Alert :=
  match e with Ev c _ => match c with NLogAlert a => Some a | _ => None end end.

Definition alerts (h : history) : list Alert := omap alert_of h.

Lemma alerts_app h t : alerts (h ++ t) = alerts h ++ alerts t.
Proof. apply omap_app. Qed.

(** The changes made to the store and to the mailbox. *)
Definition changes (h : history) : history := List.filter (ev_is mutating) h.

Lemma changes_app h t : changes (h ++ t) = changes h ++ changes t.
Proof. apply List.filter_app. Qed.

Lemma changes_harmless h : Forall (fun e => ev_is harmless e = true) h -> changes h = [].
Proof.
  intros H. unfold changes. induction H as [|[X c x] h He H IH]; [done|]. simpl in *.
  unfold harmless in He. by destruct (mutating X c).
Qed.

(** Calls that change nothing and download nothing. *)
Definition dry_call (X : Type) (c : cmd_call Message X) : bool :=
  harmless X c && match c with Download _ => false | _ => true end.

Lemma dry_call_harmless X (c : cmd_call Message X) : dry_call X c = true -> harmless X c = true.
Proof. unfold dry_call. by intros [H _]%andb_true_iff. Qed.

(** The answer of the first step of most runs. *)
Definition recovery_answer (e : event (cmd_call Message)) : option (result (Z * Z * Time * bool)) :=
  match e with
  | Ev c x =>
      match c in cmd_call _ X return X -> option (result (Z * Z * Time * bool)) with
      | LoadRecoveryRequired => Some
      | _ => fun _ => None
      end x
  end.

Lemma runs_recovery {A} (k : result (Z * Z * Time * bool) -> cmd A) t loaded r :
  runs (Call LoadRecoveryRequired k) (Ev LoadRecoveryRequired loaded :: t) r -> runs (k loaded) t r.
Proof.
  intros H. apply runs_call_inv in H as (x & t' & E & H).
  pose proof (f_equal (fun l => head l ≫= recovery_answer) E) as E1. simpl in E1.
  apply (f_equal tail) in E. simpl in E. injection E1 as ->. by subst t'.
Qed.

(** ** Helpers *)

Definition is_notification (X : Type) (c : cmd_call Message X) : bool :=
  match c with
  | NLogAlert _ | NLogWarning _ | NLogSystemError _ | NLogSummary _ | NFlush => true
  | _ => false
  end.

Lemma only_log_policies (P : forall X, cmd_call Message X -> bool) report ps :
  (forall a, P _ (NLogAlert a) = true) -> only P (log_policies (Message := Message) report ps).
Proof.
  intros H. induction ps as [|p ps IH]; simpl; [done|]. case_match; [done|]. split; [apply H|]. done.
Qed.

Lemma only_logWarn (P : forall X, cmd_call Message X -> bool) kind uid uv mid :
  (forall w, P _ (NLogWarning w) = true) -> only P (logWarn (Message := Message) kind uid uv mid).
Proof. intros H. by split. Qed.

Lemma only_notifySystemError (P : forall X, cmd_call Message X -> bool) component kind mailbox :
  (forall e, P _ (NLogSystemError e) = true) -> P _ NFlush = true ->
  only P (notifySystemError (Message := Message) component kind mailbox).
Proof. intros H1 H2. repeat split; auto. Qed.

Definition failing_policies (ps : list Tlsrpt.PolicyRecord) : list Tlsrpt.PolicyRecord :=
  List.filter (fun p => Tlsrpt.TotalFailureSessionCount (Tlsrpt.SummaryOf p) >? 0) ps.

(** The alerts for a report: one for each policy with failed sessions. *)
Definition report_alerts (report : Tlsrpt.Report) : list Alert :=
  map (policy_alert report) (failing_policies (Tlsrpt.policies report)).

Lemma wp_log_policies report ps (h : history) (Q : unit -> history -> Prop) :
  (forall t, alerts t = map (policy_alert report) (failing_policies ps) ->
             length t = length (failing_policies ps) -> Q tt (h ++ t)) ->
  wp (log_policies report ps) h Q.
Proof.
  revert h Q. induction ps as [|p ps IH]; intros h Q HQ; simpl.
  - specialize (HQ [] eq_refl eq_refl). by rewrite app_nil_r in HQ.
  - simpl in HQ. rewrite Z.gtb_ltb in HQ.
    destruct (Z.leb_spec (Tlsrpt.TotalFailureSessionCount (Tlsrpt.SummaryOf p)) 0) as [Hle|Hgt].
    + apply IH. intros t Ht Hl. by apply HQ; rewrite (proj2 (Z.ltb_ge _ _)).
    + intros x. apply IH. intros t Ht Hl. rewrite <- app_assoc.
      apply HQ; rewrite (proj2 (Z.ltb_lt _ _)) by lia; simpl; [by rewrite Ht|by rewrite Hl].
Qed.
End spec.

(** An environment in which every operation succeeds, for the examples. *)
Definition obliging {Message} (recovery : bool) (storedUID : Z) (fr : FetchMetaResult) (raws : gmap Z string)
    (local : result stat_info) : forall X, cmd_call Message X -> X :=
  fun X c =>
  match c in cmd_call _ X return X with
  | NLogAlert _ | NLogWarning _ | NLogSystemError _ | NLogSummary _ | NFlush | BuildNotifier => None
  | LoadRecoveryRequired => Ok (storedUID, Imap.fm_UIDValidity fr, 0, recovery)
  | LoadUIDValidity => Ok (storedUID, true)
  | SaveRecoveryRequired _ _ _ | SaveUIDValidity _ | SaveEmail _ _ _ _ | SaveEmailMetas _ | SaveReports _ => None
  | LoadEmails => ([], None)
  | GetAllReports => Ok []
  | DeleteReportsBefore _ | DeleteEmailsBefore _ | CountReportsBefore _ | CountEmailsBefore _ => Ok 0
  | HasPendingReset => Ok false
  | ApplyRecovery _ | ResetForRecovery _ => None
  | CheckRecoveryRequired => Ok recovery
  | NewMailFetcher _ => None
  | FetchMeta _ => Ok fr
  | Download _ => Ok raws
  | MarkSeen _ => None
  | DeleteOlderThan _ => Ok 0
  | SearchOlderThan _ => Ok []
  | CloseFetcher => None
  | Credentials => ("user", "pass")
  | Stat _ => local
  | ReadFile _ => Ok ""
  end.

Ltac only_cmd :=
  repeat match goal with
  | |- only _ (bind _ _) => apply only_bind
  | |- only _ (Call _ _) => split
  | |- only _ (call _) => apply only_call
  | |- only _ (Ret _) => exact I
  | |- only _ (log_policies _ _) => apply only_log_policies
  | |- only _ (logAlerts _) => apply only_log_policies
  | |- only _ (logWarn _ _ _ _) => apply only_logWarn
  | |- only _ (notifySystemError _ _ _) => apply only_notifySystemError
  | |- forall _, _ => intro
  | |- _ = true => reflexivity
  | |- context [match ?x with Ok _ => _ | Err _ => _ end] => destruct x
  | |- context [match ?x with Some _ => _ | None => _ end] => destruct x
  | |- context [match ?x with inl _ => _ | inr _ => _ end] => destruct x
  | |- context [match ?x with [] => _ | _ :: _ => _ end] => destruct x
  | |- context [if ?b then _ else _] => destruct b
  | |- context [let '(_, _) := ?x in _] => destruct x
  end.

(** What is said about a failing report contains nothing private: reports that differ only in
    IP addresses, in additional information, in successful sessions or in the policy's text, domain
    and hosts give the notifier exactly the same calls. *)
Theorem logAlerts_public {Message} (r r' : Tlsrpt.Report) :
  Tlsrpt.OrganizationName r = Tlsrpt.OrganizationName r' ->
  Tlsrpt.ReportID r = Tlsrpt.ReportID r' ->
  Tlsrpt.DateRangeOf r = Tlsrpt.DateRangeOf r' ->
  map (fun p => (Tlsrpt.PolicyType (Tlsrpt.PolicyOf p),
                 Tlsrpt.TotalFailureSessionCount (Tlsrpt.SummaryOf p),
                 map public_detail (Tlsrpt.FailureDetails p))) (Tlsrpt.policies r)
  = map (fun p => (Tlsrpt.PolicyType (Tlsrpt.PolicyOf p),
                   Tlsrpt.TotalFailureSessionCount (Tlsrpt.SummaryOf p),
                   map public_detail (Tlsrpt.FailureDetails p))) (Tlsrpt.policies r') ->
  logAlerts (Message := Message) r = logAlerts r'.
Proof.
  intros Ho Hi Hd Hp. unfold logAlerts. revert Hp.
  generalize (Tlsrpt.policies r') as ps'. generalize (Tlsrpt.policies r) as ps.
  induction ps as [|p ps IH]; intros [|p' ps'] Hp; try done. simpl in Hp.
  injection Hp as H1 H2 H3 H4. simpl. rewrite H2, (IH _ H4).
  replace (policy_alert r' p') with (policy_alert r p); [done|].
  unfold policy_alert. by rewrite Ho, Hi, Hd, H1, H2, H3.
Qed.

(** Logging a report gives the notifier exactly one alert for every policy with failed
    sessions, in the order of the report, and makes no other call. *)
Theorem logAlerts_exact {Message} (report : Tlsrpt.Report) t u :
  runs (logAlerts (Message := Message) report) t u ->
  alerts t = report_alerts report /\ length t = length (report_alerts report).
Proof.
  intros H.
  apply (wp_runs _ t u [] (fun _ t => alerts t = report_alerts report /\
           length t = length (report_alerts report)) H).
  apply wp_log_policies. intros t' Ht Hl. unfold report_alerts. by rewrite length_map.
Qed.

Definition sample_report (ip : string) : Tlsrpt.Report :=
  {| Tlsrpt.OrganizationName := "org"; Tlsrpt.ReportID := "r1";
     Tlsrpt.DateRangeOf := {| Tlsrpt.StartDatetime := 1; Tlsrpt.EndDatetime := 2 |};
     Tlsrpt.Policies := Some
       [{| Tlsrpt.PolicyOf := {| Tlsrpt.PolicyType := "sts"; Tlsrpt.PolicyString := []; Tlsrpt.PolicyDomain := "d";
                                 Tlsrpt.MXHost := [] |};
           Tlsrpt.SummaryOf := {| Tlsrpt.TotalSuccessfulSessionCount := 5; Tlsrpt.TotalFailureSessionCount := 2 |};
           Tlsrpt.FailureDetails :=
             [{| Tlsrpt.ResultType := "expired"; Tlsrpt.SendingMTAIP := ip; Tlsrpt.ReceivingMXHostname := "mx";
                 Tlsrpt.ReceivingIP := ip; Tlsrpt.FailedSessionCount := 2; Tlsrpt.AdditionalInformation := ip;
                 Tlsrpt.FailureReasonCode := "" |}] |}] |}.

Lemma logAlerts_public_witness :
  sample_report "192.0.2.1" <> sample_report "192.0.2.2" /\
  logAlerts (Message := unit) (sample_report "192.0.2.1") = logAlerts (sample_report "192.0.2.2").
Proof.
  split; [discriminate|].
  apply (logAlerts_public (sample_report "192.0.2.1") (sample_report "192.0.2.2")); reflexivity.
Defined.

Lemma logAlerts_exact_witness :
  exists t, runs (logAlerts (Message := unit) (sample_report "192.0.2.1")) t tt /\
            alerts t = report_alerts (sample_report "192.0.2.1") /\ length t = 1%nat.
Proof.
  assert (H : runs (logAlerts (Message := unit) (sample_report "192.0.2.1"))
    [Ev (NLogAlert (policy_alert (sample_report "192.0.2.1")
           (hd (Tlsrpt.Build_PolicyRecord (Tlsrpt.Build_Policy "" [] "" []) (Tlsrpt.Build_Summary 0 0) [])
               (Tlsrpt.policies (sample_report "192.0.2.1"))))) None] tt)
    by (apply runs_call; constructor).
  eexists. split; [exact H|]. destruct (logAlerts_exact _ _ _ H) as [E _]. split; [exact E|reflexivity].
Defined.
