(* ===== verification/FetchProps.v ===== *)
(** * Properties of the fetch subcommand (cmd/tlsrpt-digest/fetch.go)

    A message is marked as seen only when it is stored and everything about it was delivered; a
    dry run and a pending recovery change nothing; a new UIDVALIDITY stops the run; every failing
    report of an unseen message is alerted. *)
From S2P Require Import Prelude GoStr GoTime GoErr.
From S2P Require Tlsrpt.
From S2P Require Import NotifyTypes Duration Config Mailparse Prog.
From S2P Require Import Cmd CmdSpec Fetch.

Section props.
Context {body : Type} (mime : Mime body) (ReadMessage : string -> result (entity body))
  (json_unmarshal : string -> Tlsrpt.Report + string) (gunzip : string -> Tlsrpt.gzip_stream).

Abbreviation cmd := (prog (cmd_call (entity body))).
Abbreviation history := (list (event (cmd_call (entity body)))).
Abbreviation fetch_Run := (Fetch.fetch_Run mime ReadMessage json_unmarshal gunzip).
Abbreviation fetch_connected := (Fetch.fetch_connected mime ReadMessage json_unmarshal gunzip).
Abbreviation fetch_process := (Fetch.fetch_process mime ReadMessage json_unmarshal gunzip).
Abbreviation fetchCollectReports := (Fetch.fetchCollectReports mime ReadMessage json_unmarshal gunzip).
Abbreviation collect_message := (Fetch.collect_message mime ReadMessage json_unmarshal gunzip).
Abbreviation processAttachments := (Fetch.processAttachments mime json_unmarshal gunzip).

(** ** Calls of the helpers *)

(** Everything a part of the run may call that only looks and notifies. *)
Definition looks (X : Type) (c : cmd_call (entity body) X) : bool :=
  match c with
  | NLogAlert _ | NLogWarning _ | NLogSystemError _ | NFlush | Stat _ | ReadFile _ => true
  | _ => false
  end.

(** The same, of local files only emails of the store below [rootDir]. *)
Definition looks_at (rootDir : path) (X : Type) (c : cmd_call (entity body) X) : Prop :=
  match c with
  | NLogAlert _ | NLogWarning _ | NLogSystemError _ | NFlush => True
  | Stat p | ReadFile p => exists uid uidValidity date, p = fetchEmailPath rootDir uid uidValidity date
  | _ => False
  end.

Lemma looks_at_looks rootDir X (c : cmd_call (entity body) X) : looks_at rootDir X c -> looks X c = true.
Proof. by destruct c. Qed.

Section only_at.
Context (P : forall X, cmd_call (entity body) X -> bool) (rootDir : path).
Context (HP : forall X (c : cmd_call (entity body) X), looks_at rootDir X c -> P X c = true).

Lemma only_collect_message cfg s uid raw : only P (collect_message cfg s uid raw).
Proof using HP.
  unfold Fetch.collect_message.
  destruct (ReadMessage raw); [destruct (ExtractAttachments _ _ _) as [atts|]|]; only_cmd; try by apply HP.
  induction atts as [|att atts IH]; cbn [Fetch.processAttachments]; only_cmd; try done; by apply HP.
Qed.

Lemma only_collect_at cfg states uid : only P (fetchCollectReports cfg states uid rootDir).
Proof using HP.
  induction states as [|s states IH]; cbn [Fetch.fetchCollectReports]; unfold loadLocalEML; only_cmd;
    first [done | by apply HP | apply only_collect_message | by apply HP; repeat eexists].
Qed.

Lemma only_states_at msgs uid : only P (buildFetchStates (body := body) msgs uid rootDir).
Proof using HP.
  induction msgs as [|m msgs IH]; cbn [Fetch.buildFetchStates]; unfold localEmailSize; only_cmd;
    first [done | by apply HP | by apply HP; repeat eexists].
Qed.
End only_at.

Lemma only_fetchCollectReports P cfg states uid rootDir :
  (forall X (c : cmd_call (entity body) X), looks X c = true -> P X c = true) ->
  only P (fetchCollectReports cfg states uid rootDir).
Proof. intros HP. apply only_collect_at. intros X c Hc. by eapply HP, looks_at_looks. Qed.

Lemma only_buildFetchStates P msgs uid rootDir :
  (forall X (c : cmd_call (entity body) X), looks X c = true -> P X c = true) ->
  only P (buildFetchStates (body := body) msgs uid rootDir).
Proof. intros HP. apply only_states_at. intros X c Hc. by eapply HP, looks_at_looks. Qed.

Lemma only_notifyFetch P kind mailbox :
  (forall X (c : cmd_call (entity body) X), looks X c = true -> P X c = true) ->
  only P (notifyFetchSystemError (body := body) kind mailbox).
Proof. intros HP. apply only_notifySystemError; intros; by apply HP. Qed.

Lemma looks_harmless X (c : cmd_call (entity body) X) : looks X c = true -> harmless X c = true.
Proof. by destruct c. Qed.

(** ** The reports of a message *)

(** The reports found in a message, in the order of its attachments. *)
Definition attachment_reports (atts : list Attachment) : list Tlsrpt.Report :=
  omap (fun att => match parseTLSRPTAttachment mime json_unmarshal gunzip att with
                   | Some (inl report) => Some report
                   | _ => None
                   end) atts.

Definition entity_reports (maxBytes : Z) (m : entity body) : list Tlsrpt.Report :=
  match ExtractAttachments mime m maxBytes with
  | Err _ => []
  | Ok atts => attachment_reports atts
  end.

(** The reports found in the text of a message. *)
Definition message_reports (cfg : Config) (raw : string) : list Tlsrpt.Report :=
  match ReadMessage raw with
  | Err _ => []
  | Ok m => entity_reports (im_MaxMessageBytes (cf_IMAP cfg)) m
  end.

Definition report_input (uid uidValidity : Z) (report : Tlsrpt.Report) : ReportInput :=
  {| StoreTypes.ri_Report := report; StoreTypes.ri_UID := uid; StoreTypes.ri_UIDValidity := uidValidity |}.

Definition unseen (s : fetchMsgState) : bool := negb (Imap.mm_Seen (meta s)).

Lemma report_alerts_none report : Tlsrpt.HasFailure report = false -> report_alerts report = [].
Proof.
  unfold Tlsrpt.HasFailure, report_alerts. induction (Tlsrpt.policies report) as [|p ps IH]; simpl; [done|].
  destruct (_ >? 0); [done|apply IH].
Qed.

Lemma wp_logWarn kind uid uv mid (h : history) (Q : unit -> history -> Prop) :
  (forall t, alerts t = [] -> Q tt (h ++ t)) -> wp (logWarn kind uid uv mid) h Q.
Proof. intros HQ x. by apply HQ. Qed.

Lemma wp_processAttachments atts s uid (h : history) (Q : list ReportInput -> history -> Prop) :
  (forall reports t,
     reports = attachment_reports atts ->
     alerts t = (if unseen s then flat_map report_alerts reports else []) ->
     Q (map (report_input (uid_of s) uid) reports) (h ++ t)) ->
  wp (processAttachments atts s uid) h Q.
Proof.
  revert h Q. induction atts as [|att atts IH]; intros h Q HQ; cbn [Fetch.processAttachments].
  - specialize (HQ [] [] eq_refl). rewrite app_nil_r in HQ. apply HQ. by destruct (unseen s).
  - unfold attachment_reports in *. simpl in HQ.
    destruct (parseTLSRPTAttachment _ _ _ att) as [[report|e]|]; [| |by apply IH].
    + apply prog_wp_bind.
      assert (Hl : wp (if negb (Imap.mm_Seen (meta s)) && Tlsrpt.HasFailure report
                       then logAlerts report else Ret tt) h
                (fun _ h' => exists t, h' = h ++ t /\ alerts t = if unseen s then report_alerts report else [])).
      { fold (unseen s). destruct (unseen s); simpl.
        - destruct (Tlsrpt.HasFailure report) eqn:Ef.
          + apply wp_log_policies. intros t Ht _. by exists t.
          + exists []. rewrite app_nil_r. by rewrite report_alerts_none.
        - exists []. by rewrite app_nil_r. }
      eapply prog_wp_mono; [|exact Hl]. intros _ h' (t & -> & Ht).
      apply prog_wp_bind, IH. intros reports t' Hr Ht'. rewrite <- app_assoc.
      apply (HQ (report :: reports)); [by rewrite Hr|].
      rewrite alerts_app, Ht, Ht'. by destruct (unseen s).
    + apply prog_wp_bind, wp_logWarn. intros t Ht. apply IH. intros reports t' Hr Ht'.
      rewrite <- app_assoc. apply HQ; [done|]. by rewrite alerts_app, Ht.
Qed.

Lemma wp_collect_message cfg s uid raw (h : history) (Q : list ReportInput -> history -> Prop) :
  (forall t, alerts t = (if unseen s then flat_map report_alerts (message_reports cfg raw) else []) ->
     Q (map (report_input (uid_of s) uid) (message_reports cfg raw)) (h ++ t)) ->
  wp (collect_message cfg s uid raw) h Q.
Proof.
  unfold Fetch.collect_message, message_reports, entity_reports. intros HQ.
  destruct (ReadMessage raw) as [m|e].
  - destruct (ExtractAttachments mime m _) as [atts|e].
    + apply wp_processAttachments. intros reports t -> Ht. by apply HQ.
    + apply prog_wp_bind, wp_logWarn. intros t Ht. apply HQ. rewrite Ht. by destruct (unseen s).
  - apply prog_wp_bind, wp_logWarn. intros t Ht. apply HQ. rewrite Ht. by destruct (unseen s).
Qed.

(** What collecting reports does for an unseen message that is stored: its text is the one just
    downloaded, or read from its file; each report in it is among the reports [rs] to be saved
    and its alerts are given. *)
Definition reported (cfg : Config) (rootDir : path) (uid : Z) (rs : list ReportInput) (h : history)
    (s : fetchMsgState) : Prop :=
  exists raw,
    match rawEML s with
    | Some raw' => raw = raw'
    | None => In (Ev (ReadFile (fetchEmailPath rootDir (uid_of s) uid (Imap.mm_Date (meta s)))) (Ok raw)) h
    end /\
    forall report, In report (message_reports cfg raw) ->
      In (report_input (uid_of s) uid report) rs /\ incl (report_alerts report) (alerts h).

Lemma reported_mono cfg rootDir uid rs rs' (h h' : history) s :
  incl rs rs' -> incl h h' -> incl (alerts h) (alerts h') ->
  reported cfg rootDir uid rs h s -> reported cfg rootDir uid rs' h' s.
Proof.
  intros Hr Hh Ha (raw & Hraw & H). exists raw. split; [destruct (rawEML s); [done|by apply Hh]|].
  intros report Hi. destruct (H report Hi) as [H1 H2]. split; [by apply Hr|].
  by eapply incl_tran.
Qed.

(** [states] are reported when the messages that are unseen and stored are. *)
Definition all_reported (cfg : Config) (rootDir : path) (uid : Z) (states : list fetchMsgState)
    (r : result (list ReportInput)) (h : history) : Prop :=
  forall rs, r = Ok rs -> forall s, In s states -> unseen s = true ->
    emlExistedBefore s = true \/ rawEML s <> None -> reported cfg rootDir uid rs h s.

Lemma all_reported_cons cfg rootDir uid s states reports r (t t' : history) :
  (unseen s = true -> emlExistedBefore s = true \/ rawEML s <> None -> reported cfg rootDir uid reports t s) ->
  all_reported cfg rootDir uid states r t' ->
  all_reported cfg rootDir uid (s :: states)
    (match r with Err e => Err e | Ok rs => Ok (reports ++ rs) end) (t ++ t').
Proof.
  intros Hs Hr rs Ers s' Hi Hu He. destruct r as [rs0|e]; [injection Ers as <-|done]. destruct Hi as [<-|Hi].
  - eapply reported_mono; [| | |by apply Hs]; rewrite ?alerts_app; apply incl_appl, incl_refl.
  - eapply reported_mono; [| | |by apply (Hr rs0)]; rewrite ?alerts_app; apply incl_appr, incl_refl.
Qed.

(** The message collected is [s], or [s] with the text read from its file. *)
Lemma wp_collect_reported cfg s s' uid rootDir raw (h t : history) (Q : list ReportInput -> history -> Prop) :
  s' = s \/ s' = with_raw s raw ->
  match rawEML s with
  | Some raw' => raw = raw'
  | None => In (Ev (ReadFile (fetchEmailPath rootDir (uid_of s) uid (Imap.mm_Date (meta s)))) (Ok raw)) t
  end ->
  (forall reports t', (unseen s = true -> reported cfg rootDir uid reports (t ++ t') s) ->
     Q reports (h ++ (t ++ t'))) ->
  wp (collect_message cfg s' uid raw) (h ++ t) Q.
Proof.
  intros Hs Hraw HQ. apply wp_collect_message. intros t' Ht'. rewrite <- app_assoc. apply HQ.
  assert (Hu' : unseen s' = unseen s) by (by destruct Hs as [->| ->]).
  assert (Huid : uid_of s' = uid_of s) by (by destruct Hs as [->| ->]).
  intros Hu. rewrite Hu', Hu in Ht'. exists raw. split.
  - destruct (rawEML s); [done|]. apply in_or_app. by left.
  - intros report Hi. rewrite Huid. split; [by apply in_map|].
    intros a Ha. rewrite alerts_app, Ht'. apply in_or_app. right. apply in_flat_map. by exists report.
Qed.

Lemma wp_fetchCollectReports cfg states uid rootDir (h : history)
    (Q : result (list ReportInput) -> history -> Prop) :
  (forall r t, all_reported cfg rootDir uid states r t -> Q r (h ++ t)) ->
  wp (fetchCollectReports cfg states uid rootDir) h Q.
Proof.
  revert h Q. induction states as [|s states IH]; intros h Q HQ; cbn [Fetch.fetchCollectReports].
  { specialize (HQ (Ok []) []). rewrite app_nil_r in HQ. apply HQ. by intros rs _ s0 []. }
  assert (Hc : forall reports t,
    (unseen s = true -> emlExistedBefore s = true \/ rawEML s <> None -> reported cfg rootDir uid reports t s) ->
    wp (bind (fetchCollectReports cfg states uid rootDir)
         (fun rest => Ret (match rest with Err e => Err e | Ok rs => Ok (reports ++ rs) end))) (h ++ t) Q).
  { intros reports t Hs. apply prog_wp_bind, IH. intros r t' Hr. rewrite <- app_assoc. by apply HQ, all_reported_cons. }
  assert (H0 := Hc [] []). rewrite app_nil_r in H0. unfold unseen in *.
  destruct (rawEML s) as [raw|] eqn:Eraw.
  - destruct (_ && _) eqn:Eb; [apply H0; by destruct (Imap.mm_Seen (meta s))|].
    apply prog_wp_bind. rewrite <- (app_nil_r h). apply (wp_collect_reported _ s _ _ rootDir); [by left|by rewrite Eraw|].
    intros reports t' Hr. apply Hc. intros Hu _. by apply Hr.
  - destruct (Imap.mm_Seen (meta s)) eqn:Eseen.
    + simpl. rewrite orb_true_r. destruct (emlExistedBefore s); by apply H0.
    + destruct (emlExistedBefore s) eqn:Ee; simpl; [|by apply H0; intros _ [|]].
      intros [raw|e]; [|by apply HQ].
      apply prog_wp_bind, (wp_collect_reported _ s _ _ rootDir); [by right|rewrite Eraw; by left|].
      intros reports t' Hr. apply Hc. intros Hu _. apply Hr. unfold unseen. by rewrite Eseen.
Qed.

(** ** Dry runs and pending recovery *)

Lemma looks_dry X (c : cmd_call (entity body) X) : looks X c = true -> dry_call X c = true.
Proof. by destruct c. Qed.

(** A dry run of fetch makes no call that changes the store or the mailbox and downloads no
    message, whatever it finds: also a new or a different UIDVALIDITY is not recorded. *)
Lemma only_fetch_dry opts cfg rootDir now :
  DryRun opts = true -> only dry_call (fetch_Run opts cfg rootDir now).
Proof.
  intros Hdry. unfold Fetch.fetch_Run, Fetch.fetch_connected, fetchValidateUID. rewrite Hdry.
  split; [done|]. intros loaded.
  assert (Hn : forall kind, only dry_call (notifyFetchSystemError (body := body) kind (mailboxID cfg)))
    by (intros; apply only_notifyFetch, looks_dry).
  assert (Hb : forall msgs uid, only dry_call (buildFetchStates (body := body) msgs uid rootDir))
    by (intros; apply only_buildFetchStates, looks_dry).
  repeat first
    [ match goal with
      | |- only _ (notifyFetchSystemError _ _) => apply Hn
      | |- only _ (buildFetchStates _ _ _) => apply Hb
      | |- only _ (bind _ _) => apply only_bind
      | |- only _ (call _) => apply only_call
      | |- only _ (Ret _) => exact I
      | |- forall _, _ => intro
      | |- _ = true => reflexivity
      | |- context [match ?x with Ok _ => _ | Err _ => _ end] => destruct x
      | |- context [match ?x with Some _ => _ | None => _ end] => destruct x
      | |- context [if negb true then _ else _] => cbn [negb]
      | |- context [if ?b then _ else _] => destruct b
      | |- context [let '(_, _) := ?x in _] => destruct x
      end ].
Qed.

(** Fetch fails closed. When the recovery state cannot be loaded, or says that recovery is
    required, the run ends with the error status, having made no change and not even contacted
    the server: all it does is notify. *)
Theorem fetch_fails_closed opts cfg rootDir now t code err loaded :
  runs (fetch_Run opts cfg rootDir now) (Ev LoadRecoveryRequired loaded :: t) (code, err) ->
  match loaded with Ok (_, _, _, found) => found = true | Err _ => True end ->
  code = exitError /\ Forall (fun e => ev_is is_notification e = true) t.
Proof.
  intros H Hl. apply runs_recovery in H.
  destruct loaded as [[[[p c] d] found]|e]; [subst found|];
    apply (wp_runs _ t _ [] (fun r t => r.1 = exitError /\ Forall (fun e => ev_is is_notification e = true) t) H);
    simpl; intros; (split; [done|by repeat constructor]).
Qed.
(** ** Marking messages as seen *)

(** The messages a call marks as seen. *)
Definition marked (e : event (cmd_call (entity body))) : option (list Z) :=
  match e with Ev c _ => match c with MarkSeen uids => Some uids | _ => None end end.

Definition no_mark (X : Type) (c : cmd_call (entity body) X) : bool :=
  match c with MarkSeen _ => false | _ => true end.

Lemma looks_no_mark X (c : cmd_call (entity body) X) : looks X c = true -> no_mark X c = true.
Proof. by destruct c. Qed.

Ltac only_fetch := unfold notifyFetchSystemError; only_cmd.

Ltac unmark :=
  repeat match goal with
  | |- Forall _ (_ ++ _) => apply Forall_app_2
  | |- Forall _ (_ :: _) => constructor
  | |- Forall _ [] => constructor
  end; try done.

Abbreviation unmarking := (Forall (fun e => ev_is no_mark e = true)).

(** A local file of a message was looked for, and was or was not there. *)
Definition seen_locally (there : bool) (st : result stat_info) : Prop :=
  match st with Ok info => regular info = there | Err e => there = false /\ is_not_exist e = true end.

Definition looked_up (there : bool) (rootDir : path) (uid : Z) (h : history) (m : MessageMeta) : Prop :=
  exists st, seen_locally there st /\
    In (Ev (Stat (fetchEmailPath rootDir (Imap.mm_UID m) uid (Imap.mm_Date m))) st) h.

(** The server sent this text for the message, and it was saved. *)
Definition downloaded_saved (uid : Z) (h : history) (m : MessageMeta) (raw : string) : Prop :=
  (exists uids texts, In (Ev (Download uids) (Ok texts)) h /\ texts !! Imap.mm_UID m = Some raw) /\
  In (Ev (SaveEmail (Imap.mm_UID m) uid (Imap.mm_Date m) raw) None) h.

(** The message is in the store: its file was there before, or was not and this run has written it
    with the text the server sent. *)
Definition stored (rootDir : path) (uid : Z) (h : history) (s : fetchMsgState) : Prop :=
  match rawEML s with
  | Some raw => looked_up false rootDir uid h (meta s) /\ downloaded_saved uid h (meta s) raw
  | None => emlExistedBefore s = true /\ looked_up true rootDir uid h (meta s)
  end.

(** What is known of a message before it is downloaded. *)
Definition noted (rootDir : path) (uid : Z) (h : history) (s : fetchMsgState) : Prop :=
  rawEML s = None /\ looked_up (emlExistedBefore s) rootDir uid h (meta s).

(** The messages the server has listed. *)
Abbreviation from_list msgs := (Forall (fun s => In (meta s) msgs)).

Lemma looked_up_mono there rootDir uid (h h' : history) m :
  incl h h' -> looked_up there rootDir uid h m -> looked_up there rootDir uid h' m.
Proof. intros Hi (st & Hst & Hs). exists st. split; [done|by apply Hi]. Qed.

Lemma downloaded_saved_mono uid (h h' : history) m raw :
  incl h h' -> downloaded_saved uid h m raw -> downloaded_saved uid h' m raw.
Proof. intros Hi [(us & texts & Hd & Ht) Hs]. split; [exists us, texts; split; [by apply Hi|done]|by apply Hi]. Qed.

Lemma stored_mono rootDir uid (h h' : history) s : incl h h' -> stored rootDir uid h s -> stored rootDir uid h' s.
Proof.
  intros Hi. unfold stored. destruct (rawEML s).
  - intros [Hl Hd]. split; [by eapply looked_up_mono|by eapply downloaded_saved_mono].
  - intros [He Hl]. split; [done|by eapply looked_up_mono].
Qed.

Lemma noted_mono rootDir uid (h h' : history) s : incl h h' -> noted rootDir uid h s -> noted rootDir uid h' s.
Proof. intros Hi [Hr Hs]. split; [done|by eapply looked_up_mono]. Qed.

Lemma wp_buildFetchStates msgs uid rootDir (h : history) :
  wp (buildFetchStates (body := body) msgs uid rootDir) h (fun r h' => extends h h' /\
    forall states, r = Ok states -> Forall (noted rootDir uid h') states /\ from_list msgs states).
Proof.
  revert h. induction msgs as [|m msgs IH]; intros h; cbn [Fetch.buildFetchStates].
  { split; [done|]. intros states [= <-]. by repeat constructor. }
  intros st. set (e := Ev _ st). simpl wp.
  assert (Hc : forall (size : option Z) h1, extends (h ++ [e]) h1 ->
    seen_locally (match size with Some _ => true | None => false end) st ->
    wp (bind (buildFetchStates (body := body) msgs uid rootDir) (fun rest => Ret (match rest with
        | Err e => Err e
        | Ok states => Ok ({| meta := m; emlExistedBefore := match size with Some _ => true | None => false end;
                              rawEML := None |} :: states) end))) h1
       (fun r h' => extends h h' /\
          forall states, r = Ok states -> Forall (noted rootDir uid h') states /\ from_list (m :: msgs) states)).
  { intros size h1 Hh1 Hsize. apply prog_wp_bind. eapply prog_wp_mono; [|apply IH]. intros r h' [Hx Hr].
    assert (Hx' : extends (h ++ [e]) h') by (by etransitivity).
    split; [etransitivity; [apply extends_app|exact Hx']|].
    intros states E. destruct r as [ss|]; [|done]. injection E as <-. destruct (Hr ss eq_refl) as [Hn Hl]. split.
    - constructor; [|done]. split; [done|]. exists st. split; [done|].
      eapply extends_In; [exact Hx'|]. apply in_or_app. right. by left.
    - constructor; [by left|]. eapply Forall_impl; [|exact Hl]. by right. }
  destruct st as [info|err]; [destruct (regular info) eqn:Ereg|]; simpl.
  - destruct (negb _); simpl; [intros x|];
      apply (Hc (Some (file_size info))); try done; apply extends_app.
  - by apply (Hc None).
  - destruct (is_not_exist err) eqn:Ee; simpl; [by apply (Hc None)|].
    split; [apply extends_app|]. by intros.
Qed.

Lemma wp_save_downloaded states uids texts uid rootDir mailbox msgs (h : history) :
  In (Ev (Download uids) (Ok texts)) h -> Forall (noted rootDir uid h) states -> from_list msgs states ->
  wp (save_downloaded (body := body) states texts uid mailbox) h (fun r h' => extends h h' /\
    forall ss, r = Ok ss -> Forall (stored rootDir uid h') ss /\ from_list msgs ss).
Proof.
  revert h. induction states as [|s states IH]; intros h Hd Hn Hl; cbn [Fetch.save_downloaded].
  { split; [done|]. intros ss [= <-]. by repeat constructor. }
  apply Forall_cons_iff in Hn as [[Hraw Hs] Hn]. apply Forall_cons_iff in Hl as [Hm Hl].
  assert (Hc : forall s' h1, extends h h1 -> stored rootDir uid h1 s' -> meta s' = meta s ->
    wp (bind (save_downloaded (body := body) states texts uid mailbox)
          (fun rest => Ret (match rest with Err e => Err e | Ok ss => Ok (s' :: ss) end))) h1
       (fun r h' => extends h h' /\
          forall ss, r = Ok ss -> Forall (stored rootDir uid h') ss /\ from_list msgs ss)).
  { intros s' h1 Hx Hs' Hm'. assert (Hi : incl h h1) by (intros e He; by eapply extends_In).
    apply prog_wp_bind. eapply prog_wp_mono; [|apply IH; [by apply Hi| |done]].
    - intros r h' [Hx' Hr]. split; [by etransitivity|]. intros ss E.
      destruct r as [ss'|]; [|done]. injection E as <-. destruct (Hr ss' eq_refl) as [Hst Hf].
      split; constructor; [|done|by rewrite Hm'|done].
      eapply stored_mono, Hs'. intros e He. by eapply extends_In.
    - eapply Forall_impl; [|exact Hn]. intros s0. by apply noted_mono. }
  destruct (emlExistedBefore s) eqn:Ee; [apply Hc; [done| |done]; by unfold stored; rewrite Hraw|].
  destruct (texts !! uid_of s) as [raw|] eqn:Et.
  - apply prog_wp_bind, wp_extends. intros [] t _ r. destruct r as [e|].
    + split; [|done]. rewrite <- app_assoc. apply extends_app.
    + assert (Hi : incl h ((h ++ t) ++ [Ev (SaveEmail (uid_of s) uid (Imap.mm_Date (meta s)) raw) None]))
        by (rewrite <- app_assoc; apply incl_appl, incl_refl).
      apply Hc; [rewrite <- app_assoc; apply extends_app| |done]. split; [by eapply looked_up_mono|].
      split; [exists uids, texts; split; [by apply Hi|done]|]. apply in_or_app. right. by left.
  - simpl. intros x x'. split; [|done]. rewrite <- app_assoc. apply extends_app.
Qed.

Lemma only_fetchDownloadAndSave_no_mark states uid mailbox :
  only no_mark (fetchDownloadAndSave (body := body) states uid mailbox).
Proof.
  unfold fetchDownloadAndSave. destruct (omap _ _); [done|]. only_cmd; try done.
  induction states as [|s states IH]; cbn [save_downloaded]; only_cmd; done.
Qed.

Lemma wp_fetchDownloadAndSave states uid rootDir mailbox msgs (h : history) :
  Forall (noted rootDir uid h) states -> from_list msgs states ->
  wp (fetchDownloadAndSave (body := body) states uid mailbox) h (fun r h' => extends h h' /\
    forall ss, r = Ok ss -> Forall (stored rootDir uid h') ss /\ from_list msgs ss).
Proof.
  intros Hn Hl. unfold fetchDownloadAndSave. destruct (omap _ states) as [|u us] eqn:E.
  - split; [done|]. intros ss [= <-]. split; [|done]. rewrite Forall_forall in *. intros s Hi.
    specialize (Hn s Hi) as [Hraw Hs]. unfold stored. rewrite Hraw. destruct (emlExistedBefore s) eqn:Ee; [done|].
    assert (Hin : uid_of s ∈ omap (fun s => if negb (emlExistedBefore s) then Some (uid_of s) else None) states).
    { apply list_elem_of_omap. exists s. split; [by apply list_elem_of_In|]. by rewrite Ee. }
    rewrite E in Hin. by apply elem_of_nil in Hin.
  - intros downloaded. destruct downloaded as [texts|e].
    + eapply prog_wp_mono; [|apply (wp_save_downloaded _ (u :: us) _ _ rootDir); [..|exact Hl]].
      * intros r h' [Hx Hr]. split; [|done]. etransitivity; [apply extends_app|exact Hx].
      * apply in_or_app. right. by left.
      * eapply Forall_impl; [|exact Hn]. intros s0. apply noted_mono. intros e He. apply in_or_app. by left.
    + simpl. intros x x'. split; [|done]. rewrite <- !app_assoc. apply extends_app.
Qed.

(** A message the server listed is in the store: it was not there, and the text the server sent was
    saved under the date and the UIDVALIDITY of the listing; or it was there and was read. Every report
    in its text is in [rs], and the alerts of these reports were given. *)
Definition settled (cfg : Config) (rootDir : path) (l : FetchMetaResult) (rs : list ReportInput) (h : history)
    (uid : Z) : Prop :=
  exists m raw, In m (Imap.Messages l) /\ Imap.mm_UID m = uid /\
    (looked_up false rootDir (Imap.fm_UIDValidity l) h m /\ downloaded_saved (Imap.fm_UIDValidity l) h m raw \/
     looked_up true rootDir (Imap.fm_UIDValidity l) h m /\
     In (Ev (ReadFile (fetchEmailPath rootDir uid (Imap.fm_UIDValidity l) (Imap.mm_Date m))) (Ok raw)) h) /\
    forall report, In report (message_reports cfg raw) ->
      In (report_input uid (Imap.fm_UIDValidity l) report) rs /\ incl (report_alerts report) (alerts h).

(** What must have happened before messages are marked. *)
Definition may_mark (cfg : Config) (rootDir : path) (h : history) (uids : list Z) : Prop :=
  exists since l rs h0, h = h0 ++ [Ev (SaveReports rs) None; Ev NFlush None] /\
    In (Ev (FetchMeta since) (Ok l)) h0 /\ Forall (settled cfg rootDir l rs h0) uids.

Definition marks_ok (cfg : Config) (rootDir : path) (h : history) : Prop :=
  forall h1 uids a h2, h = h1 ++ Ev (MarkSeen uids) a :: h2 -> may_mark cfg rootDir h1 uids.

Lemma marks_ok_none cfg rootDir (h : history) : unmarking h -> marks_ok cfg rootDir h.
Proof. intros H h1 uids a h2 ->. apply Forall_app in H as [_ H]. by inversion H. Qed.

Lemma unmarking_split (h t h1 h2 : history) uids uids' a a' :
  unmarking h -> unmarking t -> h ++ Ev (MarkSeen uids) a :: t = h1 ++ Ev (MarkSeen uids') a' :: h2 ->
  h1 = h /\ uids' = uids.
Proof.
  intros Hh Ht. revert h Hh. induction h1 as [|e1 h1 IH]; intros [|e h] Hh E; simpl in E.
  - apply (f_equal (fun l => head l ≫= marked)) in E. simpl in E. by injection E as ->.
  - apply (f_equal head) in E. simpl in E. injection E as ->. by inversion Hh.
  - apply (f_equal tail) in E. simpl in E. subst t. apply Forall_app in Ht as [_ Ht]. by inversion Ht.
  - pose proof (f_equal head E) as E1. simpl in E1. injection E1 as ->.
    apply (f_equal tail) in E. simpl in E.
    apply Forall_cons_iff in Hh as [_ Hh]. destruct (IH _ Hh E) as [-> ->]. done.
Qed.

Lemma marks_ok_once cfg rootDir (h t : history) uids a :
  unmarking h -> unmarking t -> may_mark cfg rootDir h uids ->
  marks_ok cfg rootDir (h ++ Ev (MarkSeen uids) a :: t).
Proof. intros Hh Ht Hm h1 uids' a' h2 E. by destruct (unmarking_split _ _ _ _ _ _ _ _ Hh Ht E) as [-> ->]. Qed.

Lemma settled_of_reported cfg rootDir l rs (h t : history) s :
  In (meta s) (Imap.Messages l) -> stored rootDir (Imap.fm_UIDValidity l) h s ->
  reported cfg rootDir (Imap.fm_UIDValidity l) rs t s -> settled cfg rootDir l rs (h ++ t) (uid_of s).
Proof.
  intros Hm Hs (raw & Hraw & Hr). assert (Hi : incl h (h ++ t)) by apply incl_appl, incl_refl.
  exists (meta s), raw. split; [done|]. split; [done|]. split.
  - unfold stored in Hs. destruct (rawEML s) as [raw'|].
    + subst raw'. left. destruct Hs. split; [by eapply looked_up_mono|by eapply downloaded_saved_mono].
    + right. destruct Hs as [_ Hl]. split; [by eapply looked_up_mono|]. apply in_or_app. by right.
  - intros report Hin. destruct (Hr report Hin) as [H1 H2]. split; [done|].
    rewrite alerts_app. by apply incl_appr.
Qed.

(** The history is in order, and stays so when nothing more is marked. *)
Definition settled_history (cfg : Config) (rootDir : path) (h : history) : Prop :=
  marks_ok cfg rootDir h /\ forall t, unmarking t -> marks_ok cfg rootDir (h ++ t).

Lemma settled_unmarking cfg rootDir (h : history) : unmarking h -> settled_history cfg rootDir h.
Proof. intros Hh. split; [|intros t Ht]; apply marks_ok_none; [done|by apply Forall_app_2]. Qed.

Lemma settled_snoc cfg rootDir (h t : history) :
  settled_history cfg rootDir h -> unmarking t -> settled_history cfg rootDir (h ++ t).
Proof. intros [_ H] Ht. split; [by apply H|]. intros t' Ht'. rewrite <- app_assoc. by apply H, Forall_app_2. Qed.

Lemma settled_once cfg rootDir (h : history) uids a :
  unmarking h -> may_mark cfg rootDir h uids -> settled_history cfg rootDir (h ++ [Ev (MarkSeen uids) a]).
Proof.
  intros Hh Hm. split; [by apply marks_ok_once|]. intros t Ht. rewrite <- app_assoc. by apply marks_ok_once.
Qed.

(** A part of the run that marks nothing. *)
Lemma wp_unmarking {A} cfg rootDir (p : cmd A) (h : history) :
  only no_mark p -> settled_history cfg rootDir h -> wp p h (fun _ h' => settled_history cfg rootDir h').
Proof. intros Ho Hh. apply (wp_only no_mark); [done|]. intros. by apply settled_snoc. Qed.

(** A part of the run after which nothing is marked so far, with what else it does. *)
Lemma wp_still_unmarking {A} (p : cmd A) (h : history) (Q : A -> history -> Prop) :
  only no_mark p -> unmarking h -> wp p h Q -> wp p h (fun r h' => Q r h' /\ unmarking h').
Proof.
  intros Ho Hh HQ. apply wp_and; [done|]. apply (wp_only no_mark); [done|]. intros. by apply Forall_app_2.
Qed.

Lemma wp_fetchMarkSeen cfg rootDir states (h : history) :
  unmarking h -> may_mark cfg rootDir h (collectUnseenUIDs states) ->
  wp (fetchMarkSeen (body := body) states) h (fun _ h' => settled_history cfg rootDir h').
Proof.
  intros Hh Hm. unfold fetchMarkSeen.
  destruct (collectUnseenUIDs states) as [|u us]; [by apply settled_unmarking|].
  intros a. cbn [bind call]. assert (Ho := settled_once cfg rootDir h (u :: us) a Hh Hm).
  destruct a as [e|]; [destruct (is_sentinel ErrMailboxReadOnly e)|]; [|done..].
  apply wp_unmarking; [only_fetch|done].
Qed.

Lemma in_collectUnseenUIDs states uid :
  In uid (collectUnseenUIDs states) -> exists s, In s states /\ unseen s = true /\ uid = uid_of s.
Proof.
  intros H. apply list_elem_of_In, list_elem_of_omap in H as (s & Hs & E). apply list_elem_of_In in Hs.
  exists s. split; [done|]. unfold unseen. destruct (Imap.mm_Seen (meta s)); [done|]. by injection E as <-.
Qed.

Lemma wp_fetch_process cfg rootDir states since l (h : history) :
  unmarking h -> In (Ev (FetchMeta since) (Ok l)) h -> from_list (Imap.Messages l) states ->
  Forall (stored rootDir (Imap.fm_UIDValidity l) h) states ->
  wp (fetch_process cfg rootDir states (Imap.fm_UIDValidity l)) h (fun _ h' => settled_history cfg rootDir h').
Proof.
  intros Hh Hlist Hf Hs x. cbn [bind call]. set (h0 := h ++ _).
  assert (Hh0 : unmarking h0) by (unfold h0; unmark).
  destruct x as [e|]; [by apply settled_unmarking|].
  apply prog_wp_bind. eapply prog_wp_mono; [|apply wp_still_unmarking; [|exact Hh0|
    apply (wp_fetchCollectReports _ _ _ rootDir) with
      (Q := fun r h' => exists t, h' = h0 ++ t /\ all_reported cfg rootDir (Imap.fm_UIDValidity l) states r t); by eauto]];
    [|apply only_fetchCollectReports, looks_no_mark].
  simpl. intros r h' [(t & -> & Hr) Ht].
  destruct r as [rs|e]; [|by apply settled_unmarking]. apply Forall_app in Ht as [_ Ht].
  intros [e|]; cbn [bind].
  { apply settled_unmarking; unmark. }
  intros [e|]; cbn [bind].
  { apply settled_unmarking; unmark. }
  apply prog_wp_bind. eapply prog_wp_mono; [|apply (wp_fetchMarkSeen cfg rootDir)].
  - intros o h1 H1. destruct o as [e|]; [done|]. intros x. apply settled_snoc; [done|by repeat constructor].
  - unmark.
  - exists since, l, rs, (h0 ++ t). split; [by rewrite <- app_assoc|].
    split; [apply in_or_app; left; apply in_or_app; by left|]. apply Forall_forall.
    intros u Hu. apply in_collectUnseenUIDs in Hu as (s & Hi & Hu & ->).
    rewrite Forall_forall in Hs, Hf. specialize (Hs s Hi). apply settled_of_reported; [by apply Hf|..].
    + eapply stored_mono, Hs. apply incl_appl, incl_refl.
    + apply (Hr rs eq_refl s Hi Hu). unfold stored in Hs. destruct (rawEML s); [by right|left; apply Hs].
Qed.

Lemma wp_fetch_connected opts cfg rootDir now mailbox (h : history) :
  unmarking h ->
  wp (fetch_connected opts cfg rootDir now mailbox) h (fun _ h' => settled_history cfg rootDir h').
Proof.
  intros Hh. unfold Fetch.fetch_connected. intros fetched. cbn [bind call]. set (h0 := h ++ _).
  assert (Hh0 : unmarking h0) by (unfold h0; unmark).
  destruct fetched as [fr|e]; [|apply wp_unmarking; [only_fetch|by apply settled_unmarking]].
  apply prog_wp_bind. eapply prog_wp_mono; [|apply (wp_only no_mark) with (Q := fun _ h' => unmarking h' /\ extends h0 h')];
    [|unfold fetchValidateUID; only_fetch|intros; split; [by apply Forall_app_2|apply extends_app]].
  intros [out|] h1 [H1 Hx1]; [by apply settled_unmarking|].
  apply prog_wp_bind. eapply prog_wp_mono; [|apply wp_still_unmarking; [|exact H1|apply (wp_buildFetchStates _ _ rootDir)]];
    [|apply only_buildFetchStates, looks_no_mark].
  simpl. intros built h2 [[Hx2 Hb] H2]. destruct built as [states|e]; [|by apply settled_unmarking].
  destruct (Hb states eq_refl) as [Hn Hl].
  destruct (DryRun opts); [apply wp_unmarking; [only_fetch|by apply settled_unmarking]|].
  apply prog_wp_bind. eapply prog_wp_mono; [|apply wp_still_unmarking; [|exact H2|by apply wp_fetchDownloadAndSave]].
  - simpl. intros saved h3 [[Hx3 Hs] H3]. destruct saved as [ss|e]; [|by apply settled_unmarking].
    destruct (Hs ss eq_refl) as [Hst Hf]. eapply wp_fetch_process; [done| |done..].
    eapply extends_In; [exact Hx3|]. eapply extends_In; [exact Hx2|]. eapply extends_In; [exact Hx1|].
    apply in_or_app. right. by left.
  - apply only_fetchDownloadAndSave_no_mark.
Qed.

Lemma wp_fetch_Run opts cfg rootDir now :
  wp (fetch_Run opts cfg rootDir now) [] (fun _ h => settled_history cfg rootDir h).
Proof.
  unfold Fetch.fetch_Run. cbn [bind call wp app]. intros loaded.
  assert (Hs : forall h, unmarking h -> settled_history cfg rootDir h) by (intros; by apply settled_unmarking).
  destruct loaded as [[[[p c] d] found]|e]; [destruct found|];
    [apply wp_unmarking; [only_fetch|apply Hs; unmark]| |apply wp_unmarking; [only_fetch|apply Hs; unmark]].
  intros [user pass]. cbn [bind app].
  destruct (_ || _); [apply wp_unmarking; [only_fetch|apply Hs; unmark]|].
  intros [e|]; cbn [bind app]; [apply wp_unmarking; [only_fetch|apply Hs; unmark]|].
  apply prog_wp_bind. eapply prog_wp_mono; [|apply wp_fetch_connected; unmark].
  intros out h1 H1. apply wp_unmarking; [only_fetch|done].
Qed.

Lemma runs_marks_ok opts cfg rootDir now t r : runs (fetch_Run opts cfg rootDir now) t r -> marks_ok cfg rootDir t.
Proof.
  intros H. apply (wp_runs _ t r [] (fun _ h => settled_history cfg rootDir h) H). by apply wp_fetch_Run.
Qed.

(** C13: fetch marks a message as seen only when nothing of it can be lost any more. In every run of
    fetch, whatever the server, the store and the notifier answer, a call that marks messages comes
    directly after a successful save of reports and a successful flush of the notifications; and
    each message marked is one the server has listed in this run, and it is in the store: either it
    had no file there, and the text the server sent for it was saved successfully, under the date
    and the UIDVALIDITY that the server listed, or its file was there and was read; every report
    parsed from this text is among the saved ones, and every alert of these reports had been given
    before the flush. *)
Theorem fetch_at_least_once opts cfg rootDir now t r h uids a t' :
  runs (fetch_Run opts cfg rootDir now) t r -> t = h ++ Ev (MarkSeen uids) a :: t' ->
  exists since l rs h0, h = h0 ++ [Ev (SaveReports rs) None; Ev NFlush None] /\
    In (Ev (FetchMeta since) (Ok l)) h0 /\ Forall (settled cfg rootDir l rs h0) uids.
Proof.
  intros H Et. by apply (runs_marks_ok _ _ _ _ _ _ H _ _ _ _ Et).
Qed.
(** ** A changed UIDVALIDITY *)

(** The UIDVALIDITY the store knows, and the one the server reports. *)
Definition stored_uid (e : event (cmd_call (entity body))) : option Z :=
  match e with
  | Ev c x =>
      match c in cmd_call _ X return X -> option Z with
      | LoadUIDValidity => fun x => match x with Ok (uid, true) => Some uid | _ => None end
      | _ => fun _ => None
      end x
  end.

Definition server_uid (e : event (cmd_call (entity body))) : option Z :=
  match e with
  | Ev c x =>
      match c in cmd_call _ X return X -> option Z with
      | FetchMeta _ => fun x => match x with Ok fr => Some (Imap.fm_UIDValidity fr) | _ => None end
      | _ => fun _ => None
      end x
  end.

Definition no_uid (X : Type) (c : cmd_call (entity body) X) : bool :=
  match c with LoadUIDValidity | FetchMeta _ => false | _ => true end.

(** Nothing was asked of the server about the text of a message. *)
Definition no_download (X : Type) (c : cmd_call (entity body) X) : bool :=
  match c with Download _ => false | _ => true end.

Abbreviation undownloading := (Forall (fun e => ev_is no_download e = true)).

(** What is shown of a history: with a changed UIDVALIDITY the run failed, and recorded it. *)
Definition uid_checked (dry : bool) (now : Time) (r : Z * option goerr) (h : history) : Prop :=
  forall stored current, omap stored_uid h = [stored] -> omap server_uid h = [current] -> stored <> current ->
    r.1 = exitError /\ undownloading h /\
    exists a, changes h = if dry then [] else [Ev (SaveRecoveryRequired stored current now) a].

Lemma no_uid_omap (t : history) :
  Forall (fun e => ev_is no_uid e = true) t -> omap stored_uid t = [] /\ omap server_uid t = [].
Proof.
  intros H. induction H as [|[X c x] t Hc H [IH1 IH2]]; [done|].
  by destruct c.
Qed.

(** Once they agree, or one of them is not known, they cannot be found to differ. *)
Lemma wp_agreed dry now (p : cmd (Z * option goerr)) (h : history) :
  only no_uid p ->
  (forall stored current, omap stored_uid h = [stored] -> omap server_uid h = [current] -> stored = current) ->
  wp p h (uid_checked dry now).
Proof.
  intros Ho Ha. apply (wp_only no_uid); [done|]. intros r t Ht stored current.
  destruct (no_uid_omap t Ht) as [E1 E2]. rewrite !omap_app, E1, E2, !app_nil_r.
  intros H1 H2 Hne. by specialize (Ha _ _ H1 H2).
Qed.

Lemma looks_no_uid X (c : cmd_call (entity body) X) : looks X c = true -> no_uid X c = true.
Proof. by destruct c. Qed.

Lemma only_no_uid_download states uid mailbox :
  only no_uid (fetchDownloadAndSave (body := body) states uid mailbox).
Proof.
  unfold fetchDownloadAndSave. destruct (omap _ _); [done|]. only_fetch; try done.
  induction states as [|s states IH]; cbn [save_downloaded]; only_fetch; done.
Qed.

Lemma only_no_uid_process cfg rootDir states uid : only no_uid (fetch_process cfg rootDir states uid).
Proof.
  unfold Fetch.fetch_process, fetchMarkSeen. only_fetch; try done. apply only_fetchCollectReports, looks_no_uid.
Qed.

Ltac only_uid := only_fetch;
  first [done | apply only_buildFetchStates, looks_no_uid | apply only_no_uid_download | apply only_no_uid_process].

Lemma uid_checked_snoc dry now r (h t : history) :
  Forall (fun e => ev_is no_uid e = true) t -> changes t = [] -> undownloading t ->
  uid_checked dry now r h -> uid_checked dry now r (h ++ t).
Proof.
  intros Ht Hc Hd Hr stored current. destruct (no_uid_omap t Ht) as [E1 E2].
  rewrite !omap_app, E1, E2, !app_nil_r, changes_app, Hc, app_nil_r. intros H1 H2 H3.
  destruct (Hr _ _ H1 H2 H3) as (H4 & H5 & H6). split; [done|]. split; [by apply Forall_app_2|done].
Qed.

Lemma wp_connected_uid opts cfg rootDir now mailbox (h : history) :
  omap stored_uid h = [] -> omap server_uid h = [] -> changes h = [] -> undownloading h ->
  wp (fetch_connected opts cfg rootDir now mailbox) h (uid_checked (DryRun opts) now).
Proof.
  intros H1 H2 H3 H4. unfold Fetch.fetch_connected. cbn [bind call wp]. intros [fr|e].
  2:{ apply wp_agreed; [only_uid|]. intros stored current. by rewrite omap_app, H1. }
  unfold fetchValidateUID, notifyFetchSystemError. cbn [bind call wp]. intros loaded.
  set (h0 := (h ++ _) ++ _).
  assert (E1 : omap stored_uid h0 = match loaded with Ok (uid, true) => [uid] | _ => [] end).
  { unfold h0. rewrite !omap_app, H1. by destruct loaded as [[uid []]|]. }
  assert (E2 : omap server_uid h0 = [Imap.fm_UIDValidity fr]) by (unfold h0; by rewrite !omap_app, H2).
  assert (E3 : changes h0 = []) by (unfold h0; by rewrite !changes_app, H3).
  assert (E4 : undownloading h0) by (unfold h0; by repeat (apply Forall_app_2 || constructor)).
  destruct loaded as [[uid found]|e]; [destruct found|]; cbn [negb];
    [|apply wp_agreed; [only_uid|by rewrite E1]..].
  destruct (Z.eqb_spec uid (Imap.fm_UIDValidity fr)) as [->|Hne]; cbn [negb].
  { apply wp_agreed; [only_uid|]. rewrite E1, E2. congruence. }
  assert (Hn : forall r h' t, h' = h0 ++ t -> r.1 = exitError ->
    Forall (fun e => ev_is no_uid e = true) t -> undownloading t ->
    (exists a, changes t = if DryRun opts then [] else [Ev (SaveRecoveryRequired uid (Imap.fm_UIDValidity fr) now) a]) ->
    uid_checked (DryRun opts) now r h').
  { intros r h' t -> Hr Ht Hd Hc stored current. destruct (no_uid_omap t Ht) as [F1 F2].
    rewrite !omap_app, E1, E2, F1, F2, changes_app, E3. intros [= <-] [= <-] _. split; [done|]. split; [by apply Forall_app_2|done]. }
  destruct (DryRun opts); cbn [negb bind call wp notifySystemError].
  - intros x x'. eapply Hn; [by rewrite <- !app_assoc|done|by repeat constructor|by repeat constructor|by exists None].
  - intros saved. destruct saved as [e|]; cbn [bind wp]; intros x x';
      (eapply Hn; [by rewrite <- !app_assoc|done|by repeat constructor|by repeat constructor|by eexists]).
Qed.

(** C14: when the UIDVALIDITY of the mailbox is not the one in the store, fetch ends with the error
    status; the only change it makes is to record that recovery is required, with the two values,
    and in a dry run it makes none: no message is stored, deleted or marked. No message is downloaded
    at any point of the run. *)
Theorem fetch_uidvalidity_changed opts cfg rootDir now t r stored current :
  runs (fetch_Run opts cfg rootDir now) t r ->
  omap stored_uid t = [stored] -> omap server_uid t = [current] -> stored <> current ->
  r.1 = exitError /\ undownloading t /\
  exists a, changes t = if DryRun opts then [] else [Ev (SaveRecoveryRequired stored current now) a].
Proof.
  intros H. revert stored current.
  apply (wp_runs _ t r [] (uid_checked (DryRun opts) now) H). unfold Fetch.fetch_Run.
  cbn [bind call wp]. intros loaded.
  destruct loaded as [[[[p c] d] found]|e]; [destruct found|];
    [apply wp_agreed; [only_uid|done]| |apply wp_agreed; [only_uid|done]].
  cbn [bind call wp]. intros [user pass].
  destruct (_ || _); [apply wp_agreed; [only_uid|done]|].
  cbn [bind call wp]. intros [e|]; [apply wp_agreed; [only_uid|done]|].
  apply prog_wp_bind. eapply prog_wp_mono; [|apply wp_connected_uid; [done..|by repeat constructor]].
  intros r' h' Hr x. apply uid_checked_snoc; [by repeat constructor|done|by repeat constructor|done].
Qed.
End props.

(** ** Examples *)

Definition sample_config : Config :=
  applyDefaults
    {| raw_Host := Some "imap.example"; raw_Port := Some 993; raw_Mailbox := None; raw_FetchDays := None;
       raw_TLSCACert := None; raw_MaxMessageBytes := None; raw_IMAPRetentionDays := None;
       raw_AllowedHost := None; raw_RootDir := None; raw_RetentionDays := None; raw_MaxEmailAgeDays := None;
       raw_WindowDays := None |}.

Definition sample_opts (dry : bool) : cliOptions :=
  {| ConfigPath := ""; DryRun := dry; Since := None; Window := None; Before := None; MaxEmailAge := None;
     RecoverMode := ""; RecoverYes := false; ReprocessNotify := false |}.

(** One unseen message with one report attached; the report has failures. *)
Definition sample_meta : FetchMetaResult :=
  {| Imap.Messages := [{| Imap.mm_UID := 7; Imap.mm_Size := 3; Imap.mm_Date := 1700000000; Imap.mm_Seen := false;
                          Imap.mm_MessageID := "id" |}];
     Imap.fm_UIDValidity := 5 |}.

Definition sample_run (dry recovery : bool) (storedUID : Z) :=
  run (obliging recovery storedUID sample_meta {[7 := "eml"]} (Err (Errno ENOENT)))
      (fetch_Run sample_mime (fun _ => Ok {| Header := fun _ : string => "multipart/mixed"; Body := 1%nat |})
         (fun _ => inl (sample_report "192.0.2.1")) (fun _ => Tlsrpt.GzBadHeader "gzip")
         (sample_opts dry) sample_config ["store"] 1700000000).

Lemma sample_run_runs dry recovery storedUID :
  runs (fetch_Run sample_mime (fun _ => Ok {| Header := fun _ : string => "multipart/mixed"; Body := 1%nat |})
         (fun _ => inl (sample_report "192.0.2.1")) (fun _ => Tlsrpt.GzBadHeader "gzip")
         (sample_opts dry) sample_config ["store"] 1700000000)
       (sample_run dry recovery storedUID).1 (sample_run dry recovery storedUID).2.
Proof. apply run_runs. Qed.

Lemma fetch_at_least_once_witness :
  let t := (sample_run false false 5).1 in
  exists h a t', t = h ++ Ev (MarkSeen [7]) a :: t' /\
  exists since l rs h0, h = h0 ++ [Ev (SaveReports rs) None; Ev NFlush None] /\
    In (Ev (FetchMeta since) (Ok l)) h0 /\
    Forall (settled sample_mime
              (fun _ => Ok {| Header := fun _ : string => "multipart/mixed"; Body := 1%nat |})
              (fun _ => inl (sample_report "192.0.2.1")) (fun _ => Tlsrpt.GzBadHeader "gzip")
              sample_config ["store"] l rs h0) [7].
Proof.
  cbv zeta. set (t := (sample_run false false 5).1).
  assert (E : t = take (length t - 3) t ++ Ev (MarkSeen [7]) None :: drop (length t - 2) t)
    by (vm_compute; reflexivity).
  exists (take (length t - 3) t), None, (drop (length t - 2) t). split; [exact E|].
  exact (fetch_at_least_once _ _ _ _ _ _ _ _ t _ _ _ _ _ (sample_run_runs false false 5) E).
Defined.

Lemma fetch_fails_closed_witness :
  let t := (sample_run false true 5).1 in
  exists loaded t', t = Ev LoadRecoveryRequired loaded :: t' /\ length t' = 2%nat /\
    (sample_run false true 5).2.1 = exitError /\ Forall (fun e => ev_is is_notification e = true) t'.
Proof.
  cbv zeta. eexists _, _. split; [reflexivity|]. split; [reflexivity|].
  refine (fetch_fails_closed sample_mime
    (fun _ => Ok {| Header := fun _ : string => "multipart/mixed"; Body := 1%nat |})
    (fun _ => inl (sample_report "192.0.2.1")) (fun _ => Tlsrpt.GzBadHeader "gzip")
    (sample_opts false) sample_config ["store"] 1700000000 _ _ (sample_run false true 5).2.2 _
    (sample_run_runs false true 5) eq_refl).
Defined.

Lemma fetch_uidvalidity_changed_witness :
  let t := (sample_run false false 4).1 in
  omap stored_uid t = [4] /\ omap server_uid t = [5] /\
  (sample_run false false 4).2.1 = exitError /\ Forall (fun e => ev_is no_download e = true) t /\
  exists a, changes t = [Ev (SaveRecoveryRequired 4 5 1700000000) a].
Proof.
  cbv zeta. split; [reflexivity|]. split; [reflexivity|].
  refine (fetch_uidvalidity_changed _ _ _ _ _ _ _ _ _ _ 4 5 (sample_run_runs false false 4) eq_refl eq_refl _).
  discriminate.
Defined.
