(* ===== verification/CmdProps.v ===== *)
(** * Properties of gc, recover and summary (cmd/tlsrpt-digest/gc.go, recover.go, summary.go)

    What each subcommand may change, in which order, and when. *)
From S2P Require Import Prelude GoStr GoTime GoErr.
From S2P Require Tlsrpt.
From S2P Require Import NotifyTypes Duration Config Aggregate Prog.
From S2P Require Import Cmd CmdSpec Fetch FetchProps Gc RecoverCmd SummaryCmd.

Section props.
Context {Message : Type}.
Abbreviation history := (list (event (cmd_call Message))).

(** ** gc *)

(** The ages in days that gc works with: those of the flags, or of the configuration. *)
Definition report_days (opts : cliOptions) (cfg : Config) : Z :=
  match Before opts with Some d => Days d | None => st_RetentionDays (cf_Store cfg) end.
Definition email_days (opts : cliOptions) (cfg : Config) : Z :=
  match MaxEmailAge opts with Some d => Days d | None => st_MaxEmailAgeDays (cf_Store cfg) end.

Definition gc_in_reach (opts : cliOptions) (cfg : Config) (now : Time) : Prop :=
  in_reach (report_days opts cfg) now /\ in_reach (email_days opts cfg) now /\
  in_reach (im_RetentionDays (cf_IMAP cfg)) now.

(** No recovery is pending, and there are credentials if there is something to do on the server. *)
Definition gc_cleared (cfg : Config) (h : history) : Prop :=
  (exists prev curr at_, In (Ev LoadRecoveryRequired (Ok (prev, curr, at_, false))) h) /\
  (0 < im_RetentionDays (cf_IMAP cfg) ->
   exists user pass, In (Ev Credentials (user, pass)) h /\ user <> "" /\ pass <> "").

Definition credentials_answer (e : event (cmd_call Message)) : option (string * string) :=
  match e with
  | Ev c x =>
      match c in cmd_call _ X return X -> option (string * string) with
      | Credentials => Some
      | _ => fun _ => None
      end x
  end.

Lemma gc_cleared_answers cfg h : gc_cleared cfg h ->
  (exists r, In (Ok r) (omap recovery_answer h) /\ r.2 = false) /\
  (0 < im_RetentionDays (cf_IMAP cfg) ->
   exists c, In c (omap credentials_answer h) /\ c.1 <> "" /\ c.2 <> "").
Proof.
  intros [(prev & curr & at_ & H1) H2]. split.
  - exists (prev, curr, at_, false). split; [|done].
    apply list_elem_of_In, list_elem_of_omap. eexists. split; [by apply list_elem_of_In|done].
  - intros H. destruct (H2 H) as (user & pass & H3 & Hc). exists (user, pass). split; [|done].
    apply list_elem_of_In, list_elem_of_omap. eexists. split; [by apply list_elem_of_In|done].
Qed.

Section gc.
Context (opts : cliOptions) (cfg : Config) (now : Time).
Local Abbreviation del_reports := (DeleteReportsBefore (midnight_before (report_days opts cfg) now)).
Local Abbreviation del_emails := (DeleteEmailsBefore (midnight_before (email_days opts cfg) now)).
Local Abbreviation del_mail := (DeleteOlderThan (midnight_before (im_RetentionDays (cf_IMAP cfg)) now)).

(** The changes of the run [h] of gc, and whether it succeeds: one after the other, each only when
    the one before succeeded, and mail only when a retention is set for the server. *)
Inductive gc_changes (h : history) : history -> bool -> Prop :=
  | gc_refused : ~ gc_cleared cfg h -> gc_changes h [] false
  | gc_reports_failed e : gc_changes h [Ev del_reports (Err e)] false
  | gc_emails_failed n e : gc_changes h [Ev del_reports (Ok n); Ev del_emails (Err e)] false
  | gc_local n m :
      im_RetentionDays (cf_IMAP cfg) <= 0 -> gc_changes h [Ev del_reports (Ok n); Ev del_emails (Ok m)] true
  | gc_not_connected n m conf e :
      0 < im_RetentionDays (cf_IMAP cfg) -> In (Ev (NewMailFetcher conf) (Some e)) h ->
      gc_changes h [Ev del_reports (Ok n); Ev del_emails (Ok m)] false
  | gc_mail n m r :
      0 < im_RetentionDays (cf_IMAP cfg) ->
      gc_changes h [Ev del_reports (Ok n); Ev del_emails (Ok m); Ev del_mail r] (is_ok r).

(** What is shown of a run: its changes, after what had to be there for any. *)
Definition gc_outcome (r : Z * option goerr) (h : history) : Prop :=
  gc_changes h (changes h) (r.1 =? exitOK) /\
  (changes h <> [] -> exists h0 h1, h = h0 ++ h1 /\ changes h0 = [] /\ gc_cleared cfg h0).

Ltac run_calls := repeat (cbn [bind call wp notifySystemError notifyGCSystemError]; intros ?).

Lemma imapEnabled_true : imapEnabled cfg = true <-> 0 < im_RetentionDays (cf_IMAP cfg).
Proof. unfold imapEnabled. rewrite Z.gtb_ltb. apply Z.ltb_lt. Qed.

Lemma gc_cutoffs : gc_in_reach opts cfg now ->
  gcReportCutoff opts cfg now = midnight_before (report_days opts cfg) now /\
  gcEmailCutoff opts cfg now = midnight_before (email_days opts cfg) now /\
  (imapEnabled cfg = true -> gc_imapCutoff cfg now = midnight_before (im_RetentionDays (cf_IMAP cfg)) now).
Proof.
  unfold gc_in_reach, gcReportCutoff, gcEmailCutoff, gc_imapCutoff, report_days, email_days. intros (Hr & He & Hm).
  split_and!.
  - destruct (Before opts); by apply Cutoff_midnight.
  - destruct (MaxEmailAge opts); by apply Cutoff_midnight.
  - intros ->. by apply Cutoff_midnight.
Qed.

Lemma wp_runDelete user pass (h : history) :
  gc_in_reach opts cfg now -> changes h = [] -> gc_cleared cfg h ->
  wp (runDelete cfg (mailboxID cfg) (gcReportCutoff opts cfg now) (gcEmailCutoff opts cfg now)
        (gc_imapCutoff cfg now) user pass) h gc_outcome.
Proof.
  intros (E1 & E2 & E3)%gc_cutoffs Hh Hc. rewrite E1, E2.
  assert (Hout : forall t code err, gc_changes (h ++ t) (changes t) (code =? exitOK) -> gc_outcome (code, err) (h ++ t)).
  { intros t code err Ht. split; [by rewrite changes_app, Hh|]. intros _. by exists h, t. }
  unfold runDelete, deleteIMAPOlderThan. cbn [bind call wp].
  intros [n|e]; [|run_calls; rewrite <- !app_assoc; apply Hout; constructor].
  cbn [bind call wp]. intros [m|e]; [|run_calls; rewrite <- !app_assoc; apply Hout; constructor].
  destruct (imapEnabled cfg) eqn:Een; cbn [bind call wp].
  - apply imapEnabled_true in Een as Hpos. rewrite E3 by done.
    intros [e|]; [run_calls; rewrite <- !app_assoc; apply Hout|].
    { eapply gc_not_connected; [done|]. apply in_app_iff. right. right. right. by left. }
    cbn [bind call wp]. intros r.
    destruct r as [k|e]; run_calls; rewrite <- !app_assoc; apply Hout;
      [apply (gc_mail _ n m (Ok k))|apply (gc_mail _ n m (Err e))]; done.
  - rewrite <- !app_assoc. apply Hout. constructor. unfold imapEnabled in Een. rewrite Z.gtb_ltb in Een.
    by apply Z.ltb_ge in Een.
Qed.
End gc.

(** A run that was refused. *)
Lemma gc_outcome_refused opts cfg now err (h : history) :
  changes h = [] -> ~ gc_cleared cfg h -> gc_outcome opts cfg now (exitError, err) h.
Proof. intros E H. unfold gc_outcome. rewrite E. split; [by constructor|done]. Qed.


Lemma only_gc_dry opts cfg now :
  DryRun opts = true -> only dry_call (gc_Run (Message := Message) opts cfg now).
Proof.
  intros Hdry. unfold gc_Run, runDryRun, searchIMAPOlderThan, notifyGCSystemError. rewrite Hdry, andb_false_r.
  only_cmd.
Qed.

(** ** recover *)

Definition status_of (err : option goerr) : Z := match err with None => exitOK | Some _ => exitError end.

(** The changes of a run of recover with the recovery state [loaded], and its status. *)
Inductive recover_outcome (opts : cliOptions) (loaded : result (Z * Z * Time * bool)) (t : history)
    : Z -> Prop :=
  | recover_nothing : changes t = [] -> recover_outcome opts loaded t exitError
  | recover_kept prev curr at_ a :
      loaded = Ok (prev, curr, at_, true) -> In (Ev HasPendingReset (Ok false)) t ->
      RecoverMode opts = recoverModeKeepOld -> changes t = [Ev (ApplyRecovery curr) a] ->
      recover_outcome opts loaded t (status_of a)
  | recover_discarded prev curr at_ found a :
      loaded = Ok (prev, curr, at_, found) -> found = true \/ In (Ev HasPendingReset (Ok true)) t ->
      RecoverMode opts = recoverModeDiscardOld -> RecoverYes opts = true ->
      changes t = [Ev (ResetForRecovery (if found : bool then curr else 0)) a] ->
      recover_outcome opts loaded t (status_of a).

(** C17: recover changes the store only as told. It keeps the old data only with [--mode keep-old],
    a recovery pending and no reset under way, and discards data only with [--mode discard-old] and
    [--yes] and a recovery or a reset pending; each run makes at most one such change, with the
    UIDVALIDITY recorded when the change was detected, and its status is success exactly when it
    made one that succeeded. *)
Theorem recover_acts_only_when_asked opts cfg t code err out loaded :
  runs (recover_Run (Message := Message) opts cfg) (Ev LoadRecoveryRequired loaded :: t) (code, err, out) ->
  recover_outcome opts loaded (Ev LoadRecoveryRequired loaded :: t) code.
Proof.
  intros H. unfold recover_Run in H. cbn [bind call] in H. apply runs_recovery in H.
  apply (wp_runs _ t _ [] (fun r h => recover_outcome opts loaded (Ev LoadRecoveryRequired loaded :: h) r.1.1) H).
  destruct loaded as [[[[prev curr] at_] found]|e]; [|by apply recover_nothing].
  destruct found; cbn [negb].
  - cbn [bind call wp]. intros [pending|e]; [|by apply recover_nothing].
    unfold executeMode, runKeepOld, runDiscardOld.
    destruct (pending && _) eqn:E1; [by apply recover_nothing|].
    destruct (String.eqb_spec (RecoverMode opts) recoverModeKeepOld) as [Ek|].
    { assert (pending = false) as -> by (by destruct pending).
      cbn [bind call wp].
      intros [e|]; [apply (recover_kept _ _ _ prev curr at_ (Some e))|apply (recover_kept _ _ _ prev curr at_ None)];
        try done; right; by left. }
    destruct (String.eqb_spec (RecoverMode opts) recoverModeDiscardOld) as [Ed|]; [|by apply recover_nothing].
    destruct (RecoverYes opts) eqn:Ey; cbn [negb]; [|by apply recover_nothing].
    cbn [bind call wp].
    intros [e|]; [apply (recover_discarded _ _ _ prev curr at_ true (Some e))
                 |apply (recover_discarded _ _ _ prev curr at_ true None)]; try done; by left.
  - unfold handleNoRecoveryRequired. cbn [bind call wp]. intros [pending|e]; [|by apply recover_nothing].
    destruct pending; cbn [negb]; [|by apply recover_nothing].
    destruct (String.eqb_spec (RecoverMode opts) recoverModeDiscardOld) as [Ed|]; [|by apply recover_nothing].
    destruct (RecoverYes opts) eqn:Ey; cbn [negb andb]; [|by apply recover_nothing].
    cbn [bind call wp].
    intros [e|]; [apply (recover_discarded _ _ _ prev curr at_ false (Some e))
                 |apply (recover_discarded _ _ _ prev curr at_ false None)]; try done; right; right; by left.
Qed.
(** ** summary *)

Lemma only_summary ctx_err opts cfg now :
  only dry_call (summary_Run (Message := Message) ctx_err opts cfg now).
Proof.
  unfold summary_Run, generate, logSummarySystemError. only_cmd.
Qed.

(** The length of the period in days: that of the flag, or of the configuration. *)
Definition window_days (opts : cliOptions) (cfg : Config) : Z :=
  match Window opts with Some d => Days d | None => cf_WindowDays cfg end.

(** What a run of summary has sent: nothing, or the notice of a pending recovery, or the summary of
    the reports that the store returned, when there is something to report. *)
Definition summary_sent (opts : cliOptions) (cfg : Config) (now : Time) (t : history) : Prop :=
  forall s a, In (Ev (NLogSummary s) a) t ->
    In (Ev CheckRecoveryRequired (Ok false)) t /\ In (Ev BuildNotifier None) t /\
    su_ReportCount s <> 0 /\
    exists rs, In (Ev GetAllReports (Ok rs)) t /\
      is_summary_of (midnight_before (window_days opts cfg) now) (midnight_before 0 now) rs s.

(** A history without a summary. *)
Definition no_summary (X : Type) (c : cmd_call Message X) : bool :=
  match c with NLogSummary _ => false | _ => true end.

Lemma summary_sent_none opts cfg now (t : history) :
  Forall (fun e => ev_is no_summary e = true) t -> summary_sent opts cfg now t.
Proof. intros H s a Hi. rewrite Forall_forall in H. by specialize (H _ Hi). Qed.

End props.

(** ** Examples *)

(** A retention on the server of 20 days. *)
Definition sample_gc_config : Config :=
  applyDefaults
    {| raw_Host := Some "imap.example"; raw_Port := Some 993; raw_Mailbox := None; raw_FetchDays := None;
       raw_TLSCACert := None; raw_MaxMessageBytes := None; raw_IMAPRetentionDays := Some 20;
       raw_AllowedHost := None; raw_RootDir := None; raw_RetentionDays := None; raw_MaxEmailAgeDays := None;
       raw_WindowDays := None |}.

Definition sample_env (recovery : bool) : forall X, cmd_call unit X -> X :=
  obliging recovery 4 sample_meta {[7 := "eml"]} (Err (Errno ENOENT)).

Definition sample_gc := run (sample_env false) (gc_Run (sample_opts false) sample_gc_config 1700000000).


Definition sample_recover_opts (mode : string) (yes : bool) : cliOptions :=
  {| ConfigPath := "c.toml"; DryRun := false; Since := None; Window := None; Before := None;
     MaxEmailAge := None; RecoverMode := mode; RecoverYes := yes; ReprocessNotify := false |}.

Definition sample_recover :=
  run (sample_env true) (recover_Run (sample_recover_opts recoverModeDiscardOld true) sample_config).

Lemma recover_acts_only_when_asked_witness :
  exists loaded t out, sample_recover.1 = Ev LoadRecoveryRequired loaded :: t /\
    changes sample_recover.1 = [Ev (ResetForRecovery 5) None] /\
    recover_outcome (sample_recover_opts recoverModeDiscardOld true) loaded
      (Ev LoadRecoveryRequired loaded :: t) out.
Proof.
  eexists _, _, exitOK. split; [vm_compute; reflexivity|]. split; [vm_compute; reflexivity|].
  refine (recover_acts_only_when_asked _ sample_config _ exitOK None sample_recover.2.2 _ _).
  exact (run_runs (sample_env true) (recover_Run (sample_recover_opts recoverModeDiscardOld true) sample_config)).
Defined.

(** An evening in November 2023, in nanoseconds. *)
Definition sample_now : Time := (62135596800 + 1700000000) * 10 ^ 9.

(** A store with one report whose period ended on the day before. *)
Definition sample_summary_env : forall X, cmd_call unit X -> X :=
  fun X c =>
  match c in cmd_call _ X return X with
  | GetAllReports =>
      Ok [{| Tlsrpt.OrganizationName := "org"; Tlsrpt.ReportID := "r1";
             Tlsrpt.DateRangeOf := {| Tlsrpt.StartDatetime := sample_now - 2 * 86400 * 10 ^ 9;
                                    Tlsrpt.EndDatetime := sample_now - 86400 * 10 ^ 9 |};
             Tlsrpt.Policies := Some [] |}]
  | c => sample_env false _ c
  end.

Definition sample_summary :=
  run sample_summary_env (summary_Run (fun _ => None) (sample_opts false) sample_config sample_now).

