(* ===== verification/ReprocessProps.v ===== *)
(** * Properties of the reprocess subcommand (cmd/tlsrpt-digest/reprocess.go)

    A run that succeeds has saved exactly the reports of all messages that could be loaded; it
    gets the same reports and alerts out of a message as fetch did. *)
From S2P Require Import Prelude GoStr GoTime GoErr.
From S2P Require Tlsrpt StoreTypes Emails.
From S2P Require Import NotifyTypes Duration Config Mailparse Prog.
From S2P Require Import Cmd CmdSpec Fetch Reprocess FetchProps.

Section props.
Context {body : Type} (mime : Mime body) (json_unmarshal : string -> Tlsrpt.Report + string)
  (gunzip : string -> Tlsrpt.gzip_stream).

Abbreviation cmd := (prog (cmd_call (entity body))).
Abbreviation history := (list (event (cmd_call (entity body)))).
Abbreviation email := (LoadedEmail (entity body)).
Abbreviation reprocessCollectReports := (Reprocess.reprocessCollectReports mime json_unmarshal gunzip).
Abbreviation reprocess_Run := (Reprocess.reprocess_Run mime json_unmarshal gunzip).

Definition email_inputs (maxBytes : Z) (e : email) : list ReportInput :=
  map (report_input (Emails.le_UID e) (Emails.le_UIDValidity e))
      (entity_reports mime json_unmarshal gunzip maxBytes (Emails.le_Message e)).

Definition email_alerts (maxBytes : Z) (notify : bool) (e : email) : list Alert :=
  if notify
  then flat_map report_alerts (entity_reports mime json_unmarshal gunzip maxBytes (Emails.le_Message e))
  else [].

Lemma wp_warn_parse (notify : bool) (uid uv : Z) (h : history) (Q : unit -> history -> Prop) :
  (forall t, alerts t = [] -> changes t = [] -> Q tt (h ++ t)) -> wp (warn_parse (body := body) notify uid uv) h Q.
Proof.
  intros HQ. unfold warn_parse. destruct notify; [intros x; by apply HQ|].
  specialize (HQ []). rewrite app_nil_r in HQ. by apply HQ.
Qed.

Lemma wp_reprocess_attachments atts (e : email) (notify : bool) (h : history) (Q : list ReportInput * nat -> history -> Prop) :
  (forall n t,
     alerts t = (if notify then flat_map report_alerts (attachment_reports mime json_unmarshal gunzip atts) else []) ->
     changes t = [] ->
     Q (map (report_input (Emails.le_UID e) (Emails.le_UIDValidity e))
            (attachment_reports mime json_unmarshal gunzip atts), n) (h ++ t)) ->
  wp (reprocess_attachments mime json_unmarshal gunzip atts e notify) h Q.
Proof.
  revert h Q. unfold attachment_reports. induction atts as [|att atts IH]; intros h Q HQ; cbn [reprocess_attachments].
  - specialize (HQ 0%nat []). rewrite app_nil_r in HQ. apply HQ; [by destruct notify|done].
  - simpl in HQ. destruct (parseTLSRPTAttachment _ _ _ att) as [[report|err]|]; [| |by apply IH].
    + apply prog_wp_bind.
      assert (Hl : wp (if notify && Tlsrpt.HasFailure report then logAlerts report else Ret tt) h
                (fun _ h' => exists t, h' = h ++ t /\ changes t = [] /\
                             alerts t = if notify then report_alerts report else [])).
      { destruct notify; simpl; [|exists []; by rewrite app_nil_r].
        destruct (Tlsrpt.HasFailure report) eqn:Ef.
        - apply (prog_wp_mono _ _ (fun r h' => (exists t, h' = h ++ t /\ changes t = []) /\
            (exists t, h' = h ++ t /\ alerts t = report_alerts report))).
          + intros _ h' [(t & -> & Hc) (t' & E & Ha)]. apply app_inv_head in E as <-. by exists t.
          + apply wp_and.
            * apply (wp_only harmless); [by apply only_log_policies|].
              intros _ t Ht. exists t. split; [done|by apply changes_harmless].
            * apply wp_log_policies. intros t Ht _. by exists t.
        - exists []. rewrite app_nil_r. by rewrite report_alerts_none. }
      eapply prog_wp_mono; [|exact Hl]. intros _ h' (t & -> & Hc & Ha).
      apply prog_wp_bind, IH. intros n t' Ha' Hc'. rewrite <- app_assoc.
      apply HQ; rewrite ?alerts_app, ?changes_app, ?Ha, ?Ha', ?Hc, ?Hc'; [by destruct notify|done].
    + apply prog_wp_bind, wp_warn_parse. intros t Ha Hc. apply prog_wp_bind, IH. intros n t' Ha' Hc'.
      rewrite <- app_assoc. apply HQ; rewrite ?alerts_app, ?changes_app, ?Ha, ?Ha', ?Hc, ?Hc'; done.
Qed.

Lemma wp_reprocessCollectReports maxBytes (emails : list email) (notify : bool) (h : history)
    (Q : list ReportInput * nat -> history -> Prop) :
  (forall n t, alerts t = flat_map (email_alerts maxBytes notify) emails -> changes t = [] ->
     Q (flat_map (email_inputs maxBytes) emails, n) (h ++ t)) ->
  wp (reprocessCollectReports maxBytes emails notify) h Q.
Proof.
  revert h Q. induction emails as [|e emails IH]; intros h Q HQ; cbn [Reprocess.reprocessCollectReports].
  { specialize (HQ 0%nat []). rewrite app_nil_r in HQ. by apply HQ. }
  simpl in HQ.
  assert (Hi : email_inputs maxBytes e = map (report_input (Emails.le_UID e) (Emails.le_UIDValidity e))
    match ExtractAttachments mime (Emails.le_Message e) maxBytes with
    | Ok atts => attachment_reports mime json_unmarshal gunzip atts | Err _ => [] end) by done.
  assert (Ha0 : email_alerts maxBytes notify e = if notify then flat_map report_alerts
    match ExtractAttachments mime (Emails.le_Message e) maxBytes with
    | Ok atts => attachment_reports mime json_unmarshal gunzip atts | Err _ => [] end else []) by done.
  rewrite Hi, Ha0 in HQ. clear Hi Ha0.
  destruct (ExtractAttachments mime (Emails.le_Message e) maxBytes) as [atts|err].
  - apply prog_wp_bind, wp_reprocess_attachments. intros n t Ha Hc.
    apply prog_wp_bind, IH. intros n' t' Ha' Hc'. rewrite <- app_assoc.
    apply HQ; rewrite ?alerts_app, ?changes_app, ?Ha, ?Ha', ?Hc, ?Hc'; done.
  - apply prog_wp_bind, wp_warn_parse. intros t Ha Hc. apply prog_wp_bind, IH. intros n' t' Ha' Hc'.
    rewrite <- app_assoc. apply HQ; rewrite ?alerts_app, ?changes_app, ?Ha, ?Ha', ?Hc, ?Hc'; [by destruct notify|done].
Qed.

(** C26: a message that was loaded from the store is processed by reprocess as fetch processed its
    text: from a message that fetch found unseen, reprocess with [--notify] collects the same
    reports, in the same order, and gives the same alerts; without [--notify] it gives none. *)
Theorem reprocess_same_as_fetch ReadMessage cfg s uid raw (e : email) (notify : bool) t rs t' rs' n :
  ReadMessage raw = Ok (Emails.le_Message e) ->
  unseen s = true -> Emails.le_UID e = uid_of s -> Emails.le_UIDValidity e = uid ->
  runs (collect_message mime ReadMessage json_unmarshal gunzip cfg s uid raw) t rs ->
  runs (reprocessCollectReports (im_MaxMessageBytes (cf_IMAP cfg)) [e] notify) t' (rs', n) ->
  rs' = rs /\ alerts t' = if notify then alerts t else [].
Proof.
  intros Hread Hu Huid <- H H'.
  apply (wp_runs _ t _ [] (fun rs t => rs = map (report_input (uid_of s) (Emails.le_UIDValidity e))
            (message_reports mime ReadMessage json_unmarshal gunzip cfg raw) /\
          alerts t = flat_map report_alerts (message_reports mime ReadMessage json_unmarshal gunzip cfg raw))) in H
    as [-> Ha].
  2:{ apply wp_collect_message. intros t0 Ht. rewrite Hu in Ht. by split. }
  apply (wp_runs _ t' _ [] (fun r t => r.1 = flat_map (email_inputs (im_MaxMessageBytes (cf_IMAP cfg))) [e] /\
          alerts t = flat_map (email_alerts (im_MaxMessageBytes (cf_IMAP cfg)) notify) [e])) in H' as [Hr Ha'].
  2:{ apply wp_reprocessCollectReports. intros n0 t0 Ht _. by split. }
  simpl in Hr, Ha', Ha. rewrite app_nil_r in Hr, Ha'. subst rs'. rewrite Ha', Ha.
  unfold email_inputs, email_alerts, message_reports. rewrite Hread, Huid. by destruct notify.
Qed.
(** What a run that succeeded has done with the messages it loaded. *)
Definition reprocessed (opts : cliOptions) (cfg : Config) (emails : list email) (h : history) : Prop :=
  let maxBytes := im_MaxMessageBytes (cf_IMAP cfg) in
  changes h = [Ev (SaveEmailMetas (buildReprocessMetas emails)) None;
               Ev (SaveReports (flat_map (email_inputs maxBytes) emails)) None] /\
  alerts h = flat_map (email_alerts maxBytes (ReprocessNotify opts)) emails /\
  (ReprocessNotify opts = true -> exists h', h = h' ++ [Ev NFlush None]).

Lemma wp_reprocess_loaded opts cfg emails (h : history) :
  changes h = [] -> alerts h = [] ->
  wp (reprocess_loaded mime json_unmarshal gunzip opts cfg emails) h
     (fun r h' => r.1 = exitOK -> extends h h' /\ reprocessed opts cfg emails h').
Proof.
  intros Hc Ha. unfold reprocess_loaded. intros [e|]; cbn [bind]; [done|].
  apply prog_wp_bind, wp_reprocessCollectReports. intros n t Ht Hct. cbn [bind call wp].
  intros [e|]; cbn [bind]; [done|].
  assert (Hw : forall t', changes t' = [] -> alerts t' = [] ->
    (ReprocessNotify opts = true -> exists h', t' = h' ++ [Ev NFlush None]) ->
    extends h ((((h ++ [Ev (SaveEmailMetas (buildReprocessMetas emails)) None]) ++ t)
      ++ [Ev (SaveReports (flat_map (email_inputs (im_MaxMessageBytes (cf_IMAP cfg))) emails)) None]) ++ t') /\
    reprocessed opts cfg emails ((((h ++ [Ev (SaveEmailMetas (buildReprocessMetas emails)) None]) ++ t)
      ++ [Ev (SaveReports (flat_map (email_inputs (im_MaxMessageBytes (cf_IMAP cfg))) emails)) None]) ++ t')).
  { intros t' Hc' Ha' Hn. split; [rewrite <- !app_assoc; apply extends_app|]. split; [|split].
    - rewrite !changes_app, Hc, Hct, Hc'. done.
    - rewrite !alerts_app, Ha, Ht, Ha'. simpl. by rewrite !app_nil_r.
    - intros Hnotify. destruct (Hn Hnotify) as [h' ->]. eexists. by rewrite app_assoc. }
  destruct (ReprocessNotify opts) eqn:En; cbn [bind call wp].
  - intros [e|]; cbn [bind]; [done|]. intros _. apply Hw; try done. intros _. by exists [].
  - intros _. specialize (Hw []). rewrite app_nil_r in Hw. by apply Hw.
Qed.

Lemma wp_warn_failures fs (h : history) (Q : unit -> history -> Prop) :
  (forall t, alerts t = [] -> changes t = [] -> Q tt (h ++ t)) -> wp (warn_failures fs) h Q.
Proof.
  revert h Q. induction fs as [|[uid uv] fs IH]; intros h Q HQ; cbn [warn_failures].
  - specialize (HQ []). rewrite app_nil_r in HQ. by apply HQ.
  - intros x. apply IH. intros t Ha Hc. rewrite <- app_assoc. by apply HQ.
Qed.

Lemma runs_reprocess opts cfg t err :
  runs (reprocess_Run opts cfg) t (exitOK, err) ->
  exists emails loadErr, In (Ev LoadEmails (emails, loadErr)) t /\
    (loadErr = None \/ (collectLoadEmailFailures loadErr).2 = true) /\ reprocessed opts cfg emails t.
Proof.
  intros H.
  apply (wp_runs _ t _ [] (fun r t => r.1 = exitOK ->
    exists emails loadErr, In (Ev LoadEmails (emails, loadErr)) t /\
    (loadErr = None \/ (collectLoadEmailFailures loadErr).2 = true) /\ reprocessed opts cfg emails t) H);
    [|done]. clear H.
  unfold Reprocess.reprocess_Run. cbn [bind call wp]. intros loaded.
  destruct loaded as [[[[p c] d] found]|e]; [destruct found; [done|]|intros x x'; done].
  cbn [bind call wp]. intros [emails loadErr].
  set (h := _ ++ [Ev LoadEmails _]).
  assert (Hw : forall h0, extends h h0 -> changes h0 = [] -> alerts h0 = [] ->
    loadErr = None \/ (collectLoadEmailFailures loadErr).2 = true ->
    wp (reprocess_loaded mime json_unmarshal gunzip opts cfg emails) h0 (fun r t => r.1 = exitOK ->
      exists emails loadErr, In (Ev LoadEmails (emails, loadErr)) t /\
      (loadErr = None \/ (collectLoadEmailFailures loadErr).2 = true) /\ reprocessed opts cfg emails t)).
  { intros h0 Hx Hc Ha Hl. eapply prog_wp_mono; [|by apply wp_reprocess_loaded].
    intros r h' Hr Hok. destruct (Hr Hok) as [Hx' Hp]. exists emails, loadErr. split; [|by split].
    eapply extends_In; [exact Hx'|]. eapply extends_In; [exact Hx|]. right. by left. }
  destruct loadErr as [e|]; [|by apply Hw; [..|left]].
  destruct (collectLoadEmailFailures (Some e)) as [fs all] eqn:Ef. destruct all; cbn [negb].
  - assert (Hl : @Some goerr e = None \/ true = true) by (by right).
    apply prog_wp_bind. destruct (ReprocessNotify opts); [apply wp_warn_failures; intros t' Ha' Hc'|];
      apply Hw; try done; try apply extends_app; by rewrite ?alerts_app, ?changes_app, ?Ha', ?Hc'.
  - cbn [bind call wp notifyReprocessSystemError notifySystemError]. intros x x'. done.
Qed.

(** When reprocess succeeds, it has saved exactly the reports of all attachments of all messages
    that the store could load, in order, and nothing else but the index of these messages; messages
    may have been left out only because each of them failed to load by itself. Alerts are given
    for exactly these reports, and delivered, if [--notify] is set, and none otherwise. *)
Theorem reprocess_saves_all opts cfg t err :
  runs (reprocess_Run opts cfg) t (exitOK, err) ->
  exists emails loadErr, In (Ev LoadEmails (emails, loadErr)) t /\
    (loadErr = None \/ (collectLoadEmailFailures loadErr).2 = true) /\ reprocessed opts cfg emails t.
Proof. apply runs_reprocess. Qed.

End props.

(** ** Examples *)

Definition sample_entity : entity nat := {| Header := fun _ : string => "multipart/mixed"; Body := 1%nat |}.

(** The message that fetch stored, as the store loads it. *)
Definition sample_email : LoadedEmail (entity nat) :=
  {| Emails.le_UID := 7; Emails.le_UIDValidity := 5; Emails.le_InternalDate := 1700000000;
     Emails.le_Path := ["store"; "emails"; "7.eml"]; Emails.le_Message := sample_entity |}.

Definition sample_reprocess_opts : cliOptions :=
  {| ConfigPath := "c.toml"; DryRun := false; Since := None; Window := None; Before := None;
     MaxEmailAge := None; RecoverMode := ""; RecoverYes := false; ReprocessNotify := true |}.

Definition sample_reprocess_env : forall X, cmd_call (entity nat) X -> X :=
  fun X c =>
  match c in cmd_call _ X return X with
  | LoadEmails => ([sample_email], None)
  | c => obliging false 5 sample_meta {[7 := "eml"]} (Err (Errno ENOENT)) _ c
  end.

Definition sample_report_of (_ : string) : Tlsrpt.Report + string := inl (sample_report "192.0.2.1").
Definition no_gzip (_ : string) : Tlsrpt.gzip_stream := Tlsrpt.GzBadHeader "gzip".

Definition sample_reprocess :=
  run sample_reprocess_env
    (reprocess_Run sample_mime sample_report_of no_gzip sample_reprocess_opts sample_config).

Lemma reprocess_saves_all_witness :
  length (alerts sample_reprocess.1) = 1%nat /\
  exists emails loadErr, In (Ev LoadEmails (emails, loadErr)) sample_reprocess.1 /\
    (loadErr = None \/ (collectLoadEmailFailures loadErr).2 = true) /\
    reprocessed sample_mime sample_report_of no_gzip sample_reprocess_opts sample_config emails sample_reprocess.1.
Proof.
  split; [vm_compute; reflexivity|].
  refine (reprocess_saves_all sample_mime sample_report_of no_gzip _ _ _ sample_reprocess.2.2 _).
  exact (run_runs sample_reprocess_env
    (reprocess_Run sample_mime sample_report_of no_gzip sample_reprocess_opts sample_config)).
Defined.

(** The message when fetch found it. *)
Definition sample_state : fetchMsgState :=
  {| meta := hd {| Imap.mm_UID := 0; Imap.mm_Size := 0; Imap.mm_Date := 0; Imap.mm_Seen := false;
                   Imap.mm_MessageID := "" |} (Imap.Messages sample_meta);
     emlExistedBefore := false; rawEML := Some "eml" |}.

Lemma reprocess_same_as_fetch_witness :
  let read := fun _ : string => Ok sample_entity in
  let fetched := run sample_reprocess_env
    (collect_message sample_mime read sample_report_of no_gzip sample_config sample_state 5 "eml") in
  let again := run sample_reprocess_env
    (reprocessCollectReports sample_mime sample_report_of no_gzip
       (im_MaxMessageBytes (cf_IMAP sample_config)) [sample_email] true) in
  length fetched.2 = 1%nat /\ again.2.1 = fetched.2 /\ alerts again.1 = alerts fetched.1.
Proof.
  cbv zeta. split; [vm_compute; reflexivity|].
  refine (reprocess_same_as_fetch sample_mime sample_report_of no_gzip (fun _ => Ok sample_entity) sample_config
    sample_state 5 "eml" sample_email true _ _ _ _
    (run sample_reprocess_env (reprocessCollectReports sample_mime sample_report_of no_gzip
       (im_MaxMessageBytes (cf_IMAP sample_config)) [sample_email] true)).2.2 _ _ _ _ _ _);
    [reflexivity..| |].
  - apply run_runs.
  - exact (run_runs sample_reprocess_env (reprocessCollectReports sample_mime sample_report_of no_gzip
       (im_MaxMessageBytes (cf_IMAP sample_config)) [sample_email] true)).
Defined.
