(* ===== verification/CliProps.v ===== *)
(** * Properties of the command line (cmd/tlsrpt-digest/main.go)

    Every accepted invocation is well formed. *)
From S2P Require Import Prelude GoStr GoTime GoErr.
From S2P Require Import NotifyTypes Duration Config Prog Cmd RecoverCmd Cli.

(** An invariant of the targets that every flag preserves holds of what was parsed. *)
Lemma Parse_inv {S} (P : S -> Prop) flags st args st' rest :
  (forall f v s s', In f flags -> P s -> fl_set f s v = (s', None) -> P s') ->
  P st -> Parse flags st args = Ok (st', rest) -> P st'.
Proof.
  intros Hset. remember (length args) as n eqn:En. revert st args En.
  induction (lt_wf n) as [n _ IH]. intros st args -> Hst.
  destruct args as [|s args]; simpl; [by intros [= <- <-]|].
  destruct (classify_arg s) as [| | |name v]; try done; [by intros [= <- <-]..|].
  destruct (find_flag flags name) as [f|] eqn:Ef; [|by destruct (_ || _)].
  apply find_some in Ef as [Hf _].
  assert (Hgo : forall v rest0, (length rest0 <= length args)%nat ->
    match fl_set f st v with
    | (_, Some e) => Err (invalid_value f v e)
    | (s1, None) => Parse flags s1 rest0
    end = Ok (st', rest) -> P st').
  { intros v0 rest0 Hl. destruct (fl_set f st v0) as [s1 [e|]] eqn:Es; [done|].
    apply (IH (length rest0)); [simpl; lia|done|by eapply Hset]. }
  destruct v as [v|]; [by apply Hgo|]. destruct (fl_bool f); [by apply Hgo|].
  destruct args as [|v args]; [done|]. apply Hgo. simpl. lia.
Qed.

(** A period that was given is at least one day. *)
Definition positive (d : option Duration) : Prop := match d with Some d => 1 <= Days d | None => True end.

(** The options a subcommand can have. *)
Record options_of (subcmd : string) (o : cliOptions) : Prop := {
  of_since : Since o = None \/ subcmd = subcommandFetch;
  of_window : Window o = None \/ subcmd = subcommandSummary;
  of_before : Before o = None \/ subcmd = subcommandGC;
  of_age : MaxEmailAge o = None \/ subcmd = subcommandGC;
  of_mode : RecoverMode o = "" \/ subcmd = subcommandRecover;
  of_yes : RecoverYes o = false \/ subcmd = subcommandRecover;
  of_notify : ReprocessNotify o = false \/ subcmd = subcommandReprocess;
  of_periods : positive (Since o) /\ positive (Window o) /\ positive (Before o) /\ positive (MaxEmailAge o)
}.

(** A well-formed invocation. *)
Record invocation_ok (inv : cliInvocation) : Prop := {
  ok_subcommand : In (Subcommand inv) runner_names;
  ok_config : ConfigPath (Options inv) <> "";
  ok_options : options_of (Subcommand inv) (Options inv);
  ok_dry_run : DryRun (Options inv) = true ->
    Subcommand inv <> subcommandReprocess /\ Subcommand inv <> subcommandRecover;
  ok_mode : In (RecoverMode (Options inv)) [""; recoverModeKeepOld; recoverModeDiscardOld];
  ok_yes : RecoverYes (Options inv) = true -> RecoverMode (Options inv) <> ""
}.

Lemma durationFlag_Set_positive d v d' :
  positive d -> durationFlag_Set d v = (d', None) -> positive d'.
Proof.
  intros Hd. unfold durationFlag_Set. destruct (ParseDuration v) as [[n]|e] eqn:E; [|done].
  apply ParseDuration_spec in E as (_ & _ & _ & _ & Hn & _). intros [= <-]. simpl. lia.
Qed.

Lemma options_of_empty subcmd configPath : options_of subcmd (empty_options configPath).
Proof. split; simpl; auto. Qed.

(** Each flag of a subcommand sets an option of that subcommand. *)
Lemma options_of_flag subcmd f v o o' :
  In f (subcommand_flags subcmd) -> options_of subcmd o -> fl_set f o v = (o', None) -> options_of subcmd o'.
Proof.
  intros Hf Ho. destruct Ho as [H1 H2 H3 H4 H5 H6 H7 (P1 & P2 & P3 & P4)].
  assert (Hb : forall put : cliOptions -> bool -> cliOptions, (forall b, options_of subcmd (put o b)) ->
    fl_set (bool_flag "x" put) o v = (o', None) -> options_of subcmd o').
  { intros put Hput. simpl. destruct (ParseBool v) as [b|]; [|done]. by intros [= <-]. }
  assert (Hd : forall (get : cliOptions -> option Duration) put, positive (get o) ->
    (forall d, positive d -> options_of subcmd (put o d)) ->
    fl_set (duration_flag "x" get put) o v = (o', None) -> options_of subcmd o').
  { intros get put Hg Hput. simpl. destruct (durationFlag_Set (get o) v) as [d err] eqn:E.
    intros [= <- ->]. apply Hput. by eapply durationFlag_Set_positive. }
  unfold subcommand_flags, registerFlags in Hf. simpl in Hf. destruct Hf as [<-|[<-|Hf]].
  1,2: apply Hb; intros b; by split.
  destruct (String.eqb_spec subcmd subcommandFetch) as [->|].
  { destruct Hf as [<-|[]]. apply Hd; [done|]. intros d Hp. split; simpl; auto. }
  destruct (String.eqb_spec subcmd subcommandSummary) as [->|].
  { destruct Hf as [<-|[]]. apply Hd; [done|]. intros d Hp. split; simpl; auto. }
  destruct (String.eqb_spec subcmd subcommandGC) as [->|].
  { destruct Hf as [<-|[<-|[]]]; (apply Hd; [done|]; intros d Hp; split; simpl; auto). }
  destruct (String.eqb_spec subcmd subcommandRecover) as [->|].
  { destruct Hf as [<-|[<-|[]]]; [|apply Hb; intros b; split; simpl; auto].
    simpl. intros [= <-]. split; simpl; auto. }
  destruct (String.eqb_spec subcmd subcommandReprocess) as [->|]; [|done].
  destruct Hf as [<-|[]]. apply Hb. intros b. split; simpl; auto.
Qed.

(** The path of the configuration is set by the global flags only. *)
Lemma subcommand_flag_config subcmd f v o o' :
  In f (subcommand_flags subcmd) -> fl_set f o v = (o', None) -> ConfigPath o' = ConfigPath o.
Proof.
  unfold subcommand_flags, registerFlags. intros Hf.
  assert (Hd : forall get put, (forall d, ConfigPath (put o d) = ConfigPath o) ->
    fl_set (duration_flag "x" get put) o v = (o', None) -> ConfigPath o' = ConfigPath o)
    by (intros get put Hp; simpl; destruct (durationFlag_Set _ _); by intros [= <- _]).
  assert (Hb : forall put, (forall b, ConfigPath (put o b) = ConfigPath o) ->
    fl_set (bool_flag "x" put) o v = (o', None) -> ConfigPath o' = ConfigPath o)
    by (intros put Hp; simpl; destruct (ParseBool v); [by intros [= <-]|done]).
  repeat first [destruct Hf as [<-|Hf]; [first [by apply Hd | by apply Hb | by simpl; intros [= <-]]|]
               | case_match]; done.
Qed.

(** What [validateFlags] adds. *)
Lemma validateFlags_ok subcmd o :
  validateFlags subcmd o = None -> options_of subcmd o ->
  ConfigPath o <> "" /\
  (DryRun o = true -> In subcmd runner_names -> subcmd <> subcommandReprocess /\ subcmd <> subcommandRecover) /\
  In (RecoverMode o) [""; recoverModeKeepOld; recoverModeDiscardOld] /\
  (RecoverYes o = true -> RecoverMode o <> "").
Proof.
  unfold validateFlags. intros H Ho.
  destruct (String.eqb_spec (ConfigPath o) "") as [|Hc]; [done|]. split; [done|].
  destruct (DryRun o && _ && _ && _) eqn:Edry; [done|]. split.
  { intros Hd _. rewrite Hd in Edry. split; intros ->; by vm_compute in Edry. }
  destruct (String.eqb_spec subcmd subcommandRecover) as [->|Hr]; cbn [negb] in H.
  - destruct (String.eqb_spec (RecoverMode o) "") as [->|Hm]; cbn [negb andb] in H.
    + split; [by left|]. by destruct (RecoverYes o).
    + rewrite andb_false_r in H. split; [|done].
      destruct (String.eqb_spec (RecoverMode o) recoverModeKeepOld) as [->|]; [right; by left|].
      destruct (String.eqb_spec (RecoverMode o) recoverModeDiscardOld) as [->|]; [right; right; by left|done].
  - destruct (of_mode _ _ Ho) as [->|]; [|done]. split; [by left|].
    destruct (of_yes _ _ Ho) as [->|]; done.
Qed.

Lemma parseCLI_ok args inv : parseCLI args = Ok inv -> invocation_ok inv.
Proof.
  unfold parseCLI. destruct (Parse global_flags "" args) as [[configPath rest]|e]; [|done].
  destruct rest as [|subcmd rest]; [done|]. destruct (String.eqb subcmd subcommandHelp); [done|].
  destruct (existsb (String.eqb subcmd) runner_names) eqn:En; cbn [negb]; [|done].
  destruct (Parse (subcommand_flags subcmd) _ rest) as [[o [|]]|e] eqn:Ep; [|done..].
  destruct (validateFlags subcmd o) eqn:Ev; [done|]. intros [= <-].
  apply existsb_exists in En as (x & Hx & E). apply String.eqb_eq in E as <-.
  assert (Ho : options_of subcmd o)
    by (eapply Parse_inv; [|apply options_of_empty|exact Ep]; intros; by eapply options_of_flag).
  destruct (validateFlags_ok _ _ Ev Ho) as (Hc & Hd & Hm & Hy). split; simpl; auto.
Qed.

(** Every invocation that is accepted is well formed: a known subcommand, a configuration file,
    only options of that subcommand, no [--dry-run] for the subcommands that do not support it, a
    known recovery mode, [--yes] only together with a mode, and periods of at least a day. *)
Theorem parseCLI_wellformed args inv : parseCLI args = Ok inv -> invocation_ok inv.
Proof. apply parseCLI_ok. Qed.

Definition sample_args : list string :=
  ["--config"; "c.toml"; "gc"; "-n"; "--before"; "7d"; "--max-email-age=2w"].

Lemma parseCLI_wellformed_witness :
  exists inv, parseCLI sample_args = Ok inv /\ Before (Options inv) = Some {| Days := 7 |} /\
    MaxEmailAge (Options inv) = Some {| Days := 14 |} /\ invocation_ok inv.
Proof.
  destruct (parseCLI sample_args) as [inv|e] eqn:E; [|discriminate E].
  pose proof (parseCLI_wellformed sample_args inv E) as H. exists inv. split; [reflexivity|].
  vm_compute in E. injection E as <-. split; [reflexivity|]. split; [reflexivity|exact H].
Defined.
