(* ===== verification/MainProps.v ===== *)
(** * Properties of the whole program (cmd/tlsrpt-digest/main.go, boot.go)

    The writer lock around everything that changes the store, dry runs, and exit statuses, for
    every run of the program with any arguments. *)
From S2P Require Import Prelude GoStr GoTime GoErr.
From S2P Require Tlsrpt.
From S2P Require Import NotifyTypes Duration Config Mailparse Prog Lock StoreTypes.
From S2P Require Handler HandlerProps.
From S2P Require Import Cmd CmdSpec Fetch Gc RecoverCmd Reprocess SummaryCmd Cli Boot Main.
From S2P Require Import FetchProps CmdProps CliProps.

(** ** The lock in the bootstrap *)

(** Whether the writer lock is held after a call. *)
Definition boot_lock_after (held : bool) (e : event boot_call) : bool :=
  match e with
  | Ev c x =>
      match c in boot_call X return X -> bool with
      | AcquireLock _ => fun x => held || is_ok x
      | ReleaseLock => fun _ => false
      | _ => fun _ => held
      end x
  end.

Definition boot_held (h : list (event boot_call)) : bool := foldl boot_lock_after false h.

Lemma boot_held_app h t : boot_held (h ++ t) = foldl boot_lock_after (boot_held h) t.
Proof. apply foldl_app. Qed.

(** Calls that leave the lock as it is. *)
Definition no_lock (X : Type) (c : boot_call X) : bool :=
  match c with AcquireLock _ | ReleaseLock => false | _ => true end.

Lemma boot_held_no_lock held (t : list (event boot_call)) :
  Forall (fun e => ev_is no_lock e = true) t -> foldl boot_lock_after held t = held.
Proof.
  intros H. revert held. induction H as [|[X c x] t Hc H IH]; intros held; [done|]. simpl.
  rewrite IH. by destruct c.
Qed.

Lemma wp_no_lock {A} (p : prog boot_call A) h (Q : A -> list (event boot_call) -> Prop) :
  only no_lock p -> (forall a h', boot_held h' = boot_held h -> Q a h') -> wp p h Q.
Proof.
  intros Ho HQ. apply (wp_only no_lock); [done|]. intros a t Ht. apply HQ.
  by rewrite boot_held_app, boot_held_no_lock.
Qed.

Lemma wp_CloseBoot b h (Q : BootContext * option goerr -> list (event boot_call) -> Prop) :
  boot_held h = b_LockHandle b -> (forall r h', boot_held h' = false -> Q r h') -> wp (CloseBoot b) h Q.
Proof.
  intros Hh HQ. unfold CloseBoot. apply prog_wp_bind. apply wp_no_lock; [by destruct (b_SummaryGuard b)|].
  intros e1 h1 H1. rewrite Hh in H1. destruct (b_LockHandle b).
  - intros x. apply HQ. by rewrite boot_held_app.
  - by apply HQ.
Qed.

Lemma only_boot_notify n kind cfg : only no_lock (boot_notifySystemError n kind cfg).
Proof. by destruct n. Qed.

(** Opening the store for more than reading, which creates it and cleans it up. *)
Definition opens_for_writing (X : Type) (c : boot_call X) : bool :=
  match c with OpenStore _ _ OpenReadOnly => false | OpenStore _ _ _ => true | _ => false end.

Definition no_writing_open (X : Type) (c : boot_call X) : bool := negb (opens_for_writing X c).

(** It is done under the writer lock of the directory that is opened. *)
Definition opens_locked (h : list (event boot_call)) : Prop :=
  forall h1 root idn mode x h2, h = h1 ++ Ev (OpenStore root idn mode) x :: h2 -> mode <> OpenReadOnly ->
    boot_held h1 = true /\ In (Ev (AcquireLock (LockPath root)) (Ok tt)) h1.

Lemma opens_locked_app h t :
  Forall (fun e => ev_is no_writing_open e = true) t -> opens_locked h -> opens_locked (h ++ t).
Proof.
  intros Ht Hh h1 root idn mode x h2 E Hm. apply app_eq_app in E as (l & [[-> E]|[-> E]]).
  - destruct l as [|e l]; simpl in E.
    + rewrite app_nil_r in *. subst t. apply Forall_cons_iff in Ht as [Ht _]. by destruct mode.
    + injection E as <- _. by eapply Hh.
  - subst t. apply Forall_app in Ht as [_ [Ht _]%Forall_cons_iff]. by destruct mode.
Qed.

Lemma wp_no_writing_open {A} (p : prog boot_call A) h :
  only no_writing_open p -> opens_locked h -> wp p h (fun _ h' => opens_locked h').
Proof. intros Ho Hh. apply (wp_only no_writing_open); [done|]. intros a t Ht. by apply opens_locked_app. Qed.

Lemma only_CloseBoot b : only no_writing_open (CloseBoot b).
Proof. unfold CloseBoot. repeat first [progress only_cmd|done|case_match]. Qed.

Lemma only_boot_fail b err : only no_writing_open (boot_fail b err).
Proof. unfold boot_fail. apply only_bind; [apply only_CloseBoot|done]. Qed.

Lemma opens_notify n kind cfg : only no_writing_open (boot_notifySystemError n kind cfg).
Proof. by destruct n. Qed.

Lemma opens_bootstrap_open b dry override h :
  let mode := match override with Some m => m | None => storeOpenMode dry end in
  (mode = OpenReadOnly \/
   boot_held h = true /\ In (Ev (AcquireLock (LockPath (root_of (b_Config b)))) (Ok tt)) h) ->
  opens_locked h -> wp (bootstrap_open b dry override) h (fun _ h' => opens_locked h').
Proof.
  intros mode Hmode Hh. unfold bootstrap_open. fold mode. cbn [bind call wp]. intros opened.
  assert (H1 : opens_locked (h ++ [Ev (OpenStore (root_of (b_Config b)) (storeIdentity (b_Config b)) mode) opened])).
  { destruct Hmode as [->|[Hheld Hin]]; [apply opens_locked_app; [by repeat constructor|done]|].
    intros h1 root idn mode' x h2. destruct h2 as [|e h2 _] using rev_ind; intros E Hm.
    - apply app_inj_tail in E as [<- E].
      apply (f_equal (fun e => match e with Ev c _ => match c with OpenStore r _ _ => Some r | _ => None end end)) in E.
      by injection E as <-.
    - rewrite app_comm_cons, app_assoc in E. apply app_inj_tail in E as [-> _]. by eapply Hh. }
  destruct opened as [u|e]; [done|].
  apply prog_wp_bind. eapply prog_wp_mono; [|apply wp_no_writing_open; [apply opens_notify|exact H1]].
  intros r h' H'. apply wp_no_writing_open; [apply only_boot_fail|done].
Qed.

(** What the bootstrap leaves behind: on failure the lock is free, on success it is held exactly
    when the context says so. *)
Definition boot_lock_ok (locks : bool) (r : result BootContext) (h : list (event boot_call)) : Prop :=
  match r with
  | Ok b => boot_held h = b_LockHandle b /\ b_LockHandle b = locks
  | Err _ => boot_held h = false
  end.

Lemma wp_boot_fail locks b err h : boot_held h = b_LockHandle b -> wp (boot_fail b err) h (boot_lock_ok locks).
Proof. intros Hh. unfold boot_fail. apply prog_wp_bind, wp_CloseBoot; [done|]. by intros. Qed.

Section boot.
Context (ReadConfig : string -> result string) (AppendCertsFromPEM : string -> bool)
  (Abs : string -> result string) (Decode : string -> result rawConfig)
  (url_Parse : string -> option Handler.url) (ToLower : string -> string).
Abbreviation Bootstrap := (Boot.Bootstrap ReadConfig AppendCertsFromPEM Abs Decode url_Parse ToLower).

Lemma wp_bootstrap_summary b h :
  boot_held h = false -> b_LockHandle b = false -> wp (bootstrap_summary b) h (boot_lock_ok false).
Proof.
  intros Hh Hb. unfold bootstrap_summary. cbn [bind call wp].
  intros [u|e]; [cbn [bind call wp]; intros [u'|e]|].
  - split; [by rewrite !boot_held_app, Hh|done].
  - apply wp_boot_fail. by rewrite !boot_held_app, Hh.
  - apply wp_boot_fail. by rewrite !boot_held_app, Hh.
Qed.

Lemma wp_bootstrap_open b dry override h :
  boot_held h = b_LockHandle b -> wp (bootstrap_open b dry override) h (boot_lock_ok (b_LockHandle b)).
Proof.
  intros Hh. unfold bootstrap_open. cbn [bind call wp]. intros [u|e].
  - split; [by rewrite boot_held_app|done].
  - apply prog_wp_bind, wp_no_lock; [apply only_boot_notify|]. intros a h' H'.
    apply wp_boot_fail. by rewrite H', boot_held_app.
Qed.

Lemma wp_acquire b h (Q : result BootContext -> list (event boot_call) -> Prop) :
  boot_held h = false -> b_LockHandle b = false ->
  (forall h', boot_held h' = true -> Q (Ok (with_lock b)) h') ->
  (forall e h', boot_held h' = false -> Q (Err e) h') ->
  wp (bootstrapAcquireWriterLock b) h Q.
Proof.
  intros Hh Hb HOk HErr. unfold bootstrapAcquireWriterLock. cbn [bind call wp]. intros [u|e].
  - apply HOk. by rewrite boot_held_app, Hh.
  - apply prog_wp_bind, wp_no_lock; [apply only_boot_notify|]. intros a h' H'.
    apply HErr. by rewrite H', boot_held_app, Hh.
Qed.

Lemma wp_Bootstrap subcmd configPath runID dry override :
  wp (Bootstrap subcmd configPath runID dry override) []
     (boot_lock_ok (negb dry && negb (String.eqb subcmd subcommandSummary))).
Proof.
  unfold Boot.Bootstrap. cbn [bind call wp]. intros su er. set (h0 := (_ ++ _) ++ _).
  assert (H0 : boot_held h0 = false) by done.
  destruct (LoadFile _ _ _ _ _).1 as [cfg|e]; [|done].
  destruct (String.eqb subcmd subcommandSummary) eqn:Es.
  { cbn [negb]. rewrite andb_false_r. by apply wp_bootstrap_summary. }
  cbn [negb]. rewrite andb_true_r. apply prog_wp_bind. apply wp_no_lock.
  { destruct dry; cbn [negb]; [done|]. apply only_lift.
    unfold validateAndEnsureRootDir. repeat first [progress only_cmd|done|case_match]. }
  intros prepared h1 H1. rewrite H0 in H1. destruct prepared as [e|]; [by apply wp_boot_fail|].
  destruct (bootstrap_notifier _ _ _ _) as [n|e]; [|by apply wp_boot_fail].
  apply prog_wp_bind. destruct dry; cbn [negb].
  - apply (wp_bootstrap_open (with_notifier (new_boot cfg subcmd runID su er) n)). done.
  - apply wp_acquire; [done|done| |].
    + intros h2 H2. by apply (wp_bootstrap_open (with_lock (with_notifier (new_boot cfg subcmd runID su er) n))).
    + intros e h2 H2. by apply wp_boot_fail.
Qed.

Lemma opens_Bootstrap subcmd configPath runID (dry : bool) override :
  (dry = true -> override = None) ->
  wp (Bootstrap subcmd configPath runID dry override) [] (fun _ h => opens_locked h).
Proof.
  intros Hdry. unfold Boot.Bootstrap. cbn [bind call wp]. intros su er. set (h0 := (_ ++ _) ++ _).
  assert (H0 : opens_locked h0) by (apply (opens_locked_app []); [by repeat constructor|by intros []]).
  destruct (LoadFile _ _ _ _ _).1 as [cfg|e]; [|done].
  destruct (String.eqb subcmd subcommandSummary).
  { apply wp_no_writing_open; [|done]. unfold bootstrap_summary.
    repeat first [progress only_cmd|done|case_match|apply only_boot_fail]. }
  apply prog_wp_bind. eapply prog_wp_mono; [|apply wp_no_writing_open; [|exact H0]].
  2: { destruct dry; cbn [negb]; [done|]. apply only_lift. unfold validateAndEnsureRootDir.
       repeat first [progress only_cmd|done|case_match]. }
  intros prepared h1 H1. destruct prepared as [e|]; [apply wp_no_writing_open; [apply only_boot_fail|done]|].
  destruct (bootstrap_notifier _ _ _ _) as [n|e]; [|apply wp_no_writing_open; [apply only_boot_fail|done]].
  destruct dry; cbn [negb].
  { apply opens_bootstrap_open; [left|done]. by rewrite Hdry. }
  unfold bootstrapAcquireWriterLock. cbn [bind call wp]. intros lh.
  assert (H2 : opens_locked (h1 ++ [Ev (AcquireLock (LockPath (root_of cfg))) lh]))
    by (apply opens_locked_app; [by repeat constructor|done]).
  destruct lh as [[]|e].
  - apply opens_bootstrap_open; [right|done]. rewrite boot_held_app. split.
    + simpl. by destruct (boot_held h1).
    + apply in_app_iff. right. by left.
  - apply prog_wp_bind, prog_wp_bind. eapply prog_wp_mono; [|apply wp_no_writing_open; [apply opens_notify|exact H2]].
    intros a h' H'. apply wp_no_writing_open; [apply only_boot_fail|done].
Qed.
End boot.

(** ** Runs of the program *)

(** The calls of the bootstrap, and of the subcommand. *)
Definition boot_event {M} (e : event (cli_call M)) : option (event boot_call) :=
  match e with
  | Ev c x =>
      match c in cli_call _ X return X -> option (event boot_call) with
      | BootCall c => fun x => Some (Ev c x)
      | CmdCall _ => fun _ => None
      end x
  end.

Definition boot_part {M} (t : list (event (cli_call M))) : list (event boot_call) := omap boot_event t.

(** Whether the process holds the writer lock after these calls. *)
Definition held {M} (t : list (event (cli_call M))) : bool := boot_held (boot_part t).

Lemma boot_part_boot {M} t : boot_part (map (lift_event (@BootCall M)) t) = t.
Proof. induction t as [|[X c x] t IH]; [done|]. exact (f_equal (cons _) IH). Qed.

Lemma boot_part_cmd {M} t : boot_part (map (lift_event (@CmdCall M)) t) = [].
Proof. induction t as [|[X c x] t IH]; [done|]. exact IH. Qed.

Lemma boot_part_app {M} (t1 t2 : list (event (cli_call M))) : boot_part (t1 ++ t2) = boot_part t1 ++ boot_part t2.
Proof. apply omap_app. Qed.

(** A call of the subcommand with a property. *)
Definition cmd_is {M} (P : forall X, cmd_call M X -> bool) (e : event (cli_call M)) : bool :=
  match e with
  | Ev c _ => match c with CmdCall c => P _ c | BootCall _ => false end
  end.

Section main_props.
Context {body : Type} (mime : Mime body) (ReadMessage : string -> result (entity body))
  (json_unmarshal : string -> Tlsrpt.Report + string) (gunzip : string -> Tlsrpt.gzip_stream)
  (ReadConfig : string -> result string) (AppendCertsFromPEM : string -> bool)
  (Abs : string -> result string) (Decode : string -> result rawConfig)
  (url_Parse : string -> option Handler.url) (ctx_err : nat -> option goerr) (runID : string) (now : Time).

Abbreviation history := (list (event (cli_call (entity body)))).
Abbreviation Bootstrap := (Boot.Bootstrap ReadConfig AppendCertsFromPEM Abs Decode url_Parse (ToLower mime)).
Abbreviation run_subcommand := (Main.run_subcommand mime ReadMessage json_unmarshal gunzip ctx_err now).
Abbreviation run_invocation := (Main.run_invocation mime ReadMessage json_unmarshal gunzip ReadConfig
  AppendCertsFromPEM Abs Decode url_Parse ctx_err runID now).
Abbreviation runCLI := (Main.runCLI mime ReadMessage json_unmarshal gunzip ReadConfig
  AppendCertsFromPEM Abs Decode url_Parse ctx_err runID now).

Definition store_override (inv : cliInvocation) : option OpenMode :=
  if String.eqb (Subcommand inv) subcommandRecover then Some (recoverStoreOpenMode (Options inv)) else None.

Abbreviation boot_of inv := (Bootstrap (Subcommand inv) (ConfigPath (Options inv)) runID
  (DryRun (Options inv)) (store_override inv)).

(** The parts of a run: the bootstrap, the subcommand, and the release of what was acquired. *)
Inductive invocation_run (inv : cliInvocation) : history -> Z -> Prop :=
  | run_not_booted tb e :
      runs (boot_of inv) tb (Err e) ->
      invocation_run inv (map (lift_event (@BootCall (entity body))) tb) exitError
  | run_booted tb b tc out tz r :
      runs (boot_of inv) tb (Ok b) ->
      runs (run_subcommand (Subcommand inv) (Options inv) b) tc out ->
      runs (CloseBoot b) tz r ->
      invocation_run inv
        (map (lift_event (@BootCall (entity body))) tb ++ map (lift_event (@CmdCall (entity body))) tc ++
         map (lift_event (@BootCall (entity body))) tz) (exit_code out).

Lemma runs_ret_inv {C : Type -> Type} {A} (a b : A) (t : list (event C)) : runs (Ret a) t b -> t = [] /\ b = a.
Proof.
  intros H. remember (Ret a) as q eqn:E. destruct H; [|done]. by injection E as ->.
Qed.

Lemma runs_invocation inv t code : runs (run_invocation inv) t code -> invocation_run inv t code.
Proof.
  intros H. apply runs_bind in H as (t1 & booted & t2 & -> & Hb & H).
  apply runs_lift in Hb as (tb & Hb & ->). destruct booted as [b|e].
  - apply runs_bind in H as (t3 & out & t4 & -> & Hc & H). apply runs_lift in Hc as (tc & Hc & ->).
    apply runs_bind in H as (t5 & r & t6 & -> & Hz & H). apply runs_lift in Hz as (tz & Hz & ->).
    apply runs_ret_inv in H as [-> ->]. rewrite app_nil_r. by eapply run_booted.
  - apply runs_ret_inv in H as [-> ->]. rewrite app_nil_r. by eapply run_not_booted.
Qed.

Lemma runs_CLI args t code :
  runs (runCLI args) t code ->
  (exists inv, parseCLI args = Ok inv /\ invocation_run inv t code) \/
  (exists e, parseCLI args = Err e /\ t = [] /\
             code = (if is_sentinel errYesRequiresMode e then exitError else exitUsage)).
Proof.
  unfold Main.runCLI. destruct (parseCLI args) as [inv|e] eqn:Ep; intros H.
  - left. exists inv. split; [done|by apply runs_invocation].
  - right. exists e. by apply runs_ret_inv in H as [-> ->].
Qed.

(** ** The writer lock *)

Lemma Bootstrap_lock inv tb r :
  runs (boot_of inv) tb r ->
  boot_lock_ok (negb (DryRun (Options inv)) && negb (String.eqb (Subcommand inv) subcommandSummary)) r tb.
Proof. intros H. exact (wp_runs _ tb r [] _ H (wp_Bootstrap _ _ _ _ _ _ _ _ _ _ _)). Qed.

Lemma CloseBoot_releases b tb tz r :
  boot_held tb = b_LockHandle b -> runs (CloseBoot b) tz r -> boot_held (tb ++ tz) = false.
Proof.
  intros Hb H. apply (wp_runs _ tz r tb (fun _ h => boot_held h = false) H).
  by apply wp_CloseBoot.
Qed.

(** Subcommands that only look: dry runs, and the summary. *)
Definition read_only (inv : cliInvocation) : bool :=
  DryRun (Options inv) || String.eqb (Subcommand inv) subcommandSummary.

(** No change and no download. *)
Lemma only_run_subcommand inv b :
  invocation_ok inv -> read_only inv = true ->
  only (dry_call (Message := entity body)) (run_subcommand (Subcommand inv) (Options inv) b).
Proof.
  intros Hinv Hro. unfold Main.run_subcommand, read_only in *.
  destruct (String.eqb_spec (Subcommand inv) subcommandFetch) as [Ef|].
  { rewrite Ef in Hro. cbn in Hro. rewrite orb_false_r in Hro. by apply only_fetch_dry. }
  destruct (String.eqb_spec (Subcommand inv) subcommandSummary) as [|].
  { apply only_summary. }
  rewrite orb_false_r in Hro. destruct (ok_dry_run _ Hinv Hro) as [Hr Hc].
  rewrite (proj2 (String.eqb_neq _ _) Hr).
  destruct (String.eqb_spec (Subcommand inv) subcommandGC) as [|]; [by apply only_gc_dry|].
  destruct (ok_subcommand _ Hinv) as [E|[E|[E|[E|[E|[]]]]]]; by rewrite <- E in *.
Qed.

(** A call of the subcommand in the middle of a run. *)
Lemma cmd_call_in tb tc tz (t1 t2 : history) e :
  map (lift_event (@BootCall (entity body))) tb ++ map (lift_event (@CmdCall (entity body))) tc ++
    map (lift_event (@BootCall (entity body))) tz = t1 ++ e :: t2 ->
  boot_event e = None -> boot_part t1 = tb /\ exists e0, In e0 tc /\ e = lift_event (@CmdCall _) e0.
Proof.
  intros E He. assert (Hboot : forall l, In e (map (lift_event (@BootCall (entity body))) l) -> False).
  { intros l Hin. apply in_map_iff in Hin as ([X c x] & <- & _). done. }
  apply app_eq_app in E as (l & [[E1 E2]|[-> E2]]).
  - destruct l as [|e' l].
    + rewrite app_nil_r in E1. simpl in E2. destruct tc as [|e0 tc].
      * exfalso. apply (Hboot tz). change (In e ([] ++ map (lift_event (@BootCall (entity body))) tz)).
        change (map (lift_event (@CmdCall (entity body))) [] ++ map (lift_event (@BootCall (entity body))) tz)
          with (map (lift_event (@BootCall (entity body))) tz) in E2. rewrite <- E2. by left.
      * injection E2 as -> _. split; [by rewrite <- E1, boot_part_boot|]. exists e0. split; [by left|done].
    + exfalso. apply (Hboot tb). rewrite E1. injection E2 as <- _. apply in_app_iff. right. by left.
  - apply app_eq_app in E2 as (l' & [[E1 E2]|[-> E2]]).
    + destruct l' as [|e' l'].
      * exfalso. apply (Hboot tz). simpl in E2. rewrite <- E2. by left.
      * injection E2 as <- _. apply map_eq_app in E1 as (l1 & l2 & -> & <- & E1).
        destruct l2 as [|e0 l2]; [done|]. injection E1 as E1 _.
        split; [by rewrite boot_part_app, boot_part_boot, boot_part_cmd, app_nil_r|].
        exists e0. split; [apply in_app_iff; right; by left|done].
    + exfalso. apply (Hboot tz). rewrite E2. apply in_app_iff. right. by left.
Qed.

Lemma cmd_is_boot P (e : event (cli_call (entity body))) : cmd_is P e = true -> boot_event e = None.
Proof. destruct e as [X c x]. by destruct c. Qed.

Lemma cmd_is_lift P (e : event (cmd_call (entity body))) :
  cmd_is P (lift_event (@CmdCall (entity body)) e) = ev_is P e.
Proof. by destruct e as [X c x]. Qed.

Lemma changes_under_lock inv t code :
  invocation_ok inv -> invocation_run inv t code ->
  held t = false /\
  forall t1 e t2, t = t1 ++ e :: t2 -> cmd_is mutating e = true -> held t1 = true.
Proof.
  intros Hok H.
  destruct H as [tb e Hb|tb b tc out tz r Hb Hc Hz]; apply Bootstrap_lock in Hb; simpl in Hb.
  - split; [unfold held; by rewrite boot_part_boot|].
    intros t1 ev t2 E Hm. pose proof (cmd_is_boot _ _ Hm) as He.
    assert (E' : map (lift_event (@BootCall (entity body))) tb ++ map (lift_event (@CmdCall (entity body))) [] ++
      map (lift_event (@BootCall (entity body))) [] = t1 ++ ev :: t2) by (simpl; by rewrite app_nil_r).
    by destruct (cmd_call_in _ _ _ _ _ _ E' He) as (_ & e0 & [] & _).
  - destruct Hb as [Hb Hl]. split.
    { unfold held. rewrite !boot_part_app, !boot_part_boot, boot_part_cmd. simpl. by eapply CloseBoot_releases. }
    intros t1 ev t2 E Hm.
    destruct (cmd_call_in _ _ _ _ _ _ E (cmd_is_boot _ _ Hm)) as (Ht1 & e0 & He0 & ->).
    rewrite cmd_is_lift in Hm. unfold held. rewrite Ht1, Hb, Hl.
    destruct (read_only inv) eqn:Ero; [|unfold read_only in Ero; by destruct (DryRun _), (String.eqb _ _)].
    assert (Ho := only_run_subcommand inv b Hok Ero).
    apply (only_runs _ _ _ _ Ho), Forall_forall with (x := e0) in Hc; [|done].
    destruct e0 as [X c x]. simpl in *. unfold dry_call, harmless in Hc. by rewrite Hm in Hc.
Qed.

Lemma boot_part_in (e : event boot_call) (t : history) :
  In e (boot_part t) -> In (lift_event (@BootCall (entity body)) e) t.
Proof.
  intros (e' & He' & E)%list_elem_of_In%list_elem_of_omap. apply list_elem_of_In.
  destruct e' as [X c x]. destruct c; [|done]. by injection E as <-.
Qed.

(** The openings of the store in a whole run. *)
Lemma opens_invocation inv t code :
  invocation_ok inv -> invocation_run inv t code -> opens_locked (boot_part t).
Proof.
  intros Hinv H.
  assert (Hd : DryRun (Options inv) = true -> store_override inv = None).
  { intros Hd. destruct (ok_dry_run _ Hinv Hd) as [_ Hr]. unfold store_override. by rewrite (proj2 (String.eqb_neq _ _) Hr). }
  assert (Hboot : forall tb r, runs (boot_of inv) tb r -> opens_locked tb).
  { intros tb r Hr. exact (wp_runs _ tb r [] (fun _ h => opens_locked h) Hr (opens_Bootstrap _ _ _ _ _ _ _ _ _ _ _ Hd)). }
  destruct H as [tb e Hb|tb b tc out tz r Hb Hc Hz].
  - rewrite boot_part_boot. by eapply Hboot.
  - rewrite !boot_part_app, !boot_part_boot, boot_part_cmd. simpl. apply opens_locked_app; [|by eapply Hboot].
    by eapply only_runs; [apply only_CloseBoot|exact Hz].
Qed.

(** C4: the store is opened for writing (which may create it, or finish an earlier reset) only while
    the process holds the writer lock of its directory; every change of the store or of the mailbox,
    by any subcommand and whatever the answers of its environment, is made while it holds the lock;
    and a run, failed or not, ends with the lock released. *)
Theorem mutations_under_lock args t code :
  runs (runCLI args) t code ->
  held t = false /\
  forall t1 e t2, t = t1 ++ e :: t2 ->
    (cmd_is mutating e = true -> held t1 = true) /\
    forall root idn mode x, e = Ev (BootCall (OpenStore root idn mode)) x -> mode <> OpenReadOnly ->
      held t1 = true /\ In (Ev (BootCall (AcquireLock (LockPath root))) (Ok tt)) t1.
Proof.
  intros [(inv & Hp & H)|(e & _ & -> & _)]%runs_CLI; [|split; [done|by intros []]].
  pose proof (opens_invocation _ _ _ (parseCLI_ok _ _ Hp) H) as Hopens.
  pose proof (changes_under_lock _ _ _ (parseCLI_ok _ _ Hp) H) as [Hend Hchanges].
  split; [done|]. intros t1 e t2 ->. split; [by eapply Hchanges|].
  intros root idn mode x -> Hm. rewrite boot_part_app in Hopens.
  destruct (Hopens _ _ _ _ _ _ eq_refl Hm) as [Hh Hin]. split; [done|by apply boot_part_in in Hin].
Qed.

(** ** Read-only invocations *)

(** Calls of the bootstrap of a read-only invocation: no directory is made, no lock taken, and the
    store is opened read-only. *)
Definition dry_boot (X : Type) (c : boot_call X) : bool :=
  match c with
  | RootDir _ | AcquireLock _ | ReleaseLock => false
  | OpenStore _ _ OpenReadOnly => true
  | OpenStore _ _ _ => false
  | _ => true
  end.

(** The calls of a read-only invocation. *)
Definition dry_cli (X : Type) (c : cli_call (entity body) X) : bool :=
  match c with BootCall c => dry_boot _ c | CmdCall c => dry_call _ c end.

Lemma only_dry_CloseBoot b : b_LockHandle b = false -> only dry_boot (CloseBoot b).
Proof. intros Hb. unfold CloseBoot. rewrite Hb. by destruct (b_SummaryGuard b). Qed.

Lemma only_dry_boot_fail b e : b_LockHandle b = false -> only dry_boot (boot_fail b e).
Proof. intros Hb. apply only_bind; [by apply only_dry_CloseBoot|done]. Qed.

Lemma only_dry_Bootstrap subcmd configPath dry :
  dry = true \/ subcmd = subcommandSummary ->
  only dry_boot (Bootstrap subcmd configPath runID dry None).
Proof.
  intros Hro. unfold Boot.Bootstrap. split; [done|]. intros su. split; [done|]. intros er. cbn [bind].
  destruct (LoadFile _ _ _ _ _).1 as [cfg|e]; [|done].
  destruct (String.eqb_spec subcmd subcommandSummary) as [Es|Hs].
  { split; [done|]. intros [u|e]; [|by apply only_dry_boot_fail].
    split; [done|]. intros [u'|e]; [done|by apply only_dry_boot_fail]. }
  destruct Hro as [->|]; [|done]. cbn [negb bind].
  destruct (bootstrap_notifier _ _ _ _) as [n|e]; [|by apply only_dry_boot_fail].
  split; [done|]. intros [u|e]; [done|]. cbn [bind].
  apply only_bind; [by destruct n|]. intros _. by apply only_dry_boot_fail.
Qed.

(** C18: a dry run of any subcommand, and a summary, changes no data: it makes no directory, takes no
    writer lock, opens the store read-only, and makes no call that changes the store or the mailbox
    or that downloads a message. The guard of a summary is the only thing it acquires. *)
Theorem read_only_changes_nothing args inv :
  parseCLI args = Ok inv -> read_only inv = true -> forall t code,
  runs (runCLI args) t code -> Forall (fun e => ev_is dry_cli e = true) t.
Proof.
  intros Hp Hro t code H. assert (Hok := parseCLI_ok _ _ Hp).
  assert (Hov : store_override inv = None).
  { unfold store_override. destruct (String.eqb_spec (Subcommand inv) subcommandRecover) as [E|]; [|done].
    unfold read_only in Hro. rewrite E in Hro. cbn in Hro. rewrite orb_false_r in Hro.
    by destruct (ok_dry_run _ Hok Hro). }
  assert (Hboot : only dry_boot (boot_of inv)).
  { rewrite Hov. apply only_dry_Bootstrap. unfold read_only in Hro.
    destruct (DryRun (Options inv)); [by left|]. right. by apply String.eqb_eq. }
  assert (Hlift : forall tb, Forall (fun e => ev_is dry_boot e = true) tb ->
    Forall (fun e => ev_is dry_cli e = true) (map (lift_event (@BootCall (entity body))) tb)).
  { intros tb Htb. apply Forall_map. eapply Forall_impl; [|exact Htb]. by intros [X c x]. }
  apply runs_CLI in H as [(inv' & Hp' & H)|(e & Hp' & _)]; [|by rewrite Hp in Hp'].
  rewrite Hp in Hp'. injection Hp' as <-.
  destruct H as [tb e Hb|tb b tc out tz r Hb Hc Hz].
  - apply Hlift. by eapply only_runs.
  - assert (Hl := Bootstrap_lock _ _ _ Hb). destruct Hl as [_ Hl].
    apply Forall_app. split; [apply Hlift; by eapply only_runs|]. apply Forall_app. split.
    + apply Forall_map. apply Forall_impl with (P := fun e => ev_is dry_call e = true); [by intros [X c x]|].
      eapply only_runs; [by apply only_run_subcommand|exact Hc].
    + apply Hlift. eapply only_runs; [|exact Hz]. apply only_dry_CloseBoot. rewrite Hl.
      unfold read_only in Hro. by destruct (DryRun _), (String.eqb _ _).
Qed.

(** The exit status is zero only if the arguments were accepted, the bootstrap succeeded, and
    the subcommand itself returned a zero status with no error; arguments that are refused have no
    effect at all, and end with the usage status, or with the error status if [--yes] came without
    a mode. *)
Theorem runCLI_status args t code :
  runs (runCLI args) t code ->
  match parseCLI args with
  | Err e => t = [] /\ code = (if is_sentinel errYesRequiresMode e then exitError else exitUsage)
  | Ok inv =>
      code = exitOK ->
      exists tb b tc, runs (boot_of inv) tb (Ok b) /\
        runs (run_subcommand (Subcommand inv) (Options inv) b) tc (exitOK, None)
  end.
Proof.
  intros [(inv & -> & H)|(e & -> & H)]%runs_CLI; [|done]. intros Hcode.
  destruct H as [tb e Hb|tb b tc [c err] tz r Hb Hc Hz]; [done|].
  exists tb, b, tc. split; [done|]. unfold exit_code in Hcode.
  destruct err; [destruct (Z.eqb_spec c exitOK); by subst|by subst].
Qed.
End main_props.

(** ** Examples *)

(** A host on which everything works: the root directory is there, both webhooks are set. *)
Definition sample_boot : forall X, boot_call X -> X :=
  fun X c =>
  match c in boot_call X return X with
  | Getenv name => if String.eqb name Handler.EnvSlackWebhookURLSuccess
                   then "https://hooks.slack.com/ok" else "https://hooks.slack.com/err"
  | RootDir c =>
      match c in dir_call X return X with
      | Lstat _ => Ok {| is_symlink := false; is_directory := true; perm := rootDirPerm |}
      | MkdirAll _ _ => None
      end
  | OpenStore _ _ _ | AcquireGuard | AcquireLock _ => Ok tt
  | CloseGuard | ReleaseLock | BootLogSystemError _ | BootFlush => None
  end.

Definition sample_cli : forall X, cli_call (entity nat) X -> X :=
  fun X c =>
  match c in cli_call _ X return X with
  | BootCall c => sample_boot _ c
  | CmdCall c => obliging false 5 sample_meta {[7 := "eml"]} (Err (Errno ENOENT)) _ c
  end.

Definition sample_raw : rawConfig :=
  {| raw_Host := Some "imap.example"; raw_Port := Some 993; raw_Mailbox := None; raw_FetchDays := None;
     raw_TLSCACert := None; raw_MaxMessageBytes := None; raw_IMAPRetentionDays := None;
     raw_AllowedHost := Some "hooks.slack.com"; raw_RootDir := Some "/var/store"; raw_RetentionDays := None;
     raw_MaxEmailAgeDays := None; raw_WindowDays := None |}.

Abbreviation sample_program := (
  runCLI sample_mime (fun _ => Ok {| Header := fun _ : string => "multipart/mixed"; Body := 1%nat |})
    (fun _ => inl (sample_report "192.0.2.1")) (fun _ => Tlsrpt.GzBadHeader "gzip")
    (fun _ => Ok "") (fun _ => true) Ok (fun _ => Ok sample_raw) HandlerProps.sample_parse
    (fun _ => None) "run" 1700000000).

Definition sample_trace (args : list string) := (run sample_cli (sample_program args)).1.
Definition sample_status (args : list string) := (run sample_cli (sample_program args)).2.

Lemma sample_program_runs args : runs (sample_program args) (sample_trace args) (sample_status args).
Proof. apply run_runs. Qed.

Definition fetch_args : list string := ["-c"; "c.toml"; "fetch"].

Lemma mutations_under_lock_witness :
  let t := sample_trace fetch_args in
  held t = false /\
  exists t1 t2, t = t1 ++ Ev (CmdCall (MarkSeen [7])) None :: t2 /\ held t1 = true.
Proof.
  cbv zeta. set (t := sample_trace fetch_args).
  assert (E : t = take (length t - 4) t ++ Ev (CmdCall (MarkSeen [7])) None :: drop (length t - 3) t)
    by (vm_compute; reflexivity).
  destruct (mutations_under_lock _ _ _ _ _ _ _ _ _ _ _ _ fetch_args t _ (sample_program_runs fetch_args))
    as [Hend Hheld].
  split; [exact Hend|]. exists (take (length t - 4) t), (drop (length t - 3) t). split; [exact E|].
  exact (proj1 (Hheld _ _ _ E) eq_refl).
Defined.

Lemma read_only_changes_nothing_witness :
  let t := sample_trace (fetch_args ++ ["--dry-run"]) in
  (10 <= length t)%nat /\ Forall (fun e => ev_is dry_cli e = true) t.
Proof.
  cbv zeta. split; [vm_compute; repeat constructor|].
  refine (read_only_changes_nothing _ _ _ _ _ _ _ _ _ _ _ _ (fetch_args ++ ["--dry-run"])
    {| Subcommand := subcommandFetch; Options := put_DryRun (empty_options "c.toml") true |} _ _ _ _
    (sample_program_runs (fetch_args ++ ["--dry-run"]))); reflexivity.
Defined.

Lemma runCLI_status_witness :
  sample_status fetch_args = exitOK /\
  exists tb b tc,
    runs (Bootstrap (fun _ => Ok "") (fun _ => true) Ok (fun _ => Ok sample_raw) HandlerProps.sample_parse id
            subcommandFetch "c.toml" "run" false None) tb (Ok b) /\
    runs (run_subcommand sample_mime (fun _ => Ok {| Header := fun _ : string => "multipart/mixed"; Body := 1%nat |})
            (fun _ => inl (sample_report "192.0.2.1")) (fun _ => Tlsrpt.GzBadHeader "gzip")
            (fun _ => None) 1700000000 subcommandFetch (empty_options "c.toml") b) tc (exitOK, None).
Proof.
  assert (E : sample_status fetch_args = exitOK) by (vm_compute; reflexivity). split; [exact E|].
  exact (runCLI_status _ _ _ _ _ _ _ _ _ _ _ _ fetch_args _ _ (sample_program_runs fetch_args) E).
Defined.
