(* ===== verification/System.v ===== *)
(** * Subcommands over the store

    The calls a subcommand makes through [store.Store], and its reads of local files, carried out
    by the store of internal/store on the file system; the answers of the mail server, the
    notifier and the environment stay open. An execution is a sequence of such steps, from any file
    system and under any schedule of faults, up to the end, to any point in between, or to a crash.

    [Kept] is what a subcommand relies on: a fact about the file system that a class of calls of
    the store preserves, however they end. Subcommands are verified against instances of it; the
    store provides the instances. *)
From S2P Require Import Prelude GoStr GoTime GoErr.
From S2P Require Tlsrpt.
From S2P Require Import StoreTypes Fs Io FileStore Reports Emails Recovery.
From S2P Require Import Prog Cmd.

Section system.
(** The opened store: its directory, mailbox and mode; and the guard a summary holds. *)
Context (root : path) (idn : IMAPIdentity) (md : OpenMode) (guard : SummaryConsistencyGuard).
Abbreviation st := (newStore root idn md).
(** [mail.ReadMessage], and the bytes of a file the store wrote as JSON. *)
Context {Message : Type} (ReadMessage : string -> result Message) (json_text : content -> string).

Definition text (c : content) : string := match c with Raw s => s | _ => json_text c end.

(** Results of the store in the form the subcommands see them. *)
Definition as_error (m : M (result unit)) : M (option goerr) :=
  let! r := m in ret (match r with Ok _ => None | Err e => Some e end).

Definition as_recovery (r : option internalRecoveryState) : Z * Z * Time * bool :=
  match r with
  | None => (0, 0, zeroTime, false)
  | Some rr => (PrevUIDValidity rr, CurrUIDValidity rr, DetectedAt rr, true)
  end.

Definition map_result {A B} (f : A -> B) (m : M (result A)) : M (result B) :=
  let! r := m in ret (match r with Ok a => Ok (f a) | Err e => Err e end).

Definition as_stat (n : node) : stat_info :=
  {| regular := negb (is_dir n);
     file_size := match n with Dir _ => 0 | File _ c => Z.of_nat (String.length (text c)) end |}.

(** The calls the store and the file system answer. *)
Definition store_op {X} (c : cmd_call Message X) : option (M X) :=
  match c in cmd_call _ X return option (M X) with
  | LoadRecoveryRequired => Some (map_result as_recovery (Recovery.LoadRecoveryRequired st))
  | SaveRecoveryRequired prev curr at_ => Some (as_error (Recovery.SaveRecoveryRequired st prev curr at_))
  | LoadUIDValidity => Some (map_result (fun v => (default 0 v, bool_decide (is_Some v)))
                               (Recovery.LoadUIDValidity st))
  | SaveUIDValidity uid => Some (as_error (Recovery.SaveUIDValidity st uid))
  | SaveEmail uid uidValidity date raw => Some (as_error (Emails.SaveEmail st uid uidValidity date raw))
  | SaveEmailMetas metas => Some (as_error (Emails.SaveEmailMetas st metas))
  | LoadEmails =>
      Some (let! r := Emails.LoadEmails (fun c => ReadMessage (text c)) st in
            ret (match r with Ok loaded => loaded | Err e => ([], Some e) end))
  | SaveReports reports => Some (as_error (Reports.SaveReports st reports))
  | GetAllReports => Some (Reports.GetAllReports st)
  | DeleteReportsBefore cutoff => Some (Reports.DeleteReportsBefore st cutoff)
  | DeleteEmailsBefore cutoff =>
      Some (let! r := Emails.DeleteEmailsBefore st cutoff in
            ret (match r.2 with None => Ok r.1 | Some e => Err e end))
  | CountReportsBefore cutoff => Some (Reports.CountReportsBefore st cutoff)
  | CountEmailsBefore cutoff => Some (Emails.CountEmailsBefore st cutoff)
  | HasPendingReset => Some (Recovery.HasPendingReset st)
  | ApplyRecovery curr => Some (as_error (Recovery.ApplyRecovery st curr))
  | ResetForRecovery curr => Some (as_error (Recovery.ResetForRecovery st curr))
  | CheckRecoveryRequired => Some (Recovery.CheckRecoveryRequired guard)
  | Stat p => Some (map_result as_stat (sys_stat p))
  | ReadFile p => Some (map_result text (sys_read_file p))
  | _ => None
  end.

Abbreviation history := (list (event (cmd_call Message))).

(** ** Executions *)

(** From a program in a world to what is left of it in another, or to [None] when the process was
    killed in a call. *)
Inductive exec {A} : prog (cmd_call Message) A -> world -> history -> option (prog (cmd_call Message) A) ->
    world -> Prop :=
  | exec_here p w : exec p w [] (Some p) w
  | exec_store X (c : cmd_call Message X) k w m x w1 t p' w' :
      store_op c = Some m -> m w = (Some x, w1) -> exec (k x) w1 t p' w' ->
      exec (Call c k) w (Ev c x :: t) p' w'
  | exec_env X (c : cmd_call Message X) k w x t p' w' :
      store_op c = None -> exec (k x) w t p' w' ->
      exec (Call c k) w (Ev c x :: t) p' w'
  | exec_killed X (c : cmd_call Message X) k w m w1 :
      store_op c = Some m -> m w = (None, w1) -> exec (Call c k) w [] None w1.

(** The execution in which the rest of the world gives the answers [answer]. *)
Fixpoint run_on {A} (answer : forall X, cmd_call Message X -> X) (p : prog (cmd_call Message) A) (w : world) :
    history * option (prog (cmd_call Message) A) * world :=
  match p with
  | Ret _ => ([], Some p, w)
  | Call c k =>
      match store_op c with
      | Some m =>
          match m w with
          | (Some x, w1) => let r := run_on answer (k x) w1 in (Ev c x :: r.1.1, r.1.2, r.2)
          | (None, w1) => ([], None, w1)
          end
      | None => let r := run_on answer (k (answer _ c)) w in (Ev c (answer _ c) :: r.1.1, r.1.2, r.2)
      end
  end.

Lemma run_on_exec {A} answer (p : prog (cmd_call Message) A) w :
  exec p w (run_on answer p w).1.1 (run_on answer p w).1.2 (run_on answer p w).2.
Proof.
  revert w. induction p as [a|X c k IH]; intros w; simpl; [constructor|].
  destruct (store_op c) as [m|] eqn:E; [|by constructor].
  destruct (m w) as [[x|] w1] eqn:Em; simpl; [by econstructor|by econstructor].
Qed.

(** What the store does not answer, the rest of the world does. *)
Lemma run_on_env {A} answer (p : prog (cmd_call Message) A) w :
  Forall (fun e => match e with Ev c x => store_op c = None -> x = answer _ c end) (run_on answer p w).1.1.
Proof.
  revert w. induction p as [a|X c k IH]; intros w; simpl; [constructor|].
  destruct (store_op c) as [m|] eqn:E; [destruct (m w) as [[x|] w1]|]; simpl; [|constructor|];
    (constructor; [by rewrite E|apply IH]).
Qed.

(** What was done can be continued to a run of the program. *)
Lemma exec_prefix {A} (p : prog (cmd_call Message) A) w t p' w' (answer : forall X, cmd_call Message X -> X) :
  exec p w t p' w' -> exists t' a, runs p (t ++ t') a.
Proof.
  intros H. induction H as [p w|X c k w m x w1 t p' w' _ _ _ (t' & a & IH)|X c k w x t p' w' _ _ (t' & a & IH)
    |X c k w m w1 _ _]; [apply (runs_total p answer)|..|apply (runs_total (Call c k) answer)];
    exists t', a; by constructor.
Qed.

(** A whole execution is a run. *)
Lemma exec_runs {A} (p : prog (cmd_call Message) A) w t a w' : exec p w t (Some (Ret a)) w' -> runs p t a.
Proof.
  intros H. remember (Some (Ret a)) as q eqn:E. induction H; try (constructor; auto; fail); [|done].
  injection E as ->. constructor.
Qed.

(** An execution up to a point in the middle, and from there. *)
Lemma exec_split {A} (p : prog (cmd_call Message) A) w t1 t2 p' w' :
  exec p w (t1 ++ t2) p' w' -> exists p1 w1, exec p w t1 (Some p1) w1 /\ exec p1 w1 t2 p' w'.
Proof.
  remember (t1 ++ t2) as t eqn:E. intros H. revert t1 E.
  induction H as [p w|X c k w m x w1 t p' w' Hs Hm H IH|X c k w x t p' w' Hs H IH|X c k w m w1 Hs Hm];
    intros t1 E.
  - symmetry in E. apply app_eq_nil in E as [-> ->]. exists p, w. split; constructor.
  - destruct t1 as [|e t1]; simpl in E; [subst t2; exists (Call c k), w; split; by econstructor|].
    injection E as <- ->. destruct (IH t1 eq_refl) as (p1 & w2 & H1 & H2). exists p1, w2.
    split; [by econstructor|done].
  - destruct t1 as [|e t1]; simpl in E; [subst t2; exists (Call c k), w; split; by econstructor|].
    injection E as <- ->. destruct (IH t1 eq_refl) as (p1 & w2 & H1 & H2). exists p1, w2.
    split; [by econstructor|done].
  - symmetry in E. apply app_eq_nil in E as [-> ->]. exists (Call c k), w. split; by econstructor.
Qed.

(** Nothing fails where no fault is scheduled. *)
Lemma run_no_faults {A} (m : M A) w : w_faults w = [] -> w_faults (m w).2 = [].
Proof.
  revert w. induction m as [a|X c k IH]; intros w Hw; simpl; [done|].
  assert (H : w_faults (handle c w).2 = []).
  { assert (Hc : forall B (op : fs -> result B * fs) part, w_faults (carry_out op part w).2 = []).
    { intros B op part. unfold carry_out. rewrite Hw. by destruct (op (w_fs w)). }
    destruct c; try done; apply Hc. }
  destruct (handle c w) as [[x|] w1]; [by apply IH|done].
Qed.

Lemma run_survives {A} (m : M A) w : w_faults w = [] -> is_Some (m w).1.
Proof.
  revert w. induction m as [a|X c k IH]; intros w Hw; simpl; [done|].
  assert (Hc : is_Some (handle c w).1).
  { assert (Hop : forall B (op : fs -> result B * fs) part, is_Some (carry_out op part w).1).
    { intros B op part. unfold carry_out. rewrite Hw. by destruct (op (w_fs w)). }
    destruct c; try done; apply Hop. }
  pose proof (run_no_faults (Prog.call c) w Hw) as Hfl. simpl in Hfl.
  destruct (handle c w) as [[x|] w1]; [by apply IH|by destruct Hc].
Qed.

Lemma exec_no_faults {A} (p : prog (cmd_call Message) A) w t p' w' :
  exec p w t p' w' -> w_faults w = [] -> w_faults w' = [].
Proof.
  intros H. induction H as [p w|X c k w m x w1 t p' w' Hs Hm H IH|X c k w x t p' w' Hs H IH|X c k w m w1 Hs Hm];
    intros Hw; auto.
  - apply IH. replace w1 with (m w).2 by by rewrite Hm. by apply run_no_faults.
  - replace w1 with (m w).2 by by rewrite Hm. by apply run_no_faults.
Qed.

(** The answer of the store to the first call of an execution. *)
Lemma exec_answer {A} (p : prog (cmd_call Message) A) w e t p' w' : exec p w (e :: t) p' w' ->
  match e with Ev c x => forall m, store_op c = Some m -> exists w1, m w = (Some x, w1) end.
Proof.
  intros H. remember (e :: t) as h eqn:E.
  destruct H as [p w|X c k w m x w1 t' p' w' Hs Hm H|X c k w x t' p' w' Hs H|]; try done; injection E as <- _;
    intros m' Hm'; rewrite Hs in Hm'; [|done]. injection Hm' as <-. by exists w1.
Qed.

(** Only calls a program may make are left to be made. *)
Lemma exec_only {A} (P : forall X, cmd_call Message X -> bool) (p : prog (cmd_call Message) A) w t p' w' :
  only P p -> exec p w t (Some p') w' -> only P p'.
Proof.
  intros Ho H. remember (Some p') as q eqn:E.
  induction H; [by injection E as <-|by apply IHexec; [apply Ho|]|by apply IHexec; [apply Ho|]|done].
Qed.

(** And only such calls were made. *)
Lemma exec_made {A} (P : forall X, cmd_call Message X -> bool) (p : prog (cmd_call Message) A) w t p' w' :
  only P p -> exec p w t p' w' -> Forall (fun e => ev_is P e = true) t.
Proof. intros Ho H. induction H as [| | |]; [constructor|..|constructor]; (constructor; [apply Ho|apply IHexec, Ho]). Qed.

(** ** What calls keep *)

(** The calls in [P] keep [I], however they end. *)
Class Kept (P : forall X, cmd_call Message X -> bool) (I : fs -> Prop) : Prop :=
  kept X (c : cmd_call Message X) m : P X c = true -> store_op c = Some m -> preserves I m.

Lemma preserves_run {A} (I : fs -> Prop) (m : M A) w : preserves I m -> I (w_fs w) -> I (w_fs (m w).2).
Proof.
  intros Hm HI. destruct w as [s fl tm]. pose proof (wp_run _ _ _ _ _ _ fl (Hm true tm s HI) ltac:(done)) as H.
  destruct (m _) as [[a|] w]; simpl in *; [by apply H|by apply H].
Qed.

(** So do executions that make only such calls. *)
Lemma exec_kept {A} P (I : fs -> Prop) `{!Kept P I} (p : prog (cmd_call Message) A) w t p' w' :
  only P p -> exec p w t p' w' -> I (w_fs w) -> I (w_fs w').
Proof.
  intros Ho H. induction H as [p w|X c k w m x w1 t p' w' Hs Hm H IH|X c k w x t p' w' Hs H IH|X c k w m w1 Hs Hm];
    intros HI; [done|..]; simpl in Ho.
  - apply IH; [apply Ho|]. replace w1 with (m w).2 by by rewrite Hm. eapply preserves_run; [|done].
    eapply kept; [apply Ho|done].
  - apply IH; [apply Ho|done].
  - replace w1 with (m w).2 by by rewrite Hm. eapply preserves_run; [|done]. eapply kept; [apply Ho|done].
Qed.
End system.
