(* ===== verification/SystemProps.v ===== *)
(** * Properties of subcommands over the store

    What is on disk when a subcommand has run, at every point of it and after every crash:
    reprocessing rebuilds the reports, a dry run writes nothing. Messages marked as seen are in
    SeenProps.v. *)
From S2P Require Import Prelude GoStr GoTime GoErr.
From S2P Require Tlsrpt.
From S2P Require Import StoreTypes Fs Io AtomicFile Sentinel FileStore Reports Emails Recovery EmailsSpec DataProps Confine LoadSpec.
From S2P Require Import Config Mailparse Prog Cmd CmdSpec Fetch Reprocess FetchProps ReprocessProps System.
From S2P Require Import Cli Boot Main CliProps MainProps.
From S2P Require Handler HandlerProps.

(** ** Calls that keep facts *)

Lemma preserves_as_error I (m : M (result unit)) : preserves I m -> preserves I (as_error m).
Proof. intros H. unfold as_error. preserves_go. Qed.

Lemma preserves_map_result {A B} I (f : A -> B) m : preserves I m -> preserves I (map_result f m).
Proof. intros H. unfold map_result. preserves_go. Qed.

(** Every call that changes nothing keeps every fact about the files. *)
#[export] Instance harmless_kept root idn md guard {Message} (ReadMessage : string -> result Message) json_text I :
  Kept root idn md guard ReadMessage json_text harmless I.
Proof.
  intros X c m Hc Hm. destruct c; try discriminate Hc; try discriminate Hm; injection Hm as <-;
    first [apply preserves_map_result|idtac].
  - apply preserves_LoadRecoveryRequired.
  - apply preserves_LoadUIDValidity.
  - apply preserves_bind; [apply preserves_LoadEmails|]. intros ?. preserves_go.
  - apply preserves_GetAllReports.
  - apply preserves_CountReportsBefore.
  - apply preserves_CountEmailsBefore.
  - apply preserves_HasPendingReset.
  - apply preserves_CheckRecoveryRequired.
  - apply preserves_read.
  - apply preserves_read.
Qed.

(** ** Files that stay *)

Section files.
Context (root : path) (idn : IMAPIdentity) (md : OpenMode).
Abbreviation st := (newStore root idn md).

(** Where something below the root directory can be looked up, the directory is there. *)
Lemma fs_stat_root s t n : fs_stat s (root ++ "emails" :: t) = Ok n -> dir_err s root = None.
Proof.
  intros [H _]%fs_stat_Ok. unfold parent in H. rewrite removelast_app in H by done.
  rewrite dir_err_None in *. intros q u Hp Hq. apply (H q (u ++ removelast ("emails" :: t))); [|done].
  by rewrite app_assoc, <- Hp.
Qed.

(** A file that is there stays there while emails are saved. *)
Lemma SaveEmail_keeps p n uid uv d raw s (b : bool) (tm : Time) :
  fs_stat s p = Ok n ->
  Io.wp b tm (Emails.SaveEmail st uid uv d raw) (fun _ s' => fs_stat s' p = Ok n) (fun s' => fs_stat s' p = Ok n) s.
Proof.
  intros Hp. destruct (decide (md = OpenReadOnly)) as [->|Hmd].
  { unfold Emails.SaveEmail. simpl. by apply wp_ret. }
  destruct (IsZero d) eqn:Ez.
  { unfold Emails.SaveEmail. simpl. rewrite bool_decide_false, Ez by done. by apply wp_ret. }
  assert (Hext : forall s1 s2, s1 ⊆ s2 -> fs_stat s1 p = Ok n -> fs_stat s2 p = Ok n).
  { intros s1 s2 Hs H. apply fs_stat_Ok in H as [H1 H2]. apply fs_stat_Ok.
    split; [by eapply dir_err_mono|by eapply lookup_weaken]. }
  assert (Hn : forall s', email_not_stored root uv d s s' -> fs_stat s' p = Ok n).
  { intros s' (s1 & [H1 _] & [H2 _]). eapply Hext; [exact H2|]. by eapply Hext. }
  assert (Hs : forall s', email_stored root uid uv d raw s s' -> absent s (buildEmailPath root uid uv d) ->
    fs_stat s' p = Ok n).
  { intros s' (s1 & H1 & _ & ->) Ha. pose proof (Hext _ _ (proj1 H1) Hp) as H.
    rewrite email_target in Ha. eapply stat_insert; [done|]. intros u ->.
    by destruct (stat_prefix _ _ _ _ Hp) as [n' Hn']; [by destruct (email_dir root uv d)|apply Ha in Hn']. }
  apply wp_SaveEmail; [done|done|..].
  - done.
  - intros s' He H. apply Hs; [done|]. intros n'. by rewrite He.
  - intros e s' H _. by apply Hn.
  - intros _ s' [H|[He H]]; [by apply Hn|]. apply Hs; [done|]. intros n'. by rewrite He.
Qed.
End files.

(** ** Facts that last *)

(** What the operations that save no report, or no email, may write. *)
Definition not_email (d : string) : Prop := d <> "emails".
Definition not_data (d : string) : Prop := d <> "emails" /\ d <> "tlsrpt.json".

Lemma tmp_not_data d : HasPrefix d tmp_prefix = true -> not_data d.
Proof. intros H. split; intros ->; discriminate H. Qed.

Lemma tmp_not_email d : HasPrefix d tmp_prefix = true -> not_email d.
Proof. intros H ->. discriminate H. Qed.

(** Calls that only add to the store. *)
Definition adds {Message} (X : Type) (c : cmd_call Message X) : bool :=
  match c with
  | DeleteReportsBefore _ | DeleteEmailsBefore _ | ApplyRecovery _ | ResetForRecovery _ => false
  | _ => true
  end.

Definition adds_no_reports {Message} (X : Type) (c : cmd_call Message X) : bool :=
  adds X c && match c with SaveReports _ => false | _ => true end.

Section lasting.
Context (root : path) (idn : IMAPIdentity) (md : OpenMode) (guard : SummaryConsistencyGuard).
Context {Message : Type} (ReadMessage : string -> result Message) (json_text : content -> string).
Abbreviation st := (newStore root idn md).
Abbreviation Kept := (System.Kept root idn md guard ReadMessage json_text).

(** The root directory is there and the data file holds these reports. *)
Definition reports_are (m : gmap string Tlsrpt.Report) (s : fs) : Prop :=
  dir_err s root = None /\ exists df, data_at root s = Ok df /\ reports_map (df_Reports df) = m.

Lemma reports_are_only m (c : string -> Prop) s s' :
  ~ c "tlsrpt.json" -> Fs.only root c s s' -> reports_are m s -> reports_are m s'.
Proof.
  intros Hc Ho (Hd & df & Hdf & Hm). split; [by rewrite (only_dir_err _ _ _ _ Ho)|].
  exists df. split; [|done]. by rewrite (data_at_only root c s s').
Qed.

Lemma reports_are_tmp m s s' : s ⊑{root} s' -> reports_are m s -> reports_are m s'.
Proof. intros H. eapply reports_are_only; [|by apply only_tmp_ext]. done. Qed.

Lemma reports_are_with df s : dir_err s root = None -> valid_data df = true ->
  reports_are (reports_map (df_Reports df)) (with_data root df s).
Proof.
  intros Hd Hv. split; [|exists df; split; [by apply data_at_with|done]].
  unfold with_data, written, dataFilePath. by rewrite dir_err_insert_below.
Qed.

(** An operation that does not touch the data file. *)
Lemma preserves_reports {A} m (c : string -> Prop) (op : M A) :
  ~ c "tlsrpt.json" -> confined root c op -> preserves (reports_are m) op.
Proof. intros Hc. apply confined_preserves; [by intros s []|]. intros s s'. by apply reports_are_only. Qed.

Lemma preserves_SaveEmailMetas_reports m metas : preserves (reports_are m) (Emails.SaveEmailMetas st metas).
Proof.
  intros b tm s Hs. destruct (decide (md = OpenReadOnly)) as [->|Hmd]; [by apply wp_ret|].
  destruct Hs as (Hd & df & Hdf & Hm).
  assert (Hs : reports_are m s) by (split; [done|by exists df]).
  assert (Hw : forall es, data_times_ok (set_emails es df) = true ->
    reports_are m (with_data root (set_emails es df) s)).
  { intros es Ht. rewrite <- Hm. apply (reports_are_with (set_emails es df)); [done|].
    apply valid_set_emails; [by eapply data_at_valid|done]. }
  apply (wp_SaveEmailMetas root idn md metas s b tm _ _ df); [done|done|..].
  - intros es He Ht _. by apply Hw.
  - intros e s' H _. by eapply reports_are_tmp.
  - intros _ s' [H|(es & He & Ht & _ & ->)]; [by eapply reports_are_tmp|by apply Hw].
Qed.

(** Saving reports updates the map, or leaves it; a crash leaves one or the other. *)
Lemma wp_SaveReports_map m inputs s (b : bool) (tm : Time) :
  reports_are m s ->
  Io.wp b tm (Reports.SaveReports st inputs)
    (fun r s' => match r with Ok _ => reports_are (upsert_map m inputs) s' | Err _ => reports_are m s' end)
    (fun s' => reports_are m s' \/ reports_are (upsert_map m inputs) s') s.
Proof.
  intros Hs. destruct (decide (md = OpenReadOnly)) as [->|Hmd]; [by apply wp_ret|].
  destruct Hs as (Hd & df & Hdf & Hm).
  assert (Hs : reports_are m s) by (split; [done|by exists df]).
  assert (Hw : forall df0, data_at root s = Ok df0 ->
    data_times_ok (set_reports (upsert_reports (df_Reports df0) inputs) df0) = true ->
    reports_are (upsert_map m inputs) (with_data root (set_reports (upsert_reports (df_Reports df0) inputs) df0) s)).
  { intros df0 H0 Ht. rewrite Hdf in H0. injection H0 as <-.
    rewrite <- Hm, <- upsert_reports_map.
    apply (reports_are_with (set_reports (upsert_reports (df_Reports df) inputs) df)); [done|].
    apply valid_set_reports; [by eapply data_at_valid|done]. }
  apply wp_SaveReports; [done|..].
  - intros df0 H0 df' Ht _. by apply Hw.
  - intros e s' H _. by eapply reports_are_tmp.
  - intros _ s' [H|(df0 & H0 & Ht & _ & ->)]; [left; by eapply reports_are_tmp|right; by apply Hw].
Qed.

(** The reports stay as they are unless reports are saved or dropped. *)
#[export] Instance reports_kept m : Kept adds_no_reports (reports_are m).
Proof.
  intros X c op Hc Hop. destruct (harmless X c) eqn:Eh; [by eapply (harmless_kept root idn md guard)|].
  destruct c; try discriminate Hc; try discriminate Eh; try discriminate Hop; injection Hop as <-; apply preserves_as_error.
  - by apply (preserves_reports m not_data); [intros []|apply confined_SaveRecoveryRequired; [apply tmp_not_data|..]].
  - by apply (preserves_reports m not_data); [intros []|apply confined_SaveUIDValidity; [apply tmp_not_data|]].
  - by apply (preserves_reports m (eq "emails")), confined_SaveEmail.
  - apply preserves_SaveEmailMetas_reports.
Qed.

Lemma upsert_map_some m inputs id : is_Some (m !! id) -> is_Some (upsert_map m inputs !! id).
Proof.
  unfold upsert_map. revert m. induction inputs as [|i inputs IH]; intros m H; [done|]. apply IH.
  destruct (decide (Tlsrpt.ReportID (ri_Report i) = id)) as [->|Hne];
    [by rewrite lookup_insert_eq|by rewrite lookup_insert_ne].
Qed.

Lemma upsert_map_in m inputs i : In i inputs -> is_Some (upsert_map m inputs !! Tlsrpt.ReportID (ri_Report i)).
Proof.
  unfold upsert_map. revert m. induction inputs as [|j inputs IH]; intros m H; [done|].
  destruct H as [->|H]; [|by apply IH].
  apply (upsert_map_some (<[Tlsrpt.ReportID (ri_Report i) := ri_Report i]> m) inputs). by rewrite lookup_insert_eq.
Qed.

(** A record with this id is in the store. *)
Definition has_report (id : string) (s : fs) : Prop := exists m, reports_are m s /\ is_Some (m !! id).

#[export] Instance report_kept id : Kept adds (has_report id).
Proof.
  intros X c op Hc Hop. destruct (adds_no_reports X c) eqn:Ec.
  - intros b tm s (m & Hm & Hid). eapply wp_mono; [by apply (reports_kept m X c op)|..]; simpl;
      intros _ s' H; by exists m.
  - unfold adds_no_reports in Ec. rewrite Hc in Ec. destruct c; try discriminate Ec. injection Hop as <-.
    apply preserves_as_error. intros b tm s (m & Hm & Hid).
    eapply wp_mono; [by apply wp_SaveReports_map|..]; simpl.
    + intros [[]|e] s' H; [|by exists m]. eexists. split; [exact H|by apply upsert_map_some].
    + intros _ s' [H|H]; [by exists m|]. eexists. split; [exact H|by apply upsert_map_some].
Qed.

(** There is a file below the directory of emails. *)
Definition email_file_at (t : path) (n : node) (s : fs) : Prop := fs_stat s (root ++ "emails" :: t) = Ok n.

#[export] Instance email_kept t n : Kept adds (email_file_at t n).
Proof.
  assert (Hconf : forall A (m : M A), confined root not_email m -> preserves (email_file_at t n) m).
  { intros A m. apply confined_preserves.
    - intros s H. by apply fs_stat_root in H.
    - intros s s' Ho H. unfold email_file_at. rewrite (fs_stat_only root not_email s s'); [done|exact Ho|by intros []]. }
  intros X c op Hc Hop. destruct (harmless X c) eqn:Eh; [by eapply (harmless_kept root idn md guard)|].
  destruct c; try discriminate Hc; try discriminate Eh; try discriminate Hop; injection Hop as <-; apply preserves_as_error.
  - by apply Hconf, confined_SaveRecoveryRequired; [apply tmp_not_email|..].
  - by apply Hconf, confined_SaveUIDValidity; [apply tmp_not_email|].
  - intros b tm s Hs. by apply SaveEmail_keeps.
  - by apply Hconf, confined_SaveEmailMetas; [apply tmp_not_email|].
  - by apply Hconf, confined_SaveReports; [apply tmp_not_email|].
Qed.

(** A fact about some value lasts if it lasts for each. *)
#[export] Instance exists_kept {B} P (I : B -> fs -> Prop) : (forall x, Kept P (I x)) -> Kept P (fun s => exists x, I x s).
Proof.
  intros HI X c op Hc Hop b tm s (x & Hx). eapply wp_mono; [by apply (HI x X c op)|..]; simpl;
    intros _ s' H; by exists x.
Qed.

#[export] Instance and_kept P (phi : Prop) (I : fs -> Prop) : Kept P I -> Kept P (fun s => I s /\ phi).
Proof.
  intros HI X c op Hc Hop b tm s [Hs Hphi]. eapply wp_mono; [by apply (HI X c op)|..]; simpl;
    intros _ s' H; by split.
Qed.

(** ** What successful calls leave behind *)

Lemma SaveReports_saved inputs w w1 i :
  Reports.SaveReports st inputs w = (Some (Ok tt), w1) -> In i inputs ->
  has_report (Tlsrpt.ReportID (ri_Report i)) (w_fs w1).
Proof.
  intros H Hi. destruct w as [s fl tm]. destruct (decide (md = OpenReadOnly)) as [->|Hmd]; [done|].
  assert (Hw : Io.wp true tm (Reports.SaveReports st inputs)
    (fun r s' => r = Ok tt -> has_report (Tlsrpt.ReportID (ri_Report i)) s') (fun _ => True) s).
  { apply wp_SaveReports; [done| |done|done]. intros df Hdf df' Ht Hd _.
    exists (reports_map (df_Reports df')). split.
    - apply (reports_are_with df'); [done|]. apply valid_set_reports; [by eapply data_at_valid|done].
    - unfold df'. simpl. rewrite upsert_reports_map. by apply upsert_map_in. }
  pose proof (wp_run _ _ _ _ _ _ fl Hw ltac:(done)) as Hr. rewrite H in Hr. by apply Hr.
Qed.

Lemma SaveEmail_saved uid uv d raw w w1 :
  Emails.SaveEmail st uid uv d raw w = (Some (Ok tt), w1) ->
  exists k c, fs_stat (w_fs w1) (buildEmailPath root uid uv d) = Ok (File k c).
Proof.
  intros H. destruct w as [s fl tm]. destruct (decide (md = OpenReadOnly)) as [->|Hmd]; [done|].
  destruct (IsZero d) eqn:Ez.
  { unfold Emails.SaveEmail in H. simpl in H. by rewrite bool_decide_false, Ez in H by done. }
  assert (Hw : Io.wp true tm (Emails.SaveEmail st uid uv d raw)
    (fun r s' => r = Ok tt -> exists k c, fs_stat s' (buildEmailPath root uid uv d) = Ok (File k c))
    (fun _ => True) s).
  { apply wp_SaveEmail; [done|done|..]; [| |done|done].
    - intros (n & Hn & Hf) _. destruct n as [k|k c]; [done|by exists k, c].
    - intros s' _ (s1 & H1 & Hd1 & ->) _. exists filePerm, (Raw raw). rewrite email_target.
      apply fs_stat_Ok. unfold written. rewrite parent_app, dir_err_insert_below, lookup_insert_eq. done. }
  pose proof (wp_run _ _ _ _ _ _ fl Hw ltac:(done)) as Hr. rewrite H in Hr. by apply Hr.
Qed.

Lemma ReadFile_read p w x w1 :
  map_result (text json_text) (sys_read_file p) w = (Some (Ok x), w1) ->
  exists k c, fs_stat (w_fs w1) p = Ok (File k c) /\ text json_text c = x.
Proof.
  intros H. destruct w as [s fl tm].
  assert (Hw : Io.wp true tm (map_result (text json_text) (sys_read_file p))
    (fun r s' => r = Ok x -> exists k c, fs_stat s' p = Ok (File k c) /\ text json_text c = x) (fun _ => True) s).
  { unfold map_result. apply wp_bind, wp_read.
    - apply wp_ret. unfold fs_read_file. destruct (fs_stat s p) as [[k|k c]|e]; try done.
      intros [= <-]. by exists k, c.
    - intros _. split; [done|]. intros e _. by apply wp_ret. }
  pose proof (wp_run _ _ _ _ _ _ fl Hw ltac:(done)) as Hr. rewrite H in Hr. by apply Hr.
Qed.

Abbreviation exec := (System.exec root idn md guard ReadMessage json_text).
Abbreviation store_op := (System.store_op root idn md guard ReadMessage json_text).

(** What a successful call has established holds at the end if the calls after it keep it. *)
Lemma exec_after {A} (P : forall X, cmd_call Message X -> bool) (I : fs -> Prop)
    (good : event (cmd_call Message) -> Prop) `{!Kept P I} (p : prog (cmd_call Message) A) w t p' w' e :
  (forall X (c : cmd_call Message X) x, good (Ev c x) ->
     exists m, store_op c = Some m /\ forall w w1, m w = (Some x, w1) -> I (w_fs w1)) ->
  only P p -> exec p w t p' w' -> In e t -> good e -> I (w_fs w').
Proof.
  intros Hest Ho H. induction H as [p w|X c k w m x w1 t p' w' Hs Hm H IH|X c k w x t p' w' Hs H IH|X c k w m w1 Hs Hm];
    intros Hin Hg; simpl in Hin; try done; destruct Ho as [Hc Ho]; destruct Hin as [<-|Hin]; try by apply IH.
  - destruct (Hest _ _ _ Hg) as (m' & Hs' & HI). rewrite Hs in Hs'. injection Hs' as <-.
    eapply exec_kept; [done|apply Ho|exact H|]. by eapply HI.
  - destruct (Hest _ _ _ Hg) as (m' & Hs' & _). by rewrite Hs in Hs'.
Qed.

(** ** The reports in the store are the successful saves *)

Definition saved_reports (e : event (cmd_call Message)) : option (list ReportInput) :=
  match e with
  | Ev c x =>
      match c in cmd_call _ X return X -> option (list ReportInput) with
      | SaveReports rs => fun x => match x with None => Some rs | Some _ => None end
      | _ => fun _ => None
      end x
  end.

Lemma exec_reports {A} m (p : prog (cmd_call Message) A) w t p' w' :
  only adds p -> exec p w t (Some p') w' -> reports_are m (w_fs w) ->
  reports_are (foldl upsert_map m (omap saved_reports t)) (w_fs w').
Proof.
  intros Ho H. remember (Some p') as q eqn:E. revert m.
  induction H as [p w|X c k w op x w1 t q w' Hs Hop H IH|X c k w x t q w' Hs H IH|X c k w op w1 Hs Hop];
    intros m Hm; [done|..|done]; destruct Ho as [Hc Ho].
  - destruct (adds_no_reports X c) eqn:Ec.
    + assert (Hw1 : reports_are m (w_fs w1)).
      { replace w1 with (op w).2 by by rewrite Hop. apply preserves_run; [|done]. by apply (reports_kept m X c). }
      specialize (IH (Ho x) E m Hw1). by destruct c.
    + unfold adds_no_reports in Ec. rewrite Hc in Ec. destruct c; try discriminate Ec. injection Hs as <-.
      destruct w as [s fl tm]. pose proof (wp_run _ _ _ _ _ _ fl (wp_SaveReports_map m reports s true tm Hm) ltac:(done)) as Hr.
      unfold as_error in Hop. rewrite run_bind in Hop. destruct (Reports.SaveReports st reports _) as [[[[]|e]|] w2]; [| |done];
        injection Hop as <- <-; apply IH; try done; by apply Hr.
  - specialize (IH (Ho x) E m Hm). destruct c; try discriminate Hs; exact IH.
Qed.
End lasting.

(** ** fetch and reprocess on the store *)

Section subcommands.
Context (root : path) (idn : IMAPIdentity) (md : OpenMode) (guard : SummaryConsistencyGuard).
Context {body : Type} (mime : Mime body) (ReadMessage : string -> result (entity body))
  (json_unmarshal : string -> Tlsrpt.Report + string) (gunzip : string -> Tlsrpt.gzip_stream)
  (json_text : content -> string).
Abbreviation exec := (System.exec root idn md guard ReadMessage json_text).
Abbreviation fetch_Run := (Fetch.fetch_Run mime ReadMessage json_unmarshal gunzip).
Abbreviation reprocess_Run := (Reprocess.reprocess_Run mime json_unmarshal gunzip).
Abbreviation message_reports := (FetchProps.message_reports mime ReadMessage json_unmarshal gunzip).
Abbreviation email_inputs := (ReprocessProps.email_inputs mime json_unmarshal gunzip).

Lemma looks_adds X (c : cmd_call (entity body) X) : looks X c = true -> adds X c = true.
Proof. by destruct c. Qed.

Lemma only_save_downloaded_adds states raws uid mailbox :
  only adds (save_downloaded (body := body) states raws uid mailbox).
Proof.
  unfold notifyFetchSystemError.
  induction states as [|s states IH]; cbn [save_downloaded]; unfold notifyFetchSystemError; only_cmd; done.
Qed.

Lemma only_fetch_adds opts cfg now : only adds (fetch_Run opts cfg root now).
Proof.
  unfold Fetch.fetch_Run, Fetch.fetch_connected, Fetch.fetch_process, fetchValidateUID, fetchDownloadAndSave,
    fetchMarkSeen, notifyFetchSystemError.
  repeat first
    [ progress only_cmd
    | apply only_buildFetchStates, looks_adds
    | apply only_fetchCollectReports, looks_adds
    | apply only_save_downloaded_adds
    | case_match | done ].
Qed.

(** The path fetch looks at is the one the store writes to, for numbers that are not negative, as those
    of IMAP. *)
Lemma fetchEmailPath_layout uid uidValidity date :
  0 <= uid -> 0 <= uidValidity -> fetchEmailPath root uid uidValidity date = buildEmailPath root uid uidValidity date.
Proof.
  intros H1 H2. unfold fetchEmailPath, buildEmailPath, email_rel_path, pad10. by rewrite !fmt_d_nonneg.
Qed.

(** What fetch has stored is there at every later point. *)
Section stored.
Context (opts : cliOptions) (cfg : Config) (now : Time) (w : world)
  (t : list (event (cmd_call (entity body)))) (p' : option (prog (cmd_call (entity body)) (Z * option goerr)))
  (w' : world) (Hx : exec (fetch_Run opts cfg root now) w t p' w').

Lemma report_stays rs i : In (Ev (SaveReports rs) None) t -> In i rs ->
  has_report root (Tlsrpt.ReportID (ri_Report i)) (w_fs w').
Proof.
  intros Hin Hi.
  eapply (exec_after root idn md guard ReadMessage json_text adds (has_report root (Tlsrpt.ReportID (ri_Report i)))
    (fun e => match e with Ev c x => match c in cmd_call _ X return X -> Prop with
       | SaveReports rs' => fun x => rs' = rs /\ x = None | _ => fun _ => False end x end));
    [|apply only_fetch_adds|exact Hx|exact Hin|done].
  intros X c x Hg. destruct c; try done. destruct Hg as [-> ->]. eexists. split; [reflexivity|].
  intros w1 w2 Hm. unfold as_error in Hm. rewrite run_bind in Hm.
  destruct (Reports.SaveReports _ rs w1) as [[[[]|e]|] w3] eqn:E; [|done|done]. injection Hm as <-.
  by eapply SaveReports_saved.
Qed.

(** The file has a fixed node once it is there: quantify over the node of the first moment. *)
Lemma saved_email_stays uid uv date raw : In (Ev (SaveEmail uid uv date raw) None) t ->
  exists k c, fs_stat (w_fs w') (buildEmailPath root uid uv date) = Ok (File k c).
Proof.
  intros Hin.
  eapply (exec_after root idn md guard ReadMessage json_text adds
    (fun s => exists k c, email_file_at root (email_rel_path uid uv date) (File k c) s)
    (fun e => match e with Ev c x => match c in cmd_call _ X return X -> Prop with
       | SaveEmail uid' uv' date' _ => fun x => (uid', uv', date') = (uid, uv, date) /\ x = None
       | _ => fun _ => False end x end));
    [|apply only_fetch_adds|exact Hx|exact Hin|done].
  intros X c x Hg. destruct c; try done. destruct Hg as [[= -> -> ->] ->]. eexists. split; [reflexivity|].
  intros w1 w2 Hm. unfold as_error in Hm. rewrite run_bind in Hm.
  destruct (Emails.SaveEmail _ uid uv date raw0 w1) as [[[[]|e]|] w3] eqn:E; [|done|done]. injection Hm as <-.
  by eapply SaveEmail_saved.
Qed.

Lemma read_email_stays uid uv date raw :
  In (Ev (ReadFile (fetchEmailPath root uid uv date)) (Ok raw)) t ->
  exists k c, fs_stat (w_fs w') (fetchEmailPath root uid uv date) = Ok (File k c) /\ text json_text c = raw.
Proof.
  intros Hin.
  eapply (exec_after root idn md guard ReadMessage json_text adds
    (fun s => exists k c, fs_stat s (fetchEmailPath root uid uv date) = Ok (File k c) /\ text json_text c = raw)
    (fun e => match e with Ev c x => match c in cmd_call _ X return X -> Prop with
       | ReadFile p => fun x => p = fetchEmailPath root uid uv date /\ x = Ok raw
       | _ => fun _ => False end x end));
    [|apply only_fetch_adds|exact Hx|exact Hin|done].
  intros X c x Hg. destruct c; try done. destruct Hg as [-> ->]. eexists. split; [reflexivity|].
  intros w1 w2 Hm. by eapply ReadFile_read.
Qed.
End stored.

Lemma only_warn_failures fs : only adds (warn_failures (body := body) fs).
Proof. induction fs as [|[uid uv] fs IH]; cbn [warn_failures]; only_cmd; done. Qed.

Lemma only_reprocess_attachments atts e (notify : bool) :
  only adds (reprocess_attachments mime json_unmarshal gunzip atts e notify).
Proof.
  induction atts as [|att atts IH]; cbn [reprocess_attachments]; unfold warn_parse;
    repeat first [ progress only_cmd | done | case_match ].
Qed.

Lemma only_reprocess_collect maxBytes emails (notify : bool) :
  only adds (reprocessCollectReports mime json_unmarshal gunzip maxBytes emails notify).
Proof.
  induction emails as [|e emails IH]; cbn [reprocessCollectReports]; unfold warn_parse;
    repeat first [ apply only_reprocess_attachments | progress only_cmd | done | case_match ].
Qed.

Lemma only_reprocess_adds opts cfg : only adds (reprocess_Run opts cfg).
Proof.
  unfold Reprocess.reprocess_Run, Reprocess.reprocess_loaded, notifyReprocessSystemError.
  repeat first
    [ progress only_cmd | apply only_warn_failures | apply only_reprocess_collect | case_match | done ].
Qed.

(** Only calls that change the store save reports. *)
Lemma saved_reports_changes (t : list (event (cmd_call (entity body)))) :
  omap saved_reports (changes t) = omap saved_reports t.
Proof.
  induction t as [|[X c x] t IH]; [done|].
  destruct c; cbn -[omap]; try exact IH; destruct x; cbn; try (f_equal; exact IH); exact IH.
Qed.

(** The reports in the store after a reprocess that succeeds. *)
Lemma reprocess_reports m opts cfg w t err w' :
  exec (reprocess_Run opts cfg) w t (Some (Ret (exitOK, err))) w' -> reports_are root m (w_fs w) ->
  exists emails loadErr, In (Ev LoadEmails (emails, loadErr)) t /\
    (loadErr = None \/ (collectLoadEmailFailures loadErr).2 = true) /\
    reports_are root (upsert_map m (flat_map (email_inputs (im_MaxMessageBytes (cf_IMAP cfg))) emails)) (w_fs w').
Proof.
  intros Hx Hm. destruct (runs_reprocess _ _ _ _ _ _ _ (exec_runs _ _ _ _ _ _ _ _ _ _ _ Hx))
    as (emails & loadErr & Hl & Hf & Hc & _).
  exists emails, loadErr. split; [done|]. split; [done|].
  pose proof (exec_reports _ _ _ _ _ _ _ _ _ _ _ _ (only_reprocess_adds opts cfg) Hx Hm) as H.
  by rewrite <- saved_reports_changes, Hc in H.
Qed.

(** What the store loads where nothing fails: the emails on disk. *)
Lemma exec_loads {A} (p : prog (cmd_call (entity body)) A) s tm t p' w' emails loadErr uid uv d k c :
  only adds p -> exec p (World s [] tm) t p' w' -> In (Ev LoadEmails (emails, loadErr)) t ->
  fs_stat s (buildEmailPath root uid uv d) = Ok (File k c) ->
  in_uint32 uid -> in_uint32 uv -> path_date d ->
  forall msg, ReadMessage (text json_text c) = Ok msg ->
  exists e, In e emails /\ Emails.le_Message e = msg /\ Emails.le_UID e = uid /\ Emails.le_UIDValidity e = uv.
Proof.
  intros Ho Hx (t1 & t2 & ->)%in_split Hf Hu Hv Hd msg Hmsg.
  destruct (exec_split _ _ _ _ _ _ _ _ _ _ _ _ Hx) as (p1 & w1 & H1 & H2).
  pose proof (exec_no_faults _ _ _ _ _ _ _ _ _ _ _ H1 eq_refl) as Hfl.
  pose proof (exec_kept _ _ _ _ _ _ adds (email_file_at root (email_rel_path uid uv d) (File k c)) _ _ _ _ _ Ho H1 Hf) as Hs1.
  destruct w1 as [s1 fl tm1]. simpl in Hfl, Hs1. subst fl.
  destruct (exec_answer _ _ _ _ _ _ _ _ _ _ _ _ H2 _ eq_refl) as [w2 Ha]. unfold email_file_at in Hs1.
  assert (Hp : root ++ "emails" :: email_rel_path uid uv d = emailsPath root ++ email_rel_path uid uv d)
    by (unfold emailsPath; by rewrite <- app_assoc). rewrite Hp in Hs1.
  assert (Hcan : can_load root s1).
  { left. apply fs_stat_Ok in Hs1 as [Hd1 _]. rewrite dir_err_None in *. intros q u Hq.
    apply (Hd1 q (u ++ removelast (email_rel_path uid uv d))). unfold parent.
    by rewrite removelast_app, app_assoc, <- Hq by done. }
  destruct (load_spec root idn md (fun c => ReadMessage (text json_text c)) s1 tm1 Hcan)
    as (loaded & err & Hrun & Hin & _).
  rewrite run_bind, Hrun in Ha. injection Ha as <- <- _.
  exists {| Emails.le_Message := msg; Emails.le_UID := uid; Emails.le_UIDValidity := uv;
            Emails.le_InternalDate := default (first_of_month d) (indexed_dates root s1 !! (uid, uv));
            Emails.le_Path := email_rel_path uid uv d |}.
  split; [|done]. apply Hin. exists k, c. split_and!; [done| |by apply email_of_built_path|done].
  cbn [Emails.le_Path]. rewrite <- Hp. fold (buildEmailPath root uid uv d). unfold base. rewrite email_target, last_last. apply Ext_eml.
Qed.

(** C20: a reprocess that succeeds rebuilds the reports in the store. Whatever the reports were, they
    are now the old ones updated, by their ids, with the reports of all attachments of all messages
    that the store loaded, in the order of the messages; none is lost, and no other is there. *)
Theorem reprocess_rebuilds m opts cfg w t err w' :
  exec (reprocess_Run opts cfg) w t (Some (Ret (exitOK, err))) w' -> reports_are root m (w_fs w) ->
  exists emails loadErr, In (Ev LoadEmails (emails, loadErr)) t /\
    (loadErr = None \/ (collectLoadEmailFailures loadErr).2 = true) /\
    reports_are root (upsert_map m (flat_map (email_inputs (im_MaxMessageBytes (cf_IMAP cfg))) emails)) (w_fs w').
Proof. apply reprocess_reports. Qed.

(** C7: what is on disk can be recovered: a reprocess in which nothing fails and that succeeds leaves
    in the store a record for every report in every stored email, whatever records were there
    before, and also when the data file had been lost. *)
Theorem reprocess_recovers m opts cfg s tm t err w' uid uv d k c :
  exec (reprocess_Run opts cfg) (World s [] tm) t (Some (Ret (exitOK, err))) w' -> reports_are root m s ->
  fs_stat s (buildEmailPath root uid uv d) = Ok (File k c) -> in_uint32 uid -> in_uint32 uv -> path_date d ->
  forall report, In report (message_reports cfg (text json_text c)) -> has_report root (Tlsrpt.ReportID report) (w_fs w').
Proof.
  intros Hx Hm Hf Hu Hv Hd report Hr. unfold FetchProps.message_reports in Hr.
  destruct (ReadMessage (text json_text c)) as [msg|e] eqn:Hmsg; [|done].
  destruct (reprocess_reports m _ _ _ _ _ _ Hx Hm) as (emails & loadErr & Hl & _ & Hw').
  destruct (exec_loads _ _ _ _ _ _ _ _ _ _ _ _ _ (only_reprocess_adds opts cfg) Hx Hl Hf Hu Hv Hd msg Hmsg)
    as (e & He & <- & _).
  eexists. split; [exact Hw'|].
  apply (upsert_map_in m _ (report_input (Emails.le_UID e) (Emails.le_UIDValidity e) report)).
  apply in_flat_map. exists e. split; [done|]. by apply in_map.
Qed.
End subcommands.

(** ** Read-only invocations on the store *)

Section read_only.
Context (root : path) (idn : IMAPIdentity) (md : OpenMode) (guard : SummaryConsistencyGuard).
Context {body : Type} (mime : Mime body) (ReadMessage : string -> result (entity body))
  (json_unmarshal : string -> Tlsrpt.Report + string) (gunzip : string -> Tlsrpt.gzip_stream)
  (json_text : content -> string) (ctx_err : nat -> option goerr) (now : Time).
Abbreviation exec := (System.exec root idn md guard ReadMessage json_text).
Abbreviation run_subcommand := (Main.run_subcommand mime ReadMessage json_unmarshal gunzip ctx_err now).

(** C19: a dry run of any subcommand, and a summary, leaves every file as it was, in whatever mode the
    store was opened, however the run ends and at every point of it. *)
Theorem read_only_leaves_disk args inv b w t p' w' :
  parseCLI args = Ok inv -> read_only inv = true ->
  exec (run_subcommand (Subcommand inv) (Options inv) b) w t p' w' -> w_fs w' = w_fs w.
Proof.
  intros Hp Hro Hx.
  eapply (exec_kept root idn md guard ReadMessage json_text harmless (fun s => s = w_fs w)); [|exact Hx|done].
  eapply only_weaken; [|by apply only_run_subcommand; [eapply parseCLI_ok|]].
  intros X c. apply dry_call_harmless.
Qed.
End read_only.

(** ** Examples *)

(** The store of an earlier run, and a server with one unseen message. *)
Module SystemExample.
Definition root : path := ["d"].
Definition sentinel : internalSentinelFile := set_uidvalidity (Some 5) (new_sentinel DataExample.idn 0).
Definition s0 : fs :=
  <[root ++ [sentinelFilename] := File 384 (JSentinel sentinel)]>
    (<[root ++ [guardFilename] := File 384 (Raw "")]> DataExample.s0).
Definition w0 : world := World s0 [] 1700000000.

Definition read (_ : string) : result (entity nat) := Ok sample_entity.
Definition json_text (_ : content) : string := "{}".
Definition answer : forall X, cmd_call (entity nat) X -> X :=
  obliging false 5 sample_meta {[7 := "eml"]} (Err (Errno ENOENT)).

Abbreviation on_store := (run_on root DataExample.idn OpenReadWrite noopSummaryConsistencyGuard read json_text answer).
Definition fetched :=
  on_store (fetch_Run sample_mime read sample_report_of no_gzip (sample_opts false) sample_config root 1700000000) w0.
(** Then the stored message is processed again. *)
Definition rebuilt :=
  on_store (reprocess_Run sample_mime sample_report_of no_gzip sample_reprocess_opts sample_config) fetched.2.
(** And again when the data file has been lost. *)
Definition lost : fs := delete (dataFilePath root) (w_fs fetched.2).
Definition recovered :=
  on_store (reprocess_Run sample_mime sample_report_of no_gzip sample_reprocess_opts sample_config) (World lost [] 0).
End SystemExample.

Lemma reprocess_rebuilds_witness :
  let m := reports_map (df_Reports DataExample.df) in
  exists emails loadErr, In (Ev LoadEmails (emails, loadErr)) SystemExample.rebuilt.1.1 /\
    (loadErr = None \/ (collectLoadEmailFailures loadErr).2 = true) /\
    reports_are SystemExample.root (upsert_map
      (upsert_map m [FetchProps.report_input 7 5 (sample_report "192.0.2.1")])
      (flat_map (ReprocessProps.email_inputs sample_mime sample_report_of no_gzip
         (im_MaxMessageBytes (cf_IMAP sample_config))) emails)) (w_fs SystemExample.rebuilt.2).
Proof.
  cbv zeta.
  apply (reprocess_rebuilds SystemExample.root DataExample.idn OpenReadWrite noopSummaryConsistencyGuard
    sample_mime SystemExample.read sample_report_of no_gzip SystemExample.json_text _ sample_reprocess_opts
    sample_config SystemExample.fetched.2 _ None).
  - exact (run_on_exec _ _ _ _ _ _ SystemExample.answer
      (reprocess_Run sample_mime sample_report_of no_gzip sample_reprocess_opts sample_config)
      SystemExample.fetched.2).
  - split; [vm_compute; reflexivity|]. eexists. split; vm_compute; reflexivity.
Defined.

Lemma read_only_leaves_disk_witness :
  let inv := {| Subcommand := subcommandFetch; Options := put_DryRun (empty_options "c.toml") true |} in
  let b := new_boot sample_config subcommandFetch "run" "" "" in
  let r := run_on SystemExample.root DataExample.idn OpenReadOnly noopSummaryConsistencyGuard SystemExample.read
    SystemExample.json_text SystemExample.answer
    (run_subcommand sample_mime SystemExample.read sample_report_of no_gzip (fun _ => None) 1700000000
       (Subcommand inv) (Options inv) b) SystemExample.w0 in
  (5 <= length r.1.1)%nat /\ w_fs r.2 = w_fs SystemExample.w0.
Proof.
  cbv zeta. split; [vm_compute; repeat constructor|].
  refine (read_only_leaves_disk SystemExample.root DataExample.idn OpenReadOnly noopSummaryConsistencyGuard
    sample_mime SystemExample.read sample_report_of no_gzip SystemExample.json_text (fun _ => None) 1700000000
    (fetch_args ++ ["--dry-run"]) _ _ _ _ _ _ _ _ (run_on_exec _ _ _ _ _ _ SystemExample.answer _ _));
    vm_compute; reflexivity.
Defined.

Lemma reprocess_recovers_witness :
  data_at SystemExample.root SystemExample.lost = Ok empty_data /\
  has_report SystemExample.root (Tlsrpt.ReportID (sample_report "192.0.2.1")) (w_fs SystemExample.recovered.2).
Proof.
  split; [vm_compute; reflexivity|].
  assert (Hf : exists k c, fs_stat SystemExample.lost (buildEmailPath SystemExample.root 7 5 1700000000) = Ok (File k c))
    by (eexists _, _; vm_compute; reflexivity).
  destruct Hf as (k & c & Hf).
  apply (reprocess_recovers SystemExample.root DataExample.idn OpenReadWrite noopSummaryConsistencyGuard
    sample_mime SystemExample.read sample_report_of no_gzip SystemExample.json_text ∅ sample_reprocess_opts
    sample_config SystemExample.lost 0 SystemExample.recovered.1.1 None SystemExample.recovered.2 7 5 1700000000 k c).
  - exact (run_on_exec _ _ _ _ _ _ SystemExample.answer
      (reprocess_Run sample_mime sample_report_of no_gzip sample_reprocess_opts sample_config)
      (World SystemExample.lost [] 0)).
  - split; [vm_compute; reflexivity|]. exists empty_data. split; vm_compute; reflexivity.
  - exact Hf.
  - unfold in_uint32. lia.
  - unfold in_uint32. lia.
  - vm_compute. split; discriminate.
  - left. vm_compute. reflexivity.
Defined.
