(* ===== verification/SeenProps.v ===== *)
(** * What is on disk of the messages that were marked as seen

    The files of emails that appear while fetch runs are the texts it saves ([exec_origin]), these are
    the texts the server sent ([runs_saves_sent]), and so a message that was marked as seen has its text
    as the server sent it, and its reports, on disk ([seen_messages_on_disk]). *)
From S2P Require Import Prelude GoStr GoTime GoErr.
From S2P Require Tlsrpt.
From S2P Require Import StoreTypes Fs Io AtomicFile Sentinel FileStore Reports Emails Recovery EmailsSpec DataProps Confine LoadSpec.
From S2P Require Import Config Mailparse Prog Cmd CmdSpec Fetch Reprocess FetchProps ReprocessProps System SystemProps.

(** ** Where the files of emails come from *)

Section origin.
Context (root : path) (idn : IMAPIdentity) (md : OpenMode) (guard : SummaryConsistencyGuard).
Context {Message : Type} (ReadMessage : string -> result Message) (json_text : content -> string).
Abbreviation st := (newStore root idn md).
Abbreviation exec := (System.exec root idn md guard ReadMessage json_text).
Abbreviation store_op := (System.store_op root idn md guard ReadMessage json_text).

(** The root directory is there, and so is the directory of every email. *)
Definition reachable (s : fs) : Prop :=
  dir_err s root = None /\
  forall uid uv d n, s !! buildEmailPath root uid uv d = Some n -> fs_stat s (buildEmailPath root uid uv d) = Ok n.

Lemma tree_reachable s : tree s -> dir_err s root = None -> reachable s.
Proof. intros Ht Hd. split; [done|]. intros uid uv d n H. by apply tree_stat. Qed.

(** An entry at the path of an email in [s'] was there in [s], or has been written with [raw]. *)
Definition grown (target : option (path * string)) (s s' : fs) : Prop :=
  reachable s' /\
  forall uid uv d n, s' !! buildEmailPath root uid uv d = Some n ->
    s !! buildEmailPath root uid uv d = Some n \/
    exists raw, target = Some (buildEmailPath root uid uv d, raw) /\ n = File filePerm (Raw raw).

Lemma grown_refl target s : reachable s -> grown target s s.
Proof. intros Hs. split; [done|]. by left. Qed.

(** Paths of emails have the same number of components and end in the name of an email. *)
Lemma email_path_length uid uv d : length (buildEmailPath root uid uv d) = (length root + 4)%nat.
Proof. unfold buildEmailPath, email_rel_path. rewrite length_app. simpl. lia. Qed.

Lemma email_path_not_dir uid uv d uv' d' u : buildEmailPath root uid uv d ++ u <> email_dir root uv' d'.
Proof.
  intros H. apply (f_equal length) in H. rewrite length_app, email_path_length in H.
  unfold email_dir in H. rewrite length_app in H. simpl in H. lia.
Qed.

Lemma email_path_above uid uv d uid' uv' d' x u :
  buildEmailPath root uid uv d <> buildEmailPath root uid' uv' d' ++ x :: u.
Proof.
  intros H. apply (f_equal length) in H. rewrite length_app, !email_path_length in H. simpl in H. lia.
Qed.

Lemma grown_only s s' : Fs.only root not_email s s' -> reachable s -> grown None s s'.
Proof.
  intros Ho [Hd Hs]. assert (Hl : forall uid uv d, s' !! buildEmailPath root uid uv d = s !! buildEmailPath root uid uv d).
  { intros uid uv d. apply (only_lookup root not_email); [done|]. by intros []. }
  split; [|intros uid uv d n; rewrite Hl; by left]. split; [by rewrite (only_dir_err _ _ _ _ Ho)|].
  intros uid uv d n. rewrite Hl. intros H. unfold buildEmailPath. unfold email_rel_path.
  rewrite (fs_stat_only root not_email s s'); [by apply (Hs uid uv d)|done|by intros []].
Qed.

(** A file system with more directories and temporary files. *)
Lemma grown_not_stored target uv d s s' : email_not_stored root uv d s s' -> reachable s -> grown target s s'.
Proof.
  intros (s1 & [Hs1 Hn1] & Hs2 & Hn2) [Hd Hs].
  assert (Hold : forall uid' uv' d' n, s' !! buildEmailPath root uid' uv' d' = Some n ->
    s !! buildEmailPath root uid' uv' d' = Some n).
  { intros uid' uv' d' n H. destruct (Hn2 _ _ H) as [H1|(_ & x & Hx & Htmp)].
    - destruct (Hn1 _ _ H1) as [H0|(_ & _ & u & Hu)]; [done|]. symmetry in Hu. by apply email_path_not_dir in Hu.
    - rewrite email_target in Hx. apply app_inj_tail in Hx as [_ Hx]. rewrite <- Hx in Htmp.
      by rewrite email_file_not_tmp in Htmp. }
  assert (Hsub : s ⊆ s') by by transitivity s1.
  split; [|by intros; left; apply Hold]. split; [by eapply dir_err_mono|].
  intros uid' uv' d' n H. pose proof (Hs _ _ _ _ (Hold _ _ _ _ H)) as Hst.
  apply fs_stat_Ok in Hst as [H1 H2]. apply fs_stat_Ok. split; [by eapply dir_err_mono|done].
Qed.

Lemma grown_stored uid uv d raw s s' : email_stored root uid uv d raw s s' -> reachable s ->
  grown (Some (buildEmailPath root uid uv d, raw)) s s'.
Proof.
  intros (s1 & Hs1 & Hdir & ->) Hs.
  destruct (grown_not_stored None uv d s s1) as [[Hd Hr] Hold]; [by exists s1|done|].
  rewrite <- email_target. unfold written. split.
  - split; [unfold buildEmailPath; by rewrite dir_err_insert_below|]. intros uid' uv' d' n H.
    destruct (decide (buildEmailPath root uid uv d = buildEmailPath root uid' uv' d')) as [E|Hne].
    + rewrite <- E, lookup_insert_eq in H. injection H as <-. rewrite <- E. apply fs_stat_Ok.
      split; [|by rewrite lookup_insert_eq]. by rewrite email_target, parent_app, dir_err_insert_below.
    + rewrite lookup_insert_ne in H by done. apply stat_insert; [by apply Hr|].
      intros [|x u] Hu; [by rewrite app_nil_r in Hu|by apply email_path_above in Hu].
  - intros uid' uv' d' n H.
    destruct (decide (buildEmailPath root uid uv d = buildEmailPath root uid' uv' d')) as [E|Hne].
    + rewrite <- E, lookup_insert_eq in H. injection H as <-. right. exists raw. by rewrite E.
    + rewrite lookup_insert_ne in H by done. destruct (Hold _ _ _ _ H) as [H0|(r & Hr' & _)]; [by left|done].
Qed.

(** What one call adds. *)
Definition target_of {X} (c : cmd_call Message X) : option (path * string) :=
  match c with SaveEmail uid uv d raw => Some (buildEmailPath root uid uv d, raw) | _ => None end.

Lemma SaveEmail_grows uid uv d raw (b : bool) (tm : Time) s : reachable s ->
  Io.wp b tm (Emails.SaveEmail st uid uv d raw) (fun _ s' => grown (Some (buildEmailPath root uid uv d, raw)) s s')
    (fun _ => True) s.
Proof.
  intros Hs. destruct (decide (md = OpenReadOnly)) as [->|Hmd].
  { unfold Emails.SaveEmail. simpl. by apply wp_ret, grown_refl. }
  destruct (IsZero d) eqn:Ez.
  { unfold Emails.SaveEmail. simpl. rewrite bool_decide_false, Ez by done. by apply wp_ret, grown_refl. }
  apply wp_SaveEmail; [done|done|..]; [by intros _; apply grown_refl|..|done].
  - intros s' _ H. by apply grown_stored.
  - intros e s' H _. by eapply grown_not_stored.
Qed.

Lemma call_grows {X} (c : cmd_call Message X) m x w w1 :
  adds X c = true -> store_op c = Some m -> m w = (Some x, w1) -> reachable (w_fs w) ->
  grown (target_of c) (w_fs w) (w_fs w1).
Proof.
  intros Hc Hop Hm Hs. destruct w as [s fl tm]. simpl in Hs |- *.
  assert (Hsame : preserves (fun s' => s' = s) m -> w_fs w1 = s).
  { intros Hp. pose proof (wp_run _ _ _ _ _ _ fl (Hp true tm s eq_refl) ltac:(done)) as H. by rewrite Hm in H. }
  destruct (harmless X c) eqn:Eh.
  { rewrite Hsame; [by apply grown_refl|]. by eapply (harmless_kept root idn md guard). }
  assert (Hconf : forall (op : M (result unit)) y, as_error op (World s fl tm) = (Some y, w1) ->
    confined root not_email op -> grown None s (w_fs w1)).
  { intros op y Hr Ho. unfold as_error in Hr. rewrite run_bind in Hr.
    pose proof (wp_run _ _ _ _ _ _ fl (Ho true tm s (proj1 Hs)) ltac:(done)) as H.
    destruct (op _) as [[[[]|e]|] w2]; [| |done]; injection Hr as _ <-; by apply grown_only. }
  destruct c; try discriminate Hc; try discriminate Eh; try discriminate Hop; injection Hop as <-; simpl.
  - by eapply Hconf, confined_SaveRecoveryRequired; [exact Hm|apply tmp_not_email|..].
  - by eapply Hconf, confined_SaveUIDValidity; [exact Hm|apply tmp_not_email|].
  - unfold as_error in Hm. rewrite run_bind in Hm.
    pose proof (wp_run _ _ _ _ _ _ fl (SaveEmail_grows uid uidValidity date raw true tm s Hs) ltac:(done)) as H.
    destruct (Emails.SaveEmail _ _ _ _ _ _) as [[[[]|e]|] w2]; [| |done]; by injection Hm as _ <-.
  - by eapply Hconf, confined_SaveEmailMetas; [exact Hm|apply tmp_not_email|].
  - by eapply Hconf, confined_SaveReports; [exact Hm|apply tmp_not_email|].
Qed.

(** Every email found at the end was there at the start, or its text was saved on the way. *)
Lemma exec_origin {A} (p : prog (cmd_call Message) A) w t p' w' :
  only adds p -> exec p w t (Some p') w' -> reachable (w_fs w) ->
  reachable (w_fs w') /\
  forall uid uv d n, w_fs w' !! buildEmailPath root uid uv d = Some n ->
    w_fs w !! buildEmailPath root uid uv d = Some n \/
    exists uid' uv' d' raw x, In (Ev (SaveEmail uid' uv' d' raw) x) t /\
      buildEmailPath root uid' uv' d' = buildEmailPath root uid uv d /\ n = File filePerm (Raw raw).
Proof.
  intros Ho H. remember (Some p') as q eqn:E.
  induction H as [p w|X c k w op x w1 t q w' Hs Hop H IH|X c k w x t q w' Hs H IH|X c k w op w1 Hs Hop];
    intros Hw; [split; [done|by left]|..|done]; destruct Ho as [Hc Ho].
  - destruct (call_grows c op x w w1 Hc Hs Hop Hw) as [Hw1 H1]. destruct (IH (Ho x) E Hw1) as [Hw' H'].
    split; [done|]. intros uid uv d n Hn. destruct (H' _ _ _ _ Hn) as [Hn1|(uid' & uv' & d' & raw & y & Hi & Hp)].
    + destruct (H1 _ _ _ _ Hn1) as [H0|(raw & Ht & ->)]; [by left|]. right. destruct c; try discriminate Ht.
      injection Ht as Hp ->. eexists _, _, _, _, _. split; [by left|done].
    + right. exists uid', uv', d', raw, y. split; [by right|done].
  - destruct (IH (Ho x) E Hw) as [Hw' H']. split; [done|]. intros uid uv d n Hn.
    destruct (H' _ _ _ _ Hn) as [Hn1|(uid' & uv' & d' & raw & y & Hi & Hp)]; [by left|].
    right. exists uid', uv', d', raw, y. split; [by right|done].
Qed.
End origin.

(** ** What fetch saves is what the server sent *)

Section seen.
Context (root : path) (idn : IMAPIdentity) (md : OpenMode) (guard : SummaryConsistencyGuard).
Context {body : Type} (mime : Mime body) (ReadMessage : string -> result (entity body))
  (json_unmarshal : string -> Tlsrpt.Report + string) (gunzip : string -> Tlsrpt.gzip_stream)
  (json_text : content -> string).
Abbreviation exec := (System.exec root idn md guard ReadMessage json_text).
Abbreviation fetch_Run := (Fetch.fetch_Run mime ReadMessage json_unmarshal gunzip).
Abbreviation message_reports := (FetchProps.message_reports mime ReadMessage json_unmarshal gunzip).
Abbreviation history := (list (event (cmd_call (entity body)))).
Abbreviation from_list msgs := (Forall (fun s => In (meta s) msgs)).

(** The lists and the texts the server sent. *)
Definition sent_list (e : event (cmd_call (entity body))) : option FetchMetaResult :=
  match e with
  | Ev c x =>
      match c in cmd_call _ X return X -> option FetchMetaResult with
      | FetchMeta _ => fun x => match x with Ok l => Some l | Err _ => None end
      | _ => fun _ => None
      end x
  end.

Definition sent_texts (e : event (cmd_call (entity body))) : option (gmap Z string) :=
  match e with
  | Ev c x =>
      match c in cmd_call _ X return X -> option (gmap Z string) with
      | Download _ => fun x => match x with Ok texts => Some texts | Err _ => None end
      | _ => fun _ => None
      end x
  end.

Definition saved_email (e : event (cmd_call (entity body))) : option (Z * Z * string) :=
  match e with Ev c _ => match c with SaveEmail uid uv _ raw => Some (uid, uv, raw) | _ => None end end.

(** The numbers of a list are 32-bit, as the server sends them. *)
Definition list_in_range (l : FetchMetaResult) : Prop :=
  in_uint32 (Imap.fm_UIDValidity l) /\ Forall (fun m => in_uint32 (Imap.mm_UID m)) (Imap.Messages l).

(** The saved text is the one the server sent for a message it has listed. *)
Definition sent (l : FetchMetaResult) (texts : gmap Z string) (e : Z * Z * string) : Prop :=
  let '(uid, uv, raw) := e in
  uv = Imap.fm_UIDValidity l /\ texts !! uid = Some raw /\ In uid (Imap.mm_UID <$> Imap.Messages l).

(** There is one list and one set of texts at most, and what is saved is out of them. *)
Definition saves_sent (h : history) : Prop :=
  (omap sent_texts h = [] /\ omap saved_email h = [] /\ (length (omap sent_list h) <= 1)%nat) \/
  exists l texts, omap sent_list h = [l] /\ omap sent_texts h = [texts] /\ Forall (sent l texts) (omap saved_email h).

(** Calls that neither ask the server for messages nor save one. *)
Definition apart (X : Type) (c : cmd_call (entity body) X) : bool :=
  match c with FetchMeta _ | Download _ | SaveEmail _ _ _ _ => false | _ => true end.

Lemma apart_omap (t : history) : Forall (fun e => ev_is apart e = true) t ->
  omap sent_list t = [] /\ omap sent_texts t = [] /\ omap saved_email t = [].
Proof.
  intros H. induction H as [|[X c x] t Hc H (IH1 & IH2 & IH3)]; [done|]. by destruct c.
Qed.

Lemma saves_sent_app (h t : history) : Forall (fun e => ev_is apart e = true) t -> saves_sent h -> saves_sent (h ++ t).
Proof.
  intros (E1 & E2 & E3)%apart_omap. unfold saves_sent. by rewrite !omap_app, E1, E2, E3, !app_nil_r.
Qed.

Lemma wp_apart {A} (p : prog (cmd_call (entity body)) A) h :
  only apart p -> saves_sent h -> wp p h (fun _ h' => saves_sent h').
Proof. intros Ho Hh. apply (wp_only apart); [done|]. intros. by apply saves_sent_app. Qed.

Lemma looks_apart X (c : cmd_call (entity body) X) : looks X c = true -> apart X c = true.
Proof. by destruct c. Qed.

Ltac only_apart :=
  unfold notifyFetchSystemError; repeat first [progress only_cmd | case_match | done
    | apply only_buildFetchStates, looks_apart | apply only_fetchCollectReports, looks_apart].

(** Once the list and the texts are there. *)
Definition has_sent (l : FetchMetaResult) (texts : gmap Z string) (h : history) : Prop :=
  omap sent_list h = [l] /\ omap sent_texts h = [texts] /\ Forall (sent l texts) (omap saved_email h).

Lemma has_sent_app l texts (h t : history) :
  Forall (fun e => ev_is apart e = true) t -> has_sent l texts h -> has_sent l texts (h ++ t).
Proof. intros (E1 & E2 & E3)%apart_omap. unfold has_sent. by rewrite !omap_app, E1, E2, E3, !app_nil_r. Qed.

Lemma has_sent_saves l texts (h : history) : has_sent l texts h -> saves_sent h.
Proof. intros H. right. by exists l, texts. Qed.

Lemma wp_save_downloaded_sent l texts states mailbox (h : history) :
  from_list (Imap.Messages l) states -> has_sent l texts h ->
  wp (save_downloaded (body := body) states texts (Imap.fm_UIDValidity l) mailbox) h (fun _ h' => has_sent l texts h').
Proof.
  revert h. induction states as [|s states IH]; intros h Hl Hh; cbn [Fetch.save_downloaded]; [done|].
  apply Forall_cons_iff in Hl as [Hm Hl].
  assert (Hc : forall s' h1, has_sent l texts h1 ->
    wp (bind (save_downloaded (body := body) states texts (Imap.fm_UIDValidity l) mailbox)
          (fun rest => Ret (match rest with Err e => Err e | Ok ss => Ok (s' :: ss) end))) h1
       (fun _ h' => has_sent l texts h')).
  { intros s' h1 H1. apply prog_wp_bind. eapply prog_wp_mono; [|by apply IH]. done. }
  destruct (emlExistedBefore s); [by apply Hc|]. destruct (texts !! uid_of s) as [raw|] eqn:Et.
  - apply prog_wp_bind, (wp_only apart); [only_apart|]. intros [] t Ht x. cbn [bind call].
    assert (Hx : has_sent l texts ((h ++ t) ++ [Ev (SaveEmail (uid_of s) (Imap.fm_UIDValidity l) (Imap.mm_Date (meta s)) raw) x])).
    { apply (has_sent_app l texts h t Ht) in Hh as (E1 & E2 & E3). unfold has_sent. rewrite !(omap_app _ (h ++ t)), E1, E2.
      split_and!; [done..|]. apply Forall_app_2; [done|]. constructor; [|constructor]. split_and!; [done..|].
      apply in_map_iff. by exists (meta s). }
    destruct x as [e|]; [exact Hx|by apply Hc].
  - simpl. intros x x'. apply has_sent_app; [by repeat constructor|]. by apply has_sent_app; [repeat constructor|].
Qed.

Lemma wp_connected_sent opts cfg now mailbox (h : history) :
  omap sent_list h = [] -> omap sent_texts h = [] -> omap saved_email h = [] ->
  wp (Fetch.fetch_connected mime ReadMessage json_unmarshal gunzip opts cfg root now mailbox) h (fun _ h' => saves_sent h').
Proof.
  intros H1 H2 H3. unfold Fetch.fetch_connected. intros fetched. cbn [bind call]. set (h0 := h ++ _).
  assert (E2 : omap sent_texts h0 = []) by (unfold h0; by rewrite omap_app, H2).
  assert (E3 : omap saved_email h0 = []) by (unfold h0; by rewrite omap_app, H3).
  destruct fetched as [l|e].
  2: { apply wp_apart; [only_apart|]. left. split_and!; [done..|]. unfold h0. rewrite omap_app, H1. simpl. lia. }
  assert (E1 : omap sent_list h0 = [l]) by (unfold h0; by rewrite omap_app, H1).
  assert (Hl : forall t, Forall (fun e => ev_is apart e = true) t ->
    omap sent_list (h0 ++ t) = [l] /\ omap sent_texts (h0 ++ t) = [] /\ omap saved_email (h0 ++ t) = []).
  { intros t (T1 & T2 & T3)%apart_omap. by rewrite !omap_app, E1, E2, E3, T1, T2, T3. }
  assert (Hok : forall t, Forall (fun e => ev_is apart e = true) t -> saves_sent (h0 ++ t)).
  { intros t (T1 & T2 & T3)%Hl. left. rewrite T1. split_and!; [done..|simpl; lia]. }
  apply prog_wp_bind, (wp_only apart); [unfold fetchValidateUID; only_apart|]. intros [out|] t1 Ht1; [by apply Hok|].
  apply prog_wp_bind, (prog_wp_mono _ _ (fun r h2 => (exists t, h2 = h0 ++ t /\ Forall (fun e => ev_is apart e = true) t) /\
    forall states, r = Ok states -> from_list (Imap.Messages l) states)).
  2: { apply wp_and; [apply (wp_only apart); [only_apart|]; intros r t Ht; exists (t1 ++ t);
      split; [by rewrite app_assoc|by apply Forall_app_2]|].
    eapply prog_wp_mono; [|apply (wp_buildFetchStates _ _ root)]. intros r h' [_ Hr] states ->. by apply Hr. }
  intros built h2 [(t & -> & Ht) Hb]. destruct built as [states|e]; [|by apply Hok].
  destruct (DryRun opts); [apply wp_apart; [only_apart|by apply Hok]|].
  apply prog_wp_bind, (prog_wp_mono _ _ (fun _ h' => saves_sent h')).
  { intros saved h3 H. destruct saved as [ss|e]; [|done].
    apply wp_apart; [unfold Fetch.fetch_process, fetchMarkSeen; only_apart|done]. }
  unfold fetchDownloadAndSave. destruct (omap _ states) as [|u us]; [by apply Hok|].
  intros downloaded. destruct (Hl t Ht) as (T1 & T2 & T3). destruct downloaded as [texts|e].
  - eapply prog_wp_mono; [|apply (wp_save_downloaded_sent l texts)]; [intros a h' H; exact (has_sent_saves _ _ _ H)|by apply Hb|].
    unfold has_sent. rewrite !(omap_app _ (h0 ++ t)), T1, T2, T3. by repeat constructor.
  - cbn [bind]. apply wp_apart; [only_apart|left]. rewrite !(omap_app _ (h0 ++ t)), T1, T2, T3. split_and!; [done..|simpl; lia].
Qed.

Lemma runs_saves_sent opts cfg now t r : runs (fetch_Run opts cfg root now) t r -> saves_sent t.
Proof.
  intros H. apply (wp_runs _ t r [] (fun _ h => saves_sent h) H). clear H t r.
  assert (H0 : forall t, Forall (fun e => ev_is apart e = true) t -> saves_sent t).
  { intros t (T1 & T2 & T3)%apart_omap. left. rewrite T1, T2, T3. split_and!; [done..|simpl; lia]. }
  unfold Fetch.fetch_Run. cbn [bind call wp app]. intros loaded.
  destruct loaded as [[[[p c] d] found]|e]; [destruct found|];
    [apply wp_apart; [only_apart|by apply H0; repeat constructor]| |apply wp_apart; [only_apart|by apply H0; repeat constructor]].
  intros [user pass]. cbn [bind app].
  destruct (_ || _); [apply wp_apart; [only_apart|by apply H0; repeat constructor]|].
  intros [e|]; cbn [bind app]; [apply wp_apart; [only_apart|by apply H0; repeat constructor]|].
  apply prog_wp_bind. eapply prog_wp_mono; [|by apply wp_connected_sent].
  intros out h1 H1. apply wp_apart; [only_apart|done].
Qed.

(** ** A file that was looked for and not found *)

Lemma stat_not_there p st w w1 :
  seen_locally false st -> map_result (as_stat json_text) (sys_stat p) w = (Some st, w1) ->
  forall k c, fs_stat (w_fs w) p <> Ok (File k c).
Proof.
  intros Hst H k c Hf. destruct w as [s fl tm]. simpl in Hf.
  assert (Hw : Io.wp true tm (map_result (as_stat json_text) (sys_stat p))
    (fun r s' => ~ seen_locally false r) (fun _ => True) s).
  { unfold map_result. apply wp_bind, wp_read.
    - apply wp_ret. rewrite Hf. done.
    - intros _. split; [done|]. intros e He. apply wp_ret. simpl. rewrite (injected_not_exist e He). by intros []. }
  pose proof (wp_run _ _ _ _ _ _ fl Hw ltac:(done)) as Hr. rewrite H in Hr. by apply Hr.
Qed.

Section run.
Context (opts : cliOptions) (cfg : Config) (now : Time) (w : world)
  (t : list (event (cmd_call (entity body)))) (p' : option (prog (cmd_call (entity body)) (Z * option goerr)))
  (w' : world) (Hx : exec (fetch_Run opts cfg root now) w t p' w').
Context (Hw : reachable root (w_fs w)).
Context (Hrange : Forall (fun e => forall l, sent_list e = Some l -> list_in_range l) t).

Lemma run_saves_sent (answer : forall X, cmd_call (entity body) X -> X) : exists t', saves_sent (t ++ t').
Proof using Hx.
  destruct (exec_prefix _ _ _ _ _ _ _ _ _ _ _ answer Hx) as (t' & r & Hr). exists t'. by eapply runs_saves_sent.
Qed.

(** The list of a run, and the texts of a run that saved an email. *)
Lemma the_list since l t' : In (Ev (FetchMeta since) (Ok l)) t -> saves_sent (t ++ t') -> omap sent_list (t ++ t') = [l].
Proof using Type.
  intros Hin Hs. assert (Hl : In l (omap sent_list (t ++ t'))).
  { apply list_elem_of_In, list_elem_of_omap. exists (Ev (FetchMeta since) (Ok l)).
    split; [apply list_elem_of_In, in_or_app; by left|done]. }
  destruct Hs as [(_ & _ & Hle)|(l' & texts & E & _)].
  - destruct (omap sent_list (t ++ t')) as [|x [|]]; simpl in *; [done| |lia]. by destruct Hl as [->|[]].
  - rewrite E in Hl |- *. by destruct Hl as [->|[]].
Qed.

Lemma save_of_list since l asked texts uid uv d raw x t' :
  In (Ev (FetchMeta since) (Ok l)) t -> In (Ev (Download asked) (Ok texts)) t -> saves_sent (t ++ t') ->
  In (Ev (SaveEmail uid uv d raw) x) t -> in_uint32 uid /\ uv = Imap.fm_UIDValidity l /\ texts !! uid = Some raw.
Proof using Hrange.
  intros Hlist Htexts Hs Hsave. pose proof (the_list _ _ _ Hlist Hs) as El.
  assert (Ht : In texts (omap sent_texts (t ++ t'))).
  { apply list_elem_of_In, list_elem_of_omap. exists (Ev (Download asked) (Ok texts)).
    split; [apply list_elem_of_In, in_or_app; by left|done]. }
  assert (He : In (uid, uv, raw) (omap saved_email (t ++ t'))).
  { apply list_elem_of_In, list_elem_of_omap. exists (Ev (SaveEmail uid uv d raw) x).
    split; [apply list_elem_of_In, in_or_app; by left|done]. }
  destruct Hs as [(E & _)|(l' & texts' & E1 & E2 & E3)]; [by rewrite E in Ht|].
  rewrite E1 in El. injection El as ->. rewrite E2 in Ht. destruct Ht as [->|[]].
  rewrite Forall_forall in E3. destruct (E3 _ He) as (-> & Hraw & Hm). split; [|done].
  rewrite Forall_forall in Hrange. destruct (Hrange _ Hlist l eq_refl) as [_ Hu]. rewrite Forall_forall in Hu.
  apply in_map_iff in Hm as (m & <- & Hm). by apply Hu.
Qed.

(** A message that had no file, and was downloaded and saved, has the text the server sent. *)
Lemma downloaded_on_disk since l m raw t' :
  In (Ev (FetchMeta since) (Ok l)) t -> In m (Imap.Messages l) -> saves_sent (t ++ t') ->
  looked_up false root (Imap.fm_UIDValidity l) t m -> downloaded_saved (Imap.fm_UIDValidity l) t m raw ->
  exists k, fs_stat (w_fs w') (buildEmailPath root (Imap.mm_UID m) (Imap.fm_UIDValidity l) (Imap.mm_Date m)) = Ok (File k (Raw raw)).
Proof using Hx Hw Hrange.
  intros Hlist Hm Hsent (st0 & Hst & Hstat) [(asked & texts & Htexts & Hraw) Hsave].
  pose proof (Hrange) as Hr. rewrite Forall_forall in Hr. destruct (Hr _ Hlist l eq_refl) as [Hv Hu].
  rewrite Forall_forall in Hu. specialize (Hu m Hm).
  rewrite fetchEmailPath_layout in Hstat by (apply Hu || apply Hv).
  set (P := buildEmailPath root (Imap.mm_UID m) (Imap.fm_UIDValidity l) (Imap.mm_Date m)) in *.
  assert (Hgone : forall ta tb pz wz, exec (fetch_Run opts cfg root now) w (ta ++ Ev (Stat P) st0 :: tb) pz wz ->
    exists p1 w1, exec (fetch_Run opts cfg root now) w ta (Some p1) w1 /\ exec p1 w1 (Ev (Stat P) st0 :: tb) pz wz /\
      reachable root (w_fs w1) /\ forall k c, w_fs w1 !! P <> Some (File k c)).
  { intros ta tb pz wz Hz. apply exec_split in Hz as (p1 & w1 & H1 & H2). exists p1, w1. split; [done|]. split; [done|].
    destruct (exec_origin root idn md guard ReadMessage json_text _ _ _ _ _ (only_fetch_adds _ _ _ _ _ _ _ _) H1 Hw) as [Hw1 _].
    split; [done|]. intros k c Hk.
    destruct (exec_answer _ _ _ _ _ _ _ _ _ _ _ _ H2 _ eq_refl) as [w2 Hm2].
    eapply (stat_not_there P st0 w1 w2 Hst Hm2 k c). unfold P. by apply Hw1. }
  apply in_split in Hstat as (ta & tb & Et). destruct (in_app_or _ _ _ ltac:(rewrite Et in Hsave; exact Hsave)) as [Ha|Hb].
  { exfalso. rewrite Et in Hx. destruct (Hgone _ _ _ _ Hx) as (p1 & w1 & H1 & _ & _ & Hno).
    destruct (saved_email_stays root idn md guard mime ReadMessage json_unmarshal gunzip json_text _ _ _ _ _ _ _ H1 _ _ _ _ Ha)
      as (k & c & Hk). apply fs_stat_Ok in Hk as [_ Hk]. by apply (Hno k c). }
  destruct Hb as [Hb|Hb]; [by apply (f_equal (fun e => match e with Ev c _ => match c with Stat _ => 0 | _ => 1 end end)) in Hb|].
  apply in_split in Hb as (tc & td & ->).
  assert (E1 : t = (ta ++ Ev (Stat P) st0 :: tc ++ [Ev (SaveEmail (Imap.mm_UID m) (Imap.fm_UIDValidity l) (Imap.mm_Date m) raw) None]) ++ td)
    by (rewrite Et, <- app_assoc; simpl; by rewrite <- app_assoc).
  rewrite E1 in Hx. apply exec_split in Hx as (p2 & w2 & H2 & H3).
  destruct (saved_email_stays root idn md guard mime ReadMessage json_unmarshal gunzip json_text _ _ _ _ _ _ _ H2
    (Imap.mm_UID m) (Imap.fm_UIDValidity l) (Imap.mm_Date m) raw) as (k & c & Hk).
  { apply in_or_app. right. right. apply in_or_app. right. by left. }
  fold P in Hk. pose proof (proj2 (proj1 (fs_stat_Ok _ _ _) Hk)) as Hl.
  destruct (Hgone _ _ _ _ H2) as (p1 & w1 & H1 & H12 & Hw1 & Hno).
  destruct (exec_origin root idn md guard ReadMessage json_text _ _ _ _ _
    (exec_only _ _ _ _ _ _ _ _ _ _ _ _ (only_fetch_adds _ _ _ _ _ _ _ _) H1) H12 Hw1) as [_ Horg].
  assert (Hc : c = Raw raw).
  { destruct (Horg _ _ _ _ Hl) as [H0|(uid' & uv' & d' & raw' & x & Hi & Hp & [= -> ->])]; [by apply Hno in H0|].
    assert (Hi' : In (Ev (SaveEmail uid' uv' d' raw') x) t) by (rewrite E1; apply in_or_app; left; apply in_or_app; by right).
    destruct (save_of_list _ _ _ _ _ _ _ _ _ _ Hlist Htexts Hsent Hi') as (Hu' & -> & Hraw').
    unfold buildEmailPath in Hp. apply app_inv_head, (f_equal (@tail string)), email_rel_path_inj in Hp as [-> _]; [|done..].
    congruence. }
  subst c. exists k.
  apply (exec_kept root idn md guard ReadMessage json_text adds
    (email_file_at root (email_rel_path (Imap.mm_UID m) (Imap.fm_UIDValidity l) (Imap.mm_Date m)) (File k (Raw raw))) p2 w2 td p' w');
    [|done|exact Hk].
  by eapply exec_only; [apply only_fetch_adds|exact H2].
Qed.
End run.

(** C2: a message that was marked as seen is safe on disk. In a run of fetch over a store whose
    directory is there, at every point after the call that marks the message, whatever has failed
    and also when the process was killed: the message is one the server has listed; its file is at
    the path of its uid, the listed UIDVALIDITY and date; the file holds the text the server sent for
    this message, or one the run has found there and read; and the store has a record for every
    report in this text. *)
Theorem seen_messages_on_disk opts cfg now w t p' w' uids a uid :
  exec (fetch_Run opts cfg root now) w t p' w' -> reachable root (w_fs w) ->
  Forall (fun e => forall l, sent_list e = Some l -> list_in_range l) t ->
  In (Ev (MarkSeen uids) a) t -> In uid uids ->
  exists since l m k c,
    In (Ev (FetchMeta since) (Ok l)) t /\ In m (Imap.Messages l) /\ Imap.mm_UID m = uid /\
    let eml := buildEmailPath root uid (Imap.fm_UIDValidity l) (Imap.mm_Date m) in
    fs_stat (w_fs w') eml = Ok (File k c) /\
    ((exists asked texts raw, In (Ev (Download asked) (Ok texts)) t /\ texts !! uid = Some raw /\ c = Raw raw) \/
     In (Ev (ReadFile eml) (Ok (text json_text c))) t) /\
    forall report, In report (message_reports cfg (text json_text c)) ->
      has_report root (Tlsrpt.ReportID report) (w_fs w').
Proof.
  intros Hx Hw Hrange Hin Huid.
  destruct (exec_prefix _ _ _ _ _ _ _ _ _ _ _
    (obliging false 0 {| Imap.Messages := []; Imap.fm_UIDValidity := 0 |} ∅ (Ok {| regular := true; file_size := 0 |})) Hx)
    as (t' & r & Hr).
  apply in_split in Hin as (h1 & h2 & Et).
  destruct (runs_marks_ok _ _ _ _ _ _ _ _ _ _ Hr h1 uids a (h2 ++ t')) as (since & l & rs & h0 & -> & Hlist & Hset);
    [by rewrite Et, <- app_assoc|].
  pose proof (runs_saves_sent _ _ _ _ _ Hr) as Hsent.
  rewrite Forall_forall in Hset. destruct (Hset _ Huid) as (m & raw & Hm & <- & Hraw & Hrep). clear Hset Hr.
  assert (Hincl : incl h0 t) by (intros e He; rewrite Et; apply in_app_iff; left; apply in_app_iff; by left).
  assert (Hreports : forall report, In report (message_reports cfg raw) ->
    has_report root (Tlsrpt.ReportID report) (w_fs w')).
  { intros report Hi. destruct (Hrep _ Hi) as [Hrs _].
    apply (report_stays _ _ _ _ _ _ _ _ _ _ _ _ _ _ _ _ Hx rs _) in Hrs; [exact Hrs|].
    rewrite Et. apply in_app_iff. left. apply in_app_iff. right. by left. }
  assert (Hl : In (Ev (FetchMeta since) (Ok l)) t) by by apply Hincl.
  pose proof Hrange as Hrg. rewrite Forall_forall in Hrg. destruct (Hrg _ Hl l eq_refl) as [Hv Hu].
  rewrite Forall_forall in Hu. specialize (Hu m Hm).
  destruct Hraw as [[Hlook Hd]|[Hlook Hread]].
  - destruct (downloaded_on_disk _ _ _ _ _ _ _ Hx Hw Hrange since l m raw t') as [k Hk]; try done.
    { by eapply looked_up_mono. } { by eapply downloaded_saved_mono. }
    exists since, l, m, k, (Raw raw). split_and!; [done..|].
    split; [done|]. split; [|done]. left. destruct Hd as [(asked & texts & Hdl & Ht) _]. exists asked, texts, raw.
    split; [by apply Hincl|done].
  - rewrite fetchEmailPath_layout in Hread by (apply Hu || apply Hv).
    pose proof (fetchEmailPath_layout root (Imap.mm_UID m) (Imap.fm_UIDValidity l) (Imap.mm_Date m) (proj1 Hu) (proj1 Hv)) as El.
    destruct (read_email_stays _ _ _ _ _ _ _ _ _ _ _ _ _ _ _ _ Hx (Imap.mm_UID m) (Imap.fm_UIDValidity l) (Imap.mm_Date m) raw)
      as (k & c & Hf & Hc); [rewrite El; by apply Hincl|].
    rewrite El in Hf. exists since, l, m, k, c. split_and!; [done..|].
    split; [done|]. rewrite Hc. split; [right; by apply Hincl|done].
Qed.
End seen.

Lemma seen_messages_on_disk_witness :
  In (Ev (MarkSeen [7]) None) SystemExample.fetched.1.1 /\
  exists since l m k c,
    In (Ev (FetchMeta since) (Ok l)) SystemExample.fetched.1.1 /\ In m (Imap.Messages l) /\ Imap.mm_UID m = 7 /\
    let eml := buildEmailPath SystemExample.root 7 (Imap.fm_UIDValidity l) (Imap.mm_Date m) in
    fs_stat (w_fs SystemExample.fetched.2) eml = Ok (File k c) /\
    ((exists asked texts raw, In (Ev (Download asked) (Ok texts)) SystemExample.fetched.1.1 /\
        texts !! 7 = Some raw /\ c = Raw raw) \/
     In (Ev (ReadFile eml) (Ok (text SystemExample.json_text c))) SystemExample.fetched.1.1) /\
    forall report,
      In report (FetchProps.message_reports sample_mime SystemExample.read sample_report_of no_gzip sample_config
                   (text SystemExample.json_text c)) ->
      has_report SystemExample.root (Tlsrpt.ReportID report) (w_fs SystemExample.fetched.2).
Proof.
  assert (H : In (Ev (MarkSeen [7]) None) SystemExample.fetched.1.1) by (vm_compute; tauto).
  split; [exact H|].
  apply (seen_messages_on_disk SystemExample.root DataExample.idn OpenReadWrite noopSummaryConsistencyGuard
    sample_mime SystemExample.read sample_report_of no_gzip SystemExample.json_text (sample_opts false) sample_config
    1700000000 SystemExample.w0 _ _ _ [7] None 7
    (run_on_exec _ _ _ _ _ _ SystemExample.answer
      (fetch_Run sample_mime SystemExample.read sample_report_of no_gzip (sample_opts false) sample_config
         SystemExample.root 1700000000) SystemExample.w0)); [..|exact H|by left].
  - apply tree_reachable; [|reflexivity]. apply (bool_decide_unpack _). vm_compute. exact I.
  - eapply Forall_impl; [|exact (run_on_env SystemExample.root DataExample.idn OpenReadWrite noopSummaryConsistencyGuard
      SystemExample.read SystemExample.json_text SystemExample.answer
      (fetch_Run sample_mime SystemExample.read sample_report_of no_gzip (sample_opts false) sample_config
         SystemExample.root 1700000000) SystemExample.w0)].
    intros [X c x] Hx l Hl. destruct c; try discriminate Hl. specialize (Hx eq_refl). simpl in Hx, Hl. subst x.
    injection Hl as <-. split; [split; vm_compute; congruence|]. repeat constructor; vm_compute; congruence.
Defined.
