(* ===== verification/RecoverProps.v ===== *)
(** * The recover command on the store (cmd/tlsrpt-digest/recover.go over internal/store)

    The whole process of the program over the file system: [runCLI] with the store opened by [Open]
    and the calls of the subcommand carried out by it. For [recover --mode discard-old --yes] the
    reset converges: whatever runs fail or are killed, the next undisturbed one leaves an empty store
    ([recover_converges]). *)
From S2P Require Import Prelude GoStr GoTime GoErr.
From S2P Require Import StoreTypes Fs Io Sentinel FileStore Recovery Reset StoreOpen StoreProps.
From S2P Require Import Config Mailparse Prog Lock Cmd Fetch RecoverCmd Cli Boot Main CmdSpec CliProps ReprocessProps MainProps System SystemProps.
From S2P Require Tlsrpt Handler.

(** ** The process *)

Section process.
Context {Message : Type} (ReadMessage : string -> result Message) (json_text : content -> string).
Context (guard : SummaryConsistencyGuard).

(** Everything but the store, by the answers it gives. *)
Definition environment : Type := forall X, cli_call Message X -> X.

(** The store that is open: its directory, mailbox and mode. *)
Definition opened : Type := option (path * IMAPIdentity * OpenMode).

Section calls.
Context (env : environment).

Definition boot_op (o : opened) {X} (c : boot_call X) : M (X * opened) :=
  match c in boot_call X return M (X * opened) with
  | OpenStore root idn mode =>
      let! r := Open root idn mode in
      ret (match r with Ok _ => (Ok tt, Some (root, idn, mode)) | Err e => (Err e, o) end)
  | c => ret (env _ (BootCall c), o)
  end.

Definition cmd_op (o : opened) {X} (c : cmd_call Message X) : M (X * opened) :=
  match o with
  | Some (root, idn, mode) =>
      match store_op root idn mode guard ReadMessage json_text c with
      | Some m => let! x := m in ret (x, o)
      | None => ret (env _ (CmdCall c), o)
      end
  | None => ret (env _ (CmdCall c), o)
  end.

Definition cli_op (o : opened) {X} (c : cli_call Message X) : M (X * opened) :=
  match c with BootCall c => boot_op o c | CmdCall c => cmd_op o c end.

(** A program of the command line as a process. *)
Fixpoint process {A} (o : opened) (p : prog (cli_call Message) A) : M (A * opened) :=
  match p with
  | Ret a => ret (a, o)
  | Call c k => let! r := cli_op o c in process r.2 (k r.1)
  end.

Lemma run_process_bind {A B} o (p : prog (cli_call Message) A) (k : A -> prog (cli_call Message) B) w :
  process o (bind p k) w =
  match process o p w with
  | (Some r, w1) => process r.2 (k r.1) w1
  | (None, w1) => (None, w1)
  end.
Proof.
  revert o w. induction p as [a|X c f IH]; intros o w; cbn [bind process]; [done|]. rewrite !run_bind.
  destruct (cli_op o c w) as [[r|] w1]; [apply IH|done].
Qed.

Lemma wp_process_bind {A B} (b : bool) tm o (p : prog (cli_call Message) A) (k : A -> prog (cli_call Message) B) Q C s :
  Io.wp b tm (process o p) (fun r s' => Io.wp b tm (process r.2 (k r.1)) Q C s') C s ->
  Io.wp b tm (process o (bind p k)) Q C s.
Proof.
  intros H fl Hfl. specialize (H fl Hfl). rewrite run_process_bind.
  destruct (process o p (World s fl tm)) as [[r|] [s' fl' tm']]; [|done].
  destruct H as (Hf & Ht & H). simpl in *. subst tm'. by apply H.
Qed.

Lemma run_process_lift_bind {A B} o (p : prog (cmd_call Message) A) (k : A -> prog (cmd_call Message) B) w :
  process o (lift (@CmdCall Message) (bind p k)) w =
  process o (bind (lift (@CmdCall Message) p) (fun a => lift (@CmdCall Message) (k a))) w.
Proof.
  revert o w. induction p as [a|X c f IH]; intros o w; cbn [bind lift process]; [done|]. rewrite !run_bind.
  destruct (cli_op o (CmdCall c) w) as [[r|] w1]; [apply IH|done].
Qed.

Lemma wp_process_cmd_bind {A B} (b : bool) tm o (p : prog (cmd_call Message) A) (k : A -> prog (cmd_call Message) B) Q C s :
  Io.wp b tm (process o (lift (@CmdCall Message) p))
    (fun r s' => Io.wp b tm (process r.2 (lift (@CmdCall Message) (k r.1))) Q C s') C s ->
  Io.wp b tm (process o (lift (@CmdCall Message) (bind p k))) Q C s.
Proof.
  intros H fl Hfl. rewrite run_process_lift_bind. by apply (wp_process_bind b tm o (lift (@CmdCall Message) p)).
Qed.

(** Calls that do not open the store are answered by the environment. *)
Definition not_open (X : Type) (c : boot_call X) : bool := match c with OpenStore _ _ _ => false | _ => true end.

Lemma wp_process_boot {A} (b : bool) tm o (p : prog boot_call A) Q C s :
  only not_open p -> Q ((run (fun X c => env X (BootCall c)) p).2, o) s ->
  Io.wp b tm (process o (lift (@BootCall Message) p)) Q C s.
Proof.
  intros Ho. induction p as [a|X c k IH]; intros HQ; cbn [lift process run] in *; [by apply wp_ret|].
  destruct Ho as [Hc Ho]. apply wp_bind.
  assert (E : cli_op o (@BootCall Message _ c) = ret (env X (BootCall c), o)) by by destruct c.
  rewrite E. apply wp_ret. simpl. apply IH; [apply Ho|].
  by destruct (run _ (k _)) as [t a].
Qed.

Lemma wp_process_boot_bind {A B} (b : bool) tm o (p : prog boot_call A) (k : A -> prog boot_call B) Q C s :
  only not_open p ->
  Io.wp b tm (process o (lift (@BootCall Message) (k (run (fun X c => env X (BootCall c)) p).2))) Q C s ->
  Io.wp b tm (process o (lift (@BootCall Message) (bind p k))) Q C s.
Proof.
  intros Ho. induction p as [a|X c f IH]; intros HQ; cbn [lift process bind run] in *; [done|].
  destruct Ho as [Hc Ho]. apply wp_bind.
  assert (E : cli_op o (@BootCall Message _ c) = ret (env X (BootCall c), o)) by by destruct c.
  rewrite E. apply wp_ret. simpl. apply IH; [apply Ho|]. by destruct (run _ (f _)) as [t a].
Qed.

Lemma wp_process_boot_call {X A} (b : bool) tm o (c : boot_call X) (k : X -> prog boot_call A) Q C s :
  not_open X c = true ->
  Io.wp b tm (process o (lift (@BootCall Message) (k (env X (BootCall c))))) Q C s ->
  Io.wp b tm (process o (lift (@BootCall Message) (Call c k))) Q C s.
Proof. intros Hc HQ. by apply (wp_process_boot_bind b tm o (call c) k). Qed.

Lemma wp_process_cmd {X A} (b : bool) tm root idn md (c : cmd_call Message X) m (k : X -> prog (cli_call Message) A) Q C s :
  store_op root idn md guard ReadMessage json_text c = Some m ->
  Io.wp b tm m (fun y s' => Io.wp b tm (process (Some (root, idn, md)) (k y)) Q C s') C s ->
  Io.wp b tm (process (Some (root, idn, md)) (Call (CmdCall c) k)) Q C s.
Proof.
  intros Hc H. cbn [process cli_op cmd_op]. rewrite Hc. do 2 apply wp_bind. eapply wp_mono; [exact H| |done].
  intros y s' Hy. by apply wp_ret.
Qed.
End calls.
End process.

Lemma wp_map_reads {A B} (g : A -> B) (m : M (result A)) f (E : goerr -> Prop) (b : bool) tm s
    (Q : result B -> fs -> Prop) (C : fs -> Prop) :
  reads m f E -> Q (match f s with Ok a => Ok (g a) | Err e => Err e end) s ->
  (b = true -> C s /\ forall e, Q (Err e) s) -> Io.wp b tm (map_result g m) Q C s.
Proof.
  intros Hm HQ HC. unfold map_result. apply wp_bind, Hm.
  - destruct (f s); by apply wp_ret.
  - intros Hb. split; [by apply HC|]. intros e _. apply wp_ret. by apply HC.
Qed.

Lemma wp_error_triple (b : bool) tm (P I : fs -> Prop) (m : M (result unit)) R s :
  triple b tm P m (fun _ => R) I -> P s ->
  Io.wp b tm (as_error m) (fun e s' => match e with None => R s' | Some _ => b = true /\ I s' end) I s.
Proof.
  intros Hm HP. unfold as_error. apply wp_bind. eapply wp_mono; [exact (Hm s HP)| |done].
  intros [[]|e] s' H; by apply wp_ret.
Qed.

(** ** The recover command over a store that is being reset *)

Section recover.
Context {body : Type} (ReadMessage : string -> result (entity body)) (json_text : content -> string).
Context (guard : SummaryConsistencyGuard).
Context (p : path) (x : string) (idn : IMAPIdentity).
Local Abbreviation r := (p ++ [x]).
Context (se : internalSentinelFile) (rr : internalRecoveryState).
Context (Hse : valid_sentinel se = true) (Hid : sentinel_identity se = idn).
Context (Hrr : RecoveryRequired se = Some rr).
Local Abbreviation curr := (CurrUIDValidity rr).
Context (D : option node) (E : path -> option node).
Context (HD : forall k, D <> Some (Dir k)).
Context (HE : forall k c, E [] <> Some (File k c)) (HE0 : E [] = None -> forall t, E t = None).
Local Abbreviation Inv := (Reset.Inv r se curr D E).
Local Abbreviation st := (newStore r idn OpenRecoverReset).
Local Abbreviation reset_store := (Some (r, idn, OpenRecoverReset)).
Local Abbreviation proc := (process ReadMessage json_text guard).

(** The reset is through, and there is nothing pending any more. *)
Definition committed (s : fs) : Prop := Post r se curr s /\ pending_at r s = Ok false.

(** What a run without faults does from [s]: it completes the reset, or finds it completed. *)
Definition recovered (s : fs) (code : Z) (err : option goerr) (s' : fs) : Prop :=
  err = None /\
  (code = exitOK /\ Clean r se curr false s' \/ code = exitError /\ s' = s /\ committed s).

(** The resumption with any UIDVALIDITY, when the sentinel is committed and the manifest is not. *)
Lemma reset_zero (b : bool) tm :
  triple b tm (fun s => Post r se curr s /\ ManIs r (m1 curr) s) (Recovery.ResetForRecovery st 0)
    (fun _ => Clean r se curr b) Inv.
Proof using Hse HD HE HE0.
  intros s [Hs Hm]. pose proof Hs as ((Hd & _) & _). unfold Recovery.ResetForRecovery.
  rewrite bool_decide_true by done. simpl negb. cbv iota zeta.
  apply wp_bind. apply (reads_readResetManifest r).
  2:{ intros Hb. split; [by apply Post_Inv|]. intros e He. unfold hard in He. rewrite He. apply wp_ret.
      split; [done|by apply Post_Inv]. }
  rewrite (manifest_at_is r s (m1 curr)) by done. simpl.
  apply (execute_K1 r idn se curr D E Hse HD HE HE0 b tm). by right.
Qed.

Lemma pending_none s : dir_err s r = None -> ManNone r s -> pending_at r s = Ok false.
Proof. intros Hd Hm. unfold pending_at. destruct (manifest_at_none r s Hd Hm) as (e & -> & Ee). by rewrite Ee. Qed.

Lemma pending_m1 s : dir_err s r = None -> ManIs r (m1 curr) s -> pending_at r s = Ok true.
Proof. intros Hd Hm. unfold pending_at. by rewrite (manifest_at_is r s _ Hd Hm). Qed.

Lemma pending_m4 s : dir_err s r = None -> ManIs r (m4 curr) s -> pending_at r s = Ok false.
Proof. intros Hd Hm. unfold pending_at. by rewrite (manifest_at_is r s _ Hd Hm). Qed.

(** What is shown of a run from [s0]. *)
Definition outcome_ok (b : bool) (s0 : fs) (res : (Z * option goerr * list string) * opened) (s' : fs) : Prop :=
  Inv s' /\ (b = false -> recovered s0 res.1.1.1 res.1.1.2 s').

Section run.
Context (env : environment (Message := entity body)) (b : bool) (tm : Time).
Local Abbreviation run o := (proc env reset_store (lift (@CmdCall (entity body)) o)).

(** A run that ends with an error has met a fault. *)
Lemma wp_failed s0 s code err lines : b = true -> Inv s -> Io.wp b tm (run (Ret (code, err, lines))) (outcome_ok b s0) Inv s.
Proof. intros Hb Hs. apply wp_ret. split; [done|congruence]. Qed.

Lemma wp_reset s uid k code (P : fs -> Prop) :
  triple b tm P (Recovery.ResetForRecovery st uid) (fun _ => Clean r se curr b) Inv -> P s ->
  (exists lines, k None = Ret (exitOK, None, lines)) -> (forall e, exists err lines, k (Some e) = Ret (code, err, lines)) ->
  Io.wp b tm (run (Call (ResetForRecovery uid) k)) (outcome_ok b s) Inv s.
Proof.
  intros Ht HP [lines Hk] Hke. cbn [lift]. eapply wp_process_cmd; [reflexivity|].
  eapply wp_mono; [exact (wp_error_triple _ _ _ _ _ _ _ Ht HP)| |done].
  intros [e|] s' H; simpl in H.
  - destruct H as [Hb H]. destruct (Hke e) as (err & l & ->). by apply wp_failed.
  - rewrite Hk. apply wp_ret. split; [by apply Post_Inv, H|]. intros Hb. split; [done|]. left. by rewrite Hb in H.
Qed.

Lemma wp_pending s k :
  Inv s -> Io.wp b tm (run (k (pending_at r s))) (outcome_ok b s) Inv s ->
  (forall e, exists code err lines, k (Err e) = Ret (code, err, lines)) ->
  Io.wp b tm (run (Call HasPendingReset k)) (outcome_ok b s) Inv s.
Proof.
  intros Hs HQ Hk. cbn [lift]. eapply wp_process_cmd; [reflexivity|].
  apply (reads_HasPendingReset r); [exact HQ|]. intros Hb. split; [done|]. intros e _.
  destruct (Hk e) as (code & err & lines & ->). by apply wp_failed.
Qed.

Lemma wp_recover opts cfg s :
  RecoverMode opts = recoverModeDiscardOld -> RecoverYes opts = true -> Inv s ->
  Io.wp b tm (run (recover_Run opts cfg)) (outcome_ok b s) Inv s.
Proof using Hse Hrr HD HE HE0.
  intros Hmode Hyes Hs. unfold recover_Run. cbn [bind call lift].
  eapply wp_process_cmd; [reflexivity|]. eapply wp_map_reads; [apply reads_LoadRecoveryRequired| |].
  2:{ intros Hb. split; [done|]. intros e. by apply wp_failed. }
  assert (Hgo : Pre0 r se D E s \/ Pre1 r se curr D E s -> forall pending, pending_at r s = Ok pending ->
    Io.wp b tm (run (executeMode opts curr pending (printInfo cfg (PrevUIDValidity rr) curr opts pending))) (outcome_ok b s) Inv s).
  { intros Hs' pending _. unfold executeMode, runDiscardOld. rewrite Hmode, Hyes, andb_false_r. cbn [String.eqb negb].
    change (String.eqb recoverModeDiscardOld recoverModeKeepOld) with false.
    change (String.eqb recoverModeDiscardOld recoverModeDiscardOld) with true. cbn [bind call].
    apply (wp_reset s curr _ exitError (Pending r se curr D E)).
    - by apply (reset_Pending r idn se curr D E Hse HD HE HE0 b tm rr Hrr).
    - destruct Hs' as [?|?]; [by left|by right; left].
    - eexists. reflexivity.
    - intros e. eexists _, _. reflexivity. }
  destruct Hs as [H|[H|H]].
  - pose proof H as ((Hd & _) & Hsent & Hm & _). rewrite (recovery_at_is r s se), Hrr by done.
    apply wp_pending; [by left| |by eexists _, _, _]. rewrite pending_none by done. apply Hgo; [by left|by apply pending_none].
  - pose proof H as ((Hd & _) & Hsent & Hm & _). rewrite (recovery_at_is r s se), Hrr by done.
    apply wp_pending; [right; by left| |by eexists _, _, _]. rewrite pending_m1 by done. apply Hgo; [by right|by apply pending_m1].
  - pose proof H as ((Hd & _) & Hsent & Hm & _).
    rewrite (recovery_at_is r s (se' se curr)) by (done || by apply se'_valid). cbn [negb handleNoRecoveryRequired as_recovery].
    apply wp_pending; [by apply Post_Inv| |by eexists _, _, _].
    assert (Hend : pending_at r s = Ok false -> forall lines,
      Io.wp b tm (run (Ret (exitError, None, lines))) (outcome_ok b s) Inv s).
    { intros Hp lines. apply wp_ret. split; [by apply Post_Inv|]. intros _. split; [done|]. right. by split_and!. }
    destruct Hm as [Hm|[Hm|Hm]]; [rewrite pending_none by done|rewrite pending_m1 by done|rewrite pending_m4 by done].
    + apply Hend. by apply pending_none.
    + rewrite Hmode, Hyes. cbn [negb andb String.eqb]. change (String.eqb recoverModeDiscardOld recoverModeDiscardOld) with true.
      cbn [andb bind call]. apply (wp_reset s 0 _ exitError (fun s => Post r se curr s /\ ManIs r (m1 curr) s));
        [apply reset_zero|done|eexists; reflexivity|intros e; eexists _, _; reflexivity].
    + apply Hend. by apply pending_m4.
Qed.
End run.

(** ** Bootstrap *)

(** The reset is not over, and it is over up to what is left of it. *)
Definition unfinished (s : fs) : Prop :=
  Pre0 r se D E s \/ Pre1 r se curr D E s \/ Post r se curr s /\ ManIs r (m1 curr) s.
Definition finished (s : fs) : Prop := Post r se curr s /\ (ManNone r s \/ ManIs r (m4 curr) s).

Lemma Inv_finished s : Inv s -> unfinished s \/ finished s.
Proof.
  intros [H|[H|H]]; [by left; left|by left; right; left|]. pose proof H as (_ & _ & [Hm|[Hm|Hm]] & _).
  - right. split; [done|by left].
  - left. by right; right.
  - right. split; [done|by right].
Qed.

Lemma unfinished_Inv s : unfinished s -> Inv s.
Proof. intros [H|[H|[H _]]]; [by left|by right; left|by right; right]. Qed.

Lemma finished_Inv s : finished s -> Inv s.
Proof. intros [H _]. by right; right. Qed.

Lemma guard_ManIs s k c m : ManIs r m s -> ManIs r m (<[r ++ [guardFilename] := File k c]> s).
Proof. intros H. eapply frame_ManIs; [apply guard_only|name_ne|done]. Qed.

Lemma guard_ManNone s k c : ManNone r s -> ManNone r (<[r ++ [guardFilename] := File k c]> s).
Proof. intros H. eapply frame_ManNone; [apply guard_only|name_ne|done]. Qed.

Lemma unfinished_openable : openable r se curr unfinished.
Proof.
  split.
  - intros s H%unfinished_Inv. by eapply Inv_openable.
  - intros s k c [?|[?|[? ?]]]; [by left; apply Pre0_guard|by right; left; apply Pre1_guard|].
    right; right. split; [by apply Post_guard|by apply guard_ManIs].
Qed.

Lemma finished_openable : openable r se curr finished.
Proof.
  split.
  - intros s H%finished_Inv. by eapply Inv_openable.
  - intros s k c [H [Hm|Hm]]; (split; [by apply Post_guard|]);
      [left; by apply guard_ManNone|right; by apply guard_ManIs].
Qed.

Lemma committed_unfinished s : committed s -> unfinished s -> False.
Proof using Hrr.
  intros [(_ & [k Hk] & _) Hp] [(_ & [k' Hk'] & _)|[(_ & [k' Hk'] & _)|[((Hd & _) & _) Hm]]].
  1,2: rewrite Hk in Hk'; injection Hk' as _ Hse'; apply (f_equal RecoveryRequired) in Hse'; by rewrite Hrr in Hse'.
  by rewrite (pending_m1 _ Hd Hm) in Hp.
Qed.

Section invocation.
Context (mime : Mime body) (json_unmarshal : string -> Tlsrpt.Report + string).
Context (gunzip : string -> Tlsrpt.gzip_stream) (ReadConfig : string -> result string).
Context (AppendCertsFromPEM : string -> bool) (Abs : string -> result string).
Context (Decode : string -> result rawConfig) (url_Parse : string -> option Handler.url).
Context (ctx_err : nat -> option goerr) (runID : string) (now : Time).
Context (env : environment (Message := entity body)) (cfg : Config).
Context (Hroot : root_of cfg = r) (Hidn : storeIdentity cfg = idn).

(** The directory of the store passes its checks, and no other process holds the lock of the writers. *)
Definition undisturbed : Prop :=
  (run (fun X c => env X (BootCall c)) (lift (@RootDir) (validateAndEnsureRootDir (root_of cfg)))).2 = None /\
  env _ (BootCall (AcquireLock (LockPath (root_of cfg)))) = Ok tt.

Local Abbreviation boot := (Bootstrap ReadConfig AppendCertsFromPEM Abs Decode url_Parse (ToLower mime) subcommandRecover).

Lemma wp_process_boot_fail (b : bool) tm o bt e Q C s :
  Q (Err e, o) s -> Io.wp b tm (proc env o (lift (@BootCall (entity body)) (boot_fail bt e))) Q C s.
Proof.
  intros HQ. unfold boot_fail. apply wp_process_boot_bind; [|by apply wp_ret].
  unfold CloseBoot. by destruct (b_SummaryGuard bt), (b_LockHandle bt).
Qed.

Lemma only_root_dir : only not_open (lift (@RootDir) (validateAndEnsureRootDir (root_of cfg))).
Proof.
  apply only_lift. unfold validateAndEnsureRootDir. split; [done|]. intros [fi|e]; [done|]. cbn [bind].
  destruct (is_not_exist e); [|done]. split; [done|]. intros [e2|]; [done|]. split; [done|].
  intros [fi|e3]; cbn [bind]; [by destruct (is_symlink fi)|done].
Qed.

(** The store is opened, or the process was disturbed; what holds of the store stays. *)
Lemma wp_boot_recover (b : bool) tm (P : fs -> Prop) configPath s :
  openable r se curr P -> (LoadFile ReadConfig AppendCertsFromPEM Abs Decode configPath).1 = Ok cfg -> P s ->
  Io.wp b tm (proc env None (lift (@BootCall (entity body)) (boot configPath runID false (Some OpenRecoverReset))))
    (fun res s' => P s' /\
       match res.1 with
       | Ok bt => res.2 = reset_store /\ b_Config bt = cfg
       | Err _ => b = false -> ~ undisturbed
       end) P s.
Proof using Hse Hid Hroot Hidn.
  intros HP Hload Hs. unfold Bootstrap. cbn [bind call].
  do 2 (apply wp_process_boot_call; [done|]). rewrite Hload. cbn [negb].
  change (String.eqb subcommandRecover subcommandSummary) with false.
  apply wp_process_boot_bind; [apply only_root_dir|].
  destruct (run _ (lift _ _)).2 as [e|] eqn:Edir.
  { apply wp_process_boot_fail. split; [done|]. intros _ [H _]. by pose proof (eq_trans (eq_sym Edir) H). }
  unfold bootstrap_notifier. cbn [b_Subcommand new_boot]. change (String.eqb subcommandRecover subcommandRecover) with true.
  cbv iota. unfold bootstrapAcquireWriterLock. cbn [bind call].
  apply wp_process_boot_call; [done|]. cbn [with_notifier b_Config new_boot].
  destruct (env _ (BootCall (AcquireLock _))) as [[]|e] eqn:Elock; cbn [bind].
  2:{ apply wp_process_boot_fail. split; [done|]. intros _ [_ H]. congruence. }
  unfold bootstrap_open. cbn [bind call lift process cli_op boot_op with_lock b_Config b_Notifier with_notifier new_boot].
  rewrite Hroot, Hidn. do 2 apply wp_bind.
  eapply wp_mono; [by apply (triple_open_reset p x idn se curr Hse Hid b tm P HP)| |done].
  intros [st'|e] s'; simpl.
  - intros [_ H]. do 2 apply wp_ret. by split_and!.
  - intros [Hb H]. apply wp_ret. cbn [fst snd].
    apply (wp_process_boot_fail b). split; [done|]. congruence.
Qed.

(** The command line of the program: [recover --mode discard-old --yes]. *)
Definition discards (inv : cliInvocation) : Prop :=
  Subcommand inv = subcommandRecover /\ DryRun (Options inv) = false /\
  RecoverMode (Options inv) = recoverModeDiscardOld /\ RecoverYes (Options inv) = true.

Local Abbreviation cli := (runCLI mime ReadMessage json_unmarshal gunzip ReadConfig AppendCertsFromPEM Abs Decode
  url_Parse ctx_err runID now).

Lemma wp_runCLI (b : bool) tm (P : fs -> Prop) args inv s :
  openable r se curr P -> (forall s, P s -> Inv s) ->
  parseCLI args = Ok inv -> discards inv ->
  (LoadFile ReadConfig AppendCertsFromPEM Abs Decode (ConfigPath (Options inv))).1 = Ok cfg -> P s ->
  Io.wp b tm (proc env None (cli args))
    (fun res s' => Inv s' /\ (b = false -> undisturbed -> exists s1, P s1 /\ recovered s1 res.1 None s')) Inv s.
Proof using Hse Hid Hrr HD HE HE0 Hroot Hidn.
  intros HP HPI Hargs (Hsub & Hdry & Hmode & Hyes) Hload Hs. unfold runCLI. rewrite Hargs.
  unfold run_invocation. rewrite Hsub. change (String.eqb subcommandRecover subcommandRecover) with true. cbv iota.
  assert (Hopen : recoverStoreOpenMode (Options inv) = OpenRecoverReset)
    by (unfold recoverStoreOpenMode; by rewrite Hmode, Hyes).
  rewrite Hopen, Hdry. apply wp_process_bind. eapply wp_mono; [by apply (wp_boot_recover b tm P _ s HP Hload Hs)| |done].
  intros [[bt|e] o] s1; cbn [fst snd].
  2:{ intros [H1 Hd]. apply wp_ret. split; [by apply HPI|]. intros Hb Hu. by destruct (Hd Hb). }
  intros [H1 [-> Hcfg]]. apply wp_process_bind.
  unfold run_subcommand. change (String.eqb subcommandRecover subcommandFetch) with false.
  change (String.eqb subcommandRecover subcommandSummary) with false.
  change (String.eqb subcommandRecover subcommandReprocess) with false.
  change (String.eqb subcommandRecover subcommandGC) with false. cbv iota.
  apply wp_process_cmd_bind.
  eapply wp_mono; [by apply (wp_recover env b tm _ (b_Config bt) s1 Hmode Hyes), HPI| |done].
  intros [[[code err] lines] o] s2 [H2 Hrec]. apply wp_ret. cbn [fst snd].
  apply wp_process_bind, wp_process_boot.
  { unfold CloseBoot. by destruct (b_SummaryGuard bt), (b_LockHandle bt). }
  apply wp_ret. split; [done|]. intros Hb _. exists s1. split; [done|]. specialize (Hrec Hb). cbn [fst snd] in Hrec.
  destruct Hrec as [-> H]. by split.
Qed.
End invocation.

(** What is left of the store: the new UIDVALIDITY, nothing of the old data, and no reset that
    would keep the next command from opening it. *)
Definition discarded (s : fs) : Prop :=
  sentinel_at r s = Ok (Some (commit_sentinel curr se)) /\
  s !! dataFilePath r = None /\ (forall t, s !! (emailsPath r ++ t) = None) /\
  pending_at r s = Ok false /\ forall e, classify r s <> LRefuse e.

Lemma finished_discarded s : finished s -> discarded s.
Proof using Hse.
  intros [((Hd & _) & Hsent & _ & _ & Hdata & Hem) Hm].
  assert (Hs : sentinel_at r s = Ok (Some (commit_sentinel curr se))) by (apply sentinel_at_is; [done..|by apply se'_valid]).
  split; [done|]. split; [done|]. split.
  { intros t. unfold emailsPath. rewrite <- app_assoc. apply Hem. }
  destruct Hm as [Hm|Hm]; [split; [by apply pending_none|]|split; [by apply pending_m4|]]; intros e; unfold classify.
  - destruct (manifest_at_none r s Hd Hm) as (e' & -> & ->). done.
  - rewrite (manifest_at_is r s _ Hd Hm), Hs. done.
Qed.
End recover.

(** ** Runs of the command *)

Section converge.
Context {body : Type} (mime : Mime body) (ReadMessage : string -> result (entity body)).
Context (json_unmarshal : string -> Tlsrpt.Report + string) (gunzip : string -> Tlsrpt.gzip_stream).
Context (json_text : content -> string) (guard : SummaryConsistencyGuard) (ReadConfig : string -> result string).
Context (AppendCertsFromPEM : string -> bool) (Abs : string -> result string).
Context (Decode : string -> result rawConfig) (url_Parse : string -> option Handler.url).
Context (ctx_err : nat -> option goerr) (runID : string).

(** One run of the program: what everything but the store answers, the clock, the system calls
    that fail and the one at which it is killed. *)
Record cli_run := { r_env : environment (Message := entity body); r_now : Time; r_faults : list fault }.

Definition run_once (args : list string) (s : fs) (c : cli_run) : option (Z * opened) * world :=
  process ReadMessage json_text guard (r_env c) None
    (runCLI mime ReadMessage json_unmarshal gunzip ReadConfig AppendCertsFromPEM Abs Decode url_Parse ctx_err
       runID (r_now c) args)
    (World s (r_faults c) (r_now c)).

(** The file system after a number of runs. *)
Definition after_runs (args : list string) (cs : list cli_run) (s : fs) : fs :=
  foldl (fun s c => w_fs (run_once args s c).2) s cs.

Context (args : list string) (inv : cliInvocation) (cfg : Config) (p : path) (x : string).
Context (se : internalSentinelFile) (rr : internalRecoveryState).
Local Abbreviation root := (p ++ [x]).
Local Abbreviation curr := (CurrUIDValidity rr).
Context (Hargs : parseCLI args = Ok inv) (Hinv : discards inv).
Context (Hload : (LoadFile ReadConfig AppendCertsFromPEM Abs Decode (ConfigPath (Options inv))).1 = Ok cfg).
Context (Hroot : root_of cfg = root) (Hidn : storeIdentity cfg = sentinel_identity se).
Context (Hse : valid_sentinel se = true) (Hrr : RecoveryRequired se = Some rr).

Section data.
Context (D : option node) (E : path -> option node).
Context (HD : forall k, D <> Some (Dir k)).
Context (HE : forall k c, E [] <> Some (File k c)) (HE0 : E [] = None -> forall t, E t = None).
Local Abbreviation Inv := (Reset.Inv root se curr D E).

Lemma run_once_Inv s c : Inv s -> Inv (w_fs (run_once args s c).2).
Proof using Hargs Hinv Hload Hroot Hidn Hse Hrr HD HE HE0.
  intros Hs. pose proof (wp_runCLI ReadMessage json_text guard p x (sentinel_identity se) se rr Hse eq_refl Hrr D E
    HD HE HE0 mime json_unmarshal gunzip ReadConfig AppendCertsFromPEM Abs Decode url_Parse ctx_err runID (r_now c)
    (r_env c) cfg Hroot Hidn true (r_now c) Inv args inv s (Inv_openable _ _ _ _ _) (fun _ H => H) Hargs Hinv Hload Hs) as Hw.
  pose proof (wp_run true _ _ _ _ s (r_faults c) Hw ltac:(done)) as Hr. unfold run_once.
  destruct (process _ _ _ _ _ _ _) as [[r|] w]; simpl in *; apply Hr.
Qed.

Lemma after_runs_Inv s cs : Inv s -> Inv (after_runs args cs s).
Proof using Hargs Hinv Hload Hroot Hidn Hse Hrr HD HE HE0.
  revert s. induction cs as [|c cs IH]; intros s Hs; [done|]. simpl. by apply IH, run_once_Inv.
Qed.

(** A run that meets no fault and finds the directory in order and the lock free. *)
Lemma run_once_final s c : Inv s -> r_faults c = [] -> undisturbed (r_env c) cfg ->
  exists code o s',
    run_once args s c = (Some (code, o), World s' [] (r_now c)) /\ discarded p x se rr s' /\
    (code = exitOK /\ s' !! resetManifestPath root = None /\ (forall t, s' !! (resetStagingPath root ++ t) = None) \/
     code = exitError /\ discarded p x se rr s).
Proof using Hargs Hinv Hload Hroot Hidn Hse Hrr HD HE HE0.
  intros Hs Hf Hu.
  assert (HP : exists P, openable root se curr P /\ (forall s, P s -> Inv s) /\ P s /\
    (forall s1, P s1 -> committed p x se rr s1 -> finished p x se rr s1 /\ finished p x se rr s)).
  { destruct (Inv_finished p x se rr D E s Hs) as [H|H].
    - exists (unfinished p x se rr D E). split; [apply unfinished_openable|]. split; [apply unfinished_Inv|]. split; [done|].
      intros s1 H1 Hc. by destruct (committed_unfinished p x se rr Hrr D E s1).
    - exists (finished p x se rr). split; [by apply (finished_openable _ _ _ _ D E)|].
      split; [intros ?; by apply finished_Inv|]. split; [done|]. intros s1 H1 _. by split. }
  destruct HP as (P & Hopen & HPI & HPs & Hfin).
  pose proof (wp_runCLI ReadMessage json_text guard p x (sentinel_identity se) se rr Hse eq_refl Hrr D E
    HD HE HE0 mime json_unmarshal gunzip ReadConfig AppendCertsFromPEM Abs Decode url_Parse ctx_err runID (r_now c)
    (r_env c) cfg Hroot Hidn false (r_now c) P args inv s Hopen HPI Hargs Hinv Hload HPs) as Hw.
  specialize (Hw [] ltac:(done)). unfold run_once. rewrite Hf.
  destruct (process _ _ _ _ _ _ _) as [[[code o]|] [s' fl t]]; simpl in Hw; [|by destruct Hw].
  destruct Hw as (Hfl & -> & _ & Hrec). rewrite (Hfl eq_refl). exists code, o, s'. split; [done|].
  destruct (Hrec eq_refl Hu) as (s1 & H1 & _ & [[-> (Hp & Hm & Hstg)]|(-> & -> & Hc)]).
  - split; [apply finished_discarded; [done|by split; [|left]]|]. left. split; [done|]. split; [done|].
    intros t'. unfold resetStagingPath. rewrite <- app_assoc. by apply Hstg.
  - destruct (Hfin s1 H1 Hc). split; [by apply finished_discarded|]. right. split; [done|]. by apply finished_discarded.
Qed.
End data.

(** C1: however many runs of the program with [recover --mode discard-old --yes] fail, are refused
    the lock, or are killed at any system call, the next one that is left alone terminates and
    leaves the store discarded: the sentinel has the new UIDVALIDITY and no recovery-required
    record, there is no data file and no email, no reset is pending, and the next command will not
    be refused the store. It exits with 0, and then nothing is left of the manifest and of the
    staged data either, unless the store was discarded already when it started: then it exits with
    1, as there is no recovery to be made. *)
Theorem recover_converges runs last s :
  ResetReady root se s -> r_faults last = [] -> undisturbed (r_env last) cfg ->
  let s1 := after_runs args runs s in
  exists code o s2,
    run_once args s1 last = (Some (code, o), World s2 [] (r_now last)) /\ discarded p x se rr s2 /\
    (code = exitOK /\ s2 !! resetManifestPath root = None /\ (forall t, s2 !! (resetStagingPath root ++ t) = None) \/
     code = exitError /\ discarded p x se rr s1).
Proof using Hargs Hinv Hload Hroot Hidn Hse Hrr.
  intros Hs Hf Hu s1. apply (run_once_final (s !! dataFilePath root) (fun t => s !! (root ++ "emails" :: t)));
    [apply (ResetReady_data _ _ _ Hs)|apply (ready_emails _ _ _ Hs)|apply (ResetReady_emails _ _ _ Hs)| |done..].
  apply after_runs_Inv; [apply (ResetReady_data _ _ _ Hs)|apply (ready_emails _ _ _ Hs)|
    apply (ResetReady_emails _ _ _ Hs)|]. left. by apply ResetReady_Pre0.
Qed.
End converge.

(** ** An example *)

(** The store of [Example], at /srv/tlsrpt; a run is killed after some number of system calls, or
    finds the lock held. *)
Module RecoverExample.
Definition raw : rawConfig :=
  {| raw_Host := Some "imap.example.com"; raw_Port := Some 993; raw_Mailbox := None; raw_FetchDays := None;
     raw_TLSCACert := None; raw_MaxMessageBytes := None; raw_IMAPRetentionDays := None;
     raw_AllowedHost := Some "hooks.slack.com"; raw_RootDir := Some "/srv/tlsrpt"; raw_RetentionDays := None;
     raw_MaxEmailAgeDays := None; raw_WindowDays := None |}.
Definition args : list string := ["--config"; "c.toml"; "recover"; "--mode"; "discard-old"; "--yes"].
Definition busy : environment (Message := entity nat) :=
  fun X c =>
  match c in cli_call _ X return X with
  | BootCall c =>
      match c in boot_call X return X -> X with
      | AcquireLock _ => fun _ => Err (Sentinel ErrLockHeld)
      | _ => fun x => x
      end (sample_boot _ c)
  | CmdCall c => sample_cli _ (CmdCall c)
  end.
Definition idle (fl : list fault) : cli_run := {| r_env := sample_cli; r_now := Example.tm; r_faults := fl |}.
Definition killed_after (n : nat) : cli_run := idle (repeat FNone n ++ [FCrash nothing]).
Definition refused : cli_run := {| r_env := busy; r_now := Example.tm; r_faults := [] |}.

Abbreviation over f := (f sample_mime SystemExample.read sample_report_of no_gzip
  SystemExample.json_text noopSummaryConsistencyGuard (fun _ : string => Ok "") (fun _ : string => true)
  (fun s : string => Ok s) (fun _ : string => Ok raw) HandlerProps.sample_parse (fun _ : nat => @None goerr) "run" args).
Definition after (runs : list cli_run) : fs := over (@after_runs nat) runs Example.s0.
Definition status (s : fs) : option Z := option_map fst (over (@run_once nat) s (idle [])).1.

(** A run that is killed between the new sentinel and the end of the manifest: no recovery is
    required, a reset is pending, and the next run finishes it. *)
Example pending_after_commit :
  let s := after [killed_after 45] in
  recovery_at Example.root s = Ok None /\ pending_at Example.root s = Ok true /\ status s = Some exitOK.
Proof. vm_compute. by split_and!. Qed.

(** A run that is killed later: the next one has nothing to do. *)
Example nothing_after_manifest :
  let s := after [killed_after 51] in
  pending_at Example.root s = Ok false /\ status s = Some exitError /\ status (after [refused]) = Some exitOK.
Proof. vm_compute. by split_and!. Qed.

(** The store of [Leftover], where a new email was saved behind the manifest that could not be
    removed: the command takes the reset for unfinished and discards the new email too. *)
Example leftover_discards_again :
  let run := over (@run_once nat) (w_fs Leftover.saved.2) (idle []) in
  option_map fst run.1 = Some exitOK /\ w_fs run.2 !! dataFilePath Example.root = None.
Proof. vm_compute. by split. Qed.
End RecoverExample.

Lemma recover_converges_witness :
  let s1 := RecoverExample.after [RecoverExample.refused; RecoverExample.killed_after 45] in
  exists code o s2,
    RecoverExample.over (@run_once nat) s1 (RecoverExample.idle []) = (Some (code, o), World s2 [] Example.tm) /\
    discarded ["srv"] "tlsrpt" Example.se Example.rr s2 /\
    (code = exitOK /\ s2 !! resetManifestPath Example.root = None /\
       (forall t, s2 !! (resetStagingPath Example.root ++ t) = None) \/
     code = exitError /\ discarded ["srv"] "tlsrpt" Example.se Example.rr s1).
Proof.
  refine (recover_converges _ _ _ _ _ _ _ _ _ _ _ _ _ RecoverExample.args
    {| Subcommand := subcommandRecover;
       Options := put_RecoverYes (put_RecoverMode (empty_options "c.toml") recoverModeDiscardOld) true |}
    (applyDefaults RecoverExample.raw) ["srv"] "tlsrpt" Example.se Example.rr _ _ _ _ _ _ _
    [RecoverExample.refused; RecoverExample.killed_after 45] (RecoverExample.idle []) Example.s0 _ _ _).
  - vm_compute. reflexivity.
  - by split_and!.
  - vm_compute. reflexivity.
  - vm_compute. reflexivity.
  - vm_compute. reflexivity.
  - vm_compute. reflexivity.
  - reflexivity.
  - split; try (vm_compute; reflexivity).
    + intros [k H]. vm_compute in H. discriminate H.
    + exists 384. vm_compute. reflexivity.
    + intros [k H]. vm_compute in H. discriminate H.
    + intros k c H. vm_compute in H. discriminate H.
    + intros H. vm_compute in H. discriminate H.
  - reflexivity.
  - split; vm_compute; reflexivity.
Defined.

