(* ===== verification/Guard.v ===== *)
(** * Writers and summaries at the same time (the guard file of internal/store/recovery.go)

    One process that writes to the store, one system call at a time, and any number of summaries
    that take and give up the shared lock of the guard file between these calls. That there is one
    writer is the lock of Lock.v ([lock_mutual_exclusion], [mutations_under_lock]). Calls may fail
    and the writer may be killed at any point; it then loses its lock, and another operation may
    begin.

    [safe] is what a writer has to respect: every single call that changes the recovery state is
    made with the exclusive lock held. Each operation is shown to be [guarded] in this sense, by
    the calls it makes and not by what it does as a whole. *)
From S2P Require Import Prelude GoStr GoTime GoErr.
From S2P Require Tlsrpt Prog.
From S2P Require Import StoreTypes Fs Io AtomicFile Sentinel FileStore Reports Emails Recovery Reset StoreOpen.
From S2P Require Import EmailsSpec Confine Cmd System.

Section guard.
Context (p : path) (x : string).
Local Abbreviation root := (p ++ [x]).

(** The recovery state that the sentinel records. *)
Definition recovery_at (s : fs) : result (option internalRecoveryState) :=
  match sentinel_at root s with
  | Ok sentinel => Ok (se ← sentinel; RecoveryRequired se)
  | Err e => Err e
  end.

(** ** The processes *)

(** [locked]: the writer has the exclusive lock. [summaries]: for each summary that has the shared
    lock, the files at the moment it got it. *)
Record processes := {
  files : fs;
  clock : Time;
  writer : option (M unit);
  locked : bool;
  summaries : list fs
}.

(** An answer of the kernel to a call of the writer. The exclusive lock is granted when no summary
    has the shared one; until then the call does not return. *)
Definition answers (sums : list fs) (tm : Time) {X} (c : io X) (s : fs) (l : bool) (a : X) (s' : fs) (l' : bool)
  : Prop :=
  match c in io X return X -> Prop with
  | Sys op part _ => fun a =>
      l' = l /\ ((a, s') = op s \/ exists d e, injected e /\ a = Err e /\ s' = part d s)
  | Clock => fun a => a = tm /\ s' = s /\ l' = l
  | Height => fun a => a = height s /\ s' = s /\ l' = l
  | FlockGuard => fun a =>
      s' = s /\ (a = Ok tt /\ sums = [] /\ l' = true \/ exists e, injected e /\ a = Err e /\ l' = l)
  | CloseGuardFile => fun a =>
      s' = s /\ l' = false /\ (a = Ok tt \/ exists e, injected e /\ a = Err e)
  end a.

(** What a writer leaves that is killed before or in its next call. *)
Definition cut_short (m : M unit) (s s' : fs) : Prop :=
  s' = s \/
  match m with
  | Prog.Call c _ =>
      match c with Sys op part _ => exists d, s' = part d s | _ => False end
  | Prog.Ret _ => False
  end.

Context (operation : forall A, M A -> Prop).

Inductive step : processes -> processes -> Prop :=
  | step_begin s tm A (m : M A) l sums :
      operation A m ->
      step {| files := s; clock := tm; writer := None; locked := l; summaries := sums |}
           {| files := s; clock := tm; writer := Some (let! _ := m in ret tt); locked := l;
              summaries := sums |}
  | step_call s tm X (c : io X) k l sums a s' l' :
      answers sums tm c s l a s' l' ->
      step {| files := s; clock := tm; writer := Some (Prog.Call c k); locked := l; summaries := sums |}
           {| files := s'; clock := tm; writer := Some (k a); locked := l'; summaries := sums |}
  | step_return s tm l sums :
      step {| files := s; clock := tm; writer := Some (Prog.Ret tt); locked := l; summaries := sums |}
           {| files := s; clock := tm; writer := None; locked := l; summaries := sums |}
  | step_killed s tm m l sums s' :
      cut_short m s s' ->
      step {| files := s; clock := tm; writer := Some m; locked := l; summaries := sums |}
           {| files := s'; clock := tm; writer := None; locked := false; summaries := sums |}
  | step_share s tm w sums n :
      fs_stat s (guardFilePath root) = Ok n ->
      step {| files := s; clock := tm; writer := w; locked := false; summaries := sums |}
           {| files := s; clock := tm; writer := w; locked := false; summaries := sums ++ [s] |}
  | step_unshare s tm w l sums i :
      step {| files := s; clock := tm; writer := w; locked := l; summaries := sums |}
           {| files := s; clock := tm; writer := w; locked := l; summaries := delete i sums |}
  | step_tick s tm tm' l sums :
      step {| files := s; clock := tm; writer := None; locked := l; summaries := sums |}
           {| files := s; clock := tm'; writer := None; locked := l; summaries := sums |}.

(** A store directory, and nobody at work. *)
Inductive can_reach : processes -> Prop :=
  | reach_initial s tm :
      dir_err s root = None ->
      can_reach {| files := s; clock := tm; writer := None; locked := false; summaries := [] |}
  | reach_step y y' : can_reach y -> step y y' -> can_reach y'.

(** ** What a writer respects *)

(** The root directory stays, and without the lock the recovery state does. *)
Definition may_change (l : bool) (s s' : fs) : Prop :=
  dir_err s' root = None /\ (l = true \/ recovery_at s' = recovery_at s).

Definition call_safe (tm : Time) {X} (c : io X) (s : fs) (l : bool) (post : X -> fs -> bool -> Prop) : Prop :=
  match c in io X return (X -> fs -> bool -> Prop) -> Prop with
  | Sys op part _ => fun post =>
      (may_change l s (op s).2 /\ post (op s).1 (op s).2 l) /\
      forall d, may_change l s (part d s) /\ forall e, injected e -> post (Err e) (part d s) l
  | Clock => fun post => post tm s l
  | Height => fun post => post (height s) s l
  | FlockGuard => fun post => post (Ok tt) s true /\ forall e, injected e -> post (Err e) s l
  | CloseGuardFile => fun post => post (Ok tt) s false /\ forall e, injected e -> post (Err e) s false
  end post.

Fixpoint safe {A} (tm : Time) (m : M A) (s : fs) (l : bool) (Q : A -> fs -> bool -> Prop) : Prop :=
  match m with
  | Prog.Ret a => Q a s l
  | Prog.Call c k => call_safe tm c s l (fun a s' l' => safe tm (k a) s' l' Q)
  end.

Lemma call_safe_mono tm {X} (c : io X) s l (P Q : X -> fs -> bool -> Prop) :
  (forall a s' l', P a s' l' -> Q a s' l') -> call_safe tm c s l P -> call_safe tm c s l Q.
Proof.
  intros H. destruct c; simpl; [|by auto..|naive_solver|naive_solver].
  intros [[H1 H2] H3]. split; [by auto|]. intros d. destruct (H3 d). split; auto.
Qed.

Lemma safe_mono {A} tm (m : M A) s l (P Q : A -> fs -> bool -> Prop) :
  (forall a s' l', P a s' l' -> Q a s' l') -> safe tm m s l P -> safe tm m s l Q.
Proof.
  intros H. revert s l. induction m as [a|X c k IH]; intros s l; simpl; [apply H|].
  apply call_safe_mono. intros a s' l'. apply IH.
Qed.

Lemma safe_bind {A B} tm (m : M A) (f : A -> M B) s l (Q : B -> fs -> bool -> Prop) :
  safe tm m s l (fun a s' l' => safe tm (f a) s' l' Q) -> safe tm (m ≫= f) s l Q.
Proof.
  revert s l. induction m as [a|X c k IH]; intros s l; [done|].
  change (call_safe tm c s l (fun a s' l' => safe tm (k a) s' l' (fun b s2 l2 => safe tm (f b) s2 l2 Q)) ->
          call_safe tm c s l (fun a s' l' => safe tm (k a ≫= f) s' l' Q)).
  apply call_safe_mono. intros a s' l'. apply IH.
Qed.

(** A fact that a program keeps on every path holds after each of its calls. *)
Lemma wp_here {A} tm (m : M A) (I : fs -> Prop) s : wp true tm m (fun _ => I) I s -> I s.
Proof.
  induction m as [a|X c k IH]; intros H.
  - by destruct (H [] ltac:(done)) as (_ & _ & H').
  - destruct c as [A' op part Hp| | | |].
    + destruct (H [FCrash nothing] ltac:(done)) as [_ H']. simpl in H'. by rewrite Hp in H'.
    + apply (IH tm). intros fl Hfl. exact (H fl Hfl).
    + apply (IH (height s)). intros fl Hfl. exact (H fl Hfl).
    + by destruct (H [FCrash nothing] ltac:(done)) as [_ H'].
    + by destruct (H [FCrash nothing] ltac:(done)) as [_ H'].
Qed.

(** Calls that keep the lock as [E] says. *)
Definition keeps_lock (E : bool -> bool) (X : Type) (c : io X) : bool :=
  match c with FlockGuard => E true | CloseGuardFile => E false | _ => true end.

Lemma safe_of_wp {A} tm (m : M A) (I : fs -> Prop) (E : bool -> bool) s l :
  (forall s1 s2 l, E l = true -> I s1 -> I s2 -> may_change l s1 s2) ->
  Prog.only (keeps_lock E) m -> E l = true -> wp true tm m (fun _ => I) I s ->
  safe tm m s l (fun _ s' l' => I s' /\ E l' = true).
Proof.
  intros HI. revert s l. induction m as [a|X c k IH]; intros s l Ho Hl H.
  { split; [by apply (wp_here tm (Prog.Ret a))|done]. }
  pose proof (wp_here _ _ _ _ H) as Hs. destruct Ho as [Hc Ho].
  destruct c as [A' op part Hp| | | |]; simpl in Hc.
  - split; [|intros d; split; [|intros e [io ->]]].
    + assert (Hn : wp true tm (k (op s).1) (fun _ => I) I (op s).2).
      { intros fl Hfl. specialize (H (FNone :: fl) ltac:(done)). simpl in H. unfold carry_out in H. simpl in H.
        by destruct (op s). }
      split; [apply HI; [done..|]; by eapply wp_here|by apply IH].
    + apply HI; [done..|]. by destruct (H [FCrash d] ltac:(done)) as [_ H'].
    + apply IH; [done..|]. intros fl Hfl. exact (H (FFail io d :: fl) ltac:(done)).
  - apply IH; [done..|]. intros fl Hfl. exact (H fl Hfl).
  - apply IH; [done..|]. intros fl Hfl. exact (H fl Hfl).
  - split; [|intros e [io ->]]; (apply IH; [done..|]); intros fl Hfl;
      [exact (H (FNone :: fl) ltac:(done))|exact (H (FFail io nothing :: fl) ltac:(done))].
  - split; [|intros e [io ->]]; (apply IH; [done..|]); intros fl Hfl;
      [exact (H (FNone :: fl) ltac:(done))|exact (H (FFail io nothing :: fl) ltac:(done))].
Qed.

(** ** Guarded operations *)

(** From any files with a store directory, with the lock or without. *)
Definition guarded {A} (m : M A) : Prop :=
  forall tm s l, dir_err s root = None -> safe tm m s l (fun _ s' _ => dir_err s' root = None).

Lemma guarded_ret {A} (a : A) : guarded (ret a).
Proof. by intros tm s l Hd. Qed.

Lemma guarded_bind {A B} (m : M A) (f : A -> M B) : guarded m -> (forall a, guarded (f a)) -> guarded (m ≫= f).
Proof.
  intros Hm Hf tm s l Hd. apply safe_bind. eapply safe_mono; [|by apply Hm].
  intros a s' l' Hd'. by apply Hf.
Qed.

(** The store directory is there and the recovery state is [v]. *)
Definition recovery_is (v : result (option internalRecoveryState)) (s : fs) : Prop :=
  dir_err s root = None /\ recovery_at s = v.

Lemma guarded_preserves {A} (m : M A) : (forall v, preserves (recovery_is v) m) -> guarded m.
Proof.
  intros Hm tm s l Hd. eapply safe_mono; [|apply (safe_of_wp tm m (recovery_is (recovery_at s)) (fun _ => true))].
  - by intros a s' l' [[H _] _].
  - intros s1 s2 l' _ [_ H1] [H2 H3]. split; [done|]. right. congruence.
  - assert (Hall : forall (c : forall X, io X -> bool) (q : M A), (forall X d, c X d = true) -> Prog.only c q).
    { intros c q Hc. induction q; by split. }
    apply Hall. by intros X [].
  - done.
  - by apply Hm.
Qed.

Lemma recovery_at_only (c : string -> Prop) s s' :
  ~ c sentinelFilename -> only root c s s' -> recovery_at s' = recovery_at s.
Proof.
  intros Hc Ho. unfold recovery_at, sentinel_at, fs_read_file, sentinelPath. by rewrite (fs_stat_only root c s s').
Qed.

(** An operation that writes other files. *)
Lemma guarded_confined {A} (c : string -> Prop) (m : M A) :
  ~ c sentinelFilename -> confined root c m -> guarded m.
Proof.
  intros Hc Hm. apply guarded_preserves. intros v. eapply confined_preserves; [by intros s []| |done].
  intros s s' Ho [Hd Hv]. split; [by rewrite (only_dir_err _ _ _ _ Ho)|].
  by rewrite (recovery_at_only c s s').
Qed.

(** Anything may be done under the lock. *)
Lemma guarded_exclusive idn md (fn : M (result unit)) :
  Prog.only (keeps_lock id) fn -> confined root (fun _ => True) fn ->
  guarded (withGuardExclusive (newStore root idn md) fn).
Proof.
  intros Ho Hfn. unfold withGuardExclusive. apply guarded_bind.
  { apply (guarded_confined (eq guardFilename)); [done|]. by apply confined_open_create. }
  intros [[]|e]; [|apply guarded_ret]. intros tm s l Hd. unfold defer. apply safe_bind.
  assert (Hclose : forall (r : result unit) s' l', dir_err s' root = None ->
    safe tm (let! _ := sys_close_guard in ret r) s' l' (fun _ s2 _ => dir_err s2 root = None))
    by (intros r s' l' Hd'; by split).
  assert (Hroot : preserves (fun s => dir_err s root = None) fn).
  { eapply confined_preserves; [done| |exact Hfn]. intros s1 s2 Ho1 Hd1. by rewrite (only_dir_err _ _ _ _ Ho1). }
  split.
  - eapply safe_mono; [|apply (safe_of_wp tm fn (fun s => dir_err s root = None) id); [|done..|by apply Hroot]].
    + intros r s' l' [Hd' _]. by apply Hclose.
    + intros s1 s2 l' Hl _ Hd2. split; [done|by left].
  - intros e _. by apply Hclose.
Qed.

(** ** The operations of the store *)

(** What operations may write without the lock: entries the sentinel is not among. *)
Definition reset_names (d : string) : Prop :=
  d = stagingDirName \/ d = manifestFilename \/ d = "tlsrpt.json" \/ d = "emails" \/ HasPrefix d tmp_prefix = true.

Lemma reset_names_sentinel : ~ reset_names sentinelFilename.
Proof. by intros [|[|[|[|]]]]. Qed.

Ltac reset_name := unfold reset_names; auto 10.

Section operations.
Context (idn : IMAPIdentity) (md : OpenMode).
Abbreviation st := (newStore root idn md).

(** A sentinel with the recovery state the files have may be saved without the lock. *)
Lemma wp_save_recovery se v s (b : bool) (tm : Time) :
  FormatVersion se = SentinelFormatVersion -> Ok (RecoveryRequired se) = v -> recovery_is v s ->
  wp b tm (saveSentinel root se) (fun _ => recovery_is v) (recovery_is v) s.
Proof.
  intros Hf Hv Hs.
  assert (Htmp : forall s', s ⊑{root} s' -> recovery_is v s').
  { intros s' H. apply only_tmp_ext in H as Ho. destruct Hs as [Hd Hr]. split; [by rewrite (only_dir_err _ _ _ _ Ho)|].
    rewrite <- Hr. eapply recovery_at_only; [|exact Ho]. cbv beta. by rewrite tmp_free_sentinel. }
  assert (Hw : sentinel_times_ok se = true -> recovery_is v (with_sentinel root se s)).
  { intros Ht. destruct Hs as [Hd Hr].
    split; [unfold with_sentinel, written, sentinelPath; by rewrite dir_err_insert_below|].
    unfold recovery_at. rewrite sentinel_at_with; [done|done|].
    unfold valid_sentinel. by rewrite Hf, Ht. }
  apply wp_saveSentinel; [by auto|by auto|]. intros _ s' [H|[H ->]]; auto.
Qed.

(** What is read decides what may be written. *)
Lemma wp_read_sentinel {A} (k : result (option internalSentinelFile) -> M A) v s (b : bool) (tm : Time)
    (Q : A -> fs -> Prop) :
  recovery_is v s ->
  (forall r, Ok (se ← r; RecoveryRequired se) = v ->
     match r with Some se => FormatVersion se = SentinelFormatVersion | None => True end ->
     wp b tm (k (Ok r)) Q (recovery_is v) s) ->
  (forall e, wp b tm (k (Err e)) Q (recovery_is v) s) ->
  wp b tm (loadSentinel root ≫= k) Q (recovery_is v) s.
Proof.
  intros Hs HOk HErr. apply wp_bind. apply (reads_loadSentinel root); [|by intros].
  destruct Hs as [Hd Hr]. unfold recovery_at in Hr. destruct (sentinel_at root s) as [r|e] eqn:E; [|apply HErr].
  apply HOk; [done|]. destruct r as [se|]; [|done]. apply sentinel_at_valid in E.
  unfold valid_sentinel in E. by zbool.
Qed.

Lemma guarded_SaveUIDValidity v : guarded (Recovery.SaveUIDValidity st v).
Proof.
  apply guarded_preserves. intros r b tm s Hs. unfold Recovery.SaveUIDValidity. destruct (readOnly st); [by apply wp_ret|].
  unfold loadOrInitSentinelForWrite. simpl.
  assert (Hw : forall se, FormatVersion se = SentinelFormatVersion -> Ok (RecoveryRequired se) = r ->
    wp b tm (try! _ := saveSentinel root (set_uidvalidity (Some v) se)
      else err => ret (Err (errorf "SaveUIDValidity: save sentinel: " err)) in ret (Ok tt))
      (fun _ => recovery_is r) (recovery_is r) s).
  { intros se Hf Hr. apply wp_bind. eapply wp_mono; [by apply wp_save_recovery| |done].
    intros [|e] s' H; by apply wp_ret. }
  apply wp_bind, wp_read_sentinel; [done| |intros e; by do 2 apply wp_ret].
  intros [se|] Hr Hf; [apply wp_ret; by apply Hw|]. apply wp_bind, wp_now, wp_ret. by apply Hw.
Qed.

(** What is written under the lock: never the lock itself. *)
Ltac only_io :=
  repeat first
    [ reflexivity | exact I | simple apply only_mbind; [|intros ?] | simple apply only_prim | simple apply only_now
    | match goal with |- Prog.only _ (match ?x with _ => _ end) => destruct x end
    | progress unfold defer, loadSentinel, loadOrInitSentinelForWrite, saveSentinel, writeResetManifest,
        atomicWriteFile, write_via_tmp, sys_read_file, sys_create_temp, sys_chmod, sys_write, sys_sync,
        sys_close, sys_rename, sys_open_dir, sys_remove ].

Lemma guarded_SaveRecoveryRequired pu cu d : guarded (Recovery.SaveRecoveryRequired st pu cu d).
Proof.
  unfold Recovery.SaveRecoveryRequired. destruct (readOnly st); [apply guarded_ret|].
  apply guarded_exclusive; [only_io|confined_go; try done].
Qed.

Lemma guarded_ClearRecoveryRequired : guarded (ClearRecoveryRequired st).
Proof.
  unfold ClearRecoveryRequired. destruct (readOnly st); [apply guarded_ret|].
  apply guarded_exclusive; [only_io|confined_go; try done].
Qed.

Lemma guarded_reads {A} (m : M A) : (forall I, preserves I m) -> guarded m.
Proof. intros H. apply guarded_preserves. intros v. apply H. Qed.

Lemma guarded_ApplyRecovery v : guarded (Recovery.ApplyRecovery st v).
Proof.
  unfold Recovery.ApplyRecovery. destruct (readOnly st); [apply guarded_ret|].
  apply guarded_bind; [apply guarded_reads; intros; apply preserves_HasPendingReset|].
  intros [[]|e]; [apply guarded_ret| |apply guarded_ret].
  apply guarded_exclusive; [only_io|confined_go; try done].
Qed.

Lemma guarded_commitReset v : guarded (commitReset st (resetManifestPath root) v).
Proof.
  unfold commitReset. apply guarded_exclusive; [only_io|unfold writeResetManifest; confined_go; try done].
Qed.

Lemma guarded_reset_part {A} (m : M A) : confined root reset_names m -> guarded m.
Proof. apply guarded_confined, reset_names_sentinel. Qed.

Lemma guarded_initResetManifest v :
  guarded (initResetManifest st v (resetStagingPath root) (resetManifestPath root)).
Proof.
  apply guarded_reset_part. unfold initResetManifest, writeResetManifest, resetStagingPath, resetManifestPath.
  confined_go; reset_name.
Qed.

Lemma guarded_executeReset m :
  guarded (executeResetFromManifest st m (resetStagingPath root) (resetManifestPath root)).
Proof.
  unfold executeResetFromManifest, advanceResetPhases.
  apply guarded_bind.
  - apply guarded_bind; [apply guarded_reset_part; unfold resetStagingPath; confined_go; reset_name|].
    intros [[]|e]; [|apply guarded_ret].
    apply guarded_bind.
    { apply guarded_reset_part. unfold stageDataFile, resetStagingPath, dataFilePath. simpl.
      rewrite <- (app_assoc root). confined_go; reset_name. }
    intros [[]|e]; [|apply guarded_ret].
    apply guarded_bind.
    { apply guarded_reset_part. unfold stageEmailsDir, resetStagingPath, emailsPath. simpl.
      rewrite <- (app_assoc root). confined_go; reset_name. }
    intros [[]|e]; [|apply guarded_ret].
    apply guarded_bind; [apply guarded_commitReset|]. intros [[]|e]; apply guarded_ret.
  - intros [[]|e]; [|apply guarded_ret]. apply guarded_reset_part.
    unfold remove_if_exists, resetStagingPath, resetManifestPath. confined_go; reset_name.
Qed.

Lemma guarded_from_start v :
  guarded (reset_from_start st v (resetStagingPath root) (resetManifestPath root)).
Proof.
  unfold reset_from_start. apply guarded_bind; [apply guarded_initResetManifest|].
  intros [m|e]; [apply guarded_executeReset|apply guarded_ret].
Qed.

Lemma guarded_removeStale :
  guarded (removeStaleCommittedManifest (resetStagingPath root) (resetManifestPath root)).
Proof.
  apply guarded_reset_part. unfold removeStaleCommittedManifest, remove_if_exists, resetStagingPath, resetManifestPath.
  confined_go; reset_name.
Qed.

Lemma guarded_ResetForRecovery v : guarded (Recovery.ResetForRecovery st v).
Proof.
  unfold Recovery.ResetForRecovery. destruct (negb _); [apply guarded_ret|].
  apply guarded_bind; [apply guarded_reset_part; apply confined_readResetManifest|]. intros [m|e].
  2:{ destruct (negb _); [apply guarded_ret|apply guarded_from_start]. }
  destruct (negb _); [apply guarded_ret|]. destruct (validateManifestPhase _); [|apply guarded_ret].
  destruct (_ =? _); [|destruct (_ && _ && _)].
  - unfold resumeOrCleanupCommitted. apply guarded_bind; [apply guarded_removeStale|].
    intros [[]|e]; [|apply guarded_ret].
    apply guarded_bind; [apply guarded_reads; intros; apply preserves_LoadRecoveryRequired|].
    intros [[r|]|e]; [apply guarded_from_start|apply guarded_ret..].
  - apply guarded_bind; [apply guarded_removeStale|]. intros [[]|e]; [apply guarded_from_start|apply guarded_ret].
  - apply guarded_executeReset.
Qed.

(** ** Opening *)

Lemma guarded_prepare mode : guarded (prepare root mode).
Proof.
  unfold prepare. apply guarded_bind.
  - apply guarded_preserves. intros v b tm s Hs.
    assert (Hsame : forall s', dirs_added root s s' -> recovery_is v s')
      by (intros s' H; by rewrite (dirs_added_resolved root s s') by (done || apply Hs)).
    apply wp_ensureDirExists; auto.
  - intros [[]|e]; [|apply guarded_ret]. apply (guarded_confined (fun d => reset_names d \/ d = guardFilename)); [by intros [[|[|[|[|]]]]|]|]. unfold emailsPath, initDataFile, dataFilePath, guardFilePath, reset_names.
    confined_go; auto 10.
Qed.

Lemma guarded_open_sentinel ro : guarded (open_sentinel root idn ro).
Proof.
  apply guarded_preserves. intros v b tm s Hs. unfold open_sentinel.
  apply wp_read_sentinel; [done| |intros e; by apply wp_ret].
  intros [se|] Hr _.
  - destruct (verifySentinelIdentity root se idn); [|by apply wp_ret].
    assert (H : preserves (recovery_is v) (let! _ := checkFilePermissions (sentinelPath root) in ret (Ok tt)))
      by (unfold checkFilePermissions, sys_stat; preserves_go). by apply H.
  - destruct (negb ro); [|by apply wp_ret]. unfold initSentinel. apply wp_bind, wp_bind, wp_now, wp_bind.
    eapply wp_mono; [by apply wp_save_recovery| |done]. intros [[]|e] s' H; by do 2 apply wp_ret.
Qed.

Lemma guarded_Open mode : guarded (StoreOpen.Open root idn mode).
Proof.
  unfold StoreOpen.Open. apply guarded_bind.
  { case_bool_decide; [|apply guarded_ret]. apply guarded_reset_part.
    unfold cleanupCompletedReset, remove_leftovers, resetStagingPath, resetManifestPath. confined_go; reset_name. }
  intros [[]|e]; [|apply guarded_ret].
  apply guarded_bind; [destruct (negb _); [apply guarded_prepare|apply guarded_ret]|].
  intros [[]|e]; [|apply guarded_ret].
  apply guarded_bind; [apply guarded_open_sentinel|]. intros [[]|e]; [|apply guarded_ret].
  apply guarded_reads. intros I. unfold sys_stat, checkFilePermissions. preserves_go.
Qed.
End operations.

(** ** What a writer does *)

(** Opening the store, and every call of it; also the one that no subcommand makes. *)
Inductive writer_operation {Message} (ReadMessage : string -> result Message) (json_text : content -> string) :
    forall A, M A -> Prop :=
  | op_open idn mode : writer_operation ReadMessage json_text _ (StoreOpen.Open root idn mode)
  | op_clear idn md : writer_operation ReadMessage json_text _ (ClearRecoveryRequired (newStore root idn md))
  | op_store X (c : cmd_call Message X) m idn md g :
      store_op root idn md g ReadMessage json_text c = Some m -> writer_operation ReadMessage json_text _ m.

Lemma guarded_as_error (m : M (result unit)) : guarded m -> guarded (as_error m).
Proof. intros H. unfold as_error. apply guarded_bind; [done|]. intros. apply guarded_ret. Qed.

Lemma guarded_map_result {A B} (f : A -> B) (m : M (result A)) : (forall I, preserves I m) -> guarded (map_result f m).
Proof. intros H. unfold map_result. apply guarded_bind; [by apply guarded_reads|]. intros. apply guarded_ret. Qed.

Lemma guarded_store_op {Message} (ReadMessage : string -> result Message) json_text idn md g X
    (c : cmd_call Message X) m :
  store_op root idn md g ReadMessage json_text c = Some m -> guarded m.
Proof.
  assert (Hdata : forall A (q : M A), confined root reset_names q -> guarded q) by (intros; by apply guarded_reset_part).
  assert (Ht : forall d, HasPrefix d tmp_prefix = true -> reset_names d) by (intros; reset_name).
  destruct c; try discriminate; intros [= <-]; try apply guarded_as_error; try apply guarded_map_result.
  - intros. apply preserves_LoadRecoveryRequired.
  - apply guarded_SaveRecoveryRequired.
  - intros. apply preserves_LoadUIDValidity.
  - apply guarded_SaveUIDValidity.
  - apply Hdata, confined_SaveEmail; reset_name.
  - apply Hdata, confined_SaveEmailMetas; [done|reset_name].
  - apply guarded_bind; [apply guarded_reads; intros; apply preserves_LoadEmails|]. intros. apply guarded_ret.
  - apply Hdata, confined_SaveReports; [done|reset_name].
  - apply guarded_reads. intros. apply preserves_GetAllReports.
  - apply Hdata, confined_DeleteReportsBefore; [done|reset_name].
  - apply guarded_bind; [|intros; apply guarded_ret]. apply Hdata, confined_DeleteEmailsBefore; [done|reset_name..].
  - apply guarded_reads. intros. apply preserves_CountReportsBefore.
  - apply guarded_reads. intros. apply preserves_CountEmailsBefore.
  - apply guarded_reads. intros. apply preserves_HasPendingReset.
  - apply guarded_ApplyRecovery.
  - apply guarded_ResetForRecovery.
  - apply guarded_reads. intros. apply preserves_CheckRecoveryRequired.
  - intros. unfold sys_stat. apply preserves_read.
  - intros. unfold sys_read_file. apply preserves_read.
Qed.

Lemma guarded_operation {Message} (ReadMessage : string -> result Message) json_text A (m : M A) :
  writer_operation ReadMessage json_text A m -> guarded m.
Proof.
  intros []; [apply guarded_Open|apply guarded_ClearRecoveryRequired|by eapply guarded_store_op].
Qed.

(** ** The invariant *)

Record processes_inv (y : processes) : Prop := {
  inv_root : dir_err (files y) root = None;
  inv_seen s0 : s0 ∈ summaries y -> recovery_at (files y) = recovery_at s0;
  inv_locked : locked y = true -> summaries y = [];
  inv_writer m : writer y = Some m -> safe (clock y) m (files y) (locked y) (fun _ _ _ => True)
}.

(** An answer leads to what the next call has to be safe in. *)
Lemma answers_safe sums tm X (c : io X) s l a s' l' (post : X -> fs -> bool -> Prop) :
  answers sums tm c s l a s' l' -> call_safe tm c s l post -> dir_err s root = None ->
  post a s' l' /\ may_change l s s' /\ (l' = true -> l = true \/ sums = []).
Proof.
  intros Ha Hs Hd. assert (Hrefl : may_change l s s) by (split; [done|by right]).
  destruct c as [A op part Hp| | | |]; simpl in *.
  - destruct Ha as [-> [Ho|(d & e & He & -> & ->)]], Hs as [[H1 H2] H3].
    + rewrite <- Ho in *. simpl in *. naive_solver.
    + destruct (H3 d) as [H4 H5]. naive_solver.
  - destruct Ha as (-> & -> & ->). naive_solver.
  - destruct Ha as (-> & -> & ->). naive_solver.
  - destruct Ha as [-> [(-> & Hn & ->)|(e & He & -> & ->)]], Hs as [H1 H2]; naive_solver.
  - destruct Ha as (-> & -> & [-> |(e & He & ->)]), Hs as [H1 H2]; naive_solver.
Qed.

Lemma cut_short_safe tm m s l s' (Q : unit -> fs -> bool -> Prop) :
  cut_short m s s' -> safe tm m s l Q -> dir_err s root = None -> may_change l s s'.
Proof.
  intros [-> |H] Hs Hd; [split; [done|by right]|]. destruct m as [u|X c k]; [done|].
  destruct c; try done. destruct H as [d ->]. simpl in Hs. by destruct Hs as [_ Hs]; destruct (Hs d).
Qed.

(** Without the lock nothing changed for the summaries; with it there are none. *)
Lemma seen_may_change (sums : list fs) l s s' :
  (forall s0, s0 ∈ sums -> recovery_at s = recovery_at s0) -> (l = true -> sums = []) -> may_change l s s' ->
  forall s0, s0 ∈ sums -> recovery_at s' = recovery_at s0.
Proof.
  intros Hseen Hl [_ [-> |Hr]] s0 H0; [|rewrite Hr; by apply Hseen].
  rewrite Hl in H0 by done. by apply not_elem_of_nil in H0.
Qed.

Lemma step_inv y y' :
  (forall A m, operation A m -> guarded m) -> step y y' -> processes_inv y -> processes_inv y'.
Proof.
  intros Hop Hst [Hd Hseen Hl Hw]. destruct Hst; simpl in *; split; simpl; try done.
  - intros m' [= <-]. apply safe_bind. eapply safe_mono; [|by eapply Hop]. done.
  - specialize (Hw _ eq_refl). by destruct (answers_safe _ _ _ _ _ _ _ _ _ _ H Hw Hd) as (_ & [? _] & _).
  - specialize (Hw _ eq_refl). destruct (answers_safe _ _ _ _ _ _ _ _ _ _ H Hw Hd) as (_ & Hm & _).
    by eapply seen_may_change.
  - specialize (Hw _ eq_refl). destruct (answers_safe _ _ _ _ _ _ _ _ _ _ H Hw Hd) as (_ & _ & Hl').
    intros ->. destruct (Hl' eq_refl); auto.
  - specialize (Hw _ eq_refl). intros m [= <-].
    by destruct (answers_safe _ _ _ _ _ _ _ _ _ _ H Hw Hd) as (Hp & _).
  - by destruct (cut_short_safe _ _ _ _ _ _ H (Hw _ eq_refl) Hd).
  - eapply seen_may_change; [done..|]. by eapply cut_short_safe; [|apply Hw|].
  - intros s0 [H0|H0%list_elem_of_singleton]%elem_of_app; [by apply Hseen|by subst].
  - intros s0 H0. apply Hseen. by eapply elem_of_sublist, sublist_delete.
  - intros ->. by rewrite Hl.
Qed.

Lemma can_reach_inv y : (forall A m, operation A m -> guarded m) -> can_reach y -> processes_inv y.
Proof.
  intros Hop. induction 1 as [s tm Hd|y y' _ IH Hs]; [|by eapply step_inv].
  split; simpl; try done. intros s0 H. by apply not_elem_of_nil in H.
Qed.

(** What [CheckRecoveryRequired] answers is a matter of the recovery state. *)
Lemma check_recovery s tm :
  Recovery.CheckRecoveryRequired (summaryConsistencyGuardImpl root) (World s [] tm) =
    (Some (match recovery_at s with
           | Ok r => Ok (match r with Some _ => true | None => false end)
           | Err e => Err (errorf "CheckRecoveryRequired: load sentinel: " e)
           end), World s [] tm).
Proof.
  unfold Recovery.CheckRecoveryRequired. rewrite run_bind, (reads_run _ _ _ s tm (reads_loadSentinel root)).
  unfold recovery_at. destruct (sentinel_at root s) as [[se|]|e]; [|done..]. simpl.
  by destruct (RecoveryRequired se).
Qed.
End guard.

(** C9: while a summary holds the guard, recovery cannot become required, and cannot be cleared. In
    every state that a writer and any number of summaries reach, whatever operations of the store
    the writer carries out, in its three modes, wherever it is in them, and whatever fails or is
    killed: the recovery state is the one each summary that has the lock found when it got it; so
    the answer of [CheckRecoveryRequired] is the same until the guard is closed. The writer does not
    have the lock at that time. *)
Theorem guard_freezes_recovery p x {Message} (ReadMessage : string -> result Message) json_text y i s0 :
  can_reach p x (writer_operation p x ReadMessage json_text) y -> summaries y !! i = Some s0 ->
  locked y = false /\ recovery_at p x (files y) = recovery_at p x s0 /\
  forall tm, (Recovery.CheckRecoveryRequired (summaryConsistencyGuardImpl (p ++ [x])) (World (files y) [] tm)).1 =
             (Recovery.CheckRecoveryRequired (summaryConsistencyGuardImpl (p ++ [x])) (World s0 [] tm)).1.
Proof.
  intros Hy Hi. apply can_reach_inv in Hy as [Hd Hseen Hl _]; [|intros; by eapply guarded_operation].
  assert (Hr : recovery_at p x (files y) = recovery_at p x s0)
    by (apply Hseen; by eapply list_elem_of_lookup_2).
  split; [|split; [done|]].
  - destruct (locked y); [|done]. by rewrite Hl in Hi.
  - intros tm. by rewrite !check_recovery, Hr.
Qed.

(** ** An example *)

Module GuardExample.
Definition idn : IMAPIdentity := {| Host := "h"; Port := 993; Mailbox := "INBOX" |}.
Definition s0 : fs :=
  list_to_map [
    (["d"], Dir 448);
    (["d"; guardFilename], File 384 (Raw ""));
    (["d"; sentinelFilename], File 384 (JSentinel (set_uidvalidity (Some 5) (new_sentinel idn 0))))].

(** fetch records a changed UIDVALIDITY while a summary has the guard: it has opened the guard file
    and waits for the lock. *)
Definition op : M (option goerr) := as_error (Recovery.SaveRecoveryRequired (newStore ["d"] idn OpenReadWrite) 5 6 0).

(** A call on the files that is carried out. *)
Definition advance (m : M unit) (s : fs) : M unit * fs :=
  match m with
  | Prog.Call c k =>
      match c in io X return (X -> M unit) -> M unit * fs with
      | Sys op _ _ => fun k => (k (op s).1, (op s).2)
      | _ => fun _ => (m, s)
      end k
  | Prog.Ret _ => (m, s)
  end.

Definition at_files (m : M unit) : bool :=
  match m with Prog.Call c _ => match c with Sys _ _ _ => true | _ => false end | Prog.Ret _ => false end.

Lemma step_advance p x operation s tm m l sums :
  at_files m = true ->
  step p x operation
    {| files := s; clock := tm; writer := Some m; locked := l; summaries := sums |}
    {| files := (advance m s).2; clock := tm; writer := Some (advance m s).1; locked := l; summaries := sums |}.
Proof.
  destruct m as [|X c k]; [done|]. destruct c as [A f part H| | | |]; try done. intros _. simpl. apply step_call.
  split; [done|]. left. by destruct (f s).
Qed.

Definition begun : M unit := let! _ := op in ret tt.

Definition waiting : processes :=
  {| files := (advance begun s0).2; clock := 0; writer := Some (advance begun s0).1; locked := false;
     summaries := [s0] |}.

Definition waits_for_lock (m : M unit) : bool :=
  match m with Prog.Call c _ => match c with FlockGuard => true | _ => false end | Prog.Ret _ => false end.
End GuardExample.

Lemma guard_freezes_recovery_witness :
  let y := GuardExample.waiting in
  can_reach [] "d" (writer_operation (Message := unit) [] "d" (fun _ => Ok tt) (fun _ => "")) y /\
  option_map GuardExample.waits_for_lock (writer y) = Some true /\
  locked y = false /\ recovery_at [] "d" (files y) = recovery_at [] "d" GuardExample.s0 /\
  forall tm, (Recovery.CheckRecoveryRequired (summaryConsistencyGuardImpl ["d"]) (World (files y) [] tm)).1 =
             (Recovery.CheckRecoveryRequired (summaryConsistencyGuardImpl ["d"]) (World GuardExample.s0 [] tm)).1.
Proof.
  assert (Hr : can_reach [] "d" (writer_operation (Message := unit) [] "d" (fun _ => Ok tt) (fun _ => ""))
    GuardExample.waiting).
  { eapply reach_step; [eapply reach_step; [eapply reach_step; [apply (reach_initial _ _ _ GuardExample.s0 0)|]|]|].
    - vm_compute. reflexivity.
    - eapply (step_share [] "d" _ GuardExample.s0 0 None []). vm_compute. reflexivity.
    - apply (step_begin [] "d" _ GuardExample.s0 0 _ GuardExample.op false [GuardExample.s0]).
      apply (op_store [] "d" _ _ _ (SaveRecoveryRequired 5 6 0) _ GuardExample.idn OpenReadWrite
        noopSummaryConsistencyGuard). reflexivity.
    - apply GuardExample.step_advance. vm_compute. reflexivity. }
  cbv zeta. split; [exact Hr|]. split; [vm_compute; reflexivity|].
  exact (guard_freezes_recovery [] "d" (fun _ => Ok tt) (fun _ => "") _ 0 _ Hr eq_refl).
Defined.
