(* ===== verification/Fake.v ===== *)
(** * The store in memory (internal/store/testutil/mocks.go)

    [FakeStore] is the implementation of [store.Store] the tests of the subcommands run on: the same
    interface over maps, without files. Every method takes the store and returns its result and the
    store after it. A test may make single methods fail, and looks at how often they were called.

    FakeProps.v shows that the file store behaves as this one. *)
From S2P Require Import Prelude GoStr GoTime GoErr Tlsrpt StoreTypes Fs.
From S2P Require Import Reports Emails.

(** The key of [Emails] is [EmailKey], with the fields of [emailKey]. A raw message of nil is
    [None]: the email is in the index and has no file. *)
Record FakeEmailEntry := {
  fe_UID : Z;
  fe_UIDValidity : Z;
  fe_InternalDate : Time;
  fe_RawEML : option string
}.

Record FakeRecovery := { Prev : Z; Curr : Z; fr_DetectedAt : Time }.

(** The errors a test injects: no method changes them. *)
Record FakeErrors := {
  AcquireSummaryConsistencyGuardErr : option goerr;
  LoadRecoveryRequiredErr : option goerr;
  HasPendingResetErr : option goerr;
  SaveReportsErr : option goerr;
  SaveEmailMetasErr : option goerr;
  DeleteReportsBeforeErr : option goerr;
  DeleteEmailsBeforeErr : option goerr;
  LoadEmailsErr : option goerr;
  ApplyRecoveryErr : option goerr;
  ResetForRecoveryErr : option goerr
}.

(** What is recorded of the calls. *)
Record FakeCalls := {
  SaveEmailMetasCallCount : Z;
  SaveReportsCallCount : Z;
  LoadEmailsCallCount : Z;
  DeleteReportsBeforeCallCount : Z;
  DeleteEmailsBeforeCallCount : Z;
  ApplyRecoveryCallCount : Z;
  ResetForRecoveryCallCount : Z;
  DeleteReportsCutoff : Time;
  DeleteEmailsCutoff : Time
}.

Record FakeStore := {
  fs_Reports : gmap string Report;
  fs_UIDValidity : option Z;
  fs_Recovery : option FakeRecovery;
  fs_Emails : gmap emailKey FakeEmailEntry;
  fs_PendingReset : bool;
  fs_Errors : FakeErrors;
  fs_Calls : FakeCalls
}.

#[export] Instance FakeEmailEntry_eq_dec : EqDecision FakeEmailEntry.
Proof. solve_decision. Defined.

Definition no_errors : FakeErrors :=
  {| AcquireSummaryConsistencyGuardErr := None; LoadRecoveryRequiredErr := None; HasPendingResetErr := None;
     SaveReportsErr := None; SaveEmailMetasErr := None; DeleteReportsBeforeErr := None;
     DeleteEmailsBeforeErr := None; LoadEmailsErr := None; ApplyRecoveryErr := None; ResetForRecoveryErr := None |}.

Definition no_calls : FakeCalls :=
  {| SaveEmailMetasCallCount := 0; SaveReportsCallCount := 0; LoadEmailsCallCount := 0;
     DeleteReportsBeforeCallCount := 0; DeleteEmailsBeforeCallCount := 0; ApplyRecoveryCallCount := 0;
     ResetForRecoveryCallCount := 0; DeleteReportsCutoff := zeroTime; DeleteEmailsCutoff := zeroTime |}.

Definition NewFakeStore : FakeStore :=
  {| fs_Reports := ∅; fs_UIDValidity := None; fs_Recovery := None; fs_Emails := ∅; fs_PendingReset := false;
     fs_Errors := no_errors; fs_Calls := no_calls |}.

(** ** Updates of one field *)

Definition with_reports (m : gmap string Report) (f : FakeStore) : FakeStore :=
  {| fs_Reports := m; fs_UIDValidity := fs_UIDValidity f; fs_Recovery := fs_Recovery f; fs_Emails := fs_Emails f;
     fs_PendingReset := fs_PendingReset f; fs_Errors := fs_Errors f; fs_Calls := fs_Calls f |}.
Definition with_emails (m : gmap emailKey FakeEmailEntry) (f : FakeStore) : FakeStore :=
  {| fs_Reports := fs_Reports f; fs_UIDValidity := fs_UIDValidity f; fs_Recovery := fs_Recovery f; fs_Emails := m;
     fs_PendingReset := fs_PendingReset f; fs_Errors := fs_Errors f; fs_Calls := fs_Calls f |}.
Definition with_uidvalidity (v : option Z) (f : FakeStore) : FakeStore :=
  {| fs_Reports := fs_Reports f; fs_UIDValidity := v; fs_Recovery := fs_Recovery f; fs_Emails := fs_Emails f;
     fs_PendingReset := fs_PendingReset f; fs_Errors := fs_Errors f; fs_Calls := fs_Calls f |}.
Definition with_recovery (r : option FakeRecovery) (f : FakeStore) : FakeStore :=
  {| fs_Reports := fs_Reports f; fs_UIDValidity := fs_UIDValidity f; fs_Recovery := r; fs_Emails := fs_Emails f;
     fs_PendingReset := fs_PendingReset f; fs_Errors := fs_Errors f; fs_Calls := fs_Calls f |}.
Definition with_pending (b : bool) (f : FakeStore) : FakeStore :=
  {| fs_Reports := fs_Reports f; fs_UIDValidity := fs_UIDValidity f; fs_Recovery := fs_Recovery f;
     fs_Emails := fs_Emails f; fs_PendingReset := b; fs_Errors := fs_Errors f; fs_Calls := fs_Calls f |}.
Definition with_calls (c : FakeCalls) (f : FakeStore) : FakeStore :=
  {| fs_Reports := fs_Reports f; fs_UIDValidity := fs_UIDValidity f; fs_Recovery := fs_Recovery f;
     fs_Emails := fs_Emails f; fs_PendingReset := fs_PendingReset f; fs_Errors := fs_Errors f; fs_Calls := c |}.

(** The calls counted: how many of each kind are added, and the cutoffs captured. *)
Definition count_calls (metas reports load delReports delEmails apply reset : Z)
    (cutReports cutEmails : option Time) (f : FakeStore) : FakeStore :=
  let c := fs_Calls f in
  with_calls
    {| SaveEmailMetasCallCount := SaveEmailMetasCallCount c + metas;
       SaveReportsCallCount := SaveReportsCallCount c + reports;
       LoadEmailsCallCount := LoadEmailsCallCount c + load;
       DeleteReportsBeforeCallCount := DeleteReportsBeforeCallCount c + delReports;
       DeleteEmailsBeforeCallCount := DeleteEmailsBeforeCallCount c + delEmails;
       ApplyRecoveryCallCount := ApplyRecoveryCallCount c + apply;
       ResetForRecoveryCallCount := ResetForRecoveryCallCount c + reset;
       DeleteReportsCutoff := default (DeleteReportsCutoff c) cutReports;
       DeleteEmailsCutoff := default (DeleteEmailsCutoff c) cutEmails |} f.

(** ** Reports *)

Definition SaveReports (inputs : list ReportInput) (f : FakeStore) : option goerr * FakeStore :=
  let f := count_calls 0 1 0 0 0 0 0 None None f in
  match SaveReportsErr (fs_Errors f) with
  | Some err => (Some err, f)
  | None =>
      (None, with_reports (foldl (fun m input => <[ReportID (ri_Report input) := ri_Report input]> m)
                             (fs_Reports f) inputs) f)
  end.

(** The order of [cmp.Compare] on ids. *)
Definition report_leb (a b : Report) : bool := str_leb (ReportID a) (ReportID b).

Definition GetAllReports (f : FakeStore) : result (list Report) * FakeStore :=
  (Ok (merge_sort report_leb (map_to_list (fs_Reports f)).*2), f).

(** The loop counts and removes the entries of a map: those it removes and those it leaves. *)
Definition DeleteReportsBefore (cutoff : Time) (f : FakeStore) : result Z * FakeStore :=
  let f := count_calls 0 0 0 1 0 0 0 (Some cutoff) None f in
  match DeleteReportsBeforeErr (fs_Errors f) with
  | Some err => (Err err, f)
  | None =>
      (Ok (Z.of_nat (size (filter (fun kr => ended_before cutoff kr.2 = true) (fs_Reports f)))),
       with_reports (filter (fun kr => ended_before cutoff kr.2 = false) (fs_Reports f)) f)
  end.

Definition CountReportsBefore (cutoff : Time) (f : FakeStore) : result Z * FakeStore :=
  (Ok (Z.of_nat (size (filter (fun kr => ended_before cutoff kr.2 = true) (fs_Reports f)))), f).

(** ** Emails *)

(** One round of the second loop of [SaveEmailMetas]. *)
Definition add_meta (m : gmap emailKey FakeEmailEntry) (meta : EmailMeta) : gmap emailKey FakeEmailEntry :=
  match m !! key_of meta with
  | Some _ => m
  | None => <[key_of meta := {| fe_UID := UID meta; fe_UIDValidity := UIDValidity meta;
                                fe_InternalDate := InternalDate meta; fe_RawEML := None |}]> m
  end.

Definition SaveEmailMetas (metas : list EmailMeta) (f : FakeStore) : option goerr * FakeStore :=
  let f := count_calls 1 0 0 0 0 0 0 None None f in
  match SaveEmailMetasErr (fs_Errors f) with
  | Some err => (Some err, f)
  | None =>
      if existsb (fun meta => IsZero (InternalDate meta)) metas then (Some (Sentinel ErrZeroInternalDate), f)
      else (None, with_emails (foldl add_meta (fs_Emails f) metas) f)
  end.

Definition SaveEmail (uid uidValidity : Z) (internalDate : Time) (rawEML : string) (f : FakeStore)
  : option goerr * FakeStore :=
  if IsZero internalDate then (Some (Sentinel ErrZeroInternalDate), f)
  else
    let key : emailKey := (uid, uidValidity) in
    match fs_Emails f !! key with
    | Some {| fe_RawEML := Some _ |} => (None, f)
    | existing =>
        let entry := default {| fe_UID := uid; fe_UIDValidity := uidValidity; fe_InternalDate := zeroTime;
                                fe_RawEML := None |} existing in
        (None, with_emails
           (<[key := {| fe_UID := fe_UID entry; fe_UIDValidity := fe_UIDValidity entry;
                        fe_InternalDate := internalDate; fe_RawEML := Some rawEML |}]> (fs_Emails f)) f)
    end.

Section load.
Context {Message : Type} (ReadMessage : string -> result Message).

(** What the loop of [LoadEmails] makes of an entry. *)
Definition fake_outcome (entry : FakeEmailEntry) : option (@LoadedEmail Message + goerr) :=
  match fe_RawEML entry with
  | None => None
  | Some raw =>
      match ReadMessage raw with
      | Err err =>
          Some (inr (ErrLoadEmailFailed [fmt_u (fe_UIDValidity entry); fmt_u (fe_UID entry)]
                       (fe_UID entry) (fe_UIDValidity entry) err))
      | Ok msg =>
          Some (inl {| le_Message := msg; le_UID := fe_UID entry; le_UIDValidity := fe_UIDValidity entry;
                       le_InternalDate := fe_InternalDate entry;
                       le_Path := email_rel_path (fe_UID entry) (fe_UIDValidity entry) (fe_InternalDate entry) |})
      end
  end.

(** By uidvalidity, then by uid. *)
Definition email_leb (a b : @LoadedEmail Message) : bool :=
  (le_UIDValidity a <? le_UIDValidity b)
  || ((le_UIDValidity a =? le_UIDValidity b) && (le_UID a <=? le_UID b)).

Definition LoadEmails (f : FakeStore) : (list (@LoadedEmail Message) * option goerr) * FakeStore :=
  let f := count_calls 0 0 1 0 0 0 0 None None f in
  match LoadEmailsErr (fs_Errors f) with
  | Some err => (([], Some err), f)
  | None =>
      let outcomes := fake_outcome <$> (map_to_list (fs_Emails f)).*2 in
      let result := omap (fun o => match o with Some (inl m) => Some m | _ => None end) outcomes in
      let errs := omap (fun o => match o with Some (inr e) => Some e | _ => None end) outcomes in
      ((merge_sort email_leb result, join_errs (map Some errs)), f)
  end.
End load.

Definition fe_expired (cutoff : Time) (e : FakeEmailEntry) : bool := Before (fe_InternalDate e) cutoff.

Definition DeleteEmailsBefore (cutoff : Time) (f : FakeStore) : result Z * FakeStore :=
  let f := count_calls 0 0 0 0 1 0 0 None (Some cutoff) f in
  match DeleteEmailsBeforeErr (fs_Errors f) with
  | Some err => (Err err, f)
  | None =>
      (Ok (Z.of_nat (size (filter (fun ke => fe_expired cutoff ke.2 = true) (fs_Emails f)))),
       with_emails (filter (fun ke => fe_expired cutoff ke.2 = false) (fs_Emails f)) f)
  end.

Definition CountEmailsBefore (cutoff : Time) (f : FakeStore) : result Z * FakeStore :=
  if IsZero cutoff then (Ok 0, f)
  else (Ok (Z.of_nat (size (filter (fun ke => fe_expired cutoff ke.2 = true) (fs_Emails f)))), f).

(** ** UIDVALIDITY and recovery *)

Definition SaveUIDValidity (v : Z) (f : FakeStore) : option goerr * FakeStore :=
  (None, with_uidvalidity (Some v) f).

Definition LoadUIDValidity (f : FakeStore) : result (Z * bool) * FakeStore :=
  (Ok (match fs_UIDValidity f with None => (0, false) | Some v => (v, true) end), f).

Definition SaveRecoveryRequired (prev curr : Z) (detectedAt : Time) (f : FakeStore) : option goerr * FakeStore :=
  (None, with_recovery (Some {| Prev := prev; Curr := curr; fr_DetectedAt := detectedAt |}) f).

Definition LoadRecoveryRequired (f : FakeStore) : result (Z * Z * Time * bool) * FakeStore :=
  match LoadRecoveryRequiredErr (fs_Errors f) with
  | Some err => (Err err, f)
  | None =>
      (Ok (match fs_Recovery f with
           | None => (0, 0, zeroTime, false)
           | Some r => (Prev r, Curr r, fr_DetectedAt r, true)
           end), f)
  end.

Definition ClearRecoveryRequired (f : FakeStore) : option goerr * FakeStore := (None, with_recovery None f).

Definition ApplyRecovery (newUIDValidity : Z) (f : FakeStore) : option goerr * FakeStore :=
  let f := count_calls 0 0 0 0 0 1 0 None None f in
  match ApplyRecoveryErr (fs_Errors f) with
  | Some err => (Some err, f)
  | None => (None, with_recovery None (with_uidvalidity (Some newUIDValidity) f))
  end.

Definition ResetForRecovery (currUIDValidity : Z) (f : FakeStore) : option goerr * FakeStore :=
  let f := count_calls 0 0 0 0 0 0 1 None None f in
  match ResetForRecoveryErr (fs_Errors f) with
  | Some err => (Some err, f)
  | None =>
      match fs_Recovery f with
      | None =>
          if fs_PendingReset f then (None, with_pending false f)
          else (Some (Sentinel ErrRecoveryRequiredMissing), f)
      | Some r =>
          if negb (Curr r =? currUIDValidity)
          then (Some (ErrRecoveryUIDValidityMismatch currUIDValidity (Curr r)), f)
          else (None, with_pending false (with_recovery None (with_uidvalidity (Some currUIDValidity)
                        (with_emails ∅ (with_reports ∅ f)))))
      end
  end.

Definition HasPendingReset (f : FakeStore) : result bool * FakeStore :=
  match HasPendingResetErr (fs_Errors f) with
  | Some err => (Err err, f)
  | None => (Ok (fs_PendingReset f), f)
  end.

(** ** The guard of a summary *)

Record FakeSummaryConsistencyGuard := {
  RecoveryRequiredFound : bool;
  CheckError : option goerr;
  Closed : bool
}.

Definition AcquireSummaryConsistencyGuard (f : FakeStore) : result FakeSummaryConsistencyGuard * FakeStore :=
  match AcquireSummaryConsistencyGuardErr (fs_Errors f) with
  | Some err => (Err err, f)
  | None =>
      (Ok {| RecoveryRequiredFound := bool_decide (is_Some (fs_Recovery f)); CheckError := None; Closed := false |}, f)
  end.

Definition CheckRecoveryRequired (g : FakeSummaryConsistencyGuard) : result bool :=
  match CheckError g with Some err => Err err | None => Ok (RecoveryRequiredFound g) end.

Definition CloseGuard (g : FakeSummaryConsistencyGuard) : FakeSummaryConsistencyGuard :=
  {| RecoveryRequiredFound := RecoveryRequiredFound g; CheckError := CheckError g; Closed := true |}.
