(* ===== verification/FakeProps.v ===== *)
(** * The file store agrees with the store in memory

    [FakeStore] says what [store.Store] means without files: maps, and a value or none. [agrees]
    relates it to a file system: the sentinel holds the UIDVALIDITY and the recovery state, the data
    file lists the reports and the index, and below the emails directory there are the messages and
    nothing else. Where nothing fails each operation of the file store gives the answer of the store
    in memory and leads to files that agree with it again ([gives]).

    The store in memory knows one map of emails where the file store has files and an index; an email
    that was saved and not indexed yet is [pending].

    This file has the relation and the operations on the sentinel and on the reports; the emails
    are in FakeEmails.v, and FakeSpec.v puts the operations together. *)
From S2P Require Import Prelude GoStr GoTime GoErr.
From S2P Require Tlsrpt.
From S2P Require Import StoreTypes Fs Io AtomicFile Sentinel FileStore.
From S2P Require Import Reports Emails Recovery Reset EmailsSpec StoreProps DataProps Confine LoadSpec.
From S2P Require Import Prog Cmd System.
From S2P Require Fake.
From S2P Require Import SystemProps.
Import Fake (FakeStore, FakeEmailEntry, FakeRecovery, fs_Reports, fs_UIDValidity, fs_Recovery, fs_Emails,
  fs_PendingReset, fs_Errors, fe_UID, fe_UIDValidity, fe_InternalDate, fe_RawEML).

(** ** Lists and maps with the same elements *)

Section listed.
Context {K A : Type} `{Countable K} (key : A -> K).

(** [l] lists the values of [m], each once. *)
Definition keyed (m : gmap K A) : Prop := forall k x, m !! k = Some x -> key x = k.
Definition listed (l : list A) (m : gmap K A) : Prop :=
  NoDup (key <$> l) /\ forall x, x ∈ l <-> m !! key x = Some x.

Lemma listed_Permutation l m : keyed m -> listed l m -> l ≡ₚ (map_to_list m).*2.
Proof.
  intros Hk [Hn Hl]. apply NoDup_Permutation; [by eapply NoDup_fmap_1| |].
  - apply (NoDup_fmap_1 key). assert (Heq : key <$> (map_to_list m).*2 = (map_to_list m).*1).
    { rewrite <- list_fmap_compose. apply list_fmap_ext. intros i [k x] Hi. simpl. apply Hk.
      apply elem_of_map_to_list. by eapply list_elem_of_lookup_2. }
    rewrite Heq. apply NoDup_fst_map_to_list.
  - intros x. rewrite Hl, list_elem_of_fmap. split.
    + intros Hx. exists (key x, x). split; [done|]. by apply elem_of_map_to_list.
    + intros ([k y] & -> & Hy%elem_of_map_to_list). simpl. by rewrite (Hk k y).
Qed.

Lemma listed_length l m : keyed m -> listed l m -> length l = size m.
Proof. intros Hk Hl. by rewrite (listed_Permutation l m Hk Hl), length_fmap, length_map_to_list. Qed.

Lemma keyed_filter (p : A -> bool) (b : bool) m : keyed m -> keyed (filter (fun kx => p kx.2 = b) m).
Proof. intros Hk k x [Hx _]%map_lookup_filter_Some. by apply Hk. Qed.

Lemma listed_filter (p : A -> bool) (b : bool) l m : listed l m ->
  listed (List.filter (fun x => Bool.eqb (p x) b) l) (filter (fun kx => p kx.2 = b) m).
Proof.
  intros [Hn Hl]. split.
  - clear Hl. induction l as [|x l IH]; simpl; [constructor|]. apply list.NoDup_cons in Hn as [Hx Hn].
    destruct (Bool.eqb (p x) b); [|by apply IH]. simpl. constructor; [|by apply IH].
    intros (y & Hy & Hin)%list_elem_of_fmap. apply Hx. rewrite Hy. apply list_elem_of_fmap_2.
    by apply list_elem_of_In, filter_In in Hin as [Hin%list_elem_of_In _].
  - intros x. rewrite map_lookup_filter_Some, <- Hl, list_elem_of_In, filter_In, Bool.eqb_true_iff, list_elem_of_In. done.
Qed.

(** A loop that counts, and the size of what it counts. *)
Lemma listed_count (p : A -> bool) l m : keyed m -> listed l m ->
  count_if p l = Z.of_nat (size (filter (fun kx => p kx.2 = true) m)).
Proof.
  intros Hk Hl. unfold count_if. f_equal. rewrite <- (listed_length _ _ (keyed_filter p true m Hk) (listed_filter p true l m Hl)).
  f_equal. apply List.filter_ext. intros x. by destruct (p x).
Qed.

Lemma listed_rest (p : A -> bool) l m : listed l m ->
  listed (List.filter (fun x => negb (p x)) l) (filter (fun kx => p kx.2 = false) m).
Proof.
  intros Hl. replace (List.filter (fun x => negb (p x)) l) with (List.filter (fun x => Bool.eqb (p x) false) l);
    [by apply listed_filter|]. apply List.filter_ext. intros x. by destruct (p x).
Qed.
End listed.

(** ** Agreement *)

Definition as_internal (r : FakeRecovery) : internalRecoveryState :=
  {| PrevUIDValidity := Fake.Prev r; CurrUIDValidity := Fake.Curr r; DetectedAt := Fake.fr_DetectedAt r |}.

Definition as_meta (e : FakeEmailEntry) : EmailMeta :=
  {| UID := fe_UID e; UIDValidity := fe_UIDValidity e; InternalDate := fe_InternalDate e |}.

(** The index: the emails that are not pending. *)
Definition index (pending : gset emailKey) (f : FakeStore) : gmap emailKey EmailMeta :=
  as_meta <$> filter (fun ke => ke.1 ∉ pending) (fs_Emails f).

(** An entry is stored at its key, and its path can be read back. *)
Definition entry_ok (k : emailKey) (e : FakeEmailEntry) : Prop :=
  k = (fe_UID e, fe_UIDValidity e) /\ in_uint32 (fe_UID e) /\ in_uint32 (fe_UIDValidity e) /\
  path_date (fe_InternalDate e).

Definition fake_ok (f : FakeStore) : Prop :=
  fs_Errors f = Fake.no_errors /\ fs_PendingReset f = false /\
  keyed Tlsrpt.ReportID (fs_Reports f) /\ forall k e, fs_Emails f !! k = Some e -> entry_ok k e.

(** The file at [t] below the emails directory is a message of the store. *)
Definition message_at (f : FakeStore) (t : path) (c : content) : Prop :=
  exists k e raw, fs_Emails f !! k = Some e /\ fe_RawEML e = Some raw /\
    t = email_rel_path (fe_UID e) (fe_UIDValidity e) (fe_InternalDate e) /\ c = Raw raw.

Section agrees.
Context (root : path).

Definition sentinel_agrees (f : FakeStore) (s : fs) : Prop :=
  Base root s /\ ManNone root s /\
  exists se, SentIs root se s /\ valid_sentinel se = true /\ sf_UIDValidity se = fs_UIDValidity f /\
    RecoveryRequired se = as_internal <$> fs_Recovery f.

Definition data_agrees (pending : gset emailKey) (f : FakeStore) (s : fs) : Prop :=
  ~ is_dir_at s (dataFilePath root) /\
  exists df, data_at root s = Ok df /\ listed Tlsrpt.ReportID (df_Reports df) (fs_Reports f) /\
    listed key_of (df_Emails df) (index pending f).

(** Below the emails directory there are two levels of directories, and files in the lower ones. *)
Definition emails_tree (s : fs) : Prop :=
  (forall t n, s !! (root ++ "emails" :: t) = Some n -> dir_err s (parent (root ++ "emails" :: t)) = None) /\
  (forall t n, s !! (root ++ "emails" :: t) = Some n -> is_dir n = (length t <? 3)%nat).

Definition files_agree (f : FakeStore) (s : fs) : Prop :=
  emails_tree s /\
  forall t c, (exists k, s !! (root ++ "emails" :: t) = Some (File k c)) <-> message_at f t c.

Record agrees (pending : gset emailKey) (f : FakeStore) (s : fs) : Prop := {
  ag_sentinel : sentinel_agrees f s;
  ag_data : data_agrees pending f s;
  ag_files : files_agree f s;
  ag_fake : fake_ok f
}.

(** *** Each part depends on its own entries of the root directory *)

Section frames.
Context (c : string -> Prop) (s s' : fs) (Ho : Fs.only root c s s').

Lemma frame_sentinel f :
  ~ c guardFilename -> ~ c manifestFilename -> ~ c sentinelFilename ->
  sentinel_agrees f s -> sentinel_agrees f s'.
Proof using Ho.
  intros H1 H2 H3 (HB & HM & se & HS & Hse). split_and!.
  - by eapply frame_Base.
  - by eapply frame_ManNone.
  - exists se. split; [by eapply frame_SentIs|done].
Qed.

Lemma frame_data pending f : ~ c "tlsrpt.json" -> data_agrees pending f s -> data_agrees pending f s'.
Proof using Ho.
  intros Hc [Hd Hdf]. split.
  - unfold is_dir_at, dataFilePath in *. by rewrite (only_lookup _ _ _ _ _ [] Ho).
  - by rewrite (data_at_only root c s s').
Qed.

Lemma frame_tree : ~ c "emails" -> emails_tree s -> emails_tree s'.
Proof using Ho.
  intros Hc [Ht Hk]. split; intros t n; rewrite (only_lookup _ _ _ _ _ _ Ho) by done; intros H; [|by eapply Hk].
  pose proof (fs_stat_only root c s s' "emails" t Ho Hc) as Hs.
  assert (Hn : fs_stat s (root ++ "emails" :: t) = Ok n) by (apply fs_stat_Ok; split; [by eapply Ht|done]).
  rewrite Hn in Hs. by apply fs_stat_Ok in Hs as [Hs _].
Qed.

Lemma frame_files f : ~ c "emails" -> files_agree f s -> files_agree f s'.
Proof using Ho.
  intros Hc [Ht Hf]. split; [by apply frame_tree|]. intros t x.
  rewrite <- Hf. by rewrite (only_lookup _ _ _ _ _ _ Ho).
Qed.
End frames.
End agrees.

(** The fields each part of the relation looks at. *)
Lemma sentinel_agrees_fields root f f' s :
  fs_UIDValidity f' = fs_UIDValidity f -> fs_Recovery f' = fs_Recovery f ->
  sentinel_agrees root f s -> sentinel_agrees root f' s.
Proof. intros H1 H2. unfold sentinel_agrees. by rewrite H1, H2. Qed.

Lemma data_agrees_fields root pending f f' s :
  fs_Reports f' = fs_Reports f -> fs_Emails f' = fs_Emails f ->
  data_agrees root pending f s -> data_agrees root pending f' s.
Proof. intros H1 H2. unfold data_agrees, index. by rewrite H1, H2. Qed.

Lemma files_agree_fields root f f' s :
  fs_Emails f' = fs_Emails f -> files_agree root f s -> files_agree root f' s.
Proof. intros H. unfold files_agree, message_at. by rewrite H. Qed.

(** The calls that were counted do not matter. *)
Lemma agrees_counted root pending f f' s :
  fs_Reports f' = fs_Reports f -> fs_UIDValidity f' = fs_UIDValidity f -> fs_Recovery f' = fs_Recovery f ->
  fs_Emails f' = fs_Emails f -> fs_PendingReset f' = fs_PendingReset f -> fs_Errors f' = fs_Errors f ->
  agrees root pending f s -> agrees root pending f' s.
Proof.
  intros H1 H2 H3 H4 H5 H6 Hag. split.
  - eapply sentinel_agrees_fields; [exact H2|exact H3|apply Hag].
  - eapply data_agrees_fields; [exact H1|exact H4|apply Hag].
  - eapply files_agree_fields; [exact H4|apply Hag].
  - unfold fake_ok. rewrite H1, H4, H5, H6. apply Hag.
Qed.

Lemma io_wp_and {A} (b : bool) tm (m : M A) Q Q' C C' s :
  Io.wp b tm m Q C s -> Io.wp b tm m Q' C' s ->
  Io.wp b tm m (fun a s' => Q a s' /\ Q' a s') (fun s' => C s' /\ C' s') s.
Proof.
  intros H1 H2 fl Hfl. specialize (H1 fl Hfl). specialize (H2 fl Hfl).
  destruct (m _) as [[a|] w]; naive_solver.
Qed.

(** ** The operations *)

(** Run without faults on the files [s], [m] returns [x] and leaves files in [Q]. *)
Definition gives {A} (tm : Time) (m : M A) (x : A) (Q : fs -> Prop) (s : fs) : Prop :=
  Io.wp false tm m (fun a s' => a = x /\ Q s') (fun _ => True) s.

Lemma gives_reads {A} tm (m : M (result A)) r E x (Q : fs -> Prop) s :
  reads m r E -> r s = x -> Q s -> gives tm m x Q s.
Proof. intros Hr Hx HQ. by apply Hr. Qed.

Lemma gives_bind {A B} tm (m : M A) (k : A -> M B) x y (Q : fs -> Prop) s :
  gives tm m x Q s -> k x = ret y -> gives tm (m ≫= k) y Q s.
Proof.
  intros H Hk. apply wp_bind. eapply wp_mono; [exact H| |done].
  intros a s' [-> HQ]. rewrite Hk. by apply wp_ret.
Qed.

(** Where an operation writes, and what it does there. *)
Lemma gives_confined {A} tm root (c : string -> Prop) (m : M A) x (Q Q' : fs -> Prop) s :
  confined root c m -> dir_err s root = None -> gives tm m x Q' s ->
  (forall s', Fs.only root c s s' -> Q' s' -> Q s') -> gives tm m x Q s.
Proof.
  intros Hc Hd Hm HQ. eapply wp_mono; [apply io_wp_and; [exact Hm|by apply Hc]| |done].
  intros a s' [[-> HQ'] Ho]. split; [done|by apply HQ].
Qed.

(** A triple without faults. *)
Lemma gives_triple tm (P : fs -> Prop) (m : M (result unit)) (Q I : fs -> Prop) s :
  triple false tm P m (fun _ => Q) I -> P s -> gives tm m (Ok tt) Q s.
Proof.
  intros H Hs. eapply wp_mono; [by apply H| |done]. intros [[]|e] s' H'; [done|by destruct H'].
Qed.

(** What a write to the sentinel may touch. *)
Definition sentinel_names (d : string) : Prop :=
  d = sentinelFilename \/ d = guardFilename \/ tmp_entry d.

Section sentinel_ops.
Context (root : path) (idn : IMAPIdentity) (md : OpenMode) (Hmd : md <> OpenReadOnly) (tm : Time).
Context (pending : gset emailKey) (f : FakeStore) (s : fs) (Hag : agrees root pending f s).
Local Abbreviation st := (newStore root idn md).

Lemma agrees_root : dir_err s root = None.
Proof using Hag. apply Hag. Qed.

Lemma agrees_sentinel : exists se, sentinel_at root s = Ok (Some se) /\
  Base root s /\ SentIs root se s /\ valid_sentinel se = true /\ sf_UIDValidity se = fs_UIDValidity f /\
  RecoveryRequired se = as_internal <$> fs_Recovery f.
Proof using Hag.
  destruct (ag_sentinel _ _ _ _ Hag) as (HB & _ & se & HS & Hv & Hu & Hr).
  exists se. split_and!; [|done..]. apply sentinel_at_is; [by apply agrees_root|done|done].
Qed.

Lemma fake_errors : fs_Errors f = Fake.no_errors.
Proof using Hag. apply Hag. Qed.

Lemma LoadRecoveryRequired_gives :
  gives tm (map_result as_recovery (Recovery.LoadRecoveryRequired st)) (Fake.LoadRecoveryRequired f).1
    (agrees root pending f) s.
Proof using Hag.
  destruct agrees_sentinel as (se & _ & HB & HS & Hv & _ & Hr).
  unfold Fake.LoadRecoveryRequired. rewrite fake_errors. cbn.
  eapply gives_bind; [eapply gives_reads; [apply reads_LoadRecoveryRequired|by apply recovery_at_is; [apply HB|..]|done]|].
  simpl. rewrite Hr. by destruct (fs_Recovery f).
Qed.

Lemma LoadUIDValidity_gives :
  gives tm (map_result (fun v => (default 0 v, bool_decide (is_Some v))) (Recovery.LoadUIDValidity st))
    (Fake.LoadUIDValidity f).1 (agrees root pending f) s.
Proof using Hag.
  destruct agrees_sentinel as (se & Hse & _ & _ & _ & Hu & _).
  eapply gives_bind; [eapply gives_bind; [eapply gives_reads; [apply (reads_loadSentinel root)|exact Hse|done]|done]|].
  simpl. rewrite Hu. by destruct (fs_UIDValidity f).
Qed.

Lemma HasPendingReset_gives :
  gives tm (Recovery.HasPendingReset st) (Fake.HasPendingReset f).1 (agrees root pending f) s.
Proof using Hag.
  eapply gives_reads; [apply reads_HasPendingReset| |done].
  unfold Fake.HasPendingReset. rewrite fake_errors. cbn.
  destruct (ag_fake _ _ _ _ Hag) as (_ & -> & _). unfold pending_at.
  destruct (ag_sentinel _ _ _ _ Hag) as ([Hd _] & HM & _).
  by destruct (manifest_at_none root s Hd HM) as (e & -> & ->).
Qed.

(** The sentinel has been updated and nothing else. *)
Lemma agrees_updated f' s' se' :
  Fs.only root sentinel_names s s' -> Base root s' -> SentIs root se' s' -> valid_sentinel se' = true ->
  sf_UIDValidity se' = fs_UIDValidity f' -> RecoveryRequired se' = as_internal <$> fs_Recovery f' ->
  fs_Reports f' = fs_Reports f -> fs_Emails f' = fs_Emails f -> fake_ok f' -> agrees root pending f' s'.
Proof using Hag.
  intros Ho HB HS Hv Hu Hr H1 H2 Hok.
  assert (Hn : forall d, sentinel_names d -> d <> "tlsrpt.json" /\ d <> "emails" /\ d <> manifestFilename).
  { intros d [-> |[-> |Ht]]; [done|done|]. split_and!; intros ->; discriminate Ht. }
  split; [| | |done].
  - split_and!; [done| |by exists se']. eapply frame_ManNone; [exact Ho| |apply Hag]. intros H. by apply Hn in H as (_ & _ & ?).
  - eapply data_agrees_fields; [exact H1|exact H2|]. eapply frame_data; [exact Ho| |apply Hag]. intros H. by apply Hn in H as (? & _).
  - eapply files_agree_fields; [exact H2|]. eapply frame_files; [exact Ho| |apply Hag]. intros H. by apply Hn in H as (_ & ? & _).
Qed.

Lemma fake_ok_sentinel f' :
  fs_Errors f' = fs_Errors f -> fs_PendingReset f' = fs_PendingReset f ->
  fs_Reports f' = fs_Reports f -> fs_Emails f' = fs_Emails f -> fake_ok f'.
Proof using Hag. intros H1 H2 H3 H4. unfold fake_ok. rewrite H1, H2, H3, H4. apply Hag. Qed.

(** The three operations that write the sentinel. *)
Lemma update_gives (g : internalSentinelFile -> internalSentinelFile) (m : M (result unit)) f' :
  confined root sentinel_names m ->
  (forall se, valid_sentinel se = true -> sf_UIDValidity se = fs_UIDValidity f ->
     RecoveryRequired se = as_internal <$> fs_Recovery f ->
     valid_sentinel (g se) = true /\ sf_UIDValidity (g se) = fs_UIDValidity f' /\
     RecoveryRequired (g se) = as_internal <$> fs_Recovery f' /\
     (Base root s -> SentIs root se s -> gives tm m (Ok tt) (fun s' => Base root s' /\ SentIs root (g se) s') s)) ->
  fs_Reports f' = fs_Reports f -> fs_Emails f' = fs_Emails f -> fake_ok f' ->
  gives tm (as_error m) None (agrees root pending f') s.
Proof using Hag.
  intros Hc Hg H1 H2 Hok. destruct agrees_sentinel as (se & _ & HB & HS & Hv & Hu & Hr).
  destruct (Hg se Hv Hu Hr) as (Hv' & Hu' & Hr' & Ht).
  eapply gives_bind with (x := Ok tt); [|done].
  eapply gives_confined; [exact Hc|apply HB|by apply Ht|].
  intros s' Ho [HB' HS']. by eapply agrees_updated.
Qed.

Lemma SaveUIDValidity_gives v :
  gives tm (as_error (Recovery.SaveUIDValidity st v)) (Fake.SaveUIDValidity v f).1
    (agrees root pending (Fake.SaveUIDValidity v f).2) s.
Proof using Hag Hmd.
  apply (update_gives (set_uidvalidity (Some v))); [| |done|done|by apply fake_ok_sentinel].
  - apply confined_SaveUIDValidity; [by right; right|by left].
  - intros se Hv Hu Hr. split_and!; [done|done|done|]. unfold Recovery.SaveUIDValidity. simpl.
    rewrite bool_decide_false by done. intros HB HS.
    eapply (gives_triple tm (fun x => Base root x /\ SentIs root se x)); [|by split].
    apply (triple_update root idn md se (set_uidvalidity (Some v))); [done|]. unfold valid_sentinel in Hv. by zbool.
Qed.

Lemma SaveRecoveryRequired_gives prev curr at_ : json_time_ok at_ = true ->
  gives tm (as_error (Recovery.SaveRecoveryRequired st prev curr at_)) (Fake.SaveRecoveryRequired prev curr at_ f).1
    (agrees root pending (Fake.SaveRecoveryRequired prev curr at_ f).2) s.
Proof using Hag Hmd.
  intros Ht. set (rr := {| PrevUIDValidity := prev; CurrUIDValidity := curr; DetectedAt := at_ |}).
  apply (update_gives (set_recovery (Some rr))); [| |done|done|by apply fake_ok_sentinel].
  - apply confined_SaveRecoveryRequired; [by right; right|by left|by right; left].
  - intros se Hv Hu Hr.
    assert (Htimes : sentinel_times_ok (set_recovery (Some rr) se) = true).
    { unfold valid_sentinel, sentinel_times_ok in *. zbool. simpl. by rewrite H0, Ht. }
    split_and!; [|done|done|].
    + unfold valid_sentinel in *. zbool. rewrite Htimes. by apply andb_true_iff; split; [apply Z.eqb_eq|].
    + unfold Recovery.SaveRecoveryRequired. simpl. rewrite bool_decide_false by done.
      intros HB HS. eapply (gives_triple tm (fun x => Base root x /\ SentIs root se x)); [|by split].
      by apply (triple_guarded_update root idn md se (set_recovery (Some rr))).
Qed.

Lemma ApplyRecovery_gives curr :
  gives tm (as_error (Recovery.ApplyRecovery st curr)) (Fake.ApplyRecovery curr f).1
    (agrees root pending (Fake.ApplyRecovery curr f).2) s.
Proof using Hag Hmd.
  unfold Fake.ApplyRecovery. cbn. rewrite fake_errors. cbn.
  apply (update_gives (commit_sentinel curr)); [| |done|done|by apply fake_ok_sentinel].
  - unfold Recovery.ApplyRecovery. destruct (readOnly st); [apply confined_ret|].
    apply confined_bind; [apply confined_HasPendingReset|]. intros [[|]|e]; [apply confined_ret| |apply confined_ret].
    apply confined_guarded; [by right; right|by right; left|].
    assert (Htmp : forall d, tmp_entry d -> sentinel_names d) by (by right; right).
    assert (sentinel_names sentinelFilename) by by left. confined_go.
  - intros se Hv Hu Hr. split_and!; [by apply se'_valid|done|done|]. intros HB HS.
    unfold gives, Recovery.ApplyRecovery. simpl. rewrite bool_decide_false by done.
    apply wp_bind, reads_HasPendingReset; [|done]. unfold pending_at.
    destruct (ag_sentinel _ _ _ _ Hag) as ([Hd _] & HM & _).
    destruct (manifest_at_none root s Hd HM) as (e & -> & ->).
    eapply (gives_triple tm (fun x => Base root x /\ SentIs root se x)); [|by split].
    apply (triple_guarded_update root idn md se (commit_sentinel curr)); [done|by apply commit_times].
Qed.

(** A guard of the store in memory remembers the recovery state of the moment it was acquired. *)
Lemma CheckRecoveryRequired_gives g :
  Fake.CheckError g = None -> Fake.RecoveryRequiredFound g = bool_decide (is_Some (fs_Recovery f)) ->
  gives tm (Recovery.CheckRecoveryRequired (summaryConsistencyGuardImpl root)) (Fake.CheckRecoveryRequired g)
    (agrees root pending f) s.
Proof using Hag.
  intros H1 H2. unfold Fake.CheckRecoveryRequired. rewrite H1, H2.
  destruct agrees_sentinel as (se & Hse & _ & _ & _ & _ & Hr).
  eapply gives_bind; [eapply gives_reads; [apply (reads_loadSentinel root)|exact Hse|done]|].
  simpl. rewrite Hr. by destruct (fs_Recovery f).
Qed.
End sentinel_ops.

Section data_ops.
Context (root : path) (idn : IMAPIdentity) (md : OpenMode) (Hmd : md <> OpenReadOnly) (tm : Time).
Context (pending : gset emailKey) (f : FakeStore) (s : fs) (Hag : agrees root pending f s).
Local Abbreviation st := (newStore root idn md).

Lemma agrees_data : exists df, data_at root s = Ok df /\ data_writable root s /\
  listed Tlsrpt.ReportID (df_Reports df) (fs_Reports f) /\ listed key_of (df_Emails df) (index pending f).
Proof using Hag.
  destruct (ag_data _ _ _ _ Hag) as (Hn & df & Hdf & Hr & He). exists df.
  split; [done|]. split; [split; [by apply (agrees_root root pending f s)|done]|by split].
Qed.

Lemma fake_ok_fields f' :
  fs_Errors f' = fs_Errors f -> fs_PendingReset f' = fs_PendingReset f ->
  keyed Tlsrpt.ReportID (fs_Reports f') -> (forall k e, fs_Emails f' !! k = Some e -> entry_ok k e) -> fake_ok f'.
Proof using Hag. intros H1 H2 H3 H4. unfold fake_ok. rewrite H1, H2. split_and!; [apply Hag|apply Hag|done|done]. Qed.

Lemma index_keyed : keyed key_of (index pending f).
Proof using Hag.
  intros k m. unfold index. rewrite lookup_fmap. intros (e & [He _]%map_lookup_filter_Some & ->)%fmap_Some.
  destruct (ag_fake _ _ _ _ Hag) as (_ & _ & _ & Hok). by destruct (Hok k e He) as (-> & _).
Qed.

(** The data file has been rewritten. *)
Lemma agrees_rewritten pending' f' df' :
  valid_data df' = true ->
  listed Tlsrpt.ReportID (df_Reports df') (fs_Reports f') -> listed key_of (df_Emails df') (index pending' f') ->
  (forall t c, message_at f' t c <-> message_at f t c) ->
  fs_UIDValidity f' = fs_UIDValidity f -> fs_Recovery f' = fs_Recovery f -> fake_ok f' ->
  agrees root pending' f' (with_data root df' s).
Proof using Hag.
  intros Hv Hr He Hm H1 H2 Hok.
  pose proof (only_written root "tlsrpt.json" (JData df') s) as Ho.
  split; [..|done].
  - eapply sentinel_agrees_fields; [exact H1|exact H2|]. eapply frame_sentinel; [exact Ho|name_ne..|apply Hag].
  - split; [|exists df'; split; [|done]].
    + intros [k Hk]. unfold with_data, written in Hk. by rewrite lookup_insert_eq in Hk.
    + apply data_at_with; [by apply (agrees_root root pending f s)|done].
  - destruct (frame_files root _ _ _ Ho f) as [Ht Hf]; [name_ne|apply Hag|].
    split; [exact Ht|]. intros t c. by rewrite (Hf t c), Hm.
Qed.
End data_ops.

(** The records of a list without duplicate ids are those of its map. *)
Lemma elem_of_reports_map l r : NoDup (ids l) -> r ∈ l <-> reports_map l !! Tlsrpt.ReportID r = Some r.
Proof.
  intros Hn. rewrite (reports_map_index l _ (Tlsrpt.ReportID r) (index_reports_ok l)).
  pose proof (index_reports_ok l (Tlsrpt.ReportID r)) as Hi.
  destruct (index_reports l !! Tlsrpt.ReportID r) as [i|] eqn:E.
  - destruct Hi as [(r' & Hr' & Hid) _]. simpl. rewrite Hr'. split.
    + intros [j Hj]%list_elem_of_lookup. assert (i = j) as ->.
      { eapply NoDup_lookup; [exact Hn| |]; unfold ids; rewrite list_lookup_fmap, ?Hr', ?Hj; simpl; by rewrite ?Hid. }
      congruence.
    + intros [= ->]. by eapply list_elem_of_lookup_2.
  - split; [|done]. intros [j Hj]%list_elem_of_lookup. by destruct (Hi j r Hj).
Qed.

Lemma listed_reports l : NoDup (ids l) -> listed Tlsrpt.ReportID l (reports_map l).
Proof. intros Hn. split; [done|]. intros r. by apply elem_of_reports_map. Qed.

Lemma listed_reports_map l m : keyed Tlsrpt.ReportID m -> listed Tlsrpt.ReportID l m -> reports_map l = m.
Proof.
  intros Hk [Hn Hl]. apply map_eq. intros k. apply option_eq. intros r. split.
  - intros Hr. assert (Hid : Tlsrpt.ReportID r = k).
    { rewrite (reports_map_index l _ k (index_reports_ok l)) in Hr. pose proof (index_reports_ok l k) as Hi.
      destruct (index_reports l !! k) as [i|]; [|done]. destruct Hi as [(r' & Hr' & Hid) _]. simpl in Hr. congruence. }
    subst k. apply Hl. by apply elem_of_reports_map.
  - intros Hr. pose proof (Hk k r Hr) as <-. apply elem_of_reports_map; [done|]. by apply Hl.
Qed.

Lemma keyed_upsert m inputs : keyed Tlsrpt.ReportID m -> keyed Tlsrpt.ReportID (upsert_map m inputs).
Proof.
  unfold upsert_map. revert m. induction inputs as [|i inputs IH]; intros m Hm; [done|]. apply IH.
  intros k r. destruct (decide (Tlsrpt.ReportID (ri_Report i) = k)) as [<-|Hne].
  - rewrite lookup_insert_eq. by intros [= <-].
  - rewrite lookup_insert_ne by done. apply Hm.
Qed.

Lemma ids_upsert_NoDup l inputs : NoDup (ids l) -> NoDup (ids (upsert_reports l inputs)).
Proof. intros Hn. rewrite upsert_reports_ids. by apply add_ids_NoDup. Qed.

Lemma upsert_map_values m inputs k r : upsert_map m inputs !! k = Some r ->
  m !! k = Some r \/ In r (map ri_Report inputs).
Proof.
  unfold upsert_map. revert m. induction inputs as [|i inputs IH]; intros m H; [by left|]. simpl in H.
  apply IH in H as [H|H]; [|by right; right].
  destruct (decide (Tlsrpt.ReportID (ri_Report i) = k)) as [<-|Hne].
  - rewrite lookup_insert_eq in H. injection H as <-. right. by left.
  - rewrite lookup_insert_ne in H by done. by left.
Qed.

Lemma data_times_reports rs df : data_times_ok df = true -> (forall r, r ∈ rs -> report_times_ok r = true) ->
  data_times_ok (set_reports rs df) = true.
Proof.
  unfold data_times_ok. simpl. intros H Hr. zbool. rewrite H0, andb_true_r. apply forallb_forall.
  intros r Hin. by apply Hr, list_elem_of_In.
Qed.

Lemma data_times_emails es df : data_times_ok df = true -> (forall e, e ∈ es -> json_time_ok (InternalDate e) = true) ->
  data_times_ok (set_emails es df) = true.
Proof.
  unfold data_times_ok. simpl. intros H He. zbool. rewrite H. simpl. apply forallb_forall.
  intros r Hin. by apply He, list_elem_of_In.
Qed.

Section report_ops.
Context (root : path) (idn : IMAPIdentity) (md : OpenMode) (Hmd : md <> OpenReadOnly) (tm : Time).
Context (pending : gset emailKey) (f : FakeStore) (s : fs) (Hag : agrees root pending f s).
Local Abbreviation st := (newStore root idn md).

Lemma reports_keyed : keyed Tlsrpt.ReportID (fs_Reports f).
Proof using Hag. apply Hag. Qed.

Lemma SaveReports_gives inputs :
  forallb (fun i => report_times_ok (ri_Report i)) inputs = true ->
  gives tm (as_error (Reports.SaveReports st inputs)) (Fake.SaveReports inputs f).1
    (agrees root pending (Fake.SaveReports inputs f).2) s.
Proof using Hag Hmd.
  intros Hi. unfold Fake.SaveReports. cbn. rewrite (fake_errors root pending f s Hag). cbn.
  eapply gives_bind with (x := Ok tt); [|done].
  destruct (agrees_data root pending f s Hag) as (df & Hdf & Hw & Hr & He).
  pose proof (data_at_valid _ _ _ Hdf) as Hv.
  assert (Hids : NoDup (ids (df_Reports df))) by apply Hr.
  assert (Hm : reports_map (upsert_reports (df_Reports df) inputs) = upsert_map (fs_Reports f) inputs).
  { rewrite upsert_reports_map. f_equal. by apply listed_reports_map; [apply reports_keyed|]. }
  assert (Ht : data_times_ok (set_reports (upsert_reports (df_Reports df) inputs) df) = true).
  { unfold valid_data in Hv. zbool. apply data_times_reports; [done|]. intros r Hin.
    apply (elem_of_reports_map _ _ (ids_upsert_NoDup _ _ Hids)) in Hin. rewrite Hm in Hin.
    apply upsert_map_values in Hin as [Hin|(i & <- & Hin)%in_map_iff].
    - unfold data_times_ok in H0. zbool. rewrite forallb_forall in H0.
      apply H0, list_elem_of_In, Hr, Hin.
    - rewrite forallb_forall in Hi. by apply Hi. }
  apply wp_SaveReports; [done|..|done].
  - intros df0 H0 df' Ht' Hd. rewrite Hdf in H0. injection H0 as <-. split; [done|].
    apply (agrees_rewritten root pending f s Hag); try done.
    + by apply valid_set_reports.
    + pose proof (listed_reports _ (ids_upsert_NoDup _ inputs Hids)) as Hl. rewrite Hm in Hl. exact Hl.
    + apply (fake_ok_fields root pending f s Hag); [done|done|apply keyed_upsert, reports_keyed|apply Hag].
  - intros e s' _ H. destruct (H eq_refl df Hdf Hw Ht).
Qed.

Lemma GetAllReports_gives : exists l l',
  gives tm (Reports.GetAllReports st) (Ok l) (agrees root pending f) s /\
  (Fake.GetAllReports f).1 = Ok l' /\ l ≡ₚ l'.
Proof using Hag.
  destruct (agrees_data root pending f s Hag) as (df & Hdf & _ & Hr & _).
  exists (df_Reports df), (merge_sort Fake.report_leb (map_to_list (fs_Reports f)).*2). split_and!; [|done|].
  - eapply gives_reads; [apply reads_GetAllReports| |done]. cbv beta. by rewrite Hdf.
  - rewrite merge_sort_Permutation. by apply (listed_Permutation Tlsrpt.ReportID); [apply reports_keyed|].
Qed.

Lemma CountReportsBefore_gives cutoff :
  gives tm (Reports.CountReportsBefore st cutoff) (Fake.CountReportsBefore cutoff f).1 (agrees root pending f) s.
Proof using Hag.
  destruct (agrees_data root pending f s Hag) as (df & Hdf & _ & Hr & _).
  eapply gives_reads; [apply reads_CountReportsBefore| |done]. cbv beta. rewrite Hdf. unfold Fake.CountReportsBefore. simpl.
  f_equal. by apply (listed_count Tlsrpt.ReportID (ended_before cutoff)); [apply reports_keyed|].
Qed.

Lemma DeleteReportsBefore_gives cutoff :
  gives tm (Reports.DeleteReportsBefore st cutoff) (Fake.DeleteReportsBefore cutoff f).1
    (agrees root pending (Fake.DeleteReportsBefore cutoff f).2) s.
Proof using Hag Hmd.
  unfold Fake.DeleteReportsBefore. cbn. rewrite (fake_errors root pending f s Hag). cbn.
  destruct (agrees_data root pending f s Hag) as (df & Hdf & Hw & Hr & He).
  rewrite <- (listed_count Tlsrpt.ReportID (ended_before cutoff) _ _ reports_keyed Hr).
  pose proof (listed_rest Tlsrpt.ReportID (ended_before cutoff) _ _ Hr) as Hrest.
  set (f' := Fake.with_reports _ _).
  assert (Hok : fake_ok f').
  { apply (fake_ok_fields root pending f s Hag); [done|done| |apply Hag].
    apply (keyed_filter Tlsrpt.ReportID (ended_before cutoff) false), reports_keyed. }
  apply wp_DeleteReportsBefore; [done|..|done].
  - intros df0 H0 Hn. rewrite Hdf in H0. injection H0 as <-. split; [by rewrite Hn|].
    apply count_if_zero in Hn. rewrite filter_all in Hrest.
    2:{ intros r Hin. apply negb_true_iff. destruct (ended_before cutoff r) eqn:E; [|done].
        assert (In r []) as []. rewrite <- Hn. by apply filter_In. }
    split; [| | |done].
    + by eapply sentinel_agrees_fields; [| |apply Hag].
    + split; [apply Hw|]. by exists df.
    + by eapply files_agree_fields; [|apply Hag].
  - intros df0 H0 n Hn Hd. rewrite Hdf in H0. injection H0 as <-. split; [done|].
    apply (agrees_rewritten root pending f s Hag); try done. by apply expire_valid, (data_at_valid root s).
  - intros e s' _ H. destruct (H eq_refl df Hdf Hw).
Qed.
End report_ops.
