(* ===== verification/FakeEmails.v ===== *)
(** * The emails of the file store agree with those of the store in memory

    Each operation on the emails and their index, and the walk of [LoadEmails] over the files, against
    the one map of the store in memory. *)
From S2P Require Import Prelude GoStr GoTime GoErr.
From S2P Require Tlsrpt.
From S2P Require Import StoreTypes Fs Io AtomicFile Sentinel FileStore.
From S2P Require Import Reports Emails Recovery Reset EmailsSpec StoreProps DataProps Confine LoadSpec.
From S2P Require Import Prog Cmd System.
From S2P Require Fake.
From S2P Require Import SystemProps.
Import Fake (FakeStore, FakeEmailEntry, FakeRecovery, fs_Reports, fs_UIDValidity, fs_Recovery, fs_Emails,
  fs_PendingReset, fs_Errors, fe_UID, fe_UIDValidity, fe_InternalDate, fe_RawEML).
From S2P Require Import FakeProps.

(** ** The index of emails *)

Lemma index_lookup pending f k :
  index pending f !! k = if decide (k ∈ pending) then None else as_meta <$> fs_Emails f !! k.
Proof.
  unfold index. rewrite lookup_fmap. destruct (fs_Emails f !! k) as [e|] eqn:E.
  - case_decide as Hk; [rewrite (proj2 (map_lookup_filter_None _ _ _))|rewrite (proj2 (map_lookup_filter_Some _ _ _ e))]; try done.
    right. intros e' He' H. by apply H.
  - rewrite (proj2 (map_lookup_filter_None _ _ _)) by by left. by case_decide.
Qed.

Lemma find_key_Some k es m : NoDup (key_of <$> es) -> find_key k es = Some m <-> m ∈ es /\ key_of m = k.
Proof.
  intros Hn. induction es as [|e es IH]; [split; [done|]; by intros [?%elem_of_nil _]|].
  apply list.NoDup_cons in Hn as [He Hn]. unfold find_key. simpl. case_bool_decide as Hk.
  - split; [intros [= <-]; split; [by left|done]|]. intros [[->|Hm]%elem_of_cons Hkm]; [done|].
    destruct He. rewrite Hk, <- Hkm. by apply list_elem_of_fmap_2.
  - fold (find_key k es). rewrite (IH Hn), elem_of_cons. naive_solver.
Qed.

(** The entries of a list without duplicate keys, as a map. *)
Lemma listed_find (es : list EmailMeta) (m : gmap emailKey EmailMeta) : keyed key_of m ->
  listed key_of es m <-> NoDup (key_of <$> es) /\ forall k, find_key k es = m !! k.
Proof.
  intros Hk. split; intros [Hn He]; (split; [done|]).
  - intros k. apply option_eq. intros x. rewrite find_key_Some, He by done. split; [by intros [H <-]|].
    intros H. pose proof (Hk k x H) as <-. done.
  - intros x. rewrite <- He, find_key_Some by done. by split; [|intros []].
Qed.

Definition new_entry (meta : EmailMeta) : FakeEmailEntry :=
  {| Fake.fe_UID := UID meta; Fake.fe_UIDValidity := UIDValidity meta; Fake.fe_InternalDate := InternalDate meta;
     Fake.fe_RawEML := None |}.

(** The second loop of [SaveEmailMetas]: known emails stay, and the first meta of a new key is entered. *)
Lemma lookup_add_metas m metas k :
  foldl Fake.add_meta m metas !! k = match m !! k with Some e => Some e | None => new_entry <$> find_key k metas end.
Proof.
  revert m. induction metas as [|meta metas IH]; intros m; simpl; [by destruct (m !! k)|].
  rewrite IH. unfold Fake.add_meta, find_key. simpl. fold (find_key k metas). case_bool_decide as Hk.
  - subst k. destruct (m !! key_of meta) eqn:E; by rewrite ?E, ?lookup_insert_eq.
  - destruct (m !! key_of meta); [done|]. by rewrite lookup_insert_ne.
Qed.

Lemma find_key_in k metas m : find_key k metas = Some m -> m ∈ metas /\ key_of m = k.
Proof. unfold find_key. intros [H1 H2]%find_some. split; [by apply list_elem_of_In|by apply bool_decide_eq_true in H2]. Qed.

(** An entry the caller may make: its numbers and its date fit, and the date of an email that was
    saved before is the same. *)
Definition meta_ok (pending : gset emailKey) (f : FakeStore) (meta : EmailMeta) : Prop :=
  in_uint32 (UID meta) /\ in_uint32 (UIDValidity meta) /\ path_date (InternalDate meta) /\
  forall e, key_of meta ∈ pending -> fs_Emails f !! key_of meta = Some e -> InternalDate meta = fe_InternalDate e.

Section meta_ops.
Context (root : path).
Context (pending : gset emailKey) (f : FakeStore) (s : fs) (Hag : agrees root pending f s).

Lemma emails_ok k e : fs_Emails f !! k = Some e -> entry_ok k e.
Proof using Hag. apply Hag. Qed.

Lemma path_date_json d : path_date d -> json_time_ok d = true.
Proof. unfold path_date, json_time_ok. intros [H1 H2]. apply andb_true_iff. split; by apply Z.leb_le. Qed.

Section metas.
Context (metas : list EmailMeta) (Hok : Forall (meta_ok pending f) metas).
Local Abbreviation pending' := (pending ∖ existing_keys metas).
Local Abbreviation f' := (Fake.with_emails (foldl Fake.add_meta (fs_Emails f) metas)
                            (Fake.count_calls 1 0 0 0 0 0 0 None None f)).

Lemma index_metas k :
  index pending' f' !! k = match index pending f !! k with Some m => Some m | None => find_key k metas end.
Proof using Hag Hok.
  rewrite !index_lookup. simpl. rewrite lookup_add_metas.
  assert (Hex : k ∈ existing_keys metas <-> find_key k metas <> None).
  { rewrite find_key_None. unfold existing_keys. rewrite elem_of_list_to_set. split; [by intros H1 H2|].
    intros H. by apply dec_stable. }
  assert (Hm : as_meta <$> (new_entry <$> find_key k metas) = find_key k metas) by (by destruct (find_key k metas) as [[]|]).
  destruct (decide (k ∈ pending)) as [Hp|Hp]; destruct (find_key k metas) as [m|] eqn:Em.
  - rewrite decide_False by set_solver. destruct (fs_Emails f !! k) as [e|] eqn:Ee; [|done]. simpl. f_equal.
    apply find_key_in in Em as [Hin <-]. rewrite list.Forall_forall in Hok.
    destruct (Hok m Hin) as (_ & _ & _ & Hd).
    pose proof (Hd e Hp Ee) as Hd'. destruct (emails_ok _ _ Ee) as ([= H1 H2] & _).
    destruct m, e; simpl in *. unfold as_meta. simpl. congruence.
  - rewrite decide_True; [done|]. set_solver.
  - rewrite decide_False by set_solver. by destruct (fs_Emails f !! k).
  - rewrite decide_False by set_solver. by destruct (fs_Emails f !! k).
Qed.

Lemma entries_metas k e : fs_Emails f' !! k = Some e -> entry_ok k e.
Proof using Hag Hok.
  simpl. rewrite lookup_add_metas. destruct (fs_Emails f !! k) as [e0|] eqn:E; [intros [= <-]; by apply emails_ok|].
  destruct (find_key k metas) as [m|] eqn:Em; [|done]. intros [= <-]. apply find_key_in in Em as [Hin <-].
  rewrite list.Forall_forall in Hok. destruct (Hok m Hin) as (? & ? & ? & _). by split_and!.
Qed.

Lemma messages_metas t c : message_at f' t c <-> message_at f t c.
Proof.
  unfold message_at. simpl. setoid_rewrite lookup_add_metas. split; intros (k & e & raw & He & Hr & Ht & Hc).
  - exists k, e, raw. split_and!; [|done..]. destruct (fs_Emails f !! k) as [e0|]; [done|].
    destruct (find_key k metas); [|done]. injection He as <-. done.
  - exists k, e, raw. split_and!; [|done..]. by rewrite He.
Qed.
End metas.

Context (idn : IMAPIdentity) (md : OpenMode) (Hmd : md <> OpenReadOnly) (tm : Time).
Local Abbreviation st := (newStore root idn md).

Lemma metas_refused metas : existsb (fun meta => IsZero (InternalDate meta)) metas = true ->
  gives tm (Emails.SaveEmailMetas st metas) (Err (Sentinel ErrZeroInternalDate)) (agrees root pending f) s.
Proof using Hag Hmd.
  intros Hz. destruct (agrees_data root pending f s Hag) as (df & Hdf & _).
  assert (Hnone : add_metas (df_Emails df) (existing_keys (df_Emails df)) metas = None).
  { apply add_metas_None, Exists_exists. apply existsb_exists in Hz as (m & Hin & Hz). by exists m. }
  unfold gives, Emails.SaveEmailMetas. simpl. rewrite bool_decide_false by done.
  apply wp_bind, (reads_loadDataFile root idn md); [|done]. rewrite Hdf, Hnone. by apply wp_ret.
Qed.

Lemma metas_accepted df metas : existsb (fun meta => IsZero (InternalDate meta)) metas = false ->
  exists es, add_metas (df_Emails df) (existing_keys (df_Emails df)) metas = Some es.
Proof.
  intros Hz. destruct (add_metas (df_Emails df) (existing_keys (df_Emails df)) metas) as [es|] eqn:E; [by exists es|].
  apply add_metas_None, Exists_exists in E as (m & Hin & Hm).
  assert (existsb (fun meta => IsZero (InternalDate meta)) metas = true); [|congruence].
  apply existsb_exists. by exists m.
Qed.

Lemma metas_saved metas : Forall (meta_ok pending f) metas ->
  existsb (fun meta => IsZero (InternalDate meta)) metas = false ->
  gives tm (Emails.SaveEmailMetas st metas) (Ok tt)
    (agrees root (pending ∖ existing_keys metas)
       (Fake.with_emails (foldl Fake.add_meta (fs_Emails f) metas) (Fake.count_calls 1 0 0 0 0 0 0 None None f))) s.
Proof using Hag Hmd.
  intros Hok Hz. destruct (agrees_data root pending f s Hag) as (df & Hdf & Hw & Hr & He).
  destruct (metas_accepted df metas Hz) as [es Hes].
  destruct (add_metas_Some _ _ _ _ (knows_existing _) Hes) as (_ & Hfind & Hnd).
  apply (listed_find _ _ (index_keyed root pending f s Hag)) in He as [Hn He].
  set (f' := Fake.with_emails _ _). set (pending' := pending ∖ existing_keys metas).
  assert (Hkeyed : keyed key_of (index pending' f')).
  { intros k m. rewrite index_lookup. case_decide; [done|]. intros (e & Hke & ->)%fmap_Some.
    by destruct (entries_metas metas Hok k e Hke) as (-> & _). }
  assert (Hl : listed key_of es (index pending' f')).
  { apply listed_find; [done|]. split; [by apply Hnd|]. intros k. rewrite Hfind, He.
    symmetry. by apply index_metas. }
  assert (Ht : data_times_ok (set_emails es df) = true).
  { apply data_times_emails; [apply data_at_valid in Hdf; unfold valid_data in Hdf; by zbool|].
    intros m Hm. apply Hl in Hm. rewrite index_lookup in Hm. case_decide; [done|].
    apply fmap_Some in Hm as (e & Hke & ->). apply path_date_json.
    by destruct (entries_metas metas Hok _ e Hke) as (_ & _ & _ & ?). }
  apply (wp_SaveEmailMetas root idn md metas s false tm _ _ df); [done|done|..|done].
  - intros es0 Hes0 _ Hd. rewrite Hes in Hes0. injection Hes0 as <-. split; [done|].
    apply (agrees_rewritten root pending f s Hag); try done.
    + apply valid_set_emails; [by eapply data_at_valid|done].
    + intros t c. apply messages_metas.
    + apply (fake_ok_fields root pending f s Hag); [done|done|apply Hag|]. intros k e. by apply entries_metas.
  - intros e s' _ H. by destruct (H eq_refl es Hes Ht).
Qed.

Lemma SaveEmailMetas_gives metas : Forall (meta_ok pending f) metas ->
  gives tm (as_error (Emails.SaveEmailMetas st metas)) (Fake.SaveEmailMetas metas f).1
    (agrees root (if existsb (fun meta => IsZero (InternalDate meta)) metas then pending
                  else pending ∖ existing_keys metas) (Fake.SaveEmailMetas metas f).2) s.
Proof using Hag Hmd.
  intros Hok. unfold Fake.SaveEmailMetas. cbn. rewrite (fake_errors root pending f s Hag). cbn.
  destruct (existsb _ metas) eqn:Ez; cbn.
  2:{ eapply gives_bind with (x := Ok tt); [by apply metas_saved|done]. }
  eapply gives_bind with (x := Err (Sentinel ErrZeroInternalDate)); [|done].
  eapply wp_mono; [by apply metas_refused| |done]. intros r s' [-> H].
  split; [done|]. by eapply agrees_counted; [..|exact H].
Qed.
End meta_ops.

(** ** Saving an email *)

Lemma blocked_dir_err s p : dir_err s p = None -> ~ blocked s p.
Proof.
  intros Hd (q & u & k & c & -> & Hq & H). rewrite dir_err_None in Hd. destruct (Hd q u eq_refl Hq). congruence.
Qed.

Lemma dir_err_prefix s p u : dir_err s (p ++ u) = None -> dir_err s p = None.
Proof. intros H. destruct (dir_err s p) as [e|] eqn:E; [|done]. by apply (dir_err_app_Some s p u e) in H. Qed.

(** The directories below the emails directory are directories. *)
Lemma below_not_blocked root pending f s t :
  agrees root pending f s -> (length t < 3)%nat -> ~ blocked s (root ++ "emails" :: t).
Proof.
  intros Hag Ht (q & u & k & c & Hq & Hne & Hl). symmetry in Hq.
  pose proof (agrees_root root pending f s Hag) as Hr. rewrite dir_err_None in Hr.
  apply app_eq_app in Hq as (l & [[-> Hl']|[Hroot _]]).
  - destruct l as [|x l]; [|injection Hl' as <- Hl'].
    + rewrite app_nil_r in *. destruct (Hr root []) as [k' Hk']; [by rewrite app_nil_r|done|congruence].
    + destruct (ag_files _ _ _ _ Hag) as [[_ Hk] _]. specialize (Hk l _ Hl).
      symmetry in Hk. simpl in Hk. apply Nat.ltb_ge in Hk. apply (f_equal length) in Hl'. rewrite length_app in Hl'. lia.
  - destruct (Hr q l Hroot Hne) as [k' Hk']. congruence.
Qed.

Section email_ops.
Context (root : path).
Context (pending : gset emailKey) (f : FakeStore) (s : fs) (Hag : agrees root pending f s).
Context (uid uv : Z) (d : Time) (raw : string).
Context (Hu : in_uint32 uid) (Hv : in_uint32 uv) (Hd : path_date d).
Context (Hdate : forall e, fs_Emails f !! ((uid, uv) : emailKey) = Some e -> fe_InternalDate e = d).
Local Abbreviation rel := (email_rel_path uid uv d).
Local Abbreviation target := (buildEmailPath root uid uv d).

(** What is at the path of the email is the email. *)
Lemma message_at_rel c : message_at f rel c <->
  exists e raw0, fs_Emails f !! ((uid, uv) : emailKey) = Some e /\ fe_RawEML e = Some raw0 /\ c = Raw raw0.
Proof using Hag Hu Hv Hd Hdate.
  split.
  - intros (k & e & raw0 & Hk & Hr & Ht & Hc). pose proof (emails_ok root pending f s Hag k e Hk) as (-> & H1 & H2 & _).
    apply email_rel_path_inj in Ht as [-> ->]; [|done..]. by exists e, raw0.
  - intros (e & raw0 & Hk & Hr & Hc). exists (uid, uv), e, raw0. split_and!; [done|done| |done].
    pose proof (emails_ok root pending f s Hag _ e Hk) as ([= <- <-] & _). by rewrite (Hdate e Hk).
Qed.

Lemma tree_lookup t n : s !! (root ++ "emails" :: t) = Some n -> fs_stat s (root ++ "emails" :: t) = Ok n.
Proof using Hag.
  intros H. destruct (ag_files _ _ _ _ Hag) as [[Ht _] _]. apply fs_stat_Ok. split; [by apply (Ht t n)|done].
Qed.

(** Nothing is in the way of a new email. *)
Lemma target_free : (forall e, fs_Emails f !! ((uid, uv) : emailKey) = Some e -> fe_RawEML e = None) -> s !! target = None.
Proof using Hag Hu Hv Hd Hdate.
  intros Hno. destruct (s !! target) as [n|] eqn:E; [|done]. exfalso.
  destruct (ag_files _ _ _ _ Hag) as [[_ Hk] Hf]. pose proof (Hk rel n E) as Hn.
  destruct n as [k|k c]; [done|]. assert (Hm : message_at f rel c) by (apply Hf; by exists k).
  apply message_at_rel in Hm as (e & raw0 & He & Hr & _). rewrite (Hno e He) in Hr. done.
Qed.

Lemma email_not_blocked : ~ blocked s (email_dir root uv d).
Proof using Hag. unfold email_dir. eapply below_not_blocked; [exact Hag|simpl; lia]. Qed.

(** The tree of emails with one more. *)
Lemma stored_tree s' : s !! target = None -> email_stored root uid uv d raw s s' -> emails_tree root s'.
Proof using Hag.
  intros Hnew (s1 & [Hs1 Hn1] & Hd1 & ->). rewrite email_target in *. unfold written.
  destruct (ag_files _ _ _ _ Hag) as [[Ht Hk] _].
  assert (Hdir : forall t n, s1 !! (root ++ "emails" :: t) = Some n ->
    s !! (root ++ "emails" :: t) = Some n \/
    is_dir n = true /\ (length t < 3)%nat /\ exists u, email_dir root uv d = (root ++ "emails" :: t) ++ u).
  { intros t n H. destruct (Hn1 _ _ H) as [?|(Hdn & _ & u & Hu')]; [by left|right]. split_and!; [done| |by exists u].
    unfold email_dir in Hu'. apply (f_equal length) in Hu'. rewrite !length_app in Hu'. simpl in Hu'. lia. }
  split; intros t n H; destruct (decide (root ++ "emails" :: t = email_dir root uv d ++ [email_file uid])) as [Hq|Hne].
  - rewrite Hq, parent_app. by rewrite dir_err_insert_below.
  - rewrite lookup_insert_ne in H by congruence. destruct (Hdir t n H) as [H'|(_ & _ & u & Hu')].
    + assert (Hst : fs_stat (<[email_dir root uv d ++ [email_file uid] := File filePerm (Raw raw)]> s1) (root ++ "emails" :: t) = Ok n);
        [|by apply fs_stat_Ok in Hst as [? _]].
      apply stat_insert.
      * apply fs_stat_Ok. split; [eapply dir_err_mono; [exact Hs1|by eapply Ht]|done].
      * intros u Hu'. pose proof (tree_lookup t n H') as Hst. rewrite Hu' in Hst.
        destruct (stat_prefix _ _ _ _ Hst) as [n' Hn']; [by destruct (email_dir root uv d)|].
        apply fs_stat_Ok in Hn' as [_ Hn']. congruence.
    + rewrite dir_err_insert.
      * assert (Hp : email_dir root uv d = parent (root ++ "emails" :: t) ++ ([List.last (root ++ "emails" :: t) ""] ++ u)).
        { rewrite Hu', app_assoc. f_equal. apply app_removelast_last. by destruct root. }
        rewrite Hp in Hd1. by eapply dir_err_prefix.
      * intros v Hv'. apply (f_equal length) in Hv', Hu'. unfold parent in Hv'.
        rewrite !length_app in Hv'. rewrite length_app in Hu'.
        assert (length (removelast (root ++ "emails" :: t)) <= length (root ++ "emails" :: t))%nat.
        { rewrite (app_removelast_last (l := root ++ "emails" :: t) "") at 2 by (by destruct root). rewrite length_app. lia. }
        simpl in Hv'. lia.
  - rewrite Hq, lookup_insert_eq in H. injection H as <-. simpl. symmetry. apply Nat.ltb_ge.
    apply (f_equal length) in Hq. unfold email_dir in Hq. rewrite !length_app in Hq. simpl in Hq. lia.
  - rewrite lookup_insert_ne in H by congruence. destruct (Hdir t n H) as [H'|(-> & Hlt & _)]; [by apply Hk|].
    symmetry. by apply Nat.ltb_lt.
Qed.

(** The store in memory with the email in it. *)
Definition entry_saved : FakeEmailEntry :=
  {| Fake.fe_UID := uid; Fake.fe_UIDValidity := uv; Fake.fe_InternalDate := d; Fake.fe_RawEML := Some raw |}.

Lemma saved_in_memory : IsZero d = false ->
  Fake.SaveEmail uid uv d raw f = (None, f) /\ (exists e raw0, fs_Emails f !! ((uid, uv) : emailKey) = Some e /\ fe_RawEML e = Some raw0) \/
  Fake.SaveEmail uid uv d raw f = (None, Fake.with_emails (<[((uid, uv) : emailKey) := entry_saved]> (fs_Emails f)) f) /\
    (forall e, fs_Emails f !! ((uid, uv) : emailKey) = Some e -> fe_RawEML e = None).
Proof using Hag Hdate.
  intros Hz. unfold Fake.SaveEmail. rewrite Hz.
  destruct (fs_Emails f !! ((uid, uv) : emailKey)) as [[u v d0 [raw0|]]|] eqn:E; cbn.
  - left. split; [done|]. by eexists _, raw0.
  - right. pose proof (emails_ok root pending f s Hag _ _ E) as ([= <- <-] & _). cbn. split; [done|]. by intros e [= <-].
  - right. by split.
Qed.

Definition pending_saved : gset emailKey :=
  if decide (is_Some (fs_Emails f !! ((uid, uv) : emailKey))) then pending else {[(uid, uv)]} ∪ pending.

Local Abbreviation f' := (Fake.with_emails (<[((uid, uv) : emailKey) := entry_saved]> (fs_Emails f)) f).

(** The index is as it was. *)
Lemma index_saved : index pending_saved f' = index pending f.
Proof using Hag Hdate.
  clear Hu Hv Hd. apply map_eq. intros k. rewrite !index_lookup. simpl. unfold pending_saved.
  destruct (decide (k = (uid, uv))) as [->|Hne].
  - rewrite lookup_insert_eq. destruct (fs_Emails f !! ((uid, uv) : emailKey)) as [e|] eqn:E; cbn.
    + rewrite (decide_True (P := is_Some (Some e))) by by eexists. case_decide; [done|]. f_equal.
      pose proof (emails_ok root pending f s Hag _ _ E) as ([= H1 H2] & _). pose proof (Hdate e eq_refl) as H3.
      unfold as_meta. simpl. by rewrite <- H1, <- H2, H3.
    + rewrite (decide_False (P := is_Some None)) by by intros []. rewrite decide_True by set_solver. by case_decide.
  - rewrite lookup_insert_ne by done. repeat case_decide; set_solver.
Qed.

(** And so are the other messages. *)
Lemma messages_saved t c : (forall e, fs_Emails f !! ((uid, uv) : emailKey) = Some e -> fe_RawEML e = None) ->
  message_at f' t c <-> message_at f t c \/ t = rel /\ c = Raw raw.
Proof.
  intros Hno. unfold message_at. simpl. split.
  - intros (k & e & raw0 & Hk & Hr & Ht & Hc). destruct (decide (k = (uid, uv))) as [->|Hne].
    + rewrite lookup_insert_eq in Hk. injection Hk as <-. injection Hr as <-. by right.
    + rewrite lookup_insert_ne in Hk by done. left. by exists k, e, raw0.
  - intros [(k & e & raw0 & Hk & Hr & Ht & Hc)|[-> ->]].
    + exists k, e, raw0. split_and!; [|done..]. rewrite lookup_insert_ne; [done|]. intros <-.
      by rewrite (Hno e Hk) in Hr.
    + exists (uid, uv), entry_saved, raw. by rewrite lookup_insert_eq.
Qed.

(** The file of a new email is the one change. *)
Lemma agrees_stored s' :
  (forall e, fs_Emails f !! ((uid, uv) : emailKey) = Some e -> fe_RawEML e = None) -> email_stored root uid uv d raw s s' ->
  agrees root pending_saved f' s'.
Proof using Hag Hu Hv Hd Hdate.
  intros Hno Hst. pose proof (target_free Hno) as Hnew.
  pose proof (stored_only root uid uv d raw s s' (agrees_root root pending f s Hag) Hst) as Ho.
  pose proof (stored_tree s' Hnew Hst) as Htree.
  split.
  - eapply sentinel_agrees_fields; [| |eapply frame_sentinel; [exact Ho|name_ne..|apply Hag]]; done.
  - destruct (frame_data root _ _ _ Ho pending f) as [Hn Hdf]; [name_ne|apply Hag|]. split; [done|].
    by rewrite index_saved.
  - split; [done|]. intros t c. rewrite messages_saved by done. destruct (ag_files _ _ _ _ Hag) as [_ Hf].
    rewrite <- (Hf t c).
    assert (Hs' : forall k, s' !! (root ++ "emails" :: t) = Some (File k c) <->
      s !! (root ++ "emails" :: t) = Some (File k c) \/ t = rel /\ k = filePerm /\ c = Raw raw).
    { intros k. pose proof (stored_stat root uid uv d raw s s' Hnew Hst (root ++ "emails" :: t) k c (tree_lookup t)) as Hx.
      assert (Hq : root ++ "emails" :: t = target <-> t = rel).
      { unfold buildEmailPath. split; [intros H%app_inv_head; congruence|by intros ->]. }
      rewrite Hq in Hx. split.
      - intros H. assert (H1 : fs_stat s' (root ++ "emails" :: t) = Ok (File k c)).
        { apply fs_stat_Ok. split; [by eapply Htree|done]. }
        apply Hx in H1 as [[_ H1]%fs_stat_Ok|H1]; [by left|by right].
      - intros H. assert (H1 : fs_stat s' (root ++ "emails" :: t) = Ok (File k c)).
        { apply Hx. destruct H as [H|H]; [left; by apply tree_lookup|by right]. }
        by apply fs_stat_Ok in H1 as [_ H1]. }
    setoid_rewrite Hs'. split; [intros (k & [H|(H1 & _ & H2)]); [left; by exists k|by right]|].
    intros [[k H]|[H1 H2]]; [exists k; by left|exists filePerm; by right].
  - apply (fake_ok_fields root pending f s Hag); [done|done|apply Hag|]. intros k e. simpl.
    destruct (decide (k = (uid, uv))) as [->|Hne].
    + rewrite lookup_insert_eq. by intros [= <-].
    + rewrite lookup_insert_ne by done. by apply (emails_ok root pending f s Hag).
Qed.

Context (idn : IMAPIdentity) (md : OpenMode) (Hmd : md <> OpenReadOnly) (tm : Time).
Local Abbreviation st := (newStore root idn md).

Lemma SaveEmail_gives :
  gives tm (as_error (Emails.SaveEmail st uid uv d raw)) (Fake.SaveEmail uid uv d raw f).1
    (agrees root (if IsZero d then pending else pending_saved) (Fake.SaveEmail uid uv d raw f).2) s.
Proof using Hag Hu Hv Hd Hdate Hmd.
  destruct (IsZero d) eqn:Ez.
  { unfold Fake.SaveEmail, Emails.SaveEmail. rewrite Ez. simpl. rewrite bool_decide_false by done.
    apply wp_bind, wp_ret, wp_ret. by split. }
  assert (Hfile : forall n, fs_stat s target = Ok n -> is_dir n = false).
  { intros n [_ Hn]%fs_stat_Ok. destruct (ag_files _ _ _ _ Hag) as [[_ Hk] _]. by apply (Hk rel n). }
  assert (Herr : blocked s (email_dir root uv d) \/ is_dir_at s target -> False).
  { intros [?|[k Hk]]; [by apply email_not_blocked|]. apply (tree_lookup rel), Hfile in Hk. done. }
  destruct (saved_in_memory Ez) as [[-> (e & raw0 & He & Hr)]|[-> Hno]]; simpl;
    (eapply gives_bind with (x := Ok tt); [|done]); apply wp_SaveEmail; try done.
  - intros _. split; [done|]. unfold pending_saved. rewrite decide_True by (by exists e). exact Hag.
  - intros s' Hx _. exfalso. assert (Hm : message_at f rel (Raw raw0)) by (apply message_at_rel; by exists e, raw0).
    destruct (ag_files _ _ _ _ Hag) as [_ Hf]. apply Hf in Hm as [k Hk]. apply tree_lookup in Hk.
    unfold buildEmailPath in Hx. congruence.
  - intros e' s' _ H. destruct Herr. by apply H.
  - intros (n & [_ Hn]%fs_stat_Ok & _). rewrite target_free in Hn by done. done.
  - intros s' _ Hst. split; [done|]. by apply agrees_stored.
  - intros e' s' _ H. destruct Herr. by apply H.
Qed.
End email_ops.

(** ** Deleting emails *)

(** No deletion takes a directory away from what is in it. *)
Definition emails_closed (root : path) (s : fs) : Prop :=
  dir_err s root = None /\
  forall t n, s !! (root ++ "emails" :: t) = Some n -> dir_err s (parent (root ++ "emails" :: t)) = None.

Lemma parent_snoc (p : path) u q : q <> [] -> parent q = p ++ u -> q = p ++ u ++ [List.last q ""].
Proof. intros Hq H. rewrite app_assoc, <- H. by apply app_removelast_last. Qed.

Lemma closed_remove root t s : emails_closed root s -> emails_closed root (fs_remove (root ++ "emails" :: t) s).2.
Proof.
  intros [Hd Hc]. set (p := root ++ "emails" :: t).
  assert (Hdel : forall n, s !! p = Some n -> (forall k, n = Dir k -> children s p = []) -> emails_closed root (delete p s)).
  { intros n Hn Hch. split; [unfold p; by rewrite dir_err_delete_below|]. intros t' n' H.
    apply lookup_delete_Some in H as [Hne H]. pose proof (Hc t' n' H) as Hdir.
    rewrite dir_err_delete; [done|]. intros u Hu. rewrite dir_err_None in Hdir.
    destruct (Hdir p u Hu) as [k Hk]; [unfold p; by destruct root|]. rewrite Hn in Hk. injection Hk as ->.
    apply parent_snoc in Hu; [|by destruct root]. specialize (Hch k eq_refl).
    assert (Hx : exists x, is_Some (s !! (p ++ [x]))).
    { destruct u as [|x u]; [exists (List.last (root ++ "emails" :: t') ""); simpl in Hu; rewrite <- Hu; by eexists|].
      exists x. destruct (Hdir (p ++ [x]) u) as [k' Hk']; [|by destruct p|by eexists].
      rewrite Hu at 1. unfold parent. rewrite app_assoc, removelast_last. by rewrite <- app_assoc. }
    destruct Hx as [x Hx]. apply elem_of_children in Hx. rewrite Hch in Hx. by apply elem_of_nil in Hx. }
  unfold fs_remove. destruct (fs_stat s p) as [[k|k c]|e] eqn:E; [| |done].
  - apply fs_stat_Ok in E as [_ E]. destruct (children s p) eqn:Ech; [|done]. simpl. by apply (Hdel (Dir k)).
  - apply fs_stat_Ok in E as [_ E]. simpl. by apply (Hdel (File k c)).
Qed.

Section delete_ops.
Context (root : path) (idn : IMAPIdentity) (md : OpenMode).
Local Abbreviation st := (newStore root idn md).

Lemma preserves_closed_remove t : preserves (emails_closed root) (sys_remove (root ++ "emails" :: t)).
Proof. apply preserves_prim; [intros s; apply closed_remove|done]. Qed.

Lemma preserves_closed_loop cutoff es a : preserves (emails_closed root) (delete_loop root cutoff es a).
Proof.
  revert a. induction es as [|e es IH]; intros a; cbn [delete_loop]; [apply preserves_ret|].
  destruct (negb _); [apply IH|].
  apply preserves_bind; [apply preserves_closed_remove|]. intros [[]|err]; [apply IH|]. destruct (negb _); apply IH.
Qed.

Lemma preserves_closed_empty (dirs : list path) :
  (forall p, p ∈ dirs -> exists t, p = root ++ "emails" :: t) -> preserves (emails_closed root) (remove_empty dirs).
Proof.
  intros Hp. induction dirs as [|p dirs IH]; cbn [remove_empty]; [apply preserves_ret|].
  destruct (Hp p) as [t ->]; [by left|]. assert (Hrest : preserves (emails_closed root) (remove_empty dirs)).
  { apply IH. intros q Hq. apply Hp. by right. }
  apply preserves_bind; [apply preserves_read|]. intros [[|x l]|e]; [|done|done].
  apply preserves_bind; [apply preserves_closed_remove|]. by intros _.
Qed.

Lemma preserves_closed_DeleteEmailsBefore cutoff : preserves (emails_closed root) (Emails.DeleteEmailsBefore st cutoff).
Proof.
  assert (Hsave : forall df, preserves (emails_closed root) (saveDataFile st df)).
  { intros df. apply (confined_preserves root not_email); [by intros s []| |
      by apply confined_saveDataFile; [|apply tmp_not_email]].
    intros s s' Ho [Hd Hc]. split; [by rewrite (only_dir_err _ _ _ _ Ho)|]. intros t n H.
    assert (Hn : ~ not_email "emails") by by intros [].
    rewrite (only_lookup _ _ _ _ _ _ Ho) in H by done.
    assert (Hs : fs_stat s (root ++ "emails" :: t) = Ok n) by (apply fs_stat_Ok; split; [by eapply Hc|done]).
    rewrite <- (fs_stat_only root not_email s s' "emails" t Ho Hn) in Hs. by apply fs_stat_Ok in Hs as [Hs _]. }
  assert (Hdirs : forall gc p, p ∈ mm_dirs (emailsPath root) gc \/ p ∈ uv_dirs (emailsPath root) gc ->
    exists t, p = root ++ "emails" :: t).
  { intros gc p [Hp|Hp]; unfold mm_dirs, uv_dirs in Hp; rewrite elem_of_remove_dups, list_elem_of_In in Hp;
      apply in_map_iff in Hp as (e & <- & _); eexists; unfold emailsPath; by rewrite <- app_assoc. }
  unfold Emails.DeleteEmailsBefore. destruct (readOnly st); [apply preserves_ret|].
  destruct (IsZero cutoff); [apply preserves_ret|].
  apply preserves_bind; [apply preserves_loadDataFile|]. intros [df|e]; [|apply preserves_ret].
  apply preserves_bind; [apply preserves_closed_loop|]. intros a. destruct (_ =? 0); [apply preserves_ret|].
  apply preserves_bind; [apply Hsave|]. intros [[]|e]; [|apply preserves_ret].
  apply preserves_bind; [|intros; apply preserves_ret]. unfold cleanupEmptyDirs.
  apply preserves_bind; [|intros _]; apply preserves_closed_empty; intros p Hp; eapply Hdirs; [by left|by right].
Qed.
End delete_ops.

(** The emails that are not indexed yet are not before the cutoff. *)
Definition pending_young (pending : gset emailKey) (f : FakeStore) (cutoff : Time) : Prop :=
  forall k e, k ∈ pending -> fs_Emails f !! k = Some e -> Fake.fe_expired cutoff e = false.

Section expire_ops.
Context (root : path).
Context (pending : gset emailKey) (f : FakeStore) (s : fs) (Hag : agrees root pending f s).
Context (cutoff : Time) (Hyoung : pending_young pending f cutoff).
Local Abbreviation f' :=
  (Fake.with_emails (filter (fun ke => Fake.fe_expired cutoff ke.2 = false) (fs_Emails f))
     (Fake.count_calls 0 0 0 0 1 0 0 None (Some cutoff) f)).

Lemma index_expired :
  size (filter (fun km => expired cutoff km.2 = true) (index pending f)) =
  size (filter (fun ke => Fake.fe_expired cutoff ke.2 = true) (fs_Emails f)).
Proof using Hyoung.
  rewrite <- (map_size_fmap as_meta (filter _ (fs_Emails f))). f_equal.
  apply map_eq. intros k. apply option_eq. intros m.
  rewrite map_lookup_filter_Some, lookup_fmap, index_lookup, fmap_Some. split.
  - case_decide; [by intros [? _]|]. intros [(e & He & ->)%fmap_Some Hx]. exists e.
    split; [|done]. by apply map_lookup_filter_Some.
  - intros (e & [He Hx]%map_lookup_filter_Some & ->). split; [|done]. simpl in Hx.
    rewrite decide_False, He; [done|]. intros Hk. by rewrite (Hyoung k e Hk He) in Hx.
Qed.

Lemma index_rest : filter (fun km => expired cutoff km.2 = false) (index pending f) = index pending f'.
Proof using Hyoung.
  apply map_eq. intros k. apply option_eq. intros m.
  rewrite map_lookup_filter_Some, !index_lookup. simpl. case_decide; [naive_solver|]. rewrite !fmap_Some. split.
  - intros [(e & He & ->) Hx]. exists e. split; [|done]. by apply map_lookup_filter_Some.
  - intros (e & [He Hx]%map_lookup_filter_Some & ->). split; [by exists e|done].
Qed.

(** An expired email is in the index. *)
Lemma expired_indexed df k e : listed key_of (df_Emails df) (index pending f) ->
  fs_Emails f !! k = Some e -> Fake.fe_expired cutoff e = true -> as_meta e ∈ df_Emails df /\ key_of (as_meta e) = k.
Proof using Hag Hyoung.
  intros Hl He Hx. pose proof (emails_ok root pending f s Hag k e He) as (-> & _). split; [|done].
  apply Hl. rewrite index_lookup. change (key_of (as_meta e)) with ((fe_UID e, fe_UIDValidity e) : emailKey).
  rewrite He, decide_False; [done|]. intros Hk. by rewrite (Hyoung _ e Hk He) in Hx.
Qed.

Lemma indexed_entry df m : listed key_of (df_Emails df) (index pending f) -> m ∈ df_Emails df ->
  exists e, fs_Emails f !! key_of m = Some e /\ m = as_meta e.
Proof.
  intros Hl Hm. apply Hl in Hm. rewrite index_lookup in Hm. case_decide; [done|]. apply fmap_Some in Hm. done.
Qed.

(** Nothing but files is where emails are. *)
Lemma entries_removable df m : listed key_of (df_Emails df) (index pending f) -> m ∈ df_Emails df -> removable root s m.
Proof using Hag.
  intros Hl Hm. unfold removable. destruct (fs_stat s (entry_path root m)) as [n|err] eqn:E.
  - apply fs_stat_Ok in E as [_ E]. destruct (ag_files _ _ _ _ Hag) as [[_ Hk] _].
    unfold entry_path, buildEmailPath in E. by apply Hk in E.
  - unfold fs_stat in E. rewrite entry_path_parent in E. fold (email_dir root (UIDValidity m) (InternalDate m)) in E.
    destruct (dir_err s _) as [e|] eqn:Ed.
    + injection E as <-. apply dir_err_Some in Ed as [->|[_ Hb]]; [done|].
      by apply (email_not_blocked root pending f s Hag) in Hb.
    + destruct (s !! _); [done|]. by injection E as <-.
Qed.

(** The files that are left are those of the emails that are left. *)
Section left_over.
Context (df df' : internalDataFile) (s' : fs) (Hl : listed key_of (df_Emails df) (index pending f)).
Context (Ho : delete_outcome root cutoff df df' s s').
Context (Hdf' : df' = set_emails (List.filter (fun e => negb (expired cutoff e)) (df_Emails df)) df).
Context (Hclosed : emails_closed root s').

Lemma left_file t c : (exists k, s' !! (root ++ "emails" :: t) = Some (File k c)) -> message_at f' t c.
Proof using Hag Hyoung Hl Ho Hdf' Hclosed.
  intros [k H]. destruct (ag_files _ _ _ _ Hag) as [_ Hf]. pose proof (do_kept _ _ _ _ _ _ Ho _ _ H) as Hs.
  destruct (proj1 (Hf t c)) as (key & e & raw & He & Hr & -> & ->); [by exists k|].
  exists key, e, raw. split_and!; [|done..]. apply map_lookup_filter_Some. split; [done|]. simpl.
  destruct (Fake.fe_expired cutoff e) eqn:Ex; [|done]. exfalso.
  destruct (expired_indexed df key e Hl He Ex) as [Hin _].
  destruct (do_gone _ _ _ _ _ _ Ho (as_meta e) Hin) as [_ Ha].
  { rewrite Hdf'. simpl. intros [_ Hx]%list_elem_of_In%filter_In.
    change (expired cutoff (as_meta e)) with (Fake.fe_expired cutoff e) in Hx. by rewrite Ex in Hx. }
  apply (Ha (File k (Raw raw))), fs_stat_Ok. split; [by eapply Hclosed|done].
Qed.

Lemma left_message t c : message_at f' t c -> exists k, s' !! (root ++ "emails" :: t) = Some (File k c).
Proof using Hag Hl Ho.
  intros (key & e & raw & [He Hx]%map_lookup_filter_Some & Hr & -> & ->). simpl in Hx.
  destruct (ag_files _ _ _ _ Hag) as [_ Hf].
  destruct (proj2 (Hf (email_rel_path (fe_UID e) (fe_UIDValidity e) (fe_InternalDate e)) (Raw raw))) as [k Hs];
    [by exists key, e, raw|]. exists k. rewrite <- Hs. apply (do_files _ _ _ _ _ _ Ho).
  - intros (m & Hm & Hmx & Hp). destruct (indexed_entry df m Hl Hm) as (e' & He' & ->).
    unfold entry_path, buildEmailPath in Hp. apply app_inv_head in Hp.
    assert (Hrel : email_rel_path (fe_UID e) (fe_UIDValidity e) (fe_InternalDate e) =
      email_rel_path (fe_UID e') (fe_UIDValidity e') (fe_InternalDate e')) by by apply (f_equal (@tail string)) in Hp.
    pose proof (emails_ok root pending f s Hag _ _ He) as (-> & H1 & H2 & _).
    pose proof (emails_ok root pending f s Hag _ _ He') as (_ & H3 & H4 & _).
    apply email_rel_path_inj in Hrel as [Hu Hv]; [|done..].
    change (key_of (as_meta e')) with ((fe_UID e', fe_UIDValidity e') : emailKey) in He'.
    rewrite <- Hu, <- Hv, He in He'. injection He' as <-.
    change (expired cutoff (as_meta e)) with (Fake.fe_expired cutoff e) in Hmx. congruence.
  - intros (m & _ & [Hp|Hp]); apply (f_equal length) in Hp; rewrite !length_app in Hp; simpl in Hp; lia.
Qed.

Lemma files_expired : files_agree root f' s'.
Proof using Hag Hyoung Hl Ho Hdf' Hclosed.
  destruct (ag_files _ _ _ _ Hag) as [[_ Hk] _]. split; [split; [apply Hclosed|]|].
  - intros t n H. eapply Hk, do_kept; [exact Ho|exact H].
  - split; [apply left_file|apply left_message].
Qed.
End left_over.

Lemma agrees_closed : emails_closed root s.
Proof using Hag. split; [by apply (agrees_root root pending f s)|]. apply Hag. Qed.

Context (idn : IMAPIdentity) (md : OpenMode) (Hmd : md <> OpenReadOnly) (tm : Time).
Local Abbreviation st := (newStore root idn md).

Lemma CountEmailsBefore_gives :
  gives tm (Emails.CountEmailsBefore st cutoff) (Fake.CountEmailsBefore cutoff f).1 (agrees root pending f) s.
Proof using Hag Hyoung.
  unfold Emails.CountEmailsBefore, Fake.CountEmailsBefore. destruct (IsZero cutoff); [by apply wp_ret|].
  destruct (agrees_data root pending f s Hag) as (df & Hdf & _ & _ & He).
  apply wp_bind, (reads_loadDataFile root idn md); [|done]. rewrite Hdf. apply wp_ret. split; [|done]. simpl.
  rewrite foldl_count, Z.add_0_l, <- index_expired.
  f_equal. apply (listed_count key_of (expired cutoff)); [by apply (index_keyed root pending f s)|done].
Qed.

Lemma DeleteEmailsBefore_gives : IsZero cutoff = false ->
  gives tm (let! r := Emails.DeleteEmailsBefore st cutoff in
            ret (match r.2 with None => Ok r.1 | Some e => Err e end))
    (Fake.DeleteEmailsBefore cutoff f).1 (agrees root pending (Fake.DeleteEmailsBefore cutoff f).2) s.
Proof using Hag Hyoung Hmd.
  intros Hz. unfold Fake.DeleteEmailsBefore. cbn. rewrite (fake_errors root pending f s Hag). cbn.
  destruct (agrees_data root pending f s Hag) as (df & Hdf & Hw & Hr & He).
  set (names := fun d => d = "emails" \/ d = "tlsrpt.json" \/ tmp_entry d).
  assert (Hc : confined root names (Emails.DeleteEmailsBefore st cutoff)).
  { apply confined_DeleteEmailsBefore; [by right; right|by left|by right; left]. }
  apply (gives_bind _ _ _ (count_if (expired cutoff) (df_Emails df), None)).
  2:{ simpl. rewrite <- index_expired.
      by rewrite (listed_count key_of (expired cutoff) _ _ (index_keyed root pending f s Hag) He). }
  eapply wp_mono; [apply io_wp_and; [apply io_wp_and|]| |done].
  - by apply Hc, (agrees_root root pending f s).
  - apply preserves_closed_DeleteEmailsBefore, agrees_closed.
  - apply (wp_DeleteEmailsBefore root cutoff idn md df s false tm
      (fun r s' => r = (count_if (expired cutoff) (df_Emails df), None) /\ exists df',
         df' = set_emails (List.filter (fun e => negb (expired cutoff e)) (df_Emails df)) df /\
         delete_outcome root cutoff df df' s s') (fun _ => True)); [done|done|apply Hw|done| |done].
    intros r df' s' Ho Hex. destruct Hex as [-> Hdf']; [done| |done|split; [done|by exists df']].
    intros m Hm _. by apply (entries_removable df).
  - intros r s' [[Hon Hcl] [-> (df' & Hdf' & Ho)]]. split; [done|].
    assert (Hn : forall d, names d -> d <> guardFilename /\ d <> manifestFilename /\ d <> sentinelFilename).
    { intros d [->|[->|Ht]]; [done|done|]. split_and!; intros ->; discriminate Ht. }
    split.
    + eapply sentinel_agrees_fields; [| |eapply frame_sentinel; [exact Hon| | | |apply Hag]]; try done;
        intros Hx; by apply Hn in Hx as (? & ? & ?).
    + pose proof (do_index _ _ _ _ _ _ Ho) as Hi. split.
      * intros [k Hk]. unfold data_at, fs_read_file in Hi.
        assert (Hs : fs_stat s' (dataFilePath root) = Ok (Dir k)).
        { apply fs_stat_Ok. unfold dataFilePath. rewrite parent_app. split; [apply Hcl|done]. }
        by rewrite Hs in Hi.
      * exists df'. split; [done|]. rewrite Hdf'. simpl. split; [done|].
        rewrite <- index_rest. by apply (listed_rest key_of (expired cutoff)).
    + by apply (files_expired df df').
    + apply (fake_ok_fields root pending f s Hag); [done|done|apply Hag|].
      intros k e [Hk _]%map_lookup_filter_Some. by apply (emails_ok root pending f s Hag).
Qed.
End expire_ops.

(** ** Loading emails *)

Lemma lookup_dates (es : list EmailMeta) (m : gmap emailKey Time) k : NoDup (key_of <$> es) ->
  foldl (fun m e => <[key_of e := InternalDate e]> m) m es !! k =
    match find_key k es with Some e => Some (InternalDate e) | None => m !! k end.
Proof.
  revert m. induction es as [|e es IH]; intros m Hn; [done|]. apply list.NoDup_cons in Hn as [He Hn]. simpl.
  rewrite IH by done. unfold find_key. simpl. fold (find_key k es). case_bool_decide as Hk.
  - subst k. rewrite (proj2 (find_key_None _ _) He). apply lookup_insert_eq.
  - destruct (find_key k es); [done|]. by rewrite lookup_insert_ne.
Qed.

Lemma NoDup_omap {A B} (g : A -> option B) (l : list A) :
  (forall x y z, x ∈ l -> y ∈ l -> g x = Some z -> g y = Some z -> x = y) -> NoDup l -> NoDup (omap g l).
Proof.
  intros Hg. induction l as [|x l IH]; [by intros; constructor|]. intros [Hx Hl]%list.NoDup_cons. simpl.
  assert (Hrest : NoDup (omap g l)).
  { apply IH; [|done]. intros a b z Ha Hb. apply Hg; by right. }
  destruct (g x) as [z|] eqn:E; [|done]. constructor; [|done].
  intros (y & Hy & Ey)%list_elem_of_omap. assert (x = y) as -> by (eapply Hg; [by left|by right|done|done]). done.
Qed.

Lemma omap_fmap {A B C} (g : B -> option C) (h : A -> B) (l : list A) : omap g (h <$> l) = omap (fun x => g (h x)) l.
Proof.
  induction l as [|x l IH]; [done|]. cbn. destruct (g (h x)); [f_equal|]; exact IH.
Qed.

Section load_ops.
Context (root : path) (idn : IMAPIdentity) (md : OpenMode) (tm : Time).
Context (f : FakeStore) (s : fs) (Hag : agrees root ∅ f s).
Context {Message : Type} (ReadMessage : string -> result Message) (json_text : content -> string).
Local Abbreviation st := (newStore root idn md).
Local Abbreviation read := (fun c => ReadMessage (text json_text c)).
Local Abbreviation entries := ((map_to_list (fs_Emails f)).*2).

Lemma elem_of_values e : e ∈ entries <-> exists k, fs_Emails f !! k = Some e.
Proof.
  rewrite list_elem_of_fmap. split.
  - intros ([k e'] & -> & H%elem_of_map_to_list). by exists k.
  - intros [k H]. exists (k, e). split; [done|]. by apply elem_of_map_to_list.
Qed.

Lemma same_path k e k' e' : fs_Emails f !! k = Some e -> fs_Emails f !! k' = Some e' ->
  fe_UID e = fe_UID e' -> fe_UIDValidity e = fe_UIDValidity e' -> e = e'.
Proof using Hag.
  intros H1 H2 Hu Hv. pose proof (emails_ok root ∅ f s Hag _ _ H1) as (-> & _).
  pose proof (emails_ok root ∅ f s Hag _ _ H2) as (-> & _). rewrite <- Hu, <- Hv in H2. congruence.
Qed.

Lemma dates_indexed k e : fs_Emails f !! k = Some e ->
  indexed_dates root s !! (fe_UID e, fe_UIDValidity e) = Some (fe_InternalDate e).
Proof using Hag.
  intros He. pose proof (emails_ok root ∅ f s Hag _ _ He) as (Hk & _).
  change (indexed_dates root s !! ((fe_UID e, fe_UIDValidity e) : emailKey) = Some (fe_InternalDate e)). rewrite <- Hk. destruct (agrees_data root ∅ f s Hag) as (df & Hdf & _ & _ & Hl). unfold indexed_dates. rewrite Hdf.
  rewrite lookup_dates by apply Hl. apply (listed_find _ _ (index_keyed root ∅ f s Hag)) in Hl as [_ Hl].
  rewrite Hl, index_lookup, decide_False by set_solver. by rewrite He.
Qed.

(** The email of an entry. *)
Lemma email_entry m : email_at root read s m <->
  exists k e, fs_Emails f !! k = Some e /\ Fake.fake_outcome ReadMessage e = Some (inl m).
Proof using Hag.
  destruct (ag_files _ _ _ _ Hag) as [_ Hf].
  assert (Hp : forall t, emailsPath root ++ t = root ++ "emails" :: t) by (intros; unfold emailsPath; by rewrite <- app_assoc).
  unfold email_at. rewrite Hp. split.
  - intros (k & c & Hs & _ & He & Hm). apply fs_stat_Ok in Hs as [_ Hs].
    destruct (proj1 (Hf (le_Path m) c)) as (key & e & raw & Hk & Hr & Ht & ->); [by exists k|].
    pose proof (emails_ok root ∅ f s Hag _ _ Hk) as (-> & Hu & Hv & Hd).
    rewrite Ht, email_of_built_path, (dates_indexed _ _ Hk) in He by done. simpl in He, Hm.
    exists (fe_UID e, fe_UIDValidity e), e. split; [done|]. unfold Fake.fake_outcome. rewrite Hr, Hm.
    destruct m; simpl in *. congruence.
  - intros (key & e & Hk & Ho). unfold Fake.fake_outcome in Ho. destruct (fe_RawEML e) as [raw|] eqn:Hr; [|done].
    destruct (ReadMessage raw) as [msg|err] eqn:Hm; [|done]. injection Ho as <-.
    cbn [le_Path le_UID le_UIDValidity le_InternalDate le_Message].
    pose proof (emails_ok root ∅ f s Hag _ _ Hk) as (-> & Hu & Hv & Hd).
    destruct (proj2 (Hf (email_rel_path (fe_UID e) (fe_UIDValidity e) (fe_InternalDate e)) (Raw raw))) as [k Hs];
      [by exists (fe_UID e, fe_UIDValidity e), e, raw|].
    exists k, (Raw raw). split_and!; [by apply (tree_lookup root ∅ f s Hag)| | |done].
    + fold (buildEmailPath root (fe_UID e) (fe_UIDValidity e) (fe_InternalDate e)).
      unfold base. rewrite email_target, last_last. apply Ext_eml.
    + by rewrite email_of_built_path, (dates_indexed _ _ Hk).
Qed.

Lemma agrees_can_load : can_load root s.
Proof using Hag.
  pose proof (agrees_root root ∅ f s Hag) as Hr. destruct (ag_files _ _ _ _ Hag) as [[_ Hk] _].
  unfold can_load, emailsPath. rewrite fs_stat_ok, dir_err_app by done.
  destruct (s !! (root ++ ["emails"])) as [n|] eqn:E; [left|by right]. split; [done|].
  specialize (Hk [] n E). destruct n as [k|]; [by exists k|done].
Qed.

(** Whether something does not load. *)
Lemma same_failures :
  (forall t k c, fs_stat s (emailsPath root ++ t) = Ok (File k c) -> Ext (base (emailsPath root ++ t)) = ".eml" ->
     exists m, email_at root read s m /\ le_Path m = t) <->
  forall k e err, fs_Emails f !! k = Some e -> Fake.fake_outcome ReadMessage e <> Some (inr err).
Proof using Hag.
  destruct (ag_files _ _ _ _ Hag) as [_ Hf].
  assert (Hp : forall t, emailsPath root ++ t = root ++ "emails" :: t) by (intros; unfold emailsPath; by rewrite <- app_assoc).
  setoid_rewrite Hp. setoid_rewrite email_entry. split.
  - intros H k e err Hk Ho. unfold Fake.fake_outcome in Ho. destruct (fe_RawEML e) as [raw|] eqn:Hr; [|done].
    pose proof (emails_ok root ∅ f s Hag _ _ Hk) as (_ & Hu & Hv & _).
    destruct (proj2 (Hf (email_rel_path (fe_UID e) (fe_UIDValidity e) (fe_InternalDate e)) (Raw raw))) as [k' Hs];
      [by exists k, e, raw|].
    destruct (H _ k' (Raw raw) (tree_lookup root ∅ f s Hag _ _ Hs)) as (m & (k2 & e2 & Hk2 & Ho2) & Hpath).
    { fold (buildEmailPath root (fe_UID e) (fe_UIDValidity e) (fe_InternalDate e)).
      unfold base. rewrite email_target, last_last. apply Ext_eml. }
    unfold Fake.fake_outcome in Ho2. destruct (fe_RawEML e2) as [raw2|] eqn:Hr2; [|done].
    destruct (ReadMessage raw2) as [msg|] eqn:Hm; [|done]. injection Ho2 as <-. simpl in Hpath.
    pose proof (emails_ok root ∅ f s Hag _ _ Hk2) as (_ & Hu2 & Hv2 & _).
    apply email_rel_path_inj in Hpath as [Hu3 Hv3]; [|done..].
    rewrite (same_path _ _ _ _ Hk2 Hk Hu3 Hv3) in Hr2. rewrite Hr in Hr2. injection Hr2 as ->. by rewrite Hm in Ho.
  - intros H t k c Hs _. apply fs_stat_Ok in Hs as [_ Hs].
    destruct (proj1 (Hf t c)) as (key & e & raw & Hk & Hr & -> & _); [by exists k|].
    specialize (H key e). unfold Fake.fake_outcome in H. rewrite Hr in H.
    destruct (ReadMessage raw) as [msg|err] eqn:Hm; [|by destruct (H _ Hk eq_refl)].
    eexists. split; [exists key, e; split; [done|]; unfold Fake.fake_outcome; by rewrite Hr, Hm|done].
Qed.

Lemma NoDup_loaded_entries :
  NoDup (omap (fun o : option (@LoadedEmail Message + goerr) => match o with Some (inl m) => Some m | _ => None end)
           (Fake.fake_outcome ReadMessage <$> entries)).
Proof using Hag.
  rewrite omap_fmap. apply NoDup_omap.
  - intros e e' m [k Hk]%elem_of_values [k' Hk']%elem_of_values Ho Ho'. simpl in Ho, Ho'.
    eapply same_path; [exact Hk|exact Hk'|..]; unfold Fake.fake_outcome in *;
      destruct (fe_RawEML e) as [raw|]; try done; destruct (fe_RawEML e') as [raw'|]; try done;
      destruct (ReadMessage raw); try done; destruct (ReadMessage raw'); try done; congruence.
  - apply (NoDup_fmap_1 (fun e => (fe_UID e, fe_UIDValidity e))).
    assert (Heq : (fun e => (fe_UID e, fe_UIDValidity e)) <$> entries = (map_to_list (fs_Emails f)).*1).
    { rewrite <- list_fmap_compose. apply list_fmap_ext. intros i [k e] Hi. simpl.
      assert (Hk : fs_Emails f !! k = Some e) by (apply elem_of_map_to_list; by eapply list_elem_of_lookup_2).
      by destruct (emails_ok root ∅ f s Hag _ _ Hk) as (-> & _). }
    rewrite Heq. apply NoDup_fst_map_to_list.
Qed.

Lemma LoadEmails_gives : exists loaded err loaded' err',
  gives tm (Emails.LoadEmails read st) (Ok (loaded, err)) (agrees root ∅ f) s /\
  (Fake.LoadEmails ReadMessage f).1 = (loaded', err') /\ loaded ≡ₚ loaded' /\ (err = None <-> err' = None).
Proof using Hag.
  destruct (load_spec root idn md read s tm agrees_can_load) as (loaded & err & Hrun & Hin & Hnd & Herr).
  set (good := fun o : option (@LoadedEmail Message + goerr) => match o with Some (inl m) => Some m | _ => None end).
  set (bad := fun o : option (@LoadedEmail Message + goerr) => match o with Some (inr e) => Some e | _ => None end).
  set (outcomes := Fake.fake_outcome ReadMessage <$> entries).
  exists loaded, err, (merge_sort Fake.email_leb (omap good outcomes)), (join_errs (map Some (omap bad outcomes))).
  split_and!.
  - intros fl Hfl. rewrite (Hfl eq_refl), Hrun. done.
  - unfold Fake.LoadEmails. cbn. by rewrite (fake_errors root ∅ f s Hag).
  - rewrite merge_sort_Permutation. apply NoDup_Permutation; [by eapply NoDup_fmap_1| |].
    + apply NoDup_loaded_entries.
    + intros m. rewrite list_elem_of_In, Hin, email_entry, list_elem_of_omap. unfold outcomes.
      setoid_rewrite list_elem_of_fmap. setoid_rewrite elem_of_values. split.
      * intros (k & e & Hk & Ho). exists (Some (inl m)). split; [|done]. exists e. split; [done|by exists k].
      * intros (o & (e & -> & k & Hk) & Ho). exists k, e. split; [done|]. unfold good in Ho.
        destruct (Fake.fake_outcome ReadMessage e) as [[m'|]|]; try done. by injection Ho as ->.
  - rewrite Herr, same_failures, join_errs_none. split.
    + intros H. apply Forall_forall. intros x (err' & <- & Hx)%in_map_iff.
      apply list_elem_of_In, list_elem_of_omap in Hx as (o & Ho & Hb). unfold outcomes in Ho.
      apply list_elem_of_fmap in Ho as (e & -> & [k Hk]%elem_of_values).
      specialize (H k e). unfold bad in Hb. destruct (Fake.fake_outcome ReadMessage e) as [[|err2]|]; try done.
      by destruct (H err2 Hk).
    + intros H k e err' Hk Ho. rewrite list.Forall_forall in H. enough (Some err' = None) by done. apply H.
      apply list_elem_of_In, in_map, list_elem_of_In, list_elem_of_omap. exists (Some (inr err')). split; [|done].
      unfold outcomes. apply list_elem_of_fmap. exists e. split; [done|]. apply elem_of_values. by exists k.
Qed.
End load_ops.
