(* ===== verification/FakeSpec.v ===== *)
(** * The file store implements the store in memory

    The reset, and then any execution: the calls that a subcommand makes to the store, with the answers
    of the file store, are calls to the store in memory with its answers ([same_history]), and the
    files agree with it at every point, as long as nothing fails and the calls are [admitted]. What
    is admitted is what the subcommands do: the numbers and dates of an email fit its path, an email
    keeps its date, and emails that are saved and not indexed yet are neither deleted nor loaded. *)
From S2P Require Import Prelude GoStr GoTime GoErr.
From S2P Require Tlsrpt.
From S2P Require Import StoreTypes Fs Io AtomicFile Sentinel FileStore.
From S2P Require Import Reports Emails Recovery Reset EmailsSpec StoreProps DataProps Confine LoadSpec.
From S2P Require Import Config Mailparse Prog Cmd CmdSpec Fetch Reprocess FetchProps ReprocessProps System.
From S2P Require Fake.
From S2P Require Import SystemProps.
Import Fake (FakeStore, FakeEmailEntry, FakeRecovery, fs_Reports, fs_UIDValidity, fs_Recovery, fs_Emails,
  fs_PendingReset, fs_Errors, fe_UID, fe_UIDValidity, fe_InternalDate, fe_RawEML).
From S2P Require Import FakeProps FakeEmails.

(** ** The reset *)

(** The recovery state asks for a reset to [curr]. *)
Definition asks_reset (curr : Z) (f : FakeStore) : bool :=
  match fs_Recovery f with Some r => Fake.Curr r =? curr | None => false end.

(** A store with a sentinel and nothing else. *)
Lemma agrees_empty root se f s :
  Base root s -> ManNone root s -> SentIs root se s -> valid_sentinel se = true -> DataGone root s -> EmailsGone root s ->
  sf_UIDValidity se = fs_UIDValidity f -> RecoveryRequired se = as_internal <$> fs_Recovery f ->
  fs_Reports f = ∅ -> fs_Emails f = ∅ -> fs_Errors f = Fake.no_errors -> fs_PendingReset f = false -> agrees root ∅ f s.
Proof.
  intros HB HM HS Hv Hdata Hemails Hu Hr Hreports He Herr Hp. unfold DataGone in Hdata.
  assert (Hnone : forall t c, message_at f t c -> False).
  { intros t c (k & e & raw & Hk & _). by rewrite He in Hk. }
  split.
  - split_and!; [done|done|]. by exists se.
  - split; [intros [k Hk]; unfold dataFilePath in Hk; congruence|]. exists empty_data. split_and!.
    + unfold data_at, dataFilePath. rewrite fs_read_entry by apply HB. by rewrite Hdata.
    + rewrite Hreports. split; [constructor|]. intros x. rewrite lookup_empty. by split; [intros ?%not_elem_of_nil|].
    + unfold index. rewrite He. split; [constructor|]. intros x. rewrite map_filter_empty, fmap_empty, lookup_empty.
      by split; [intros ?%not_elem_of_nil|].
  - split; [by split; intros t n; rewrite Hemails|]. intros t c. rewrite Hemails. split; [by intros [k Hk]|by intros ?%Hnone].
  - split_and!; [done|done|by intros k x; rewrite Hreports|by intros k e; rewrite He].
Qed.

Section reset_op.
Context (root : path) (idn : IMAPIdentity) (tm : Time).
Context (pending : gset emailKey) (f : FakeStore) (s : fs) (Hag : agrees root pending f s).
Context (curr : Z).
Local Abbreviation st := (newStore root idn OpenRecoverReset).

Lemma reset_starts (r : result unit) :
  gives tm (reset_from_start st curr (root ++ [stagingDirName]) (root ++ [manifestFilename])) r (agrees root pending f) s ->
  gives tm (Recovery.ResetForRecovery st curr) r (agrees root pending f) s.
Proof using Hag.
  intros H. unfold Recovery.ResetForRecovery. rewrite bool_decide_true by done. cbn [negb]. cbv zeta.
  apply wp_bind, (reads_readResetManifest root); [|done].
  destruct (ag_sentinel _ _ _ _ Hag) as ([Hd _] & HM & _).
  destruct (manifest_at_none root s Hd HM) as (e & -> & ->). exact H.
Qed.

Lemma reset_refused : asks_reset curr f = false ->
  exists e, (Fake.ResetForRecovery curr f).1 = Some e /\ gives tm (Recovery.ResetForRecovery st curr) (Err e) (agrees root pending f) s.
Proof using Hag.
  intros Hr. destruct (agrees_sentinel root pending f s Hag) as (se & _ & HB & HS & Hv & _ & Hrr).
  pose proof (ag_fake _ _ _ _ Hag) as (He & Hp & _). unfold asks_reset in Hr.
  unfold Fake.ResetForRecovery. cbn. rewrite He, Hp. cbn.
  assert (Hstart : forall e,
    (forall rr, RecoveryRequired se = rr -> match rr with None => e = Sentinel ErrRecoveryRequiredMissing
       | Some rr => (CurrUIDValidity rr =? curr) = false /\ e = ErrRecoveryUIDValidityMismatch curr (CurrUIDValidity rr) end) ->
    gives tm (Recovery.ResetForRecovery st curr) (Err e) (agrees root pending f) s).
  { intros e Hcase. apply reset_starts. unfold reset_from_start, initResetManifest.
    apply wp_bind, wp_bind, (reads_LoadRecoveryRequired root); [|done].
    rewrite (recovery_at_is root s se) by (done || apply HB). specialize (Hcase _ eq_refl).
    destruct (RecoveryRequired se) as [rr|]; [|subst e; by do 2 apply wp_ret].
    destruct Hcase as [Hne ->]. rewrite Hne. by do 2 apply wp_ret. }
  destruct (fs_Recovery f) as [r|]; cbn in Hrr |- *.
  - rewrite Hr. cbn. eexists. split; [done|]. apply Hstart. intros rr <-. by rewrite Hrr.
  - eexists. split; [done|]. apply Hstart. intros rr <-. by rewrite Hrr.
Qed.

(** The store after the reset is empty. *)
Lemma agrees_clean f' se s' :
  Clean root se curr false s' -> valid_sentinel se = true ->
  fs_UIDValidity f' = Some curr -> fs_Recovery f' = None -> fs_Reports f' = ∅ -> fs_Emails f' = ∅ ->
  fs_Errors f' = Fake.no_errors -> fs_PendingReset f' = false -> agrees root ∅ f' s'.
Proof.
  intros ((HB & HS & _ & _ & Hdata & Hemails) & HM & _) Hv Hu Hr Hreports He Herr Hp.
  apply (agrees_empty root (commit_sentinel curr se)); try done; [by apply se'_valid|by rewrite Hr].
Qed.

Lemma reset_accepted : asks_reset curr f = true ->
  gives tm (Recovery.ResetForRecovery st curr) (Ok tt) (agrees root ∅ (Fake.ResetForRecovery curr f).2) s.
Proof using Hag.
  intros Hr. destruct (agrees_sentinel root pending f s Hag) as (se & _ & HB & HS & Hv & _ & Hrr).
  pose proof (ag_fake _ _ _ _ Hag) as (He & Hp & _). unfold asks_reset in Hr.
  destruct (fs_Recovery f) as [r|] eqn:Er; [|done]. apply Z.eqb_eq in Hr as Hcurr.
  destruct (ag_data _ _ _ _ Hag) as [Hdata _]. destruct (ag_files _ _ _ _ Hag) as [[Ht Hk] _].
  destruct (ag_sentinel _ _ _ _ Hag) as (_ & HM & _).
  assert (Hclean : gives tm (Recovery.ResetForRecovery st curr) (Ok tt) (Clean root se curr false) s).
  { eapply gives_triple; [apply (reset_Pending root idn se curr (s !! (root ++ ["tlsrpt.json"]))
      (fun t => s !! (root ++ "emails" :: t)) Hv) with (rr := as_internal r)|].
    - intros k Hd. apply Hdata. by exists k.
    - intros k c Hd. by apply (Hk [] (File k c)) in Hd.
    - intros Hn t. destruct (s !! (root ++ "emails" :: t)) as [n|] eqn:E; [|done]. exfalso.
      destruct t as [|u t]; [congruence|]. pose proof (Ht (u :: t) n E) as Hdir.
      destruct (exists_last (l := u :: t)) as (v & x & Hv'); [done|]. rewrite Hv' in Hdir.
      replace (root ++ "emails" :: v ++ [x]) with (((root ++ ["emails"]) ++ v) ++ [x]) in Hdir by by rewrite <- !app_assoc.
      rewrite parent_app in Hdir. apply dir_err_prefix, dir_err_app in Hdir as [_ [k Hkd]]. congruence.
    - done.
    - done.
    - by left; split_and!. }
  eapply wp_mono; [exact Hclean| |done]. intros x s' [-> Hc]. split; [done|].
  unfold Fake.ResetForRecovery. cbn. rewrite He, Er, Hr. cbn. by apply (agrees_clean _ se).
Qed.

Lemma ResetForRecovery_gives :
  gives tm (as_error (Recovery.ResetForRecovery st curr)) (Fake.ResetForRecovery curr f).1
    (agrees root (if asks_reset curr f then ∅ else pending) (Fake.ResetForRecovery curr f).2) s.
Proof using Hag.
  destruct (asks_reset curr f) eqn:Er.
  - replace (Fake.ResetForRecovery curr f).1 with (@None goerr).
    + eapply gives_bind; [by apply reset_accepted|done].
    + pose proof (ag_fake _ _ _ _ Hag) as (He & _). unfold asks_reset in Er. unfold Fake.ResetForRecovery. cbn. rewrite He.
      destruct (fs_Recovery f) as [r|]; [|done]. cbn. by rewrite Er.
  - destruct (reset_refused Er) as (e & He & Hg). rewrite He. apply (gives_bind _ _ _ (Err e)); [|done].
    eapply wp_mono; [exact Hg| |done]. intros x s' [-> H]. split; [done|].
    replace (Fake.ResetForRecovery curr f).2 with (Fake.count_calls 0 0 0 0 0 0 1 None None f);
      [by eapply agrees_counted; [..|exact H]|].
    pose proof (ag_fake _ _ _ _ Hag) as (Herr & Hp & _). unfold asks_reset in Er. unfold Fake.ResetForRecovery. cbn.
    rewrite Herr. destruct (fs_Recovery f) as [r|]; cbn; [by rewrite Er|by rewrite Hp].
Qed.
End reset_op.

(** ** The calls of the store *)

#[export] Instance SummaryConsistencyGuard_eq_dec : EqDecision SummaryConsistencyGuard.
Proof. solve_decision. Defined.

(** What holds of a value if there is one is decided by looking. *)
#[export] Instance forall_Some_dec {A} (o : option A) (P : A -> Prop) `{forall x, Decision (P x)} :
  Decision (forall x, o = Some x -> P x).
Proof. refine (match o with Some x => cast_if (decide (P x)) | None => left _ end); abstract naive_solver. Defined.

#[export] Instance forall_Some_if_dec {A} (o : option A) (C : Prop) (P : A -> Prop) `{!Decision C, forall x, Decision (P x)} :
  Decision (forall x, C -> o = Some x -> P x).
Proof.
  refine (cast_if (decide (C -> forall x, o = Some x -> P x))); abstract naive_solver.
Defined.

#[export] Instance meta_ok_dec pending f meta : Decision (meta_ok pending f meta).
Proof. unfold meta_ok, in_uint32, path_date. apply _. Defined.

#[export] Instance pending_young_dec pending f cutoff : Decision (pending_young pending f cutoff).
Proof.
  refine (cast_if (decide (set_Forall (fun k => forall e, fs_Emails f !! k = Some e -> Fake.fe_expired cutoff e = false)
    pending))); abstract (unfold pending_young; firstorder).
Defined.

Section calls.
Context (root : path) (idn : IMAPIdentity) (md : OpenMode) (guard : SummaryConsistencyGuard).
Context {Message : Type} (ReadMessage : string -> result Message) (json_text : content -> string).

Definition with_none {X : Type} (r : option goerr * FakeStore) (k : option goerr -> X) : X * FakeStore := (k r.1, r.2).

(** The calls the store in memory answers. A guard is acquired for the check. *)
Definition fake_op {X : Type} (c : cmd_call Message X) (f : FakeStore) : option (X * FakeStore) :=
  match c in cmd_call _ X return option (X * FakeStore) with
  | LoadRecoveryRequired => Some (Fake.LoadRecoveryRequired f)
  | SaveRecoveryRequired prev curr at_ => Some (Fake.SaveRecoveryRequired prev curr at_ f)
  | LoadUIDValidity => Some (Fake.LoadUIDValidity f)
  | SaveUIDValidity uid => Some (Fake.SaveUIDValidity uid f)
  | SaveEmail uid uidValidity date raw => Some (Fake.SaveEmail uid uidValidity date raw f)
  | SaveEmailMetas metas => Some (Fake.SaveEmailMetas metas f)
  | LoadEmails => Some (Fake.LoadEmails ReadMessage f)
  | SaveReports reports => Some (Fake.SaveReports reports f)
  | GetAllReports => Some (Fake.GetAllReports f)
  | DeleteReportsBefore cutoff => Some (Fake.DeleteReportsBefore cutoff f)
  | DeleteEmailsBefore cutoff => Some (Fake.DeleteEmailsBefore cutoff f)
  | CountReportsBefore cutoff => Some (Fake.CountReportsBefore cutoff f)
  | CountEmailsBefore cutoff => Some (Fake.CountEmailsBefore cutoff f)
  | HasPendingReset => Some (Fake.HasPendingReset f)
  | ApplyRecovery curr => Some (Fake.ApplyRecovery curr f)
  | ResetForRecovery curr => Some (Fake.ResetForRecovery curr f)
  | CheckRecoveryRequired =>
      Some (match Fake.AcquireSummaryConsistencyGuard f with
            | (Ok g, f) => (Fake.CheckRecoveryRequired g, f)
            | (Err err, f) => (Err err, f)
            end)
  | _ => None
  end.

Definition fake_after {X : Type} (c : cmd_call Message X) (f : FakeStore) : FakeStore :=
  match fake_op c f with Some (_, f') => f' | None => f end.

(** Two answers to a call: the order of a list of records or of emails is left open, and so is which
    error says that some email does not load. *)
Definition same_answer {X : Type} (c : cmd_call Message X) : X -> X -> Prop :=
  match c in cmd_call _ X return X -> X -> Prop with
  | GetAllReports => fun x y =>
      match x, y with Ok l, Ok l' => l ≡ₚ l' | Err e, Err e' => e = e' | _, _ => False end
  | LoadEmails => fun x y => x.1 ≡ₚ y.1 /\ (x.2 = None <-> y.2 = None)
  | _ => eq
  end.

(** What the caller sees to before a call. *)
Definition admissible {X : Type} (pending : gset emailKey) (f : FakeStore) (c : cmd_call Message X) : Prop :=
  match c with
  | SaveRecoveryRequired _ _ at_ => md <> OpenReadOnly /\ json_time_ok at_ = true
  | SaveUIDValidity _ | ApplyRecovery _ | DeleteReportsBefore _ => md <> OpenReadOnly
  | ResetForRecovery _ => md = OpenRecoverReset
  | SaveEmail uid uidValidity date _ =>
      md <> OpenReadOnly /\ in_uint32 uid /\ in_uint32 uidValidity /\ path_date date /\
      forall e, fs_Emails f !! ((uid, uidValidity) : emailKey) = Some e -> fe_InternalDate e = date
  | SaveEmailMetas metas => md <> OpenReadOnly /\ Forall (meta_ok pending f) metas
  | SaveReports inputs => md <> OpenReadOnly /\ forallb (fun i => report_times_ok (ri_Report i)) inputs = true
  | LoadEmails => pending = ∅
  | DeleteEmailsBefore cutoff => md <> OpenReadOnly /\ IsZero cutoff = false /\ pending_young pending f cutoff
  | CountEmailsBefore cutoff => pending_young pending f cutoff
  | CheckRecoveryRequired => guard = summaryConsistencyGuardImpl root
  | _ => True
  end.

#[export] Instance admissible_dec {X : Type} pending f (c : cmd_call Message X) : Decision (admissible pending f c).
Proof using Type. destruct c; simpl; unfold in_uint32, path_date; apply _. Defined.

(** The emails that are saved and not indexed after a call. *)
Definition pending_after {X : Type} (pending : gset emailKey) (f : FakeStore) (c : cmd_call Message X) : gset emailKey :=
  match c with
  | SaveEmail uid uidValidity date _ => if IsZero date then pending else pending_saved pending f uid uidValidity
  | SaveEmailMetas metas =>
      if existsb (fun meta => IsZero (InternalDate meta)) metas then pending else pending ∖ existing_keys metas
  | ResetForRecovery curr => if asks_reset curr f then ∅ else pending
  | _ => pending
  end.

Local Abbreviation store_op := (store_op root idn md guard ReadMessage json_text).

(** A call both answer in the same way. *)
Lemma exactly {X : Type} (c : cmd_call Message X) (m : M X) (r : X * FakeStore) pending f s tm :
  fake_op c f = Some r -> (forall x, same_answer c x x) -> gives tm m r.1 (agrees root pending r.2) s ->
  exists x, gives tm m x (agrees root pending (fake_after c f)) s /\
    forall y f', fake_op c f = Some (y, f') -> same_answer c x y.
Proof.
  intros Hr Hs Hg. unfold fake_after. rewrite Hr. destruct r as [x f']. exists x. split; [exact Hg|].
  intros y f'' [= <- <-]. apply Hs.
Qed.

Lemma reads_memory f : (Fake.HasPendingReset f).2 = f /\ (Fake.LoadRecoveryRequired f).2 = f.
Proof.
  unfold Fake.HasPendingReset, Fake.LoadRecoveryRequired.
  by destruct (Fake.HasPendingResetErr (fs_Errors f)), (Fake.LoadRecoveryRequiredErr (fs_Errors f)).
Qed.

Lemma count_emails_reads cutoff f : (Fake.CountEmailsBefore cutoff f).2 = f.
Proof. unfold Fake.CountEmailsBefore. by destruct (IsZero cutoff). Qed.

(** A read of a local file. *)
Lemma local_call {A B} (g : A -> B) (r : fs -> result A) pending f s tm :
  agrees root pending f s ->
  exists x, gives tm (map_result g (prim (fun s => (r s, s)) unchanged)) x (agrees root pending f) s.
Proof.
  intros Hag. exists (match r s with Ok a => Ok (g a) | Err e => Err e end).
  apply (gives_bind _ _ _ (r s)); [by apply wp_read|done].
Qed.

Lemma load_call (m : M (list (LoadedEmail Message) * option goerr)) f s tm :
  agrees root ∅ f s -> store_op LoadEmails = Some m ->
  exists x, gives tm m x (agrees root ∅ (fake_after LoadEmails f)) s /\
    forall y f', fake_op LoadEmails f = Some (y, f') -> same_answer LoadEmails x y.
Proof.
  intros Hag [= <-].
  destruct (LoadEmails_gives root idn md tm f s Hag ReadMessage json_text) as (l & e & l' & e' & Hg & Hf & Hp & He).
  exists (l, e). unfold fake_after. cbn [fake_op]. destruct (Fake.LoadEmails ReadMessage f) as [y f'] eqn:Ef. simpl in Hf.
  assert (Hf' : f' = Fake.count_calls 0 0 1 0 0 0 0 None None f).
  { unfold Fake.LoadEmails in Ef. cbn in Ef. destruct (Fake.LoadEmailsErr (fs_Errors f)); by injection Ef as _ <-. }
  subst y f'. split; [|by intros y f' [= <- <-]].
  apply (gives_bind _ _ _ (Ok (l, e))); [|done]. eapply wp_mono; [exact Hg| |done]. intros x s' [-> H]. split; [done|].
  by eapply agrees_counted; [..|exact H].
Qed.

Lemma reports_call (m : M (result (list Tlsrpt.Report))) pending f s tm :
  agrees root pending f s -> store_op GetAllReports = Some m ->
  exists x, gives tm m x (agrees root pending (fake_after GetAllReports f)) s /\
    forall y f', fake_op GetAllReports f = Some (y, f') -> same_answer GetAllReports x y.
Proof.
  intros Hag [= <-]. destruct (GetAllReports_gives root idn md tm pending f s Hag) as (l & l' & Hg & Hf & Hp).
  exists (Ok l). split; [exact Hg|]. cbn. intros y f' [= <- <-]. simpl in Hf. by injection Hf as ->.
Qed.

(** A call, by the file store and by the store in memory. *)
Lemma call_gives {X : Type} (c : cmd_call Message X) (m : M X) pending f s tm :
  agrees root pending f s -> admissible pending f c -> store_op c = Some m ->
  exists x, gives tm m x (agrees root (pending_after pending f c) (fake_after c f)) s /\
    forall y f', fake_op c f = Some (y, f') -> same_answer c x y.
Proof.
  intros Hag Hc Hm. destruct c; try discriminate Hm;
    try (by apply reports_call); try (cbn in Hc; subst pending; by apply load_call);
    try (injection Hm as <-; eapply exactly; [reflexivity|done|]); cbn in Hc |- *.
  - rewrite (proj2 (reads_memory f)). by apply LoadRecoveryRequired_gives.
  - destruct Hc. by apply SaveRecoveryRequired_gives.
  - by apply LoadUIDValidity_gives.
  - by apply SaveUIDValidity_gives.
  - destruct Hc as (? & ? & ? & ? & ?). by apply SaveEmail_gives.
  - destruct Hc. by apply SaveEmailMetas_gives.
  - destruct Hc. by apply SaveReports_gives.
  - by apply DeleteReportsBefore_gives.
  - destruct Hc as (? & ? & ?). by apply DeleteEmailsBefore_gives.
  - by apply CountReportsBefore_gives.
  - rewrite count_emails_reads. by apply CountEmailsBefore_gives.
  - rewrite (proj1 (reads_memory f)). by apply HasPendingReset_gives.
  - by apply ApplyRecovery_gives.
  - subst md. by apply ResetForRecovery_gives.
  - subst guard. unfold Fake.AcquireSummaryConsistencyGuard.
    rewrite (fake_errors root pending f s Hag). by apply CheckRecoveryRequired_gives.
  - injection Hm as <-. destruct (local_call (as_stat json_text) (fun s => fs_stat s p) pending f s tm Hag) as [x Hx]. by exists x.
  - injection Hm as <-. destruct (local_call (text json_text) (fs_read_file p) pending f s tm Hag) as [x Hx]. by exists x.
Qed.

(** ** Executions *)

Abbreviation history := (list (event (cmd_call Message))).

(** The store in memory and the pending emails after a history. *)
Fixpoint memory_after (t : history) (f : FakeStore) : FakeStore :=
  match t with [] => f | Ev c _ :: t => memory_after t (fake_after c f) end.

Fixpoint pending_run (t : history) (pending : gset emailKey) (f : FakeStore) : gset emailKey :=
  match t with [] => pending | Ev c _ :: t => pending_run t (pending_after pending f c) (fake_after c f) end.

(** Every call of a history is one the caller may make at that point. *)
Fixpoint admitted (t : history) (pending : gset emailKey) (f : FakeStore) : Prop :=
  match t with
  | [] => True
  | Ev c _ :: t => admissible pending f c /\ admitted t (pending_after pending f c) (fake_after c f)
  end.

#[export] Instance admitted_dec t pending f : Decision (admitted t pending f).
Proof using Type.
  revert pending f. induction t as [|[X c x] t IH]; intros pending f; simpl; [apply _|].
  pose proof (IH (pending_after pending f c) (fake_after c f)). apply _.
Defined.

(** The answers of a history are those of the store in memory. *)
Fixpoint same_history (t : history) (f : FakeStore) : Prop :=
  match t with
  | [] => True
  | Ev c x :: t =>
      (forall y f', fake_op c f = Some (y, f') -> same_answer c x y) /\ same_history t (fake_after c f)
  end.

(** The file store implements the store in memory: in every execution of a subcommand, or of any
    other program over [store.Store], on files that agree with a store in memory, when nothing fails
    and the calls are admitted, every answer of the store is the answer of the store in memory, the
    process is not interrupted, and the files agree with what the store in memory has become. *)
Theorem file_store_implements_memory {A} (p : prog (cmd_call Message) A) w t p' w' f pending :
  agrees root pending f (w_fs w) -> w_faults w = [] ->
  exec root idn md guard ReadMessage json_text p w t p' w' -> admitted t pending f ->
  same_history t f /\ is_Some p' /\ agrees root (pending_run t pending f) (memory_after t f) (w_fs w').
Proof.
  intros Hag Hw Hexec. revert f pending Hag Hw.
  induction Hexec as [p w|X c k w m x w1 t p' w' Hs Hm Hexec IH|X c k w x t p' w' Hs Hexec IH|X c k w m w1 Hs Hm];
    intros f pending Hag Hw Hadm.
  - done.
  - destruct Hadm as [Hc Hadm]. destruct w as [s fl tm]. simpl in Hag, Hw. subst fl.
    destruct (call_gives c m pending f s tm Hag Hc Hs) as (y & Hg & Hy).
    specialize (Hg [] ltac:(done)). rewrite Hm in Hg. destruct Hg as (Hfl & _ & -> & Hag1).
    destruct (IH _ _ Hag1 (Hfl eq_refl) Hadm) as (Ht & Hp & Hag'). by split_and!.
  - destruct Hadm as [Hc Hadm].
    assert (Hno : fake_op c f = None) by by destruct c.
    assert (Hf : fake_after c f = f) by by unfold fake_after; rewrite Hno.
    assert (Hpend : pending_after pending f c = pending) by by destruct c.
    simpl. rewrite Hf, Hpend in *. destruct (IH f pending Hag Hw Hadm) as (Ht & Hp & Hag').
    split_and!; [|done..]. rewrite Hno. done.
  - destruct (run_survives m w Hw) as [x Hx]. by rewrite Hm in Hx.
Qed.
End calls.

(** ** An example *)

Module FakeExample.
Definition root : path := ["d"].
Definition s0 : fs :=
  <[root := Dir 448]>
    (<[root ++ [guardFilename] := File 384 (Raw "")]>
       (<[root ++ [sentinelFilename] := File 384 (JSentinel SystemExample.sentinel)]> ∅)).
Definition memory : FakeStore := Fake.with_uidvalidity (Some 5) Fake.NewFakeStore.
Definition w0 : world := World s0 [] 1700000000.

(** A fetch of one message with one report into the new store. *)
Definition program :=
  fetch_Run sample_mime SystemExample.read sample_report_of no_gzip (sample_opts false) sample_config root 1700000000.
Definition fetched :=
  run_on root DataExample.idn OpenReadWrite noopSummaryConsistencyGuard SystemExample.read SystemExample.json_text
    SystemExample.answer program w0.

Lemma emails_gone : EmailsGone root s0.
Proof. intros t. unfold s0. by rewrite !lookup_insert_ne. Qed.

Lemma new_store : agrees root ∅ memory s0.
Proof.
  apply (agrees_empty root SystemExample.sentinel); try done; [|by exists 384|exact emails_gone].
  split; [by vm_compute|]. intros [k Hk]. by vm_compute in Hk.
Qed.
End FakeExample.

Lemma file_store_implements_memory_witness :
  let t := FakeExample.fetched.1.1 in
  same_history SystemExample.read t FakeExample.memory /\ is_Some FakeExample.fetched.1.2 /\
  agrees FakeExample.root (pending_run SystemExample.read t ∅ FakeExample.memory)
    (memory_after SystemExample.read t FakeExample.memory) (w_fs FakeExample.fetched.2) /\
  (fs_Reports (memory_after SystemExample.read t FakeExample.memory) !! "r1" <> None).
Proof.
  cbv zeta.
  destruct (file_store_implements_memory FakeExample.root DataExample.idn OpenReadWrite noopSummaryConsistencyGuard
    SystemExample.read SystemExample.json_text FakeExample.program FakeExample.w0 _ _ _ FakeExample.memory ∅
    FakeExample.new_store eq_refl
    (run_on_exec _ _ _ _ _ _ SystemExample.answer FakeExample.program FakeExample.w0)) as (H1 & H2 & H3).
  - apply (bool_decide_unpack _). vm_compute. exact I.
  - split; [exact H1|]. split; [exact H2|]. split; [exact H3|]. vm_compute. discriminate.
Defined.
