(* ===== verification/Tame.v ===== *)
(** * Programs whose calls to the store are admitted

    FakeSpec.v says that the file store implements the store in memory for calls that are admitted.
    Here are the rules by which FakeCmds.v shows that the calls of a program are, whatever the store,
    the mail server and the rest of the world may answer ([tame]): calls that always are ([calm]),
    calls that are when no email is pending ([plain_call]), and sequencing. *)
From S2P Require Import Prelude GoStr GoTime GoErr.
From S2P Require Tlsrpt.
From S2P Require Import NotifyTypes StoreTypes Fs Io Emails EmailsSpec Recovery.
From S2P Require Import Prog Cmd System.
From S2P Require Fake.
Import Fake (FakeStore, fs_Emails, fe_RawEML, fe_InternalDate).
From S2P Require Import FakeProps FakeEmails FakeSpec.

(** ** Calls that are always admitted *)

Section tame.
Context (root : path) (md : OpenMode) (guard : SummaryConsistencyGuard).
Context {Message : Type} (ReadMessage : string -> result Message).
Abbreviation fake_after := (fake_after ReadMessage).

(** Calls that leave the emails as they are, whatever is stored. *)
Definition calm_call (X : Type) (c : cmd_call Message X) : bool :=
  match c with
  | SaveEmail _ _ _ _ | SaveEmailMetas _ | LoadEmails | DeleteEmailsBefore _ | CountEmailsBefore _
  | ResetForRecovery _ | CheckRecoveryRequired => false
  | SaveRecoveryRequired _ _ at_ => bool_decide (md <> OpenReadOnly) && json_time_ok at_
  | SaveUIDValidity _ | ApplyRecovery _ | DeleteReportsBefore _ => bool_decide (md <> OpenReadOnly)
  | SaveReports inputs =>
      bool_decide (md <> OpenReadOnly) && forallb (fun i => report_times_ok (StoreTypes.ri_Report i)) inputs
  | _ => true
  end.

Lemma calm_admissible X (c : cmd_call Message X) pending f :
  calm_call X c = true ->
  admissible root md guard pending f c /\ pending_after pending f c = pending /\ fs_Emails (fake_after c f) = fs_Emails f.
Proof.
  destruct c; simpl; intros Hc; try done; zbool; rewrite ?bool_decide_eq_true in *; split_and!; try done;
    unfold FakeSpec.fake_after; simpl.
  all: unfold Fake.LoadRecoveryRequired, Fake.SaveReports, Fake.GetAllReports, Fake.DeleteReportsBefore,
    Fake.CountReportsBefore, Fake.HasPendingReset, Fake.ApplyRecovery; cbn;
    by repeat match goal with
      | |- context [match ?o with Some _ => _ | None => _ end] => destruct o; cbn
      | |- context [if ?b then _ else _] => destruct b; cbn
      end.
Qed.

(** Calls that are admitted, if no email is pending. *)
Definition plain_call (X : Type) (c : cmd_call Message X) : bool :=
  match c with
  | ResetForRecovery _ => bool_decide (md = OpenRecoverReset)
  | DeleteEmailsBefore cutoff => bool_decide (md <> OpenReadOnly) && negb (IsZero cutoff)
  | CheckRecoveryRequired => bool_decide (guard = summaryConsistencyGuardImpl root)
  | LoadEmails | CountEmailsBefore _ => true
  | _ => calm_call X c
  end.

Lemma plain_admissible X (c : cmd_call Message X) f :
  plain_call X c = true -> admissible root md guard ∅ f c /\ pending_after ∅ f c = ∅.
Proof.
  assert (Hy : forall cutoff, pending_young ∅ f cutoff) by by intros cutoff k e Hk%elem_of_empty.
  destruct c; simpl; intros Hc; try done; zbool; rewrite ?bool_decide_eq_true in *; split; try done.
  by destruct (asks_reset _ _).
Qed.

(** ** Programs whose calls are admitted *)

(** What a server that keeps the dates of its messages lists: the numbers and dates fit, the date of
    an email that is stored already is the same, and so are those of messages with the same number. *)
Definition kept_dates (emails : gmap emailKey Fake.FakeEmailEntry) (l : FetchMetaResult) : Prop :=
  in_uint32 (Imap.fm_UIDValidity l) /\
  (forall m, m ∈ Imap.Messages l -> in_uint32 (Imap.mm_UID m) /\ path_date (Imap.mm_Date m)) /\
  (forall m e, m ∈ Imap.Messages l -> emails !! (Imap.mm_UID m, Imap.fm_UIDValidity l) = Some e ->
     fe_InternalDate e = Imap.mm_Date m) /\
  (forall m m', m ∈ Imap.Messages l -> m' ∈ Imap.Messages l -> Imap.mm_UID m = Imap.mm_UID m' ->
     Imap.mm_Date m = Imap.mm_Date m').

(** The server lists such messages, for the emails stored at the start. *)
Definition honest (emails : gmap emailKey Fake.FakeEmailEntry) (e : event (cmd_call Message)) : Prop :=
  match e with
  | Ev c x =>
      match c in cmd_call _ X return X -> Prop with
      | FetchMeta _ => fun x => forall l, x = Ok l -> kept_dates emails l
      | _ => fun _ => True
      end x
  end.

Context (emails : gmap emailKey Fake.FakeEmailEntry).

(** An answer that may be given to a call. *)
Definition possible {X : Type} (c : cmd_call Message X) (x : X) (f : FakeStore) : Prop :=
  (forall y f', fake_op ReadMessage c f = Some (y, f') -> same_answer c x y) /\ honest emails (Ev c x).

(** Whatever is answered, the calls are admitted and at the end [Q] holds. *)
Fixpoint tame {A} (p : prog (cmd_call Message) A) (Q : A -> gset emailKey -> FakeStore -> Prop)
    (pending : gset emailKey) (f : FakeStore) : Prop :=
  match p with
  | Ret a => Q a pending f
  | Call c k =>
      admissible root md guard pending f c /\
      forall x, possible c x f -> tame (k x) Q (pending_after pending f c) (fake_after c f)
  end.

Lemma tame_bind {A B} (p : prog (cmd_call Message) A) (k : A -> prog (cmd_call Message) B) Q pending f :
  tame p (fun a => tame (k a) Q) pending f -> tame (bind p k) Q pending f.
Proof.
  revert pending f. induction p as [a|X c g IH]; intros pending f; simpl; [done|].
  intros [Hc H]. split; [done|]. intros x Hx. by apply IH, H.
Qed.

Lemma tame_mono {A} (p : prog (cmd_call Message) A) (Q Q' : A -> gset emailKey -> FakeStore -> Prop) pending f :
  (forall a pending' f', Q a pending' f' -> Q' a pending' f') -> tame p Q pending f -> tame p Q' pending f.
Proof.
  intros HQ. revert pending f. induction p as [a|X c g IH]; intros pending f; simpl; [apply HQ|].
  intros [Hc H]. split; [done|]. intros x Hx. by apply IH, H.
Qed.

Lemma tame_admitted {A} idn json_text (p : prog (cmd_call Message) A) Q w t p' w' pending f :
  agrees root pending f (w_fs w) -> w_faults w = [] -> exec root idn md guard ReadMessage json_text p w t p' w' ->
  Forall (honest emails) t -> tame p Q pending f -> admitted root md guard ReadMessage t pending f.
Proof.
  intros Hag Hw Hexec. revert f pending Hag Hw.
  induction Hexec as [p w|X c k w m x w1 t p' w' Hs Hm Hexec IH|X c k w x t p' w' Hs Hexec IH|X c k w m w1 Hs Hm];
    intros f pending Hag Hw Ht Hp; [done|..|done]; apply Forall_cons_iff in Ht as [Hh Ht]; destruct Hp as [Hc Hp].
  - split; [done|]. destruct w as [s fl tm]. simpl in Hag, Hw. subst fl.
    destruct (call_gives root idn md guard ReadMessage json_text c m pending f s tm Hag Hc Hs) as (y & Hg & Hy).
    specialize (Hg [] ltac:(done)). rewrite Hm in Hg. destruct Hg as (Hfl & _ & -> & Hag1).
    apply (IH _ _ Hag1 (Hfl eq_refl) Ht), Hp. by split.
  - assert (Hno : fake_op ReadMessage c f = None) by by destruct c.
    assert (Hf : fake_after c f = f) by by unfold FakeSpec.fake_after; rewrite Hno.
    assert (Hpend : pending_after pending f c = pending) by by destruct c.
    simpl in Hp |- *. rewrite Hf, Hpend in *. split; [done|]. apply IH; [done..|]. apply Hp. split; [|done]. by rewrite Hno.
Qed.

(** Programs of plain calls. *)
Lemma tame_plain {A} (p : prog (cmd_call Message) A) f : only plain_call p -> tame p (fun _ _ _ => True) ∅ f.
Proof.
  revert f. induction p as [a|X c k IH]; intros f; simpl; [done|]. intros [Hc Hk].
  destruct (plain_admissible X c f Hc) as [Ha ->]. split; [done|]. intros x _. by apply IH.
Qed.

(** Programs of calm calls, and what they return. *)
Fixpoint calm {A} (p : prog (cmd_call Message) A) (R : A -> Prop) : Prop :=
  match p with
  | Ret a => R a
  | Call c k => calm_call _ c = true /\ forall x, calm (k x) R
  end.

Lemma calm_bind {A B} (p : prog (cmd_call Message) A) (k : A -> prog (cmd_call Message) B) R :
  calm p (fun a => calm (k a) R) -> calm (bind p k) R.
Proof.
  induction p as [a|X c g IH]; simpl; [done|]. intros [Hc H]. split; [done|]. intros x. by apply IH.
Qed.

Lemma calm_mono {A} (p : prog (cmd_call Message) A) (R R' : A -> Prop) : (forall a, R a -> R' a) -> calm p R -> calm p R'.
Proof. intros HR. induction p as [a|X c g IH]; simpl; [apply HR|]. intros [Hc H]. split; [done|]. intros x. by apply IH. Qed.

Lemma calm_only {A} (p : prog (cmd_call Message) A) (R : A -> Prop) : (forall a, R a) -> only calm_call p -> calm p R.
Proof. intros HR. induction p as [a|X c g IH]; simpl; [done|]. intros [Hc H]. split; [done|]. intros x. by apply IH. Qed.

Lemma tame_calm {A} (p : prog (cmd_call Message) A) R Q pending f :
  calm p R -> (forall a f', R a -> fs_Emails f' = fs_Emails f -> Q a pending f') -> tame p Q pending f.
Proof.
  revert f. induction p as [a|X c k IH]; intros f; simpl; [intros Ha HQ; by apply HQ|]. intros [Hc Hk] HQ.
  destruct (calm_admissible X c pending f Hc) as (Ha & -> & He). split; [done|]. intros x _.
  apply IH; [done|]. intros a f' Hr Hf'. apply HQ; [done|]. congruence.
Qed.
End tame.
