(* ===== verification/FakeCmds.v ===== *)
(** * The subcommands on files and in memory

    The calls of every subcommand are admitted, in the mode in which the store is opened for it: no
    subcommand can tell the file store from the store in memory, as long as the mail server keeps
    the dates of its messages ([subcommand_in_memory]). *)
From S2P Require Import Prelude GoStr GoTime GoErr.
From S2P Require Tlsrpt.
From S2P Require Import NotifyTypes StoreTypes Fs Io Emails EmailsSpec Recovery DataProps.
From S2P Require Import Config Mailparse Prog Cmd CmdSpec Fetch Gc RecoverCmd Reprocess SummaryCmd.
From S2P Require Import FetchProps CmdProps ReprocessProps System.
From S2P Require Import Cli Boot Main CliProps MainProps.
From S2P Require Fake.
From S2P Require Import SystemProps.
Import Fake (FakeStore, fs_Emails, fe_RawEML, fe_InternalDate).
From S2P Require Import FakeProps FakeEmails FakeSpec Tame.

(** The mode in which the store is open, and the guard that is held, when a subcommand runs. *)
Definition opened_mode (inv : cliInvocation) : OpenMode :=
  if String.eqb (Subcommand inv) subcommandSummary then OpenReadOnly
  else if String.eqb (Subcommand inv) subcommandRecover then recoverStoreOpenMode (Options inv)
  else storeOpenMode (DryRun (Options inv)).

Definition held_guard (root : path) (inv : cliInvocation) : SummaryConsistencyGuard :=
  if String.eqb (Subcommand inv) subcommandSummary then summaryConsistencyGuardImpl root else noopSummaryConsistencyGuard.

Section subcommands.
Context (root : path) (idn : IMAPIdentity).
Context {body : Type} (mime : Mime body) (ReadMessage : string -> result (entity body))
  (json_unmarshal : string -> Tlsrpt.Report + string) (gunzip : string -> Tlsrpt.gzip_stream)
  (json_text : content -> string) (ctx_err : nat -> option goerr) (now : Time).
Abbreviation run_subcommand := (Main.run_subcommand mime ReadMessage json_unmarshal gunzip ctx_err now).
Abbreviation plain md guard := (plain_call (Message := entity body) root md guard).

(** ** summary, gc and recover: plain calls *)

Lemma summary_plain guard opts cfg : guard = summaryConsistencyGuardImpl root ->
  only (plain OpenReadOnly guard) (summary_Run (Message := entity body) ctx_err opts cfg now).
Proof.
  intros ->. unfold summary_Run, generate, logSummarySystemError.
  repeat first [progress only_cmd | case_match | done | by apply bool_decide_eq_true].
Qed.

Lemma gc_plain guard opts cfg : IsZero (gcEmailCutoff opts cfg now) = false ->
  only (plain (storeOpenMode (DryRun opts)) guard) (gc_Run (Message := entity body) opts cfg now).
Proof.
  intros Hz. unfold gc_Run, runDryRun, runDelete, deleteIMAPOlderThan, searchIMAPOlderThan, notifyGCSystemError, storeOpenMode.
  destruct (DryRun opts).
  - repeat first [progress only_cmd | case_match | done].
  - repeat first [progress only_cmd | case_match | done]; simpl; by rewrite ?Hz.
Qed.

Lemma recover_plain guard opts cfg :
  only (plain (recoverStoreOpenMode opts) guard) (recover_Run (Message := entity body) opts cfg).
Proof.
  unfold recover_Run, handleNoRecoveryRequired, executeMode, runKeepOld, runDiscardOld, recoverStoreOpenMode.
  destruct (String.eqb (RecoverMode opts) recoverModeDiscardOld); destruct (RecoverYes opts); cbn [andb negb];
    repeat first [progress only_cmd | case_match | done].
Qed.
Lemma recover_plain_run guard opts cfg :
  only (plain (recoverStoreOpenMode opts) guard)
    (let* (code, err, _) := recover_Run (Message := entity body) opts cfg in Ret (code, err))%prog.
Proof. apply only_bind; [apply recover_plain|]. by intros [[code err] out]. Qed.


(** ** Parsed reports *)

(** A decoded report has times that JSON can write, as [time.Time]'s decoder accepts no others. *)
Context (Hjson : forall text r, json_unmarshal text = inl r -> report_times_ok r = true).

Abbreviation inputs_ok := (fun inputs => forallb (fun i => report_times_ok (StoreTypes.ri_Report i)) inputs = true).
Abbreviation parse := (parseTLSRPTAttachment mime json_unmarshal gunzip).

Lemma parse_times att r : parse att = Some (inl r) -> report_times_ok r = true.
Proof using Hjson.
  assert (Hj : forall t, Tlsrpt.parseJSON json_unmarshal t = inl r -> report_times_ok r = true)
    by by intros t [H _]%Tlsrpt.parseJSON_inv; apply (Hjson t).
  unfold parseTLSRPTAttachment, Tlsrpt.ParseGzip, Tlsrpt.ParseJSON. intros H.
  repeat case_match; simplify_eq; by eapply Hj.
Qed.

Section calm.
Context (md : OpenMode).
Abbreviation calm := (Tame.calm (Message := entity body) md).

Lemma calm_warn uid uv id kind (R : unit -> Prop) : R tt -> calm (logWarn kind uid uv id) R.
Proof. intros HR. split; [done|]. by intros x. Qed.

Lemma calm_alerts report (R : unit -> Prop) : (forall u, R u) -> calm (logAlerts report) R.
Proof. intros HR. apply calm_only; [done|]. by apply only_log_policies. Qed.

Lemma calm_attachments atts s uid :
  calm (processAttachments mime json_unmarshal gunzip atts s uid) inputs_ok.
Proof using Hjson.
  induction atts as [|att atts IH]; cbn [processAttachments]; [done|]. destruct (parse att) as [[r|]|] eqn:Ep; [|..|done].
  - apply calm_bind. assert (Hk : calm (let* rest := processAttachments mime json_unmarshal gunzip atts s uid in
      Ret ({| StoreTypes.ri_Report := r; StoreTypes.ri_UID := uid_of s; StoreTypes.ri_UIDValidity := uid |} :: rest))%prog
      inputs_ok).
    { apply calm_bind. eapply calm_mono; [|exact IH]. intros inputs Hi. simpl. by rewrite (parse_times att r Ep), Hi. }
    destruct (_ && _); [by apply calm_alerts|exact Hk].
  - apply calm_bind. by apply calm_warn.
Qed.

Lemma calm_message cfg s uid raw :
  calm (collect_message mime ReadMessage json_unmarshal gunzip cfg s uid raw) inputs_ok.
Proof using Hjson.
  unfold collect_message. destruct (ReadMessage raw) as [msg|]; [destruct (ExtractAttachments _ _ _)|];
    [apply calm_attachments|apply calm_bind; by apply calm_warn..].
Qed.

Lemma calm_collect cfg states uid :
  calm (fetchCollectReports mime ReadMessage json_unmarshal gunzip cfg states uid root)
    (fun r => forall inputs, r = Ok inputs -> inputs_ok inputs).
Proof using Hjson.
  induction states as [|s states IH]; cbn [fetchCollectReports]; [by intros inputs [= <-]|].
  assert (Hk : forall inputs, inputs_ok inputs -> calm
    (let* rest := fetchCollectReports mime ReadMessage json_unmarshal gunzip cfg states uid root in
     Ret (match rest with Err e => Err e | Ok rs => Ok (inputs ++ rs) end))%prog
    (fun r => forall inputs, r = Ok inputs -> inputs_ok inputs)).
  { intros inputs Hi. apply calm_bind. eapply calm_mono; [|exact IH]. intros [rs|e] Hr; [|done].
    intros ? [= <-]. simpl. by rewrite forallb_app, Hi, (Hr rs eq_refl). }
  destruct (_ && _); [by apply Hk|]. destruct (rawEML s) as [raw|].
  { apply calm_bind. eapply calm_mono; [exact Hk|apply calm_message]. }
  destruct (_ || _); [by apply Hk|]. split; [done|]. intros [raw|e]; [|done]. simpl.
  apply calm_bind. eapply calm_mono; [exact Hk|apply calm_message].
Qed.
End calm.

(** ** fetch *)

Section fetch.
Context (md : OpenMode) (guard : SummaryConsistencyGuard) (emails : gmap emailKey Fake.FakeEmailEntry).
Abbreviation tame := (Tame.tame root md guard ReadMessage emails).
Abbreviation calm := (Tame.calm (Message := entity body) md).

(** What is known of the messages while they are saved. *)
Definition consistent (l : FetchMetaResult) (f : FakeStore) : Prop := kept_dates (fs_Emails f) l.

Abbreviation listed l := (Forall (fun s => meta s ∈ Imap.Messages l)).

Lemma consistent_saved l m raw f :
  consistent l f -> m ∈ Imap.Messages l ->
  consistent l (fake_after ReadMessage (SaveEmail (Imap.mm_UID m) (Imap.fm_UIDValidity l) (Imap.mm_Date m) raw) f).
Proof.
  intros (Hv & Hm & He & Hd) Hin. split_and!; [done..| |done]. intros m' e Hin' Hlook.
  unfold fake_after in Hlook. simpl in Hlook. unfold Fake.SaveEmail in Hlook.
  destruct (IsZero (Imap.mm_Date m)); [by eapply He|]. simpl in Hlook.
  assert (Hsame : forall e', <[(Imap.mm_UID m, Imap.fm_UIDValidity l) := e']> (fs_Emails f)
      !! (Imap.mm_UID m', Imap.fm_UIDValidity l) = Some e -> fe_InternalDate e' = Imap.mm_Date m ->
      fe_InternalDate e = Imap.mm_Date m').
  { intros e' [[Hk ->]|[_ H]]%lookup_insert_Some Hdate; [|by eapply He]. rewrite Hdate. apply Hd; [done..|congruence]. }
  destruct (fs_Emails f !! ((Imap.mm_UID m, Imap.fm_UIDValidity l) : emailKey)) as [[u v d [r|]]|]; simpl in Hlook; [by eapply He|by eapply Hsame..].
Qed.

Lemma tame_warn kind uid uv id Q pending f :
  (forall f', fs_Emails f' = fs_Emails f -> Q tt pending f') -> tame (logWarn kind uid uv id) Q pending f.
Proof. intros HQ. apply (tame_calm _ _ _ _ _ _ (fun _ => True)); [by apply calm_warn|]. intros [] f' _. apply HQ. Qed.

Lemma calm_states l :
  calm (buildFetchStates (Imap.Messages l) (Imap.fm_UIDValidity l) root)
    (fun r => forall states, r = Ok states -> listed l states).
Proof.
  assert (H : forall ms, Forall (fun m => m ∈ Imap.Messages l) ms ->
    calm (buildFetchStates ms (Imap.fm_UIDValidity l) root) (fun r => forall states, r = Ok states -> listed l states)).
  { induction ms as [|m ms IH]; intros Hms; [by intros states [= <-]|]. apply Forall_cons_iff in Hms as [Hm Hms].
    cbn [buildFetchStates]. apply calm_bind. unfold localEmailSize. split; [done|]. intros st. simpl.
    destruct (match st with Ok info => _ | Err err => _ end) as [size|e]; [|done]. apply calm_bind.
    assert (Hk : calm (let* rest := buildFetchStates ms (Imap.fm_UIDValidity l) root in
      Ret (match rest with
           | Err e => Err e
           | Ok states => Ok ({| meta := m; emlExistedBefore := match size with Some _ => true | None => false end;
                                 rawEML := None |} :: states) end))%prog
      (fun r => forall states, r = Ok states -> listed l states)).
    { apply calm_bind. eapply calm_mono; [|by apply IH]. intros [states|e] Hr; [|done]. intros ? [= <-].
      constructor; [done|by apply Hr]. }
    destruct size as [size|]; [destruct (negb _); [by apply calm_warn|]|]; exact Hk. }
  apply H. apply Forall_forall. by intros m Hm%list_elem_of_In.
Qed.

Lemma tame_save_downloaded l raws mailbox states pending f :
  md <> OpenReadOnly -> listed l states -> consistent l f ->
  tame (save_downloaded (body := body) states raws (Imap.fm_UIDValidity l) mailbox)
    (fun r _ f' => consistent l f' /\ forall states, r = Ok states -> listed l states) pending f.
Proof.
  intros Hmd. revert pending f. induction states as [|s states IH]; intros pending f Hs Hf; cbn [save_downloaded].
  { split; [done|]. by intros states [= <-]. }
  apply Forall_cons_iff in Hs as [Hin Hs].
  assert (Hk : forall s' pending' f', meta s' ∈ Imap.Messages l -> consistent l f' -> tame
    (let* rest := save_downloaded states raws (Imap.fm_UIDValidity l) mailbox in
     Ret (match rest with Err e => Err e | Ok ss => Ok (s' :: ss) end))%prog
    (fun r _ f' => consistent l f' /\ forall states, r = Ok states -> listed l states) pending' f').
  { intros s' pending' f' Hs' Hf'. apply tame_bind. eapply tame_mono; [|by apply IH].
    intros [ss|e] pd g [Hg Hr]; (split; [done|]); [|done]. intros ? [= <-]. constructor; [done|by apply Hr]. }
  destruct (emlExistedBefore s); [by apply Hk|]. destruct (raws !! _) as [raw|].
  - apply tame_bind. assert (Hsave : forall f', fs_Emails f' = fs_Emails f -> tame
      (let* err := call (SaveEmail (uid_of s) (Imap.fm_UIDValidity l) (Imap.mm_Date (meta s)) raw) in
       match err with
       | Some err => Ret (Err (errorf (Join "" ["fetch: save email "; fmt_d (uid_of s); ": "]) err))
       | None =>
           let* rest := save_downloaded states raws (Imap.fm_UIDValidity l) mailbox in
           Ret (match rest with Err e => Err e | Ok ss => Ok (with_raw s raw :: ss) end)
       end)%prog
      (fun r _ f' => consistent l f' /\ forall states, r = Ok states -> listed l states) pending f').
    { intros f' Hf'. assert (Hc : consistent l f') by by unfold consistent; rewrite Hf'.
      destruct Hc as (Hv & Hm & He & Hd). destruct (Hm _ Hin) as [Hu Hp].
      split; [split_and!; [done..|]; intros e Hlook; by apply He|]. intros err _.
      assert (Hc' := consistent_saved l (meta s) raw f' (conj Hv (conj Hm (conj He Hd))) Hin).
      destruct err as [e|]; [by split|]. by apply Hk. }
    destruct (negb _); [by apply tame_warn|by apply Hsave].
  - apply tame_bind. unfold notifyFetchSystemError. split; [done|]. intros x _. split; [done|]. by intros y _.
Qed.

Lemma tame_saved l mailbox states pending f :
  md <> OpenReadOnly -> listed l states -> consistent l f ->
  tame (fetchDownloadAndSave (body := body) states (Imap.fm_UIDValidity l) mailbox)
    (fun r _ f' => consistent l f' /\ forall states, r = Ok states -> listed l states) pending f.
Proof.
  intros Hmd Hs Hf. unfold fetchDownloadAndSave. destruct (omap _ states).
  { split; [done|]. by intros ? [= <-]. }
  split; [done|]. intros [raws|e] _; [by apply tame_save_downloaded|].
  apply tame_bind. split; [done|]. intros x _. split; [done|]. by intros y _.
Qed.

Lemma metas_ok l states pending f : listed l states -> consistent l f ->
  Forall (meta_ok pending f) (buildEmailMetas states (Imap.fm_UIDValidity l)).
Proof.
  intros Hs (Hv & Hm & He & Hd). apply Forall_forall. intros meta' Hin%list_elem_of_In.
  unfold buildEmailMetas in Hin. apply list_elem_of_omap in Hin as (s & Hin & Hmeta).
  rewrite Forall_forall in Hs. specialize (Hs s (proj1 (list_elem_of_In _ _) Hin)).
  destruct (_ || _); [|done]. injection Hmeta as <-. destruct (Hm _ Hs) as [Hu Hp].
  split_and!; [done..|]. intros e _ Hlook. symmetry. by apply He.
Qed.

Lemma calm_mark states : calm (fetchMarkSeen states) (fun _ => True).
Proof.
  unfold fetchMarkSeen. apply calm_only; [done|]. repeat first [progress only_cmd | case_match | done].
Qed.

Lemma tame_process cfg l states pending f :
  md <> OpenReadOnly -> listed l states -> consistent l f ->
  tame (fetch_process mime ReadMessage json_unmarshal gunzip cfg root states (Imap.fm_UIDValidity l)) (fun _ _ _ => True) pending f.
Proof using Hjson.
  intros Hmd Hs Hf. unfold fetch_process. split; [split; [done|by apply metas_ok]|]. intros [e|] _; [done|].
  apply (tame_calm _ _ _ _ _ _ (fun _ => True)); [|done]. cbn [bind]. apply calm_bind.
  eapply calm_mono; [|apply calm_collect].
  intros [inputs|e] Hi; [|done]. split; [simpl; rewrite (Hi inputs eq_refl); by rewrite bool_decide_true|].
  intros [e|]; [done|]. split; [done|]. intros [e|]; [done|]. cbn [bind]. apply calm_bind.
  eapply calm_mono; [|apply calm_mark].
  intros [e|] _; [done|]. split; [simpl; by rewrite bool_decide_true|done].
Qed.

Lemma calm_validate opts uid mailbox :
  (DryRun opts = false -> md <> OpenReadOnly) -> json_time_ok now = true ->
  calm (fetchValidateUID opts now uid mailbox) (fun _ => True).
Proof.
  intros Hmd Hnow. apply calm_only; [done|]. unfold fetchValidateUID, notifyFetchSystemError.
  destruct (DryRun opts) eqn:Hdry; cbn [negb];
    repeat first [progress only_cmd | case_match | done | simpl; by rewrite ?Hnow, bool_decide_true by auto].
Qed.

(** A rest that is calm. *)
Lemma tame_end {A} (p : prog (cmd_call (entity body)) A) pending f :
  calm p (fun _ => True) -> tame p (fun _ _ _ => True) pending f.
Proof. intros Hp. by apply (tame_calm _ _ _ _ _ _ _ _ _ _ Hp). Qed.

(** The end after an error that is notified. *)
Lemma tame_notified {A} component kind mailbox (a : A) pending f :
  tame (let* _ := notifySystemError component kind mailbox in Ret a)%prog (fun _ _ _ => True) pending f.
Proof. apply tame_end. split; [done|]. intros x. by split. Qed.

Lemma tame_connected opts cfg mailbox pending f :
  (DryRun opts = false -> md <> OpenReadOnly) -> json_time_ok now = true -> emails = fs_Emails f ->
  tame (fetch_connected mime ReadMessage json_unmarshal gunzip opts cfg root now mailbox) (fun _ _ _ => True) pending f.
Proof using Hjson.
  intros Hmd Hnow He. unfold fetch_connected. split; [done|]. intros [l|e] [_ Hl]; cbn [bind].
  2: { apply tame_notified. }
  simpl in Hl. specialize (Hl l eq_refl). apply tame_bind, (tame_calm _ _ _ _ _ _ (fun _ => True)); [by apply calm_validate|].
  intros [out|] f1 _ Hf1; [done|]. apply tame_bind, (tame_calm _ _ _ _ _ _ _ _ _ _ (calm_states l)).
  intros [states|e] f2 Hs Hf2; [|done]. specialize (Hs states eq_refl).
  destruct (DryRun opts) eqn:Hdry; [apply tame_end; by split|].
  assert (Hc : consistent l f2).
  { unfold consistent. rewrite Hf2, Hf1. unfold FakeSpec.fake_after. simpl. by rewrite <- He. }
  apply tame_bind. eapply tame_mono; [|by apply tame_saved; [apply Hmd|..]].
  intros [states'|e] pd g [Hg Hs']; [|done]. apply tame_process; [by apply Hmd|by apply Hs'|done].
Qed.

Lemma fake_after_recovery f : FakeSpec.fake_after ReadMessage LoadRecoveryRequired f = f.
Proof.
  unfold FakeSpec.fake_after. simpl. pose proof (proj2 (reads_memory f)) as H.
  destruct (Fake.LoadRecoveryRequired f) as [y f']. exact H.
Qed.

Lemma tame_fetch opts cfg pending f :
  (DryRun opts = false -> md <> OpenReadOnly) -> json_time_ok now = true -> emails = fs_Emails f ->
  tame (Fetch.fetch_Run mime ReadMessage json_unmarshal gunzip opts cfg root now) (fun _ _ _ => True) pending f.
Proof using Hjson.
  intros Hmd Hnow He. unfold Fetch.fetch_Run. split; [done|]. intros loaded _; cbn [bind].
  rewrite fake_after_recovery.
  destruct loaded as [[[[prev curr] at_] found]|e].
  2: { apply tame_notified. }
  destruct found; [apply tame_notified|].
  split; [done|]. intros [username password] _. cbn [bind].
  destruct (_ || _); [apply tame_notified|].
  split; [done|]. intros [e|] _; cbn [bind].
  { apply tame_notified. }
  apply tame_bind. eapply tame_mono; [|by apply tame_connected].
  intros out pd g _. apply tame_end. by split.
Qed.

(** ** reprocess *)

Lemma calm_warn_parse b uid uv (R : unit -> Prop) : R tt -> calm (warn_parse (body := body) b uid uv) R.
Proof. destruct b; [apply calm_warn|done]. Qed.

Lemma calm_reprocess_attachments atts e notify :
  calm (reprocess_attachments mime json_unmarshal gunzip atts e notify) (fun r => inputs_ok r.1).
Proof using Hjson.
  induction atts as [|att atts IH]; cbn [reprocess_attachments]; [done|]. destruct (parse att) as [[r|]|] eqn:Ep; [| |done].
  - apply calm_bind. apply (calm_mono _ _ (fun _ => True)).
    + intros _ _. apply calm_bind. eapply calm_mono; [|exact IH]. intros [inputs errs] Hi. simpl in Hi |- *.
      by rewrite (parse_times att r Ep), Hi.
    + destruct (_ && _); [by apply calm_alerts|done].
  - apply calm_bind, calm_warn_parse, calm_bind. eapply calm_mono; [|exact IH]. by intros [inputs errs].
Qed.

Lemma calm_reprocess max es notify :
  calm (reprocessCollectReports mime json_unmarshal gunzip max es notify) (fun r => inputs_ok r.1).
Proof using Hjson.
  induction es as [|e es IH]; cbn [reprocessCollectReports]; [done|]. destruct (ExtractAttachments _ _ _) as [atts|err].
  - apply calm_bind. eapply calm_mono; [|apply calm_reprocess_attachments]. intros [inputs errs] Hi.
    apply calm_bind. eapply calm_mono; [|exact IH]. intros [inputs' errs'] Hi'. simpl in Hi, Hi' |- *.
    by rewrite forallb_app, Hi, Hi'.
  - apply calm_bind, calm_warn_parse, calm_bind. eapply calm_mono; [|exact IH]. by intros [inputs errs].
Qed.

Lemma loaded_entries (f : FakeStore) x e :
  fake_ok f -> (forall y f', fake_op ReadMessage LoadEmails f = Some (y, f') -> same_answer LoadEmails x y) ->
  e ∈ x.1 -> in_uint32 (Emails.le_UID e) /\ in_uint32 (Emails.le_UIDValidity e) /\ path_date (Emails.le_InternalDate e).
Proof.
  intros (Herr & _ & _ & Hf) Hx Hin. destruct (Fake.LoadEmails ReadMessage f) as [y f'] eqn:Ey.
  destruct (Hx y f') as [Hy _]; [by simpl; rewrite Ey|]. rewrite Hy in Hin. revert Hin.
  assert (y = (Fake.LoadEmails ReadMessage f).1) as -> by by rewrite Ey.
  unfold Fake.LoadEmails. cbn. rewrite Herr. cbn. rewrite merge_sort_Permutation.
  intros ([m|] & Ho & Hm)%list_elem_of_omap; [|done]. destruct m as [m|]; [|done]. injection Hm as ->.
  apply list_elem_of_fmap in Ho as (entry & Ho & Hin). apply list_elem_of_fmap in Hin as ([k e'] & -> & Hin%elem_of_map_to_list).
  destruct (Hf k e' Hin) as (_ & Hu & Hv & Hd). unfold Fake.fake_outcome in Ho. simpl in Ho.
  destruct (fe_RawEML e') as [raw|]; [|done]. destruct (ReadMessage raw); [|done]. by injection Ho as ->.
Qed.

Lemma reprocess_metas_ok es f :
  (forall e, e ∈ es -> in_uint32 (Emails.le_UID e) /\ in_uint32 (Emails.le_UIDValidity e) /\
    path_date (Emails.le_InternalDate e)) ->
  Forall (meta_ok ∅ f) (buildReprocessMetas (body := body) es).
Proof.
  intros He. apply Forall_forall. intros meta' Hin%list_elem_of_In. unfold buildReprocessMetas in Hin.
  apply list_elem_of_omap in Hin as (e & Hin & Hm). destruct (IsZero _); [done|]. injection Hm as <-.
  destruct (He e Hin) as (Hu & Hv & Hd). split_and!; [done..|]. by intros e' Hk%elem_of_empty.
Qed.

Lemma tame_reprocess_loaded opts cfg es f :
  md <> OpenReadOnly ->
  (forall e, e ∈ es -> in_uint32 (Emails.le_UID e) /\ in_uint32 (Emails.le_UIDValidity e) /\
    path_date (Emails.le_InternalDate e)) ->
  tame (reprocess_loaded mime json_unmarshal gunzip opts cfg es) (fun _ _ _ => True) ∅ f.
Proof using Hjson.
  intros Hmd He. unfold reprocess_loaded. split; [split; [done|by apply reprocess_metas_ok]|]. intros [e|] _; [done|].
  apply tame_end. cbn [bind]. apply calm_bind. eapply calm_mono; [|apply calm_reprocess]. intros [inputs errs] Hi.
  split; [simpl in Hi |- *; by rewrite Hi, bool_decide_true|]. intros [e|]; [done|]. simpl.
  destruct (ReprocessNotify opts); [|done]. split; [done|]. by intros [e|].
Qed.

Lemma calm_warn_failures failures : calm (warn_failures failures) (fun _ => True).
Proof. induction failures as [|[uid uv] failures IH]; [done|]. cbn [warn_failures]. apply calm_bind. by apply calm_warn. Qed.

Lemma tame_reprocess opts cfg f :
  md <> OpenReadOnly -> fake_ok f ->
  tame (reprocess_Run mime json_unmarshal gunzip opts cfg) (fun _ _ _ => True) ∅ f.
Proof using Hjson.
  intros Hmd Hf. unfold reprocess_Run. split; [done|]. intros loaded _; cbn [bind].
  assert (Hf1 : fake_ok (FakeSpec.fake_after ReadMessage LoadRecoveryRequired f)) by by rewrite fake_after_recovery.
  destruct loaded as [[[[prev curr] at_] found]|e]; [|apply tame_notified].
  destruct found; [done|]. split; [done|]. intros [es err] [Hes _]; cbn [bind]. simpl pending_after.
  pose proof (fun e => loaded_entries _ _ e Hf1 Hes) as Hok. simpl in Hok.
  destruct err as [err|]; [|by apply tame_reprocess_loaded].
  destruct (collectLoadEmailFailures _) as [failures per_file]. destruct (negb per_file); [apply tame_notified|].
  apply tame_bind, (tame_calm _ _ _ _ _ _ (fun _ => True)); [by destruct (ReprocessNotify opts); [apply calm_warn_failures|]|].
  intros _ f' _ _. by apply tame_reprocess_loaded.
Qed.
End fetch.

(** ** Every subcommand *)

(** What a store in memory, the clock and the configuration satisfy when a subcommand starts: only
    fetch copes with emails that are saved and not indexed, and the cutoff of gc is not the zero time. *)
Record ready (inv : cliInvocation) (boot : BootContext) (pending : gset emailKey) : Prop := {
  rd_root : root_of (b_Config boot) = root;
  rd_pending : Subcommand inv <> subcommandFetch -> pending = ∅;
  rd_now : json_time_ok now = true;
  rd_cutoff : Subcommand inv = subcommandGC -> IsZero (gcEmailCutoff (Options inv) (b_Config boot) now) = false
}.

Lemma subcommand_tame inv boot pending f :
  invocation_ok inv -> ready inv boot pending -> fake_ok f ->
  tame root (opened_mode inv) (held_guard root inv) ReadMessage (fs_Emails f)
    (run_subcommand (Subcommand inv) (Options inv) boot) (fun _ _ _ => True) pending f.
Proof using Hjson.
  intros Hinv [Hroot Hpend Hnow Hz] Hf. pose proof (ok_dry_run _ Hinv) as Hdry. pose proof (ok_subcommand _ Hinv) as Hs.
  unfold Main.run_subcommand, opened_mode, held_guard. rewrite Hroot.
  destruct Hs as [Hs|[Hs|[Hs|[Hs|[Hs|[]]]]]]; rewrite <- Hs in Hpend, Hz, Hdry |- *.
  - apply tame_fetch; [|done..]. change (DryRun (Options inv) = false -> storeOpenMode (DryRun (Options inv)) <> OpenReadOnly).
    by intros ->.
  - rewrite (Hpend ltac:(done)). apply tame_plain. exact (summary_plain _ _ _ eq_refl).
  - rewrite (Hpend ltac:(done)). apply tame_reprocess; [|done].
    change (storeOpenMode (DryRun (Options inv)) <> OpenReadOnly).
    destruct (DryRun _); [by destruct (Hdry eq_refl)|done].
  - rewrite (Hpend ltac:(done)). apply tame_plain. exact (gc_plain _ _ _ (Hz eq_refl)).
  - rewrite (Hpend ltac:(done)). apply tame_plain. exact (recover_plain_run _ _ _).
Qed.

(** C5: no subcommand can tell the file store from the store in memory, up to the order of the
    lists it loads. For every command line that is accepted, let the subcommand run on files that
    agree with a store in memory, in the mode in which they were opened for it, and without faults;
    let the clock be within the years 0 to 9999, the JSON decoder give reports with such dates
    only, the server keep the dates of its messages and list such numbers and dates as fit the path
    of an email, the cutoff of gc for emails not be the zero
    time, and, except for fetch, no email be saved and not indexed. Then every answer of the file
    store through [store.Store] is the answer of the store in memory, except that the reports and
    the emails that are loaded may come in another order and that loading emails, when it fails for
    some of them, may report the failure by another error; the process is not interrupted; and
    wherever it stops the files agree with what the store in memory has become. *)
Theorem subcommand_in_memory args inv boot w t p' w' pending f :
  parseCLI args = Ok inv -> ready inv boot pending -> agrees root pending f (w_fs w) -> w_faults w = [] ->
  exec root idn (opened_mode inv) (held_guard root inv) ReadMessage json_text
    (run_subcommand (Subcommand inv) (Options inv) boot) w t p' w' ->
  Forall (honest (fs_Emails f)) t ->
  same_history ReadMessage t f /\ is_Some p' /\
  agrees root (pending_run ReadMessage t pending f) (memory_after ReadMessage t f) (w_fs w').
Proof using Hjson.
  intros Hinv%parseCLI_ok Hr Hag Hw Hexec Ht. eapply file_store_implements_memory; [done..|].
  eapply tame_admitted; [done..|]. by apply subcommand_tame; [..|apply Hag].
Qed.
End subcommands.

(** ** An example: fetch into a new store *)

Module SubcommandExample.
Definition args : list string := ["--config"; "c.toml"; "fetch"].
Definition now : Time := 1700000000.
Definition inv : cliInvocation := {| Subcommand := subcommandFetch; Options := empty_options "c.toml" |}.
Definition config : Config :=
  applyDefaults
    {| raw_Host := Some "imap.example"; raw_Port := Some 993; raw_Mailbox := None; raw_FetchDays := None;
       raw_TLSCACert := None; raw_MaxMessageBytes := None; raw_IMAPRetentionDays := None;
       raw_AllowedHost := None; raw_RootDir := Some "d"; raw_RetentionDays := None; raw_MaxEmailAgeDays := None;
       raw_WindowDays := None |}.
Definition boot : BootContext := new_boot config subcommandFetch "run" "" "".
Definition program :=
  Main.run_subcommand sample_mime SystemExample.read sample_report_of no_gzip (fun _ => None) now
    (Subcommand inv) (Options inv) boot.
Definition fetched :=
  run_on FakeExample.root DataExample.idn (opened_mode inv) (held_guard FakeExample.root inv) SystemExample.read
    SystemExample.json_text SystemExample.answer program FakeExample.w0.

Lemma sample_kept : kept_dates (fs_Emails FakeExample.memory) sample_meta.
Proof.
  split; [by vm_compute|]. split; [intros m ->%list_elem_of_singleton; by vm_compute|].
  split; [done|]. by intros m m' ->%list_elem_of_singleton ->%list_elem_of_singleton.
Qed.
End SubcommandExample.

Lemma subcommand_in_memory_witness :
  let t := SubcommandExample.fetched.1.1 in
  parseCLI SubcommandExample.args = Ok SubcommandExample.inv /\
  same_history SystemExample.read t FakeExample.memory /\ is_Some SubcommandExample.fetched.1.2 /\
  agrees FakeExample.root (pending_run SystemExample.read t ∅ FakeExample.memory)
    (memory_after SystemExample.read t FakeExample.memory) (w_fs SubcommandExample.fetched.2) /\
  Fake.fs_Reports (memory_after SystemExample.read t FakeExample.memory) !! "r1" <> None.
Proof.
  cbv zeta. assert (Hp : parseCLI SubcommandExample.args = Ok SubcommandExample.inv) by (vm_compute; reflexivity).
  split; [exact Hp|].
  destruct (subcommand_in_memory FakeExample.root DataExample.idn sample_mime SystemExample.read sample_report_of no_gzip
    SystemExample.json_text (fun _ => None) SubcommandExample.now) with (args := SubcommandExample.args)
    (inv := SubcommandExample.inv) (boot := SubcommandExample.boot) (w := FakeExample.w0)
    (t := SubcommandExample.fetched.1.1) (p' := SubcommandExample.fetched.1.2) (w' := SubcommandExample.fetched.2)
    (pending := (∅ : gset emailKey)) (f := FakeExample.memory) as (H1 & H2 & H3).
  - intros text r [= <-]. vm_compute. reflexivity.
  - exact Hp.
  - split; [vm_compute; reflexivity|done|vm_compute; reflexivity|discriminate].
  - exact FakeExample.new_store.
  - reflexivity.
  - exact (run_on_exec _ _ _ _ _ _ SystemExample.answer _ FakeExample.w0).
  - eapply Forall_impl; [|exact (run_on_env FakeExample.root DataExample.idn (opened_mode SubcommandExample.inv)
      (held_guard FakeExample.root SubcommandExample.inv) SystemExample.read SystemExample.json_text SystemExample.answer
      SubcommandExample.program FakeExample.w0)].
    intros [X c x] Hx. destruct c; try exact I. specialize (Hx eq_refl). simpl in Hx |- *. subst x.
    intros l [= <-]. exact SubcommandExample.sample_kept.
  - split; [exact H1|]. split; [exact H2|]. split; [exact H3|]. vm_compute. discriminate.
Defined.
