(* ===== verification/Doubles.v ===== *)
(** * Test doubles (testutil/mocks.go, test_helpers.go)

    What the tests of the subcommands put in the place of the mail server and of Slack: recorders with
    canned answers. Each method takes the double and returns its answer and the double after it. The
    store in memory is in Fake.v; [run_in_memory] runs a subcommand on all of them. *)
From S2P Require Import Prelude GoStr GoTime GoErr.
From S2P Require Tlsrpt.
From S2P Require Import StoreTypes Fs Emails NotifyTypes Prog Cmd.
From S2P Require Fake Imap.
From S2P Require Import FakeSpec.

(** ** The mail server (internal/imap/testutil/mocks.go) *)

Record FakeMailFetcher := {
  FetchMetaResult : Imap.FetchMetaResult;
  FetchMetaErr : option goerr;
  FetchMetaCalls : list Time;
  DownloadResult : gmap Z string;
  DownloadErr : option goerr;
  DownloadCalls : list (list Z);
  MarkSeenErr : option goerr;
  MarkSeenCalls : list (list Z);
  DeleteOlderThanResult : Z;
  DeleteOlderThanErr : option goerr;
  DeleteOlderThanCalls : list Time;
  SearchOlderThanResult : list Z;
  SearchOlderThanErr : option goerr;
  SearchOlderThanCalls : list Time;
  CloseErr : option goerr
}.

(** The calls recorded: what is appended to each list. *)
Definition record_fetcher (metas : list Time) (downloads marks : list (list Z)) (deletes searches : list Time)
    (f : FakeMailFetcher) : FakeMailFetcher :=
  {| FetchMetaResult := FetchMetaResult f; FetchMetaErr := FetchMetaErr f; FetchMetaCalls := FetchMetaCalls f ++ metas;
     DownloadResult := DownloadResult f; DownloadErr := DownloadErr f; DownloadCalls := DownloadCalls f ++ downloads;
     MarkSeenErr := MarkSeenErr f; MarkSeenCalls := MarkSeenCalls f ++ marks;
     DeleteOlderThanResult := DeleteOlderThanResult f; DeleteOlderThanErr := DeleteOlderThanErr f;
     DeleteOlderThanCalls := DeleteOlderThanCalls f ++ deletes;
     SearchOlderThanResult := SearchOlderThanResult f; SearchOlderThanErr := SearchOlderThanErr f;
     SearchOlderThanCalls := SearchOlderThanCalls f ++ searches; CloseErr := CloseErr f |}.

(** A copy: as a value, the list itself. *)
Definition cloneUIDs (uids : list Z) : list Z := uids.

Definition canned {A} (err : option goerr) (a : A) : result A := match err with Some e => Err e | None => Ok a end.

Definition FakeFetchMeta (since : Time) (f : FakeMailFetcher) : result Imap.FetchMetaResult * FakeMailFetcher :=
  (canned (FetchMetaErr f) (FetchMetaResult f), record_fetcher [since] [] [] [] [] f).

Definition FakeDownload (uids : list Z) (f : FakeMailFetcher) : result (gmap Z string) * FakeMailFetcher :=
  (canned (DownloadErr f) (DownloadResult f), record_fetcher [] [cloneUIDs uids] [] [] [] f).

Definition FakeMarkSeen (uids : list Z) (f : FakeMailFetcher) : option goerr * FakeMailFetcher :=
  (MarkSeenErr f, record_fetcher [] [] [cloneUIDs uids] [] [] f).

Definition FakeDeleteOlderThan (cutoff : Time) (f : FakeMailFetcher) : result Z * FakeMailFetcher :=
  (canned (DeleteOlderThanErr f) (DeleteOlderThanResult f), record_fetcher [] [] [] [cutoff] [] f).

Definition FakeSearchOlderThan (cutoff : Time) (f : FakeMailFetcher) : result (list Z) * FakeMailFetcher :=
  (canned (SearchOlderThanErr f) (SearchOlderThanResult f), record_fetcher [] [] [] [] [cutoff] f).

Definition FakeClose (f : FakeMailFetcher) : option goerr * FakeMailFetcher := (CloseErr f, f).

(** ** The notifications (cmd/tlsrpt-digest/test_helpers.go) *)

Record SpyNotificationSink := {
  Alerts : list Alert;
  Warnings : list Warning;
  SystemErrors : list SystemError;
  Summaries : list Summary;
  FlushCount : Z;
  SpyDryRun : bool;
  LogError : option goerr;
  FlushError : option goerr
}.

Definition record_sink (alerts : list Alert) (warnings : list Warning) (errors : list SystemError)
    (summaries : list Summary) (flushes : Z) (s : SpyNotificationSink) : SpyNotificationSink :=
  {| Alerts := Alerts s ++ alerts; Warnings := Warnings s ++ warnings; SystemErrors := SystemErrors s ++ errors;
     Summaries := Summaries s ++ summaries; FlushCount := FlushCount s + flushes; SpyDryRun := SpyDryRun s;
     LogError := LogError s; FlushError := FlushError s |}.

Definition SpyLogAlert (alert : Alert) (s : SpyNotificationSink) := (LogError s, record_sink [alert] [] [] [] 0 s).
Definition SpyLogWarning (warning : Warning) (s : SpyNotificationSink) := (LogError s, record_sink [] [warning] [] [] 0 s).
Definition SpyLogSystemError (err : SystemError) (s : SpyNotificationSink) := (LogError s, record_sink [] [] [err] [] 0 s).
Definition SpyLogSummary (summary : Summary) (s : SpyNotificationSink) := (LogError s, record_sink [] [] [] [summary] 0 s).
Definition SpyFlush (s : SpyNotificationSink) := (FlushError s, record_sink [] [] [] [] 1 s).
Definition SpyIsDryRun (s : SpyNotificationSink) : bool := SpyDryRun s.

(** ** A handler of log records (internal/notify/testutil/mocks.go) *)

Record SpyHandler := { Records : list record; FlushCalled : bool; FlushErr : option goerr }.

Definition SpyEnabled (_ : SpyHandler) (_ : Z) : bool := true.
Definition SpyHandle (r : record) (s : SpyHandler) : option goerr * SpyHandler :=
  (None, {| Records := Records s ++ [r]; FlushCalled := FlushCalled s; FlushErr := FlushErr s |}).
Definition SpyWithAttrs (s : SpyHandler) (_ : list attr) : SpyHandler := s.
Definition SpyWithGroup (s : SpyHandler) (_ : string) : SpyHandler := s.
Definition SpyHandlerFlush (s : SpyHandler) : option goerr * SpyHandler :=
  (FlushErr s, {| Records := Records s; FlushCalled := true; FlushErr := FlushErr s |}).
Definition RecordsCopy (s : SpyHandler) : list record := Records s.
Definition WasFlushCalled (s : SpyHandler) : bool := FlushCalled s.

(** ** A subcommand in memory *)

(** What a test holds besides the store, and what it makes the remaining hooks of a runner return. *)
Record test_env := {
  te_fetcher : FakeMailFetcher;
  te_sink : SpyNotificationSink;
  te_credentials : string * string;
  te_new_fetcher : option goerr
}.

Definition with_fetcher {X} (e : test_env) (r : X * FakeMailFetcher) : X * test_env :=
  (r.1, {| te_fetcher := r.2; te_sink := te_sink e; te_credentials := te_credentials e; te_new_fetcher := te_new_fetcher e |}).
Definition with_sink {X} (e : test_env) (r : X * SpyNotificationSink) : X * test_env :=
  (r.1, {| te_fetcher := te_fetcher e; te_sink := r.2; te_credentials := te_credentials e; te_new_fetcher := te_new_fetcher e |}).

Section doubles.
Context {Message : Type} (ReadMessage : string -> result Message).
(** The root directory, below which the emails of the store are looked up. *)
Context (root : path).

(** The text of the email stored at a path below the emails directory. *)
Definition file_in_memory (f : Fake.FakeStore) (t : path) : option string :=
  head (omap (fun ke => if decide (email_rel_path (Fake.fe_UID ke.2) (Fake.fe_UIDValidity ke.2) (Fake.fe_InternalDate ke.2) = t)
                        then Fake.fe_RawEML ke.2 else None) (map_to_list (Fake.fs_Emails f))).

(** A path of three components below the emails directory, where the store keeps its emails. *)
Definition email_path (p : path) : option path :=
  match strip (root ++ ["emails"]) p with
  | Some t => if (length t =? 3)%nat then Some t else None
  | None => None
  end.

(** [localEmailSize] and [loadLocalEML] look at the emails of the store. *)
Definition local_answer {X : Type} (c : cmd_call Message X) (f : Fake.FakeStore) : option X :=
  match c in cmd_call _ X return option X with
  | Stat p =>
      t ← email_path p;
      Some (match file_in_memory f t with
            | Some raw => Ok {| regular := true; file_size := Z.of_nat (String.length raw) |}
            | None => Err (Errno ENOENT)
            end)
  | ReadFile p =>
      t ← email_path p;
      Some (match file_in_memory f t with Some raw => Ok raw | None => Err (Errno ENOENT) end)
  | _ => None
  end.

(** The rest of the world, in any state that is threaded through. *)
Section env.
Context {E : Type} (env : forall X, cmd_call Message X -> E -> X * E).

Definition answer_in_memory {X : Type} (c : cmd_call Message X) (f : Fake.FakeStore) (e : E) : X * Fake.FakeStore * E :=
  match fake_op ReadMessage c f with
  | Some (x, f') => (x, f', e)
  | None =>
      match local_answer c f with
      | Some x => (x, f, e)
      | None => let r := env X c e in (r.1, f, r.2)
      end
  end.

(** The history, the result, the store and the environment after a run. *)
Fixpoint run_in_memory {A} (p : prog (cmd_call Message) A) (f : Fake.FakeStore) (e : E)
  : list (event (cmd_call Message)) * A * Fake.FakeStore * E :=
  match p with
  | Ret a => ([], a, f, e)
  | Call c k =>
      let '(x, f', e') := answer_in_memory c f e in
      let '(t, a, f'', e'') := run_in_memory (k x) f' e' in
      (Ev c x :: t, a, f'', e'')
  end.
End env.

(** The doubles as the rest of the world. *)
Definition doubles X (c : cmd_call Message X) (e : test_env) : X * test_env :=
  match c in cmd_call _ X return X * test_env with
  | NLogAlert a => with_sink e (SpyLogAlert a (te_sink e))
  | NLogWarning w => with_sink e (SpyLogWarning w (te_sink e))
  | NLogSystemError err => with_sink e (SpyLogSystemError err (te_sink e))
  | NLogSummary s => with_sink e (SpyLogSummary s (te_sink e))
  | NFlush => with_sink e (SpyFlush (te_sink e))
  | BuildNotifier => (None, e)
  | NewMailFetcher _ => (te_new_fetcher e, e)
  | FetchMeta since => with_fetcher e (FakeFetchMeta since (te_fetcher e))
  | Download uids => with_fetcher e (FakeDownload uids (te_fetcher e))
  | MarkSeen uids => with_fetcher e (FakeMarkSeen uids (te_fetcher e))
  | DeleteOlderThan cutoff => with_fetcher e (FakeDeleteOlderThan cutoff (te_fetcher e))
  | SearchOlderThan cutoff => with_fetcher e (FakeSearchOlderThan cutoff (te_fetcher e))
  | CloseFetcher => with_fetcher e (FakeClose (te_fetcher e))
  | Credentials => (te_credentials e, e)
  | Stat _ | ReadFile _ => (Err (Errno ENOENT), e)
  (* the store answers these *)
  | SaveRecoveryRequired _ _ _ | SaveUIDValidity _ | SaveEmail _ _ _ _ | SaveEmailMetas _ | SaveReports _
  | ApplyRecovery _ | ResetForRecovery _ => (None, e)
  | LoadRecoveryRequired => (Err (Errno ENOENT), e)
  | LoadUIDValidity => (Err (Errno ENOENT), e)
  | LoadEmails => (([], None), e)
  | GetAllReports => (Err (Errno ENOENT), e)
  | HasPendingReset | CheckRecoveryRequired => (Err (Errno ENOENT), e)
  | DeleteReportsBefore _ | DeleteEmailsBefore _ | CountReportsBefore _ | CountEmailsBefore _ => (Err (Errno ENOENT), e)
  end.
End doubles.
