(* ===== verification/DoublesProps.v ===== *)
(** * What a test in memory shows holds on disk

    A subcommand that runs on the store in memory, with any environment around it, makes a history
    of calls and answers. The same subcommand on the file store, with the same answers of the
    environment, makes the same history ([memory_run_on_disk]). This is the direction of the
    simulation opposite to that of FakeSpec.v. It is about the subcommands that do not read the reports
    or the emails back as lists, whose order differs: fetch, gc and recover ([comparable]). *)
From S2P Require Import Prelude GoStr GoTime GoErr.
From S2P Require Tlsrpt.
From S2P Require Import StoreTypes Fs Io AtomicFile Emails EmailsSpec Recovery DataProps.
From S2P Require Import Config Mailparse Prog Cmd CmdSpec Fetch Gc RecoverCmd Reprocess FetchProps CmdProps ReprocessProps System.
From S2P Require Fake.
From S2P Require Import SystemProps.
Import Fake (FakeStore, fs_Emails, fe_RawEML).
From S2P Require Import FakeProps FakeEmails FakeSpec Doubles.

(** ** The emails, looked up by their path *)

Section lookup.
Context (root : path) (pending : gset emailKey) (f : FakeStore) (s : fs) (Hag : agrees root pending f s).

Lemma file_in_memory_Some t raw : file_in_memory f t = Some raw <-> message_at f t (Raw raw).
Proof using Hag.
  unfold file_in_memory. set (g := fun ke : emailKey * Fake.FakeEmailEntry => _).
  assert (Hg : forall x, x ∈ omap g (map_to_list (fs_Emails f)) <-> message_at f t (Raw x)).
  { intros x. rewrite list_elem_of_omap. unfold message_at, g. split.
    - intros ([k e] & Hk%elem_of_map_to_list & Hx). simpl in Hx. case_decide as Ht; [|done]. by exists k, e, x.
    - intros (k & e & raw' & Hk & Hr & Ht & [= <-]). exists (k, e). split; [by apply elem_of_map_to_list|].
      simpl. by rewrite decide_True. }
  assert (Huniq : forall x y, message_at f t (Raw x) -> message_at f t (Raw y) -> x = y).
  { intros x y (k & e & r & Hk & Hr & Ht & [= ->]) (k' & e' & r' & Hk' & Hr' & Ht' & [= ->]). rewrite Ht in Ht'.
    pose proof (emails_ok root pending f s Hag _ _ Hk) as (-> & Hu & Hv & _).
    pose proof (emails_ok root pending f s Hag _ _ Hk') as (-> & Hu' & Hv' & _).
    apply email_rel_path_inj in Ht' as [Hu'' Hv'']; [|done..]. rewrite <- Hu'', <- Hv'' in Hk'. congruence. }
  split.
  - intros H%head_Some_elem_of. by apply Hg.
  - intros H. pose proof (proj2 (Hg raw) H) as Hin. destruct (omap g _) as [|x l]; [by apply not_elem_of_nil in Hin|].
    simpl. f_equal. apply Huniq; [|done]. apply Hg. by left.
Qed.

Lemma email_path_Some p t : email_path root p = Some t -> p = root ++ "emails" :: t /\ length t = 3%nat.
Proof.
  unfold email_path. destruct (strip (root ++ ["emails"]) p) as [u|] eqn:E; [|done].
  apply strip_Some in E as ->. destruct (Nat.eqb_spec (length u) 3); [|done]. intros [= <-]. by rewrite <- app_assoc.
Qed.

Lemma stat_email p t : email_path root p = Some t ->
  match file_in_memory f t with
  | Some raw => exists k, fs_stat s p = Ok (File k (Raw raw))
  | None => fs_stat s p = Err (Errno ENOENT)
  end.
Proof using Hag.
  intros [-> Ht]%email_path_Some. destruct (ag_files _ _ _ _ Hag) as [[_ Hk] Hf].
  destruct (file_in_memory f t) as [raw|] eqn:E.
  - apply file_in_memory_Some, Hf in E as [k E]. exists k. by apply (tree_lookup root pending f s Hag).
  - unfold fs_stat. destruct t as [|a [|b [|c [|]]]]; try discriminate Ht.
    replace (root ++ ["emails"; a; b; c]) with ((root ++ ["emails"; a; b]) ++ [c]) by by rewrite <- app_assoc.
    rewrite parent_app. destruct (dir_err s _) as [e|] eqn:Ed.
    + apply dir_err_Some in Ed as [->|[_ Hb]]; [done|].
      by apply (below_not_blocked root pending f s [a; b] Hag) in Hb; [|simpl; lia].
    + rewrite <- app_assoc. simpl. destruct (s !! _) as [n|] eqn:En; [exfalso|done]. pose proof (Hk _ n En) as Hn.
      destruct n as [k|k x]; [done|]. assert (Hm : message_at f [a; b; c] x) by (apply Hf; by exists k).
      pose proof Hm as (k' & e & raw & _ & _ & _ & ->). apply file_in_memory_Some in Hm. congruence.
Qed.
End lookup.

(** ** Runs *)

(** Calls whose answers do not depend on the order in which a store lists things, and of local files
    only the emails of the store. *)
Definition comparable {Message} (root : path) (X : Type) (c : cmd_call Message X) : bool :=
  match c with
  | GetAllReports | LoadEmails => false
  | Stat p | ReadFile p => match email_path root p with Some _ => true | None => false end
  | _ => true
  end.

Section runs.
Context (root : path) (idn : IMAPIdentity) (md : OpenMode) (guard : SummaryConsistencyGuard).
Context {Message : Type} (ReadMessage : string -> result Message) (json_text : content -> string).
Context {E : Type} (env : forall X, cmd_call Message X -> E -> X * E).
Local Abbreviation store_op := (store_op root idn md guard ReadMessage json_text).
Local Abbreviation run := (run_in_memory ReadMessage root env).

Lemma comparable_same {X : Type} (c : cmd_call Message X) x y : comparable root X c = true -> same_answer c x y -> x = y.
Proof. by destruct c. Qed.

(** A local file of the store, on disk and in memory. *)
Lemma local_same {X : Type} (c : cmd_call Message X) m pending f s tm :
  agrees root pending f s -> comparable root X c = true -> store_op c = Some m -> fake_op ReadMessage c f = None ->
  exists x, local_answer root c f = Some x /\ gives tm m x (agrees root pending f) s.
Proof.
  intros Hag Hc Hm Hf. destruct c; try discriminate Hm; try discriminate Hf; injection Hm as <-; simpl in Hc |- *;
    (destruct (email_path root p) as [t|] eqn:Ep; [|done]); simpl; (eexists; split; [done|]);
    pose proof (stat_email root pending f s Hag p t Ep) as Hs.
  - apply (gives_bind _ _ _ (fs_stat s p)); [by apply wp_read|].
    destruct (file_in_memory f t) as [raw|]; [destruct Hs as [k ->]|rewrite Hs]; done.
  - apply (gives_bind _ _ _ (fs_read_file p s)); [by apply wp_read|]. unfold fs_read_file.
    destruct (file_in_memory f t) as [raw|]; [destruct Hs as [k ->]|rewrite Hs]; done.
Qed.

(** A call in memory is a call on disk, or one of the environment. *)
Lemma answer_on_disk {X : Type} (c : cmd_call Message X) pending f s tm e :
  agrees root pending f s -> comparable root X c = true ->
  admissible root md guard pending f c ->
  let r := answer_in_memory ReadMessage root env c f e in
  match store_op c with
  | Some m => gives tm m r.1.1 (agrees root (pending_after pending f c) r.1.2) s
  | None => r.1.2 = f /\ pending_after pending f c = pending
  end /\ r.1.2 = fake_after ReadMessage c f.
Proof.
  intros Hag Hc Hadm r. unfold r, answer_in_memory, fake_after.
  destruct (fake_op ReadMessage c f) as [[y f']|] eqn:Ef.
  - split; [|done]. destruct (store_op c) as [m|] eqn:Em; [|by destruct c].
    destruct (call_gives root idn md guard ReadMessage json_text c m pending f s tm Hag Hadm Em) as (x & Hg & Hxy).
    rewrite (comparable_same c x y Hc (Hxy y f' Ef)) in Hg. unfold fake_after in Hg. rewrite Ef in Hg. exact Hg.
  - destruct (store_op c) as [m|] eqn:Em.
    + destruct (local_same c m pending f s tm Hag Hc Em Ef) as (x & -> & Hg). split; [|done].
      replace (pending_after pending f c) with pending by by destruct c. exact Hg.
    + destruct (local_answer root c f) eqn:El; simpl; (split; [split; [done|by destruct c]|done]).
Qed.

(** C6: what a test in memory shows holds on disk: when a subcommand that is [comparable] has run on a
    store in memory, with whatever environment, and the calls it made are admitted, then on every file
    system that agrees with that store and without faults, the same subcommand on the file store,
    given the same answers by the environment, runs to its end with the same history and the same
    result, and its files agree with what the store in memory has become. *)
Theorem memory_run_on_disk {A} (p : prog (cmd_call Message) A) w pending f e :
  only (comparable root) p -> agrees root pending f (w_fs w) -> w_faults w = [] ->
  let '(t, a, f', e') := run p f e in
  admitted root md guard ReadMessage t pending f ->
  exists w', exec root idn md guard ReadMessage json_text p w t (Some (Ret a)) w' /\ w_faults w' = [] /\
    agrees root (pending_run ReadMessage t pending f) f' (w_fs w').
Proof.
  revert w pending f e. induction p as [a|X c k IH]; intros w pending f e Ho Hag Hw.
  - simpl. intros _. exists w. split_and!; [constructor|done..].
  - destruct Ho as [Hc Ho]. destruct w as [s fl tm]. simpl in Hag, Hw. subst fl. simpl.
    pose proof (answer_on_disk c pending f s tm e Hag Hc) as Hans.
    destruct (answer_in_memory ReadMessage root env c f e) as [[x f1] e1]. simpl in Hans.
    destruct (run (k x) f1 e1) as [[[t a] f'] e'] eqn:Er. simpl. intros [Hadm Hrest].
    destruct (Hans Hadm) as [Hstep ->]. destruct (store_op c) as [m|] eqn:Em.
    + specialize (Hstep [] ltac:(done)). destruct (m _) as [[x'|] w1] eqn:Erun; [|by destruct Hstep].
      destruct Hstep as (Hfl & _ & -> & Hag1).
      specialize (IH x w1 _ _ e1 (Ho x) Hag1 (Hfl eq_refl)). rewrite Er in IH.
      destruct (IH Hrest) as (w' & Hx & Hw' & Hag'). exists w'. split_and!; [by econstructor|done..].
    + destruct Hstep as [Hf Hp]. rewrite Hf, Hp in *.
      specialize (IH x (World s [] tm) pending f e1 (Ho x) Hag eq_refl). rewrite Er in IH.
      destruct (IH Hrest) as (w' & Hx & Hw' & Hag'). exists w'. split_and!; [by constructor|done..].
Qed.
End runs.

(** ** The subcommands *)

Section subcommands.
Context (root : path).
Context {body : Type} (mime : Mime body) (ReadMessage : string -> result (entity body))
  (json_unmarshal : string -> Tlsrpt.Report + string) (gunzip : string -> Tlsrpt.gzip_stream).

Lemma looks_comparable X (c : cmd_call (entity body) X) : looks_at root X c -> comparable root X c = true.
Proof.
  assert (Hp : forall uid uv d, email_path root (fetchEmailPath root uid uv d) <> None).
  { intros uid uv d. unfold email_path, fetchEmailPath.
    replace (root ++ ["emails"; fmt_d uv; format_yyyymm d; String.append (pad_zeros 10 (fmt_d uid)) ".eml"])
      with ((root ++ ["emails"]) ++ [fmt_d uv; format_yyyymm d; String.append (pad_zeros 10 (fmt_d uid)) ".eml"])
      by by rewrite <- app_assoc.
    by rewrite strip_app. }
  destruct c; try done; simpl; intros (uid & uv & d & ->); specialize (Hp uid uv d); by destruct (email_path _ _).
Qed.

Lemma save_downloaded_comparable states raws uid mailbox :
  only (comparable root) (save_downloaded (body := body) states raws uid mailbox).
Proof.
  unfold notifyFetchSystemError.
  induction states as [|s states IH]; cbn [save_downloaded]; unfold notifyFetchSystemError; only_cmd; done.
Qed.

Lemma fetch_comparable opts cfg now :
  only (comparable root) (Fetch.fetch_Run mime ReadMessage json_unmarshal gunzip opts cfg root now).
Proof.
  unfold Fetch.fetch_Run, Fetch.fetch_connected, Fetch.fetch_process, fetchValidateUID, fetchDownloadAndSave,
    fetchMarkSeen, notifyFetchSystemError.
  repeat first
    [ progress only_cmd
    | apply only_states_at, looks_comparable
    | apply only_collect_at, looks_comparable
    | apply save_downloaded_comparable
    | case_match | done ].
Qed.

Lemma gc_comparable opts cfg now : only (comparable (Message := entity body) root) (gc_Run opts cfg now).
Proof.
  unfold gc_Run, runDryRun, runDelete, deleteIMAPOlderThan, searchIMAPOlderThan, notifyGCSystemError.
  repeat first [progress only_cmd | case_match | done].
Qed.

Lemma recover_comparable opts cfg : only (comparable (Message := entity body) root) (recover_Run opts cfg).
Proof.
  unfold recover_Run, handleNoRecoveryRequired, executeMode, runKeepOld, runDiscardOld.
  repeat first [progress only_cmd | case_match | done].
Qed.
End subcommands.

(** ** An example *)

Module DoublesExample.
(** A test of fetch: one new message with one report. *)
Definition fetcher : FakeMailFetcher :=
  {| FetchMetaResult := sample_meta; FetchMetaErr := None;
     FetchMetaCalls := []; DownloadResult := {[7 := "eml"]}; DownloadErr := None; DownloadCalls := []; MarkSeenErr := None;
     MarkSeenCalls := []; DeleteOlderThanResult := 0; DeleteOlderThanErr := None; DeleteOlderThanCalls := [];
     SearchOlderThanResult := []; SearchOlderThanErr := None; SearchOlderThanCalls := []; CloseErr := None |}.
Definition sink : SpyNotificationSink :=
  {| Alerts := []; Warnings := []; SystemErrors := []; Summaries := []; FlushCount := 0; SpyDryRun := false;
     LogError := None; FlushError := None |}.
Definition env : test_env :=
  {| te_fetcher := fetcher; te_sink := sink; te_credentials := ("user", "pass"); te_new_fetcher := None |}.

Definition tested := run_in_memory SystemExample.read FakeExample.root doubles FakeExample.program FakeExample.memory env.

(** What the test asserts. *)
Example test_passes :
  let '(_, result, f, e) := tested in
  result = (exitOK, None) /\ Fake.fs_Reports f !! "r1" <> None /\ MarkSeenCalls (te_fetcher e) = [[7]] /\
  length (Alerts (te_sink e)) = 1%nat /\ FlushCount (te_sink e) = 1.
Proof. vm_compute. repeat split; discriminate. Qed.
End DoublesExample.

Lemma memory_run_on_disk_witness :
  let r := DoublesExample.tested in
  exists w', exec FakeExample.root DataExample.idn OpenReadWrite noopSummaryConsistencyGuard SystemExample.read
      SystemExample.json_text FakeExample.program FakeExample.w0 r.1.1.1 (Some (Ret (exitOK, None))) w' /\
    w_faults w' = [] /\
    agrees FakeExample.root (pending_run SystemExample.read r.1.1.1 ∅ FakeExample.memory) r.1.2 (w_fs w').
Proof.
  cbv zeta.
  pose proof (memory_run_on_disk FakeExample.root DataExample.idn OpenReadWrite noopSummaryConsistencyGuard
    SystemExample.read SystemExample.json_text doubles FakeExample.program FakeExample.w0 ∅ FakeExample.memory
    DoublesExample.env
    (fetch_comparable FakeExample.root sample_mime SystemExample.read sample_report_of no_gzip (sample_opts false)
       sample_config 1700000000) FakeExample.new_store eq_refl) as H.
  fold DoublesExample.tested in H. assert (Ha : DoublesExample.tested.1.1.2 = (exitOK, None)) by (vm_compute; reflexivity).
  assert (Hadm : admitted FakeExample.root OpenReadWrite noopSummaryConsistencyGuard SystemExample.read
    DoublesExample.tested.1.1.1 ∅ FakeExample.memory) by (apply (bool_decide_unpack _); vm_compute; exact I).
  revert H Ha Hadm. destruct DoublesExample.tested as [[[t a] f'] e']. simpl. intros H -> Hadm. exact (H Hadm).
Defined.
