(* ===== verification/Workflow.v ===== *)
(** * The check of the CI workflow (.github/scripts/verify-integration-workflow.go)

    A program of its own, run in the repository: it reads the workflow file and fails with a message
    unless the job of the integration tests is set up and the job of the other tests is kept free of
    them. The file and the YAML decoder are arguments; a decoded value is a [value]. What is printed is
    kept line by line, and a failure ends the program. *)
From S2P Require Import Prelude GoStr GoErr.

(** ** Decoded YAML *)

(** A value of type [any]: what [yaml.v3] decodes to. A map with string keys has each key once. The
    pairs of a [map[any]any] are listed in the order in which the program happens to visit them.
    Numbers with a fraction and timestamps are carried with their type and what [%v] prints. *)
Inductive value : Type :=
  | VNull
  | VBool (b : bool)
  | VInt (n : Z)
  | VString (s : string)
  | VList (l : list value)
  | VMap (m : list (string * value))
  | VAnyMap (m : list (value * value))
  | VOther (go_type text : string).

Abbreviation go_map := (list (string * value)).

(** [v, ok := m[key]] *)
Fixpoint lookup_key (key : string) (m : go_map) : option value :=
  match m with
  | [] => None
  | (k, v) :: m' => if String.eqb k key then Some v else lookup_key key m'
  end.

(** [m[key] = v] *)
Fixpoint set_key (key : string) (v : value) (m : go_map) : go_map :=
  match m with
  | [] => [(key, v)]
  | (k, w) :: m' => if String.eqb k key then (k, v) :: m' else (k, w) :: set_key key v m'
  end.

Definition key_leb (a b : string * string) : bool := str_leb a.1 b.1.

(** [fmt.Sprintf("%v", v)]; maps are printed in the order of their keys. *)
Fixpoint sprint (v : value) : string :=
  let entry (kv : string * string) := Join "" [kv.1; ":"; kv.2] in
  match v with
  | VNull => "<nil>"
  | VBool b => if b then "true" else "false"
  | VInt n => fmt_d n
  | VString s => s
  | VList l => Join "" ["["; Join " " (map sprint l); "]"]
  | VMap m => Join "" ["map["; Join " " (map entry (merge_sort key_leb (map (fun kv => (kv.1, sprint kv.2)) m))); "]"]
  | VAnyMap m => Join "" ["map["; Join " " (map (fun kv => entry (sprint kv.1, sprint kv.2)) m); "]"]
  | VOther _ text => text
  end.

(** [fmt.Sprintf("%T", v)] *)
Definition type_name (v : value) : string :=
  match v with
  | VNull => "<nil>"
  | VBool _ => "bool"
  | VInt _ => "int"
  | VString _ => "string"
  | VList _ => "[]interface {}"
  | VMap _ => "map[string]interface {}"
  | VAnyMap _ => "map[interface {}]interface {}"
  | VOther go_type _ => go_type
  end.

(** ** Checks *)

(** A check prints lines and goes on, or fails with what [fatalf] prints. *)
Definition check (A : Type) : Type := list string -> list string * (A + string).

#[export] Instance check_ret : MRet check := fun A a out => (out, inl a).
#[export] Instance check_bind : MBind check := fun A B f m out =>
  match m out with
  | (out', inl a) => f a out'
  | (out', inr msg) => (out', inr msg)
  end.

Definition fatalf {A} (msg : string) : check A := fun out => (out, inr (String.append "FAIL: " msg)).
Definition println (line : string) : check unit := fun out => (out ++ [line], inl tt).

(** ** The helpers *)

Definition toMap (v : value) : option go_map :=
  match v with
  | VMap x => Some x
  | VAnyMap x => Some (foldl (fun out kv => set_key (sprint kv.1) kv.2 out) [] x)
  | _ => None
  end.

Definition mustMap (m : go_map) (key : string) : check go_map :=
  match lookup_key key m with
  | None => fatalf (Join "" ["key "; fmt_q key; " not found"])
  | Some v =>
      match toMap v with
      | None => fatalf (Join "" ["key "; fmt_q key; " is not a map"])
      | Some res => mret res
      end
  end.

Definition mustString (m : go_map) (key : string) : check string :=
  match lookup_key key m with
  | None => fatalf (Join "" ["key "; fmt_q key; " not found"])
  | Some (VString s) => mret s
  | Some v => fatalf (Join "" ["key "; fmt_q key; " is not a string (got "; type_name v; ")"])
  end.

Definition asStringList (v : option value) : list string :=
  match v with
  | Some (VList x) => map sprint x
  | Some (VString x) => [x]
  | _ => []
  end.

Definition asList (v : option value) : list value :=
  match v with Some (VList l) => l | _ => [] end.

Definition assertContains (l : list string) (substr msg : string) : check unit :=
  if existsb (fun s => Contains s substr) l then mret tt
  else fatalf (Join "" [msg; " (substr "; fmt_q substr; " not found in ["; Join " " l; "])"]).

Definition assertContainsSubstr (l : list string) (substr msg : string) : check unit := assertContains l substr msg.

Definition assertEqual (got want msg : string) : check unit :=
  if negb (String.eqb got want) then fatalf (Join "" [msg; ": want "; fmt_q want; " got "; fmt_q got]) else mret tt.

(** [run, _ := m["run"].(string)], of a nil map if the step is not a map. *)
Definition string_field (v : option go_map) (key : string) : option string :=
  match lookup_key key (default [] v) with Some (VString s) => Some s | _ => None end.

Definition step_run (s : value) : option string := string_field (toMap s) "run".

Definition assertStepRuns (job : go_map) (runSubstr msg : string) : check unit :=
  if existsb (fun s => Contains (default "" (step_run s)) runSubstr) (asList (lookup_key "steps" job))
  then mret tt
  else fatalf (Join "" [msg; " (step with "; fmt_q runSubstr; " not found)"]).

(** ** The jobs *)

Definition required_env : list string :=
  ["IMAP_TEST_HOST"; "IMAP_TEST_PORT"; "IMAP_TEST_SMTP_HOST"; "IMAP_TEST_SMTP_PORT"; "IMAP_TEST_USER"; "IMAP_TEST_PASS";
   "IMAP_TEST_MAILBOX"].

Fixpoint check_env (env : go_map) (keys : list string) : check unit :=
  match keys with
  | [] => mret tt
  | key :: keys' =>
      match lookup_key key env with
      | None => fatalf (String.append "integration-test.env missing " key)
      | Some _ => check_env env keys'
      end
  end.

Definition checkIntegrationJob (jobs : go_map) : check unit :=
  job ← mustMap jobs "integration-test";
  let needs := asStringList (lookup_key "needs" job) in
  _ ← assertContains needs "check-changes" "integration-test.needs must include check-changes";
  ifCond ← mustString job "if";
  _ ← assertContains [ifCond] "has-integration-changes" "integration-test.if must reference has-integration-changes";
  services ← mustMap job "services";
  gm ← mustMap services "greenmail";
  image ← mustString gm "image";
  _ ← assertEqual image "greenmail/standalone:2.1.3" "greenmail service image";
  let ports := asStringList (lookup_key "ports" gm) in
  _ ← assertContainsSubstr ports "3993:3993" "greenmail must expose port 3993";
  _ ← assertContainsSubstr ports "3025:3025" "greenmail must expose port 3025";
  gmEnv ← mustMap gm "env";
  opts ← mustString gmEnv "GREENMAIL_OPTS";
  _ ← assertContains [opts] "greenmail.users=imap-test" "GREENMAIL_OPTS must register fixed user";
  _ ← assertContains [opts] "greenmail.users.login=email" "GREENMAIL_OPTS must set login=email";
  env ← mustMap job "env";
  _ ← check_env env required_env;
  _ ← assertStepRuns job "make test-integration" "integration-test must run make test-integration";
  println "PASS: integration-test job".

(** The loop over the steps of the job of the unit tests. *)
Fixpoint refuse_integration (steps : list value) : check unit :=
  match steps with
  | [] => mret tt
  | s :: steps' =>
      let run := default "" (step_run s) in
      if Contains run "-tags integration" || Contains run "test-integration"
      then fatalf (Join "" ["test job step "; fmt_q run; " must not run integration tests"])
      else refuse_integration steps'
  end.

Definition checkTestJob (jobs : go_map) : check unit :=
  job ← mustMap jobs "test";
  match lookup_key "services" job with
  | Some _ => fatalf "test job must not have a services block (no greenmail)"
  | None =>
      _ ← refuse_integration (asList (lookup_key "steps" job));
      _ ← assertStepRuns job "make test" "test job must run make test";
      println "PASS: test job"
  end.

Definition checkNonCodeNotification (jobs : go_map) : check unit :=
  match lookup_key "non-code-only-notification" jobs with
  | None => println "SKIP: non-code-only-notification job not found"
  | Some job =>
      let ifCond := default "" (string_field (toMap job) "if") in
      if negb (Contains ifCond "has-integration-changes")
      then fatalf "non-code-only-notification.if must reference has-integration-changes to avoid false 'all skipped' display"
      else println "PASS: non-code-only-notification job"
  end.

Section main.
(** [os.ReadFile] of the workflow, and [yaml.Unmarshal]. *)
Context (ReadFile : result string) (Unmarshal : string -> result go_map).

Definition main_checks : check unit :=
  match ReadFile with
  | Err err => fatalf (String.append "read ci.yml: " (Error err))
  | Ok data =>
      match Unmarshal data with
      | Err err => fatalf (String.append "parse ci.yml: " (Error err))
      | Ok wf =>
          jobs ← mustMap wf "jobs";
          _ ← checkIntegrationJob jobs;
          _ ← checkTestJob jobs;
          _ ← checkNonCodeNotification jobs;
          println "PASS: all checks passed"
      end
  end.

(** The lines on stdout, the line on stderr, and the exit status. *)
Definition main : list string * option string * Z :=
  match main_checks [] with
  | (out, inl _) => (out, None, 0)
  | (out, inr msg) => (out, Some msg, 1)
  end.
End main.

(** ** What is checked *)

(** [sub] occurs in [s]. *)
Definition occurs (sub s : string) : Prop := exists pre post, s = String.append pre (String.append sub post).

Definition has_map (m : go_map) (key : string) (P : go_map -> Prop) : Prop :=
  exists v res, lookup_key key m = Some v /\ toMap v = Some res /\ P res.

Definition has_string (m : go_map) (key : string) (P : string -> Prop) : Prop :=
  exists s, lookup_key key m = Some (VString s) /\ P s.

(** A string, or an item of a list, in which [sub] occurs. *)
Definition mentions (v : option value) (sub : string) : Prop := exists s, s ∈ asStringList v /\ occurs sub s.

Definition runs_step (job : go_map) (command : string) : Prop :=
  exists s run, s ∈ asList (lookup_key "steps" job) /\ step_run s = Some run /\ occurs command run.

Definition greenmail_ok (gm : go_map) : Prop :=
  has_string gm "image" (eq "greenmail/standalone:2.1.3") /\
  mentions (lookup_key "ports" gm) "3993:3993" /\ mentions (lookup_key "ports" gm) "3025:3025" /\
  has_map gm "env" (fun env => has_string env "GREENMAIL_OPTS" (fun opts =>
    occurs "greenmail.users=imap-test" opts /\ occurs "greenmail.users.login=email" opts)).

(** The integration tests run after the changes were classified, only when they say so, with a mail
    server beside them and its address in the environment. *)
Definition integration_job_ok (job : go_map) : Prop :=
  mentions (lookup_key "needs" job) "check-changes" /\ has_string job "if" (occurs "has-integration-changes") /\
  has_map job "services" (fun services => has_map services "greenmail" greenmail_ok) /\
  has_map job "env" (fun env => forall key, key ∈ required_env -> is_Some (lookup_key key env)) /\
  runs_step job "make test-integration".

(** The other tests run without services, and no step runs integration tests. *)
Definition test_job_ok (job : go_map) : Prop :=
  lookup_key "services" job = None /\
  (forall s run, s ∈ asList (lookup_key "steps" job) -> step_run s = Some run ->
     ~ occurs "-tags integration" run /\ ~ occurs "test-integration" run) /\
  runs_step job "make test".

Definition notification_ok (jobs : go_map) : Prop :=
  forall job, lookup_key "non-code-only-notification" jobs = Some job ->
    exists ifCond, string_field (toMap job) "if" = Some ifCond /\ occurs "has-integration-changes" ifCond.

Definition workflow_ok (wf : go_map) : Prop :=
  has_map wf "jobs" (fun jobs =>
    has_map jobs "integration-test" integration_job_ok /\ has_map jobs "test" test_job_ok /\ notification_ok jobs).

(** ** The checks are what is checked *)

Lemma strip_prefix_spec p s r : strip_prefix p s = Some r <-> s = String.append p r.
Proof.
  revert s. induction p as [|a p IH]; intros s; simpl; [by split; [intros [= ->]|intros ->]|].
  destruct s as [|b s]; [done|]. destruct (Ascii.eqb_spec a b) as [->|Hne]; [|by split; [|intros [= ? ?]; congruence]].
  rewrite IH. by split; [intros ->|intros [= ->]].
Qed.

Lemma HasPrefix_spec s p : HasPrefix s p = true <-> exists post, s = String.append p post.
Proof.
  unfold HasPrefix. split.
  - destruct (strip_prefix p s) as [r|] eqn:E; [|done]. intros _. exists r. by apply strip_prefix_spec.
  - intros [post H%strip_prefix_spec]. by rewrite H.
Qed.

Lemma Contains_occurs s sub : Contains s sub = true <-> occurs sub s.
Proof.
  induction s as [|c s IH]; simpl; rewrite orb_true_iff, HasPrefix_spec.
  - split; [intros [[post H]|H]; [by exists "", post|done]|].
    intros ([|c pre] & post & H); [left; by exists post|done].
  - rewrite IH. split.
    + intros [[post H]|(pre & post & ->)]; [by exists "", post|by exists (String c pre), post].
    + intros ([|d pre] & post & H); [left; by exists post|]. injection H as -> ->. right. by exists pre, post.
Qed.

(** [m] succeeds exactly if [P]. *)
Definition accepts (m : check unit) (P : Prop) : Prop :=
  forall out, match (m out).2 with inl _ => P | inr _ => ~ P end.

Lemma accepts_iff m P Q : accepts m P -> (P <-> Q) -> accepts m Q.
Proof. intros H HPQ out. specialize (H out). destruct ((m out).2); tauto. Qed.

Lemma accepts_println line : accepts (println line) True.
Proof. by intros out. Qed.

Lemma accepts_seq (m m' : check unit) P Q : accepts m P -> accepts m' Q -> accepts (_ ← m; m') (P /\ Q).
Proof.
  intros Hm Hm' out. specialize (Hm out). unfold mbind, check_bind. destruct (m out) as [out' [[]|msg]]; simpl in *; [|tauto].
  specialize (Hm' out'). destruct ((m' out').2); tauto.
Qed.

Lemma accepts_mustMap jobs key (f : go_map -> check unit) P : (forall m, accepts (f m) (P m)) ->
  accepts (m ← mustMap jobs key; f m) (has_map jobs key P).
Proof.
  intros Hf out. unfold mustMap, has_map, mbind, check_bind.
  destruct (lookup_key key jobs) as [v|]; simpl; [|naive_solver].
  destruct (toMap v) as [m|] eqn:E; simpl; [|naive_solver]. specialize (Hf m out). destruct ((f m out).2); naive_solver.
Qed.

Lemma accepts_mustString m key (f : string -> check unit) P : (forall s, accepts (f s) (P s)) ->
  accepts (s ← mustString m key; f s) (has_string m key P).
Proof.
  intros Hf out. unfold mustString, has_string, mbind, check_bind.
  destruct (lookup_key key m) as [v|]; simpl; [|naive_solver].
  destruct v as [| | |s| | | |]; simpl; try naive_solver. specialize (Hf s out). destruct ((f s out).2); naive_solver.
Qed.

Lemma accepts_contains v sub msg : accepts (assertContains (asStringList v) sub msg) (mentions v sub).
Proof.
  intros out. unfold assertContains, mentions.
  destruct (existsb _ _) eqn:E; simpl.
  - apply existsb_exists in E as (s & Hs%list_elem_of_In & Hc%Contains_occurs). by exists s.
  - intros (s & Hs%list_elem_of_In & Hc%Contains_occurs). apply not_true_iff_false in E. apply E, existsb_exists. by exists s.
Qed.

Lemma accepts_occurs s sub msg : accepts (assertContains [s] sub msg) (occurs sub s).
Proof.
  eapply accepts_iff; [apply (accepts_contains (Some (VString s)))|]. unfold mentions. simpl.
  setoid_rewrite list_elem_of_singleton. naive_solver.
Qed.

Lemma accepts_equal got want msg : accepts (assertEqual got want msg) (want = got).
Proof. intros out. unfold assertEqual. destruct (String.eqb_spec got want); simpl; congruence. Qed.

Lemma accepts_env env keys : accepts (check_env env keys) (forall key, key ∈ keys -> is_Some (lookup_key key env)).
Proof.
  intros out. induction keys as [|key keys IH]; simpl; [set_solver|].
  destruct (lookup_key key env) as [v|] eqn:E; simpl.
  - destruct ((check_env env keys out).2); [|set_solver]. intros k [->|Hk]%elem_of_cons; [by exists v|by apply IH].
  - intros H. destruct (H key) as [v Hv]; [by left|congruence].
Qed.

Lemma accepts_steps job command msg : command <> "" -> accepts (assertStepRuns job command msg) (runs_step job command).
Proof.
  intros Hc out. unfold assertStepRuns, runs_step. destruct (existsb _ _) eqn:E; simpl.
  - apply existsb_exists in E as (s & Hs%list_elem_of_In & Hr). exists s.
    destruct (step_run s) as [run|]; simpl in Hr; [exists run; by rewrite <- Contains_occurs|]. by destruct command.
  - intros (s & run & Hs%list_elem_of_In & Hr & Ho%Contains_occurs). apply not_true_iff_false in E. apply E, existsb_exists.
    exists s. by rewrite Hr.
Qed.

Lemma accepts_refuse steps : accepts (refuse_integration steps)
  (forall s run, s ∈ steps -> step_run s = Some run -> ~ occurs "-tags integration" run /\ ~ occurs "test-integration" run).
Proof.
  intros out. induction steps as [|s steps IH]; simpl; [set_solver|].
  destruct (_ || _) eqn:E; simpl.
  - intros H. destruct (step_run s) as [run|] eqn:Er; [|done]. destruct (H s run) as [H1 H2]; [by left|done|].
    rewrite <- Contains_occurs in H1, H2. simpl in E. apply orb_true_iff in E. tauto.
  - apply orb_false_iff in E as [E1 E2]. destruct ((refuse_integration steps out).2).
    + intros s' run [->|Hs]%elem_of_cons Hr; [|by apply (IH s')]. rewrite <- !Contains_occurs.
      rewrite Hr in E1, E2. simpl in E1, E2. by rewrite E1, E2.
    + intros H. apply IH. intros s' run Hs. apply H. by right.
Qed.

Lemma accepts_integration jobs : accepts (checkIntegrationJob jobs) (has_map jobs "integration-test" integration_job_ok).
Proof.
  eapply accepts_iff.
  - unfold checkIntegrationJob, assertContainsSubstr. apply accepts_mustMap. intros job. cbv zeta.
    repeat first [apply accepts_mustMap; intros ? | apply accepts_mustString; intros ? | apply accepts_seq
      | apply accepts_contains | apply accepts_occurs | apply accepts_equal | apply accepts_env
      | apply accepts_steps; done | apply accepts_println].
  - unfold integration_job_ok, greenmail_ok, has_map, has_string. generalize required_env. naive_solver.
Qed.

Lemma accepts_test jobs : accepts (checkTestJob jobs) (has_map jobs "test" test_job_ok).
Proof.
  unfold checkTestJob. apply accepts_mustMap. intros job. unfold test_job_ok.
  destruct (lookup_key "services" job) as [v|].
  - intros out. simpl. naive_solver.
  - eapply accepts_iff; [apply accepts_seq; [apply accepts_refuse|
      apply accepts_seq; [by apply accepts_steps|apply accepts_println]]|]. naive_solver.
Qed.

Lemma accepts_notification jobs : accepts (checkNonCodeNotification jobs) (notification_ok jobs).
Proof.
  unfold checkNonCodeNotification, notification_ok. intros out.
  destruct (lookup_key "non-code-only-notification" jobs) as [job|]; [|done].
  destruct (string_field (toMap job) "if") as [ifCond|] eqn:E; simpl.
  - destruct (Contains ifCond "has-integration-changes") eqn:Ec; simpl.
    + intros job' [= <-]. exists ifCond. split; [done|]. by apply Contains_occurs.
    + intros H. destruct (H job eq_refl) as (i & Hi & Ho). apply Contains_occurs in Ho. congruence.
  - intros H. destruct (H job eq_refl) as (i & Hi & Ho). congruence.
Qed.

Lemma accepts_workflow wf : accepts (main_checks (Ok "") (fun _ => Ok wf)) (workflow_ok wf).
Proof.
  simpl. apply accepts_mustMap. intros jobs.
  eapply accepts_iff; [apply accepts_seq; [apply accepts_integration|
    apply accepts_seq; [apply accepts_test|apply accepts_seq; [apply accepts_notification|apply accepts_println]]]|].
  tauto.
Qed.

(** C39: the program succeeds, with status 0 and nothing on stderr, exactly if the workflow file can
    be read and decoded, its job of integration tests is set up, its job of unit tests is kept free of
    them, and the notification about skipped jobs, if there is one, takes integration changes into
    account; otherwise it ends with status 1 and a message. *)
Theorem main_accepts ReadFile Unmarshal :
  let '(out, msg, status) := main ReadFile Unmarshal in
  (status = 0 <-> exists data wf, ReadFile = Ok data /\ Unmarshal data = Ok wf /\ workflow_ok wf) /\
  (status = 0 /\ msg = None \/ status = 1 /\ is_Some msg).
Proof.
  unfold main, main_checks.
  destruct ReadFile as [data|err]; [|split; [split; [done|intros (d & w & H & _); done]|by right]].
  destruct (Unmarshal data) as [wf|err] eqn:E; [|split; [split; [done|intros (d & w & H & H' & _); congruence]|by right]].
  pose proof (accepts_workflow wf []) as H. unfold main_checks in H.
  revert H. generalize (mustMap wf "jobs" ≫= fun jobs => checkIntegrationJob jobs ≫= fun _ => checkTestJob jobs
    ≫= fun _ => checkNonCodeNotification jobs ≫= fun _ => println "PASS: all checks passed"). intros m H.
  destruct (m []) as [out [[]|msg]]; simpl in H; (split; [|by auto]); split; try done.
  - intros _. by exists data, wf.
  - intros (d & w & [= <-] & H' & Hok). congruence.
Qed.

(** ** The workflow of the repository *)

Module WorkflowExample.
Definition step (run : string) : value := VMap [("name", VString "step"); ("run", VString run)].

(** The jobs the program looks at, as .github/workflows/ci.yml has them. *)
Definition integration_job : value :=
  VMap [("name", VString "Integration Test"); ("runs-on", VString "ubuntu-latest"); ("needs", VString "check-changes");
        ("if", VString "needs.check-changes.outputs.has-integration-changes == 'true'");
        ("services", VMap [("greenmail", VMap [
           ("image", VString "greenmail/standalone:2.1.3");
           ("env", VMap [("GREENMAIL_OPTS", VString "-Dgreenmail.setup.test.all -Dgreenmail.hostname=0.0.0.0 -Dgreenmail.users=imap-test:imap-test@example.com -Dgreenmail.users.login=email")]);
           ("ports", VList [VString "3993:3993"; VString "3025:3025"])])]);
        ("env", VMap [("IMAP_TEST_HOST", VString "localhost"); ("IMAP_TEST_PORT", VString "3993");
           ("IMAP_TEST_SMTP_HOST", VString "localhost"); ("IMAP_TEST_SMTP_PORT", VString "3025");
           ("IMAP_TEST_USER", VString "imap-test@example.com"); ("IMAP_TEST_PASS", VString "imap-test");
           ("IMAP_TEST_MAILBOX", VString "INBOX")]);
        ("steps", VList [VMap [("uses", VString "actions/checkout@v4")]; step "make test-integration"])].

Definition test_job (run : string) : value :=
  VMap [("name", VString "Test"); ("needs", VString "check-changes");
        ("steps", VList [VMap [("uses", VString "actions/checkout@v4")]; step run])].

Definition notification_job : value :=
  VMap [("needs", VString "check-changes");
        ("if", VString "needs.check-changes.outputs.has-code-changes == 'false' && needs.check-changes.outputs.has-integration-changes == 'false'")].

Definition workflow (run : string) : go_map :=
  [("name", VString "CI");
   ("jobs", VMap [("test", test_job run); ("integration-test", integration_job);
                  ("non-code-only-notification", notification_job)])].

Example ci_passes : main (Ok "") (fun _ => Ok (workflow "make test")) =
  (["PASS: integration-test job"; "PASS: test job"; "PASS: non-code-only-notification job"; "PASS: all checks passed"],
   None, 0).
Proof. reflexivity. Qed.

(** The unit tests must not run the integration tests. *)
Example integration_in_test_job : main (Ok "") (fun _ => Ok (workflow "make test-integration")) =
  (["PASS: integration-test job"],
   Some (Join "" ["FAIL: test job step "; dquote; "make test-integration"; dquote; " must not run integration tests"]), 1).
Proof. reflexivity. Qed.
End WorkflowExample.
